(* ===== verification/_CoqProject ===== *)
-Q . S2P
Prelude.v
AsyncIo.v
Text.v
Net.v
Errors.v
Listener.v
Float64.v
Protocol.v
Stats.v
Pacer.v
UdpPlane.v
UdpDown.v
TcpPlane.v
Socks5Udp.v
Os.v
SocksLib.v
Config.v
Handshake.v
Direct.v
Transport.v
Dns.v
BenchServer.v
BenchClient.v
Typing.v
BenchSession.v
BenchListener.v
SessionSteps.v
Results.v
Tls.v
Http1.v
HttpServer.v
Http2.v
Http3.v
ServeHttp.v
Press.v
Builds.v
Cli.v
