(* ===== verification/Prelude.v ===== *)
(** * proxypen: a verification library for the proxy test toolkit

    proxypen tests HTTP/1.1, HTTP/2 and HTTP/3 through a SOCKS5 proxy or
    directly, measures latencies under concurrency ("press"), and has a
    TCP/UDP throughput benchmark with a client and a server.  This library
    models its own logic, file by file, as executable definitions and proves
    what makes each part correct.

    ** Parts and files

    Foundations.  [Prelude]: outcomes of fallible and asynchronous code
    ([Ok], [Err], a panic, a future that is never ready), machine integers,
    bytes, slices with their bounds checks, tactics and hints.  [AsyncIo]:
    byte streams as type classes with laws (AsyncRead, AsyncWrite, read,
    shutdown), big-endian integers, codec lemmas.  [Text]: UTF-8, lossy
    decoding, decimal numbers, searching and splitting.  [Net]: IP and socket
    addresses with the standard library's parser and printer.  [Float64]:
    binary64, its casts, parsing, formatting, and its order.  [Errors]:
    src/error.rs.  [Listener]: tasks as the actions they take and the way they
    end, and the loop that accepts connections.  [Os]: the operating system's sockets as the class [Os] with
    the laws [OsLaws], and a model host on which the witnesses run.

    Benchmark (src/bench/).  [Protocol] is protocol.rs: the handshake, the
    requests, responses and reports on the control connection, and the
    16-byte header of the datagrams.  [Stats] is stats.rs: what the receiver
    of a UDP test records.  [Pacer] is pacer.rs.  [UdpPlane] and [TcpPlane]
    are the data phases of client.rs and server.rs, [UdpDown] the end-to-end
    theorems of downloads; [BenchServer] is
    [handle_session] with its four test handlers, [BenchClient] is
    [run_inner] with plans, output and bandwidth parsing.  [Typing] shows that
    what they put into messages has its machine types, [BenchSession] runs
    the two against each other on one connection; [SessionSteps] is their
    control flow as a transition system, with the calls that have no timeout
    and may never return.  [BenchListener] is the rest of server.rs, the
    accept loops, and the in-process server of --serve.  [Builds] is the data
    plane in the two build profiles.

    Transports.  [SocksLib] is the SOCKS5 message library as an interface with
    an RFC 1928 implementation; [Config] is config.rs, [Handshake] the files
    of src/socks/, [Direct] direct.rs for every platform, [Socks5Udp]
    udp_socket.rs, [Transport] transport.rs, [Dns] dns.rs.

    HTTP.  [Results] is result.rs, [Tls] tls.rs with the TLS library as an
    interface, [Http1], [Http2] and [Http3] the three tests over interfaces of
    the HTTP/2, QUIC and HTTP/3 libraries.  Of http_server.rs, [HttpServer] is
    the configuration and the HTTP/1.1 handlers, [ServeHttp] the certificate,
    the three listeners and the HTTP/2 and HTTP/3 handlers, over interfaces of
    the server's side of the same libraries.  [Press] is press.rs, [Cli] is
    main.rs and lib.rs.

    A Rust function is a definition of the same name; a method is in the
    module of its type, or takes [self].  [await] and [?] are the bind of
    [outcome]; a mutated value is passed in and handed back.  Readings of the
    clock, datagrams and the results of system calls are arguments: scripts
    where a loop consumes them, records ([server_env], [client_env],
    [http_clock]) elsewhere.  A [select!] of a socket and a deadline runs on a
    script of turns: the socket is ready, or the timer looks at the clock and
    compares it with the deadline; either may come first.  A future that never
    becomes ready, or not before the timer of the [timeout] around it, is
    [Hang].  What a function prints or spawns before it ends, well or not, is
    the actions of a [task] ([Listener]): the accept loops, the HTTP server,
    the benchmark client.

    ** What the theorems show

    - Bench sessions: a client and a server on one connection both finish and
      consume each other's messages exactly ([session_agreement]); as a
      transition system a session makes progress, except where an end waits in a call
      without a timeout, and the outcomes of the client are what the server
      reported ([session_progress], [session_outcomes_agree]); two such
      deadlocks, a lost UDP hello and a TCP upload stalled in [write], are
      shown to be reached ([lost_hello_deadlocks],
      [stalled_upload_deadlocks]).  What a request keeps of the options, and
      how the deadlines of the two ends relate: [request_carries_options].
    - Bench servers: a session is served whatever other connections do
      ([bench_server_isolates]); a run with --serve tests its own server to
      the end ([serve_mode]).
    - UDP tests, in both directions ([UdpPlane], [UdpDown]): lossless, lossy,
      duplicating and reordering networks ([udp_upload_lossless],
      [udp_upload_lossy], and the same for downloads), the bandwidth bound
      ([udp_upload_paced]) and termination ([udp_upload_terminates]); TCP tests
      ([tcp_transfer_agrees]).
    - Statistics refine a summary of the whole stream of datagrams
      ([stats_refine_summary]) and the report accounts for each of them.
    - Wire formats: round trips and exact acceptance for the bench protocol
      ([messages_roundtrip]), the SOCKS5 UDP header ([socks_header_codec],
      [socks_udp_transfer]) and DNS; parsers of untrusted bytes never panic
      ([dns_decode_total], [socks_header_codec]).
    - SOCKS5: the transcript of a tunnel, of an association, and that
      credentials are sent only when asked for.  Direct mode: an interface is
      used or the call fails, the empty name apart ([interface_respected]).
    - DNS: how a resolution ends ([resolve_a_outcome]): only its wait for the
      reply is timed.
    - HTTP: each of the three tests against the test server
      ([http1_end_to_end], [http2_end_to_end], [http3_end_to_end]), what the
      test server does as a whole ([run_server_outcome]), trust in HTTPS
      ([success_trusted]), what a success of the HTTP/2 and HTTP/3 tests
      means ([http2_success], [http3_success]).
    - Arithmetic: within stated limits on bytes, datagrams and clocks no
      test of a benchmark overflows, so that the two builds agree
      ([benchmarks_overflow_free]); outside of them a peer's timestamp makes
      one panic ([hostile_timestamp]).
    - Press: start, termination, the bound on concurrency, and independence of
      the interleaving ([press_terminates], [press_outcome]); percentiles.
    - Command line: the target, transport and tests behind the results, and
      the exit code ([run_test_exit]).

    ** Bounds and fuel

    Integers have the width of the source; [profile] says whether overflow
    panics (Dev) or wraps (Release).  Instants of the clock are nanoseconds
    without bound.  [skip_name] has one turn per byte of the
    message, the exchange of [Http1] one per unread byte, the bodies of
    [Http2] and [Http3] one per frame: [dns_decode_total],
    [read_rest_not_hang], [read_body_not_hang] and [recv_body_not_hang] show
    that the fuel is never what ends a loop.  The loops of [ServeHttp] have one
    turn per request or connection ([h2_serve_loop_ends],
    [h3_serve_loop_ends], [endpoint_loop_ends]).  The UDP sender runs on a script of clock readings;
    [udp_upload_terminates] bounds the readings it needs.  Percentile indices
    are compared with their exact value up to a thousand samples, by
    computation.

    ** What is not modelled

    Third-party code appears only as interfaces: rustls, h2, quinn, h3, http,
    rcgen, the SOCKS5 messages of shadowquic, the url crate, clap, tokio's
    runtime.  Log lines are modelled where they are the only trace of an error
    (the errors of [h2_answer], [h3_answer] and [tls_connection]), not trace
    output; the Debug of a socket, and module lists, are left out.

    ** What may come next

    Exact percentiles for every sample count; the
    data connections of many sessions on one set of ports. *)
From Stdlib Require Export ZArith Lia String.
From Stdlib Require Strings.Byte.
From stdpp Require Export base tactics list list_numbers option strings gmap.

#[global] Open Scope Z_scope.

(** ** Outcomes

    One type for every way a piece of the program can end.  [Ok] and [Err]
    are the two variants of [Result]; [Panic] is an unwinding panic (an index
    out of range, an arithmetic overflow in a build with overflow checks, an
    [unwrap] of [None]); [Hang] is a future that is never ready again. *)
Inductive outcome (E A : Type) : Type :=
| Ok (a : A)
| Err (e : E)
| Panic
| Hang.
Arguments Ok {E A} a.
Arguments Err {E A} e.
Arguments Panic {E A}.
Arguments Hang {E A}.

#[export] Instance outcome_ret {E} : MRet (outcome E) := fun _ a => Ok a.

#[export] Instance outcome_bind {E} : MBind (outcome E) := fun _ _ f m =>
  match m with
  | Ok a => f a
  | Err e => Err e
  | Panic => Panic
  | Hang => Hang
  end.

#[export] Instance outcome_fmap {E} : FMap (outcome E) := fun _ _ f m =>
  match m with
  | Ok a => Ok (f a)
  | Err e => Err e
  | Panic => Panic
  | Hang => Hang
  end.

#[export] Instance outcome_eq_dec {E A} `{EqDecision E} `{EqDecision A} :
  EqDecision (outcome E A).
Proof. solve_decision. Defined.

(** [map_err f m]: [Result::map_err]. *)
Definition map_err {E E' A} (f : E -> E') (m : outcome E A) : outcome E' A :=
  match m with
  | Ok a => Ok a
  | Err e => Err (f e)
  | Panic => Panic
  | Hang => Hang
  end.

(** [ok_or e o]: [Option::ok_or]. *)
Definition ok_or {E A} (e : E) (o : option A) : outcome E A :=
  match o with
  | Some a => Ok a
  | None => Err e
  end.

(** [is_ok m], [returns m]: the future is ready with an [Ok], or at all. *)
Definition is_ok {E A} (m : outcome E A) : bool :=
  match m with Ok _ => true | _ => false end.

Definition is_err {E A} (m : outcome E A) : bool :=
  match m with Err _ => true | _ => false end.

Definition returns {E A} (m : outcome E A) : Prop :=
  match m with
  | Ok _ | Err _ => True
  | Panic | Hang => False
  end.

Lemma bind_Ok {E A B} (m : outcome E A) (f : A -> outcome E B) b :
  (m ≫= f) = Ok b <-> exists a, m = Ok a /\ f a = Ok b.
Proof. destruct m; naive_solver. Qed.

Lemma bind_Ok_eq {E A B} (a : A) (f : A -> outcome E B) :
  ((Ok a : outcome E A) ≫= f) = f a.
Proof. done. Qed.

Lemma returns_bind {E A B} (m : outcome E A) (f : A -> outcome E B) :
  returns m -> (forall a, m = Ok a -> returns (f a)) -> returns (m ≫= f).
Proof. destruct m; naive_solver. Qed.

Lemma bind_not_hang {E A B} (m : outcome E A) (f : A -> outcome E B) :
  m <> Hang -> (forall a, m = Ok a -> f a <> Hang) -> (m ≫= f) <> Hang.
Proof. destruct m; naive_solver. Qed.

Lemma bind_assoc {E A B C} (m : outcome E A) (f : A -> outcome E B)
    (g : B -> outcome E C) :
  ((m ≫= f) ≫= g) = (m ≫= fun a => f a ≫= g).
Proof. by destruct m. Qed.

(** Take a bind apart in a hypothesis. *)
Ltac inv_bind H :=
  let a := fresh "a" in
  let Ha := fresh "Ha" in
  apply bind_Ok in H as (a & Ha & H).

(** ** Machine integers

    A [w]-bit unsigned integer is a [Z] in [0 .. 2^w - 1].  Casts truncate
    ([as]), saturating operations clamp, and the plain operators of a build
    with overflow checks panic where a build without them wraps. *)
Definition in_u (w x : Z) : Prop := 0 <= x < 2 ^ w.

#[export] Instance in_u_dec w x : Decision (in_u w x).
Proof. unfold in_u. apply _. Defined.

Abbreviation u8 := (in_u 8).
Abbreviation u16 := (in_u 16).
Abbreviation u32 := (in_u 32).
Abbreviation u64 := (in_u 64).
Abbreviation u128 := (in_u 128).

Definition u16_MAX : Z := 2 ^ 16 - 1.
Definition u64_MAX : Z := 2 ^ 64 - 1.
Definition u128_MAX : Z := 2 ^ 128 - 1.

(** [x as u{w}] and [x as i{w}] of an integer. *)
Definition cast_u (w x : Z) : Z := x mod 2 ^ w.

Definition cast_i (w x : Z) : Z := (x + 2 ^ (w - 1)) mod 2 ^ w - 2 ^ (w - 1).

Definition saturating_sub (x y : Z) : Z := Z.max 0 (x - y).

Definition saturating_add (w x y : Z) : Z := Z.min (2 ^ w - 1) (x + y).

(** [try_into().unwrap_or(MAX)] to [w] bits. *)
Definition clamp_u (w x : Z) : Z := if decide (in_u w x) then x else 2 ^ w - 1.

(** The Cargo profile decides what [+], [-] and [*] do on overflow. *)
Inductive profile : Type := Dev | Release.

Definition arith_u {E} (p : profile) (w r : Z) : outcome E Z :=
  if decide (in_u w r) then Ok r
  else match p with Dev => Panic | Release => Ok (cast_u w r) end.

Definition arith_i {E} (p : profile) (w r : Z) : outcome E Z :=
  if decide (- 2 ^ (w - 1) <= r < 2 ^ (w - 1)) then Ok r
  else match p with Dev => Panic | Release => Ok (cast_i w r) end.

Lemma cast_u_range w x : 0 <= w -> in_u w (cast_u w x).
Proof. intros Hw. apply Z.mod_pos_bound. lia. Qed.

Lemma cast_u_id w x : in_u w x -> cast_u w x = x.
Proof. apply Z.mod_small. Qed.

Lemma clamp_u_id w x : in_u w x -> clamp_u w x = x.
Proof. intros H. unfold clamp_u. by rewrite decide_True. Qed.

Lemma clamp_u_range w x : 0 <= w -> in_u w (clamp_u w x).
Proof.
  intros Hw. unfold clamp_u. case_decide; [done|]. unfold in_u in *.
  pose proof (Z.pow_pos_nonneg 2 w). lia.
Qed.

Lemma clamp_u_min w x : 0 <= x -> clamp_u w x = Z.min x (2 ^ w - 1).
Proof. intros Hx. unfold clamp_u, in_u. case_decide; lia. Qed.

Lemma arith_u_Ok {E} p w r : in_u w r -> arith_u (E:=E) p w r = Ok r.
Proof. intros H. unfold arith_u. by rewrite decide_True. Qed.

Lemma arith_u_Release {E} w r : arith_u (E:=E) Release w r = Ok (cast_u w r).
Proof.
  unfold arith_u. case_decide; [|done]. by rewrite cast_u_id.
Qed.

Lemma arith_u_Dev_inv {E} w r x : arith_u (E:=E) Dev w r = Ok x -> x = r /\ in_u w r.
Proof. unfold arith_u. case_decide; naive_solver. Qed.

Lemma arith_u_range {E} p w r x : 0 <= w -> arith_u (E:=E) p w r = Ok x -> in_u w x.
Proof.
  intros Hw. unfold arith_u. case_decide; destruct p; intros; simplify_eq; auto.
  by apply cast_u_range.
Qed.

(** Both profiles compute the result up to the wrap. *)
Lemma arith_u_cong {E} p w r x :
  0 <= w -> arith_u (E:=E) p w r = Ok x -> x mod 2 ^ w = r mod 2 ^ w.
Proof.
  intros Hw. unfold arith_u, cast_u. case_decide; destruct p; intros; simplify_eq; auto.
  apply Z.mod_mod. pose proof (Z.pow_pos_nonneg 2 w). lia.
Qed.

Lemma arith_u_not_hang {E} p w r : arith_u (E:=E) p w r <> Hang.
Proof. unfold arith_u. case_decide; [done|]. by destruct p. Qed.

Lemma cast_i_id w x : 0 < w -> - 2 ^ (w - 1) <= x < 2 ^ (w - 1) -> cast_i w x = x.
Proof.
  intros Hw Hx. unfold cast_i.
  assert (2 ^ w = 2 * 2 ^ (w - 1)) as ->.
  { rewrite <- Z.pow_succ_r by lia. f_equal. lia. }
  rewrite Z.mod_small; lia.
Qed.

Lemma cast_i_range w x : 0 < w -> - 2 ^ (w - 1) <= cast_i w x < 2 ^ (w - 1).
Proof.
  intros Hw. unfold cast_i.
  assert (2 ^ w = 2 * 2 ^ (w - 1)) as ->.
  { rewrite <- Z.pow_succ_r by lia. f_equal. lia. }
  pose proof (Z.pow_pos_nonneg 2 (w - 1)).
  pose proof (Z.mod_pos_bound (x + 2 ^ (w - 1)) (2 * 2 ^ (w - 1))). lia.
Qed.

Lemma saturating_add_range w x y :
  0 <= x -> 0 <= y -> 0 <= w -> in_u w (saturating_add w x y).
Proof.
  intros. unfold saturating_add, in_u. pose proof (Z.pow_pos_nonneg 2 w). lia.
Qed.

(** ** Bytes *)
Abbreviation byte := Init.Byte.byte.

#[export] Instance byte_eq_dec : EqDecision byte := Strings.Byte.byte_eq_dec.

#[export] Instance byte_inhabited : Inhabited byte := populate Byte.x00.

Definition b2z (b : byte) : Z := Z.of_N (Strings.Byte.to_N b).

(** [x as u8]. *)
Definition z2b (x : Z) : byte :=
  default Byte.x00 (Strings.Byte.of_N (Z.to_N (x mod 256))).

Lemma b2z_range b : 0 <= b2z b < 256.
Proof. unfold b2z. pose proof (Strings.Byte.to_N_bounded b). lia. Qed.

Lemma b2z_z2b x : b2z (z2b x) = x mod 256.
Proof.
  unfold z2b, b2z. pose proof (Z.mod_pos_bound x 256 eq_refl).
  destruct (Strings.Byte.of_N (Z.to_N (x mod 256))) as [b|] eqn:E; cbn.
  - apply Strings.Byte.to_of_N in E. rewrite E. lia.
  - apply Strings.Byte.of_N_None_iff in E. lia.
Qed.

Lemma b2z_inj b c : b2z b = b2z c -> b = c.
Proof.
  unfold b2z. intros H%N2Z.inj.
  pose proof (Strings.Byte.of_to_N b). pose proof (Strings.Byte.of_to_N c). congruence.
Qed.

Lemma z2b_b2z b : z2b (b2z b) = b.
Proof.
  apply b2z_inj. rewrite b2z_z2b. apply Z.mod_small, b2z_range.
Qed.

Lemma b2z_u8 b : u8 (b2z b).
Proof. apply b2z_range. Qed.

Lemma z2b_b2z_u8 x : u8 x -> b2z (z2b x) = x.
Proof. intros H. rewrite b2z_z2b. by apply Z.mod_small. Qed.

#[export] Instance b2z_injective : Inj (=) (=) b2z.
Proof. exact b2z_inj. Qed.

(** ** Text

    A [&str] or [String] is its UTF-8 bytes. *)
Abbreviation str := (list byte).

Definition lit (s : string) : str := list_byte_of_string s.
Arguments lit : simpl never.

(** ** Big-endian integers *)
Fixpoint be_bytes (n : nat) (x : Z) : list byte :=
  match n with
  | O => []
  | S m => z2b (Z.shiftr x (8 * Z.of_nat m)) :: be_bytes m x
  end.

Fixpoint be_acc (acc : Z) (bs : list byte) : Z :=
  match bs with
  | [] => acc
  | b :: bs => be_acc (acc * 256 + b2z b) bs
  end.

Definition be_val (bs : list byte) : Z := be_acc 0 bs.

Lemma be_bytes_length n x : length (be_bytes n x) = n.
Proof. induction n; cbn; lia. Qed.

Lemma be_acc_eq acc bs : be_acc acc bs = acc * 256 ^ Z.of_nat (length bs) + be_val bs.
Proof.
  unfold be_val. revert acc.
  induction bs as [|b bs IH]; intros acc; [cbn; lia|].
  cbn [be_acc length]. rewrite IH, (IH (0 * 256 + b2z b)).
  rewrite Nat2Z.inj_succ, Z.pow_succ_r by lia. ring.
Qed.

Lemma be_val_cons b bs : be_val (b :: bs) = b2z b * 256 ^ Z.of_nat (length bs) + be_val bs.
Proof. unfold be_val at 1. cbn [be_acc]. by rewrite be_acc_eq. Qed.

Lemma be_val_range bs : in_u (8 * Z.of_nat (length bs)) (be_val bs).
Proof.
  unfold in_u. induction bs as [|b bs IH]; [cbn; lia|].
  rewrite be_val_cons. cbn [length]. pose proof (b2z_range b).
  rewrite !Z.pow_mul_r in * by lia. change (2 ^ 8) with 256 in *.
  rewrite Nat2Z.inj_succ, Z.pow_succ_r by lia. nia.
Qed.

Lemma be_val_be_bytes n x : be_val (be_bytes n x) = cast_u (8 * Z.of_nat n) x.
Proof.
  unfold cast_u. induction n as [|n IH]; [cbn; by rewrite Z.mod_1_r|].
  cbn [be_bytes]. rewrite be_val_cons, be_bytes_length, IH, b2z_z2b, Z.shiftr_div_pow2 by lia.
  rewrite (Nat2Z.inj_succ n), Z.mul_succ_r, Z.pow_add_r by lia.
  rewrite !Z.pow_mul_r by lia. change (2 ^ 8) with 256.
  rewrite (Z.rem_mul_r x (256 ^ Z.of_nat n) 256) by lia. ring.
Qed.

Lemma be_bytes_be_val bs : be_bytes (length bs) (be_val bs) = bs.
Proof.
  induction bs as [|b bs IH]; [done|]. cbn [length be_bytes].
  pose proof (be_val_range bs) as Hr. unfold in_u in Hr.
  rewrite Z.pow_mul_r in Hr by lia. change (2 ^ 8) with 256 in Hr.
  f_equal.
  - rewrite Z.shiftr_div_pow2, Z.pow_mul_r by lia. change (2 ^ 8) with 256.
    rewrite be_val_cons, Z.div_add_l, Z.div_small, Z.add_0_r by lia. apply z2b_b2z.
  - transitivity (be_bytes (length bs) (be_val bs)); [|exact IH].
    rewrite be_val_cons. clear IH. revert Hr. generalize (be_val bs) as y. intros y Hy.
    assert (forall m, (m <= length bs)%nat ->
      be_bytes m (b2z b * 256 ^ Z.of_nat (length bs) + y) = be_bytes m y) as H; [|by apply H].
    induction m as [|m IHm]; intros Hm; [done|]. cbn [be_bytes].
    rewrite IHm by lia. f_equal. apply b2z_inj. rewrite !b2z_z2b.
    rewrite !Z.shiftr_div_pow2, !Z.pow_mul_r by lia. change (2 ^ 8) with 256.
    replace (Z.of_nat (length bs))
      with (Z.of_nat (length bs - m - 1) + 1 + Z.of_nat m) by lia.
    rewrite !Z.pow_add_r by lia. change (256 ^ 1) with 256.
    rewrite !Z.mul_assoc, Z.div_add_l by lia.
    rewrite (Z.add_comm _ (y / _)), Z.mod_add by lia. done.
Qed.

Lemma be_val_2 a b : be_val [a; b] = b2z a * 256 + b2z b.
Proof. unfold be_val. cbn. lia. Qed.

(** The proofs use the lemmas above, never the digits. *)
#[global] Opaque be_bytes be_val.

Lemma be_val_be_bytes_id n x : in_u (8 * Z.of_nat n) x -> be_val (be_bytes n x) = x.
Proof. intros H. rewrite be_val_be_bytes. by apply cast_u_id. Qed.

(** ** Slices and indexing, which panic out of range *)
Definition index {E A} (l : list A) (i : nat) : outcome E A :=
  match l !! i with Some x => Ok x | None => Panic end.

(** [&l[i..j]]. *)
Definition slice {E A} (l : list A) (i j : nat) : outcome E (list A) :=
  if decide (i <= j <= length l)%nat then Ok (take (j - i) (drop i l)) else Panic.

(** [&l[i..]]. *)
Definition slice_from {E A} (l : list A) (i : nat) : outcome E (list A) :=
  slice l i (length l).

(** [dst[i..j].copy_from_slice(src)]: the lengths must agree. *)
Definition copy_range {E A} (dst : list A) (i j : nat) (src : list A) : outcome E (list A) :=
  if decide (i <= j <= length dst /\ length src = j - i)%nat
  then Ok (take i dst ++ src ++ drop j dst) else Panic.

Lemma index_Ok {E A} (l : list A) i x : l !! i = Some x -> index (E:=E) l i = Ok x.
Proof. intros H. unfold index. by rewrite H. Qed.

Lemma index_lt {E A} (l : list A) i : (i < length l)%nat -> exists x, l !! i = Some x /\ index (E:=E) l i = Ok x.
Proof.
  intros [x Hx]%lookup_lt_is_Some. exists x. split; [done|]. by apply index_Ok.
Qed.

Lemma slice_Ok {E A} (l : list A) i j :
  (i <= j <= length l)%nat -> slice (E:=E) l i j = Ok (take (j - i) (drop i l)).
Proof. intros H. unfold slice. by rewrite decide_True. Qed.

Lemma slice_from_Ok {E A} (l : list A) i :
  (i <= length l)%nat -> slice_from (E:=E) l i = Ok (drop i l).
Proof.
  intros H. unfold slice_from. rewrite slice_Ok by lia.
  rewrite take_ge; [done|]. rewrite length_drop. lia.
Qed.

Lemma slice_app_mid {E A} (a b c : list A) :
  slice (E:=E) (a ++ b ++ c) (length a) (length a + length b) = Ok b.
Proof.
  rewrite slice_Ok by (rewrite !length_app; lia).
  rewrite drop_app_length. f_equal. rewrite Nat.add_sub_swap, Nat.sub_diag by lia.
  apply take_app_length.
Qed.

Lemma copy_range_Ok {E A} (dst src : list A) i j :
  (i <= j <= length dst)%nat -> length src = (j - i)%nat ->
  copy_range (E:=E) dst i j src = Ok (take i dst ++ src ++ drop j dst).
Proof. intros. unfold copy_range. by rewrite decide_True. Qed.

Lemma index_app_l {E A} (a b : list A) i :
  (i < length a)%nat -> index (E:=E) (a ++ b) i = index a i.
Proof. intros H. unfold index. by rewrite lookup_app_l. Qed.

Lemma index_mid {E A} (a b : list A) x i :
  i = length a -> index (E:=E) (a ++ x :: b) i = Ok x.
Proof. intros ->. apply index_Ok. by apply list_lookup_middle. Qed.

Lemma slice_mid {E A} (a b c : list A) i j :
  i = length a -> j = (i + length b)%nat -> slice (E:=E) (a ++ b ++ c) i j = Ok b.
Proof. intros -> ->. apply slice_app_mid. Qed.

Lemma index_returns {E A} (l : list A) i : (i < length l)%nat -> returns (index (E:=E) l i).
Proof. intros H. destruct (index_lt (E:=E) l i H) as (x & _ & ->). done. Qed.

Lemma slice_returns {E A} (l : list A) i j :
  (i <= j <= length l)%nat -> returns (slice (E:=E) l i j).
Proof. intros H. by rewrite slice_Ok. Qed.

Lemma index_inv {E A} (l : list A) i x : index (E:=E) l i = Ok x -> l !! i = Some x.
Proof. unfold index. destruct (l !! i); congruence. Qed.

(** The bytes after [i] elements, from a slice of them. *)
Lemma slice_inv {E A} (l : list A) i j s :
  slice (E:=E) l i j = Ok s ->
  length s = (j - i)%nat /\ (i <= j <= length l)%nat /\ l = take i l ++ s ++ drop j l.
Proof.
  unfold slice. case_decide; [|done]. intros [= <-]. split; [|split; [done|]].
  - rewrite length_take, length_drop. lia.
  - rewrite <- (take_drop i l) at 1. f_equal. rewrite <- (take_drop (j - i) (drop i l)) at 1.
    rewrite drop_drop. do 2 f_equal. lia.
Qed.

(** ** Lists *)
Lemma take_app_drop_mid {A} (a b c : list A) :
  take (length b) (drop (length a) (a ++ b ++ c)) = b.
Proof. by rewrite drop_app_length, take_app_length. Qed.

Fixpoint split_on {A} `{EqDecision A} (sep : A) (l : list A) : list (list A) :=
  match l with
  | [] => [[]]
  | x :: l =>
      if decide (x = sep) then [] :: split_on sep l
      else match split_on sep l with
           | [] => [[x]]
           | p :: ps => (x :: p) :: ps
           end
  end.

Fixpoint join_with {A} (sep : A) (ls : list (list A)) : list A :=
  match ls with
  | [] => []
  | [l] => l
  | l :: ls => l ++ sep :: join_with sep ls
  end.

Lemma split_on_not_nil {A} `{EqDecision A} (sep : A) l : split_on sep l <> [].
Proof. destruct l as [|x l]; cbn; [done|]. case_decide; [done|]. by destruct (split_on sep l). Qed.

Lemma split_on_none {A} `{EqDecision A} (sep : A) l : sep ∉ l -> split_on sep l = [l].
Proof.
  induction l as [|x l IH]; [done|]. intros [Hx Hl]%not_elem_of_cons. cbn.
  rewrite decide_False by done. by rewrite IH.
Qed.

Lemma split_on_app_sep {A} `{EqDecision A} (sep : A) a b :
  sep ∉ a -> split_on sep (a ++ sep :: b) = a :: split_on sep b.
Proof.
  induction a as [|x a IH]; cbn; [by rewrite decide_True|].
  intros [Hx Ha]%not_elem_of_cons. rewrite decide_False by done. by rewrite IH.
Qed.

Lemma split_on_join {A} `{EqDecision A} (sep : A) (ls : list (list A)) :
  ls <> [] -> Forall (fun l => sep ∉ l) ls -> split_on sep (join_with sep ls) = ls.
Proof.
  induction ls as [|l [|l' ls] IH]; [done| |]; intros _ Hall.
  - apply Forall_cons in Hall as [Hl _]. by apply split_on_none.
  - apply Forall_cons in Hall as [Hl Hall].
    change (join_with sep (l :: l' :: ls)) with (l ++ sep :: join_with sep (l' :: ls)).
    rewrite split_on_app_sep by done. f_equal. by apply IH.
Qed.

(** ** Automation *)
Ltac case_bool :=
  match goal with
  | |- context [if ?b then _ else _] => destruct b eqn:?
  | H : context [if ?b then _ else _] |- _ => destruct b eqn:?
  end.

(** Go through the decisions of a goal, dropping the branches that the
    context or the lengths rule out. *)
Ltac absurd_branch :=
  exfalso; first [done | congruence | (cbn [length] in *; rewrite ?length_app in *; lia)].

Ltac settle :=
  repeat (cbn [mbind outcome_bind]; case_decide; [try absurd_branch | try absurd_branch]).

(** Closed bounds, by evaluation. *)
Ltac solve_closed := repeat split; vm_compute; congruence.

(** Decidable propositions on closed terms. *)
Ltac solve_decided := apply (bool_decide_unpack _); vm_compute; exact I.

Create HintDb proxypen.
Create Rewrite HintDb proxypen.
#[export] Hint Resolve b2z_u8 cast_u_range clamp_u_range be_bytes_length : proxypen.
#[export] Hint Rewrite @be_bytes_length @length_app @length_take @length_drop
  @length_replicate : proxypen.

Ltac simp_len := autorewrite with proxypen in *; cbn [length] in *.
