(* ===== verification/AsyncIo.v ===== *)
(** * Byte streams

    The interface the wire-format code is written against: [AsyncRead] and
    [AsyncWrite] with the documented behaviour of [read_exact] and
    [write_all], the big-endian integer helpers built on them, and two
    implementations: an in-memory buffer and a socket end whose peer may
    still be silent.  Codec lemmas ([decodes], [encodes]) compose along the
    binds of a reader or writer. *)
From S2P Require Import Prelude.

(** [std::io::Error] as the program sees it: a kind and a message.
    [OtherKind] stands for the kinds the operating system reports. *)
Inductive error_kind : Type :=
| UnexpectedEof
| InvalidData
| WriteZero
| OtherKind (code : Z).

Record io_error : Type := mk_io_error { io_kind : error_kind; io_msg : str }.

#[export] Instance error_kind_eq_dec : EqDecision error_kind.
Proof. solve_decision. Defined.

#[export] Instance io_error_eq_dec : EqDecision io_error.
Proof. solve_decision. Defined.

Abbreviation io := (outcome io_error).

Definition early_eof : io_error := mk_io_error UnexpectedEof (lit "early eof").

(** ** Interfaces *)
Class AsyncRead (R : Type) : Type := {
  unread : R -> list byte;
  read_exact : nat -> R -> io (list byte * R);
}.

Class AsyncReadLaws (R : Type) `{AsyncRead R} : Prop := {
  read_exact_enough n (r : R) :
    (n <= length (unread r))%nat ->
    exists r', read_exact n r = Ok (take n (unread r), r') /\
               unread r' = drop n (unread r);
  read_exact_short n (r : R) v :
    (length (unread r) < n)%nat -> read_exact n r <> Ok v;
}.

Class AsyncWrite (W : Type) : Type := {
  written : W -> list byte;
  write_all : list byte -> W -> io W;
}.

Class AsyncWriteLaws (W : Type) `{AsyncWrite W} : Prop := {
  write_all_written bs (w w' : W) :
    write_all bs w = Ok w' -> written w' = written w ++ bs;
}.

(** The two directions of a stream do not disturb each other. *)
Class DuplexLaws (S : Type) `{AsyncRead S} `{AsyncWrite S} : Prop := {
  write_all_unread bs (s s' : S) : write_all bs s = Ok s' -> unread s' = unread s;
  read_exact_written n (s : S) bs s' : read_exact n s = Ok (bs, s') -> written s' = written s;
}.

(** [read] into a buffer of [n] bytes: some of the unread bytes, and none
    only at the end of the stream. *)
Class AsyncReadSome (R : Type) : Type := {
  read : nat -> R -> io (list byte * R);
}.

Class AsyncReadSomeLaws (R : Type) `{AsyncRead R} `{AsyncReadSome R} : Prop := {
  read_prefix n (r : R) bs r' :
    read n r = Ok (bs, r') -> unread r = bs ++ unread r' /\ (length bs <= n)%nat;
  read_end n (r r' : R) : (0 < n)%nat -> read n r = Ok ([], r') -> unread r = [];
}.

Class ReadSomeDuplexLaws (S : Type) `{AsyncReadSome S} `{AsyncWrite S} : Prop := {
  read_written n (s : S) bs s' : read n s = Ok (bs, s') -> written s' = written s;
}.

(** [shutdown] of the sending direction. *)
Class AsyncShutdown (W : Type) : Type := { shutdown : W -> io W }.

Class AsyncShutdownLaws (W : Type) `{AsyncWrite W} `{AsyncShutdown W} : Prop := {
  shutdown_written (w w' : W) : shutdown w = Ok w' -> written w' = written w;
}.

(** [read_u8], [read_u16], [read_u32], [read_u64] and their writers, for a
    width of [n] bytes. *)
Definition read_uint `{AsyncRead R} (n : nat) (r : R) : io (Z * R) :=
  '(bs, r) ← read_exact n r; Ok (be_val bs, r).

Definition write_uint `{AsyncWrite W} (n : nat) (x : Z) (w : W) : io W :=
  write_all (be_bytes n x) w.

Abbreviation read_u8 := (read_uint 1).
Abbreviation read_u16 := (read_uint 2).
Abbreviation read_u32 := (read_uint 4).
Abbreviation read_u64 := (read_uint 8).
Abbreviation write_u8 := (write_uint 1).
Abbreviation write_u16 := (write_uint 2).
Abbreviation write_u32 := (write_uint 4).
Abbreviation write_u64 := (write_uint 8).

(** ** Implementations *)

(** A byte slice as a source ends at its last byte. *)
#[export] Instance buf_read : AsyncRead (list byte) := {
  unread r := r;
  read_exact n r :=
    if decide (n <= length r)%nat then Ok (take n r, drop n r) else Err early_eof;
}.

#[export] Instance buf_read_laws : AsyncReadLaws (list byte).
Proof.
  split; cbn; intros n r.
  - intros Hn. rewrite decide_True by done. eauto.
  - intros v Hn. rewrite decide_False by lia. done.
Qed.

#[export] Instance buf_write : AsyncWrite (list byte) := {
  written w := w;
  write_all bs w := Ok (w ++ bs);
}.

#[export] Instance buf_write_laws : AsyncWriteLaws (list byte).
Proof. split; cbn. naive_solver. Qed.

(** One end of a TCP connection: the bytes the peer has sent and this end
    has not read, whether the peer has closed its side, and the bytes this
    end has sent.  Reading past what has arrived waits while the peer is
    open. *)
Record conn : Type := mk_conn {
  inbound : list byte;
  peer_closed : bool;
  outbound : list byte;
  broken : option io_error;
}.

#[export] Instance conn_read : AsyncRead conn := {
  unread := inbound;
  read_exact n c :=
    if decide (n <= length (inbound c))%nat
    then Ok (take n (inbound c),
             mk_conn (drop n (inbound c)) (peer_closed c) (outbound c) (broken c))
    else if peer_closed c then Err early_eof else Hang;
}.

#[export] Instance conn_read_laws : AsyncReadLaws conn.
Proof.
  split; cbn; intros n r.
  - intros Hn. rewrite decide_True by done. eauto.
  - intros v Hn. rewrite decide_False by lia. by destruct (peer_closed r).
Qed.

#[export] Instance conn_read_some : AsyncReadSome conn := {
  read n c :=
    match inbound c with
    | [] => if peer_closed c then Ok ([], c) else Hang
    | _ => Ok (take n (inbound c),
               mk_conn (drop n (inbound c)) (peer_closed c) (outbound c) (broken c))
    end;
}.

#[export] Instance conn_read_some_laws : AsyncReadSomeLaws conn.
Proof.
  split; intros n c; cbn; destruct (inbound c) as [|b l] eqn:Ec.
  - intros bs r'. destruct (peer_closed c); intros [= <- <-]. cbn. rewrite Ec. split; [done|lia].
  - intros bs r' [= <- <-]. cbn [inbound]. rewrite take_drop, length_take. split; [done|lia].
  - done.
  - destruct n; [lia|]. done.
Qed.

#[export] Instance conn_write : AsyncWrite conn := {
  written := outbound;
  write_all bs c :=
    match broken c with
    | Some e => Err e
    | None => Ok (mk_conn (inbound c) (peer_closed c) (outbound c ++ bs) None)
    end;
}.

#[export] Instance conn_write_laws : AsyncWriteLaws conn.
Proof. split; cbn. intros bs w w'. destruct (broken w); naive_solver. Qed.

#[export] Instance conn_duplex_laws : DuplexLaws conn.
Proof.
  split; cbn.
  - intros bs w w'. destruct (broken w); naive_solver.
  - intros n w bs w'. case_decide; [naive_solver|]. by destruct (peer_closed w).
Qed.

#[export] Instance conn_read_some_duplex_laws : ReadSomeDuplexLaws conn.
Proof.
  split. intros n c bs c'. cbn. destruct (inbound c); [|by intros [= _ <-] ].
  destruct (peer_closed c); [|done]. by intros [= _ <-].
Qed.

#[export] Instance conn_shutdown : AsyncShutdown conn := {
  shutdown c := match broken c with Some e => Err e | None => Ok c end;
}.

#[export] Instance conn_shutdown_laws : AsyncShutdownLaws conn.
Proof. split. intros c c'. cbn. destruct (broken c); [done|]. by intros [= <-]. Qed.

(** ** Codec lemmas *)
Section codec.
Context `{AsyncReadLaws R} `{AsyncWriteLaws W}.

(** Reading with [d] a source that starts with [bs] yields [a] and leaves
    the rest. *)
Definition decodes {A} (d : R -> io (A * R)) (bs : list byte) (a : A) : Prop :=
  forall r rest, unread r = bs ++ rest ->
    exists r', d r = Ok (a, r') /\ unread r' = rest.

(** Whatever [d] accepts is its encoding under [enc]. *)
Definition accepts {A} (d : R -> io (A * R)) (enc : A -> list byte) : Prop :=
  forall r a r', d r = Ok (a, r') -> unread r = enc a ++ unread r'.

Definition encodes (e : W -> io W) (bs : list byte) : Prop :=
  forall w w', e w = Ok w' -> written w' = written w ++ bs.

Lemma read_exact_inv n (r : R) bs r' :
  read_exact n r = Ok (bs, r') -> unread r = bs ++ unread r' /\ length bs = n.
Proof.
  intros Hr. destruct (decide (n <= length (unread r))%nat) as [Hn|Hn].
  - destruct (read_exact_enough n r Hn) as (r'' & Hr'' & Hd).
    rewrite Hr in Hr''. simplify_eq. rewrite Hd, take_drop. split; [done|].
    rewrite length_take. lia.
  - exfalso. eapply read_exact_short; [|exact Hr]. lia.
Qed.

Lemma decodes_read_exact n bs : length bs = n -> decodes (read_exact n) bs bs.
Proof.
  intros Hl r rest Hr. destruct (read_exact_enough n r) as (r' & Hr' & Hd).
  { rewrite Hr, length_app. lia. }
  exists r'. rewrite Hr in Hr', Hd. rewrite take_app_length' in Hr' by done.
  by rewrite drop_app_length' in Hd by done.
Qed.

Lemma decodes_ret {A} (a : A) : decodes (fun r => Ok (a, r)) [] a.
Proof. intros r rest Hr. by exists r. Qed.

Lemma decodes_bind {A B} (d : R -> io (A * R)) (f : A -> R -> io (B * R)) bs bs' a b :
  decodes d bs a -> decodes (f a) bs' b ->
  decodes (fun r => '(a, r) ← d r; f a r) (bs ++ bs') b.
Proof.
  intros Hd Hf r rest Hr. rewrite <- app_assoc in Hr.
  destruct (Hd r _ Hr) as (r1 & Hr1 & Hu1).
  destruct (Hf r1 _ Hu1) as (r2 & Hr2 & Hu2).
  exists r2. by rewrite Hr1.
Qed.

(** The last bind of a reader, which only builds the value. *)
Lemma decodes_map {A B} (d : R -> io (A * R)) (g : A -> B) bs a :
  decodes d bs a -> decodes (fun r => '(a, r) ← d r; Ok (g a, r)) bs (g a).
Proof.
  intros Hd. rewrite <- (app_nil_r bs). eapply decodes_bind; [done|]. apply decodes_ret.
Qed.

Lemma decodes_uint n x :
  in_u (8 * Z.of_nat n) x -> decodes (read_uint n) (be_bytes n x) x.
Proof.
  intros Hx. unfold read_uint. rewrite <- (app_nil_r (be_bytes n x)).
  eapply decodes_bind; [apply decodes_read_exact, be_bytes_length|].
  rewrite be_val_be_bytes_id by done. apply decodes_ret.
Qed.

Lemma read_uint_inv n (r : R) x r' :
  read_uint n r = Ok (x, r') ->
  unread r = be_bytes n x ++ unread r' /\ in_u (8 * Z.of_nat n) x.
Proof.
  unfold read_uint. intros Hr. inv_bind Hr. destruct a as [bs r1].
  simplify_eq/=. apply read_exact_inv in Ha as [Hu Hl]. subst n.
  by rewrite be_bytes_be_val, Hu; auto using be_val_range.
Qed.

(** A source that ends inside the encoding is never accepted. *)
Lemma accepts_short {A} (d : R -> io (A * R)) enc r :
  accepts d enc -> (forall a, (length (unread r) < length (enc a))%nat) ->
  is_ok (d r) = false.
Proof.
  intros Hacc Hs. destruct (d r) as [[a r']| | |] eqn:E; try done.
  apply Hacc in E. specialize (Hs a). rewrite E, length_app in Hs. lia.
Qed.

Lemma encodes_write_all bs : encodes (write_all bs) bs.
Proof. intros w w' Hw. by eapply write_all_written. Qed.

Lemma encodes_uint n x : encodes (write_uint n x) (be_bytes n x).
Proof. apply encodes_write_all. Qed.

Lemma encodes_ret : encodes (fun w => Ok w) [].
Proof. intros w w' Hw. simplify_eq. by rewrite app_nil_r. Qed.

Lemma encodes_bind (e f : W -> io W) bs bs' :
  encodes e bs -> encodes f bs' -> encodes (fun w => w ← e w; f w) (bs ++ bs').
Proof.
  intros He Hf w w' Hw. inv_bind Hw. apply He in Ha. apply Hf in Hw.
  by rewrite Hw, Ha, app_assoc.
Qed.
End codec.

(** Walk down the binds of a writer or a reader of integers. *)
Ltac solve_encodes := repeat first [apply encodes_uint | eapply encodes_bind].

Ltac solve_decodes :=
  repeat first
    [ eapply decodes_map; apply decodes_uint; done
    | eapply decodes_bind; [apply decodes_uint; done|] ].
