(* ===== verification/Text.v ===== *)
(** * Text

    What the program uses of Rust's strings: UTF-8 validity and the lossy
    decoding of [String::from_utf8_lossy], the characters of a string and
    [trim], decimal printing and parsing, and the searches and splits
    [find], [lines], [splitn], [rsplit_once].  A string is its bytes. *)
From S2P Require Import Prelude.

(** ** UTF-8 *)
Definition in_range (lo hi : Z) (b : byte) : bool := (lo <=? b2z b) && (b2z b <=? hi).

Definition continuation (b : byte) : bool := in_range 128 191 b.

(** The byte [i] of [bs], 0 past the end ([safe_get]). *)
Definition safe_get (bs : list byte) (i : nat) : byte := default Byte.x00 (bs !! i).

(** The second byte a three- or four-byte sequence may have. *)
Definition second_of_three (b c : byte) : bool :=
  (in_range 224 224 b && in_range 160 191 c) || (in_range 225 236 b && in_range 128 191 c)
  || (in_range 237 237 b && in_range 128 159 c) || (in_range 238 239 b && in_range 128 191 c).

Definition second_of_four (b c : byte) : bool :=
  (in_range 240 240 b && in_range 144 191 c) || (in_range 241 243 b && in_range 128 191 c)
  || (in_range 244 244 b && in_range 128 143 c).

(** The sequence at the start of a nonempty [bs]: whether it is one
    well-formed character, and how many bytes it has; a malformed one is its
    longest prefix of a well-formed character, or one byte. *)
Definition utf8_step (bs : list byte) : bool * nat :=
  let b := safe_get bs 0 in
  if b2z b <? 128 then (true, 1%nat)
  else if in_range 194 223 b then
    if continuation (safe_get bs 1) then (true, 2%nat) else (false, 1%nat)
  else if in_range 224 239 b then
    if second_of_three b (safe_get bs 1) then
      if continuation (safe_get bs 2) then (true, 3%nat) else (false, 2%nat)
    else (false, 1%nat)
  else if in_range 240 244 b then
    if second_of_four b (safe_get bs 1) then
      if continuation (safe_get bs 2) then
        if continuation (safe_get bs 3) then (true, 4%nat) else (false, 3%nat)
      else (false, 2%nat)
    else (false, 1%nat)
  else (false, 1%nat).

(** The pieces of a byte string, each with its validity. *)
Fixpoint utf8_chunks_fuel (fuel : nat) (bs : list byte) : list (bool * list byte) :=
  match fuel, bs with
  | O, _ | _, [] => []
  | S fuel, _ =>
      let '(v, n) := utf8_step bs in (v, take n bs) :: utf8_chunks_fuel fuel (drop n bs)
  end.

Definition utf8_chunks (bs : list byte) : list (bool * list byte) :=
  utf8_chunks_fuel (length bs) bs.

(** U+FFFD. *)
Definition replacement : list byte := [Byte.xef; Byte.xbf; Byte.xbd].

Definition chunk_lossy (c : bool * list byte) : list byte :=
  if c.1 then c.2 else replacement.

(** [String::from_utf8_lossy]. *)
Definition from_utf8_lossy (bs : list byte) : str := concat (chunk_lossy <$> utf8_chunks bs).

(** [str::from_utf8(bs).is_ok()]. *)
Definition utf8_valid (bs : list byte) : bool := forallb fst (utf8_chunks bs).

(** The characters of a valid string. *)
Definition chars (s : str) : list (list byte) := snd <$> utf8_chunks s.

Lemma continuation_nonzero (bs : list byte) i :
  continuation (safe_get bs i) = true -> (i < length bs)%nat.
Proof.
  unfold safe_get. intros Hc. apply lookup_lt_is_Some.
  destruct (bs !! i); [eauto|]. done.
Qed.

Lemma second_nonzero (bs : list byte) b i :
  second_of_three b (safe_get bs i) || second_of_four b (safe_get bs i) = true ->
  (i < length bs)%nat.
Proof.
  unfold safe_get. intros Hc. apply lookup_lt_is_Some.
  destruct (bs !! i); [eauto|]. exfalso. revert Hc.
  unfold second_of_three, second_of_four, in_range. cbn.
  rewrite !andb_false_r. done.
Qed.

Lemma utf8_step_length bs :
  bs <> [] -> (1 <= (utf8_step bs).2 <= length bs)%nat.
Proof.
  intros Hbs. destruct bs as [|b0 bs]; [done|]. unfold utf8_step.
  change (safe_get (b0 :: bs) 0) with b0.
  repeat case_bool; cbn [snd];
    repeat match goal with
    | H : continuation _ = true |- _ => apply continuation_nonzero in H
    | H : second_of_three _ _ = true |- _ =>
        pose proof (second_nonzero (b0 :: bs) b0 1%nat ltac:(by rewrite H)); clear H
    | H : second_of_four _ _ = true |- _ =>
        pose proof (second_nonzero (b0 :: bs) b0 1%nat ltac:(by rewrite H, orb_true_r)); clear H
    end; cbn [length] in *; lia.
Qed.

(** The step looks no further than the piece it returns, unless it fails. *)
Lemma utf8_step_app bs rest :
  utf8_step bs = (true, length bs) -> utf8_step (bs ++ rest) = (true, length bs).
Proof.
  intros Hs. assert (bs <> []) as Hne.
  { intros ->. revert Hs. done. }
  assert (forall i, (i < length bs)%nat -> safe_get (bs ++ rest) i = safe_get bs i) as Hg.
  { intros i Hi. unfold safe_get. by rewrite lookup_app_l by done. }
  assert (0 < length bs)%nat as Hl by (destruct bs; cbn in *; [done|lia]).
  revert Hs. unfold utf8_step. rewrite (Hg 0%nat) by lia.
  repeat case_bool; intros Hs; simplify_eq; rewrite ?Hg in * by lia; congruence.
Qed.

Lemma utf8_chunks_fuel_enough fuel fuel' bs :
  (length bs <= fuel)%nat -> (length bs <= fuel')%nat ->
  utf8_chunks_fuel fuel bs = utf8_chunks_fuel fuel' bs.
Proof.
  revert fuel' bs. induction fuel as [|fuel IH]; intros fuel' bs Hf Hf'.
  - destruct bs; cbn in *; [|lia]. by destruct fuel'.
  - destruct bs as [|b bs]; [by destruct fuel'|]. destruct fuel' as [|fuel']; cbn in Hf'; [lia|].
    cbn [utf8_chunks_fuel]. pose proof (utf8_step_length (b :: bs) ltac:(done)) as Hn.
    destruct (utf8_step (b :: bs)) as [v n] eqn:E. cbn [snd] in Hn. f_equal.
    apply IH; rewrite length_drop; cbn [length] in *; lia.
Qed.

Lemma utf8_chunks_cons bs :
  bs <> [] ->
  utf8_chunks bs =
    ((utf8_step bs).1, take (utf8_step bs).2 bs) :: utf8_chunks (drop (utf8_step bs).2 bs).
Proof.
  intros Hne. unfold utf8_chunks. destruct bs as [|b bs]; [done|].
  pose proof (utf8_step_length (b :: bs) ltac:(done)) as Hn.
  cbn [utf8_chunks_fuel length]. destruct (utf8_step (b :: bs)) as [v n]. cbn [fst snd] in *.
  f_equal. apply utf8_chunks_fuel_enough; rewrite length_drop; cbn [length] in *; lia.
Qed.

(** Induction over the pieces of a byte string. *)
Lemma utf8_ind (P : list byte -> Prop) :
  P [] ->
  (forall bs, bs <> [] -> P (drop (utf8_step bs).2 bs) -> P bs) ->
  forall bs, P bs.
Proof.
  intros H0 H1 bs. remember (length bs) as m eqn:Hm. revert bs Hm.
  induction (lt_wf m) as [m _ IH]. intros bs ->.
  destruct (decide (bs = [])) as [->|Hne]; [done|].
  apply H1; [done|]. eapply IH; [|done]. rewrite length_drop.
  pose proof (utf8_step_length bs Hne). lia.
Qed.

Lemma utf8_chunks_concat bs : concat (snd <$> utf8_chunks bs) = bs.
Proof.
  induction bs as [|bs Hne IH] using utf8_ind; [done|].
  rewrite utf8_chunks_cons by done. cbn. by rewrite IH, take_drop.
Qed.

#[global] Arguments utf8_valid : simpl never.
#[global] Arguments utf8_chunks : simpl never.
#[global] Arguments from_utf8_lossy : simpl never.

Lemma from_utf8_lossy_cons bs :
  bs <> [] ->
  from_utf8_lossy bs =
    (if (utf8_step bs).1 then take (utf8_step bs).2 bs else replacement)
    ++ from_utf8_lossy (drop (utf8_step bs).2 bs).
Proof. intros Hne. unfold from_utf8_lossy. by rewrite utf8_chunks_cons. Qed.

Lemma utf8_valid_cons bs :
  bs <> [] ->
  utf8_valid bs = (utf8_step bs).1 && utf8_valid (drop (utf8_step bs).2 bs).
Proof. intros Hne. unfold utf8_valid. by rewrite utf8_chunks_cons. Qed.

(** Decoding a valid string lossily changes nothing. *)
Lemma from_utf8_lossy_valid bs : utf8_valid bs = true -> from_utf8_lossy bs = bs.
Proof.
  induction bs as [|bs Hne IH] using utf8_ind; [done|].
  rewrite utf8_valid_cons, from_utf8_lossy_cons by done.
  intros [-> Hr]%andb_true_iff. by rewrite IH, take_drop.
Qed.

Lemma utf8_valid_char_app c rest :
  utf8_step c = (true, length c) -> utf8_valid (c ++ rest) = utf8_valid rest.
Proof.
  intros Hc.
  assert (c ++ rest <> []) as Hne by (intros [-> ->]%app_eq_nil; done).
  rewrite utf8_valid_cons, utf8_step_app by done. cbn [fst snd].
  by rewrite drop_app_length.
Qed.

Lemma utf8_step_char bs :
  bs <> [] -> (utf8_step bs).1 = true ->
  utf8_step (take (utf8_step bs).2 bs) = (true, length (take (utf8_step bs).2 bs)).
Proof.
  intros Hne. pose proof (utf8_step_length bs Hne) as Hn.
  rewrite length_take, Nat.min_l by lia.
  destruct (utf8_step bs) as [v n] eqn:E. cbn [fst snd] in *. intros ->.
  assert (forall i, (i < n)%nat -> safe_get (take n bs) i = safe_get bs i) as Hg.
  { intros i Hi. unfold safe_get. by rewrite lookup_take_lt by done. }
  revert E. unfold utf8_step. rewrite (Hg 0%nat) by lia.
  repeat case_bool; intros Hs; simplify_eq; rewrite ?Hg in * by lia; congruence.
Qed.

(** Lossy decoding always yields a valid string. *)
Lemma from_utf8_lossy_is_valid bs : utf8_valid (from_utf8_lossy bs) = true.
Proof.
  unfold from_utf8_lossy. induction bs as [|bs Hne IH] using utf8_ind; [done|].
  rewrite utf8_chunks_cons by done. cbn. unfold chunk_lossy at 1. cbn.
  destruct (utf8_step bs).1 eqn:E.
  - rewrite utf8_valid_char_app; [done|]. by apply utf8_step_char.
  - by rewrite utf8_valid_char_app.
Qed.

Lemma from_utf8_lossy_idemp bs :
  from_utf8_lossy (from_utf8_lossy bs) = from_utf8_lossy bs.
Proof. apply from_utf8_lossy_valid, from_utf8_lossy_is_valid. Qed.

Lemma utf8_step_ascii b bs : b2z b < 128 -> utf8_step (b :: bs) = (true, 1%nat).
Proof.
  intros Hb. unfold utf8_step. change (safe_get (b :: bs) 0) with b.
  by rewrite (proj2 (Z.ltb_lt _ _) Hb).
Qed.

Definition ascii (s : str) : Prop := Forall (fun b => b2z b < 128) s.

#[export] Instance ascii_dec s : Decision (ascii s).
Proof. unfold ascii. apply _. Defined.

Lemma utf8_valid_ascii_app a s : ascii a -> utf8_valid (a ++ s) = utf8_valid s.
Proof.
  induction 1 as [|b a Hb Ha IH]; [done|]. cbn [app]. rewrite <- IH.
  change (b :: a ++ s) with ([b] ++ (a ++ s)). apply utf8_valid_char_app.
  by apply utf8_step_ascii.
Qed.

Lemma utf8_valid_ascii s : ascii s -> utf8_valid s = true.
Proof. intros Hs. rewrite <- (app_nil_r s). by rewrite utf8_valid_ascii_app. Qed.

(** ** Trimming

    [char::is_whitespace] on the encoded characters: the ASCII spaces and
    the [White_Space] characters above them. *)
Definition is_whitespace (c : list byte) : bool :=
  match b2z <$> c with
  | [x] => (x =? 32) || ((9 <=? x) && (x <=? 13))
  | [x; y] => (x =? 194) && ((y =? 133) || (y =? 160))
  | [x; y; z] =>
      ((x =? 225) && (y =? 154) && (z =? 128))
      || ((x =? 226) && (y =? 128)
          && (((128 <=? z) && (z <=? 138)) || (z =? 168) || (z =? 169) || (z =? 175)))
      || ((x =? 226) && (y =? 129) && (z =? 159))
      || ((x =? 227) && (y =? 128) && (z =? 128))
  | _ => false
  end.

Fixpoint drop_while {A} (p : A -> bool) (l : list A) : list A :=
  match l with
  | [] => []
  | x :: l' => if p x then drop_while p l' else l
  end.

(** [str::trim]. *)
Definition trim (s : str) : str :=
  concat (reverse (drop_while is_whitespace (reverse (drop_while is_whitespace (chars s))))).

Lemma chars_ascii s : ascii s -> chars s = (fun b => [b]) <$> s.
Proof.
  induction 1 as [|b s Hb Hs IH]; [done|]. unfold chars.
  rewrite utf8_chunks_cons by done. rewrite utf8_step_ascii by done. cbn [fst snd].
  change (drop 1 (b :: s)) with s. change (take 1 (b :: s)) with [b].
  cbn [fmap list_fmap]. f_equal. exact IH.
Qed.

Lemma drop_while_id {A} (p : A -> bool) l :
  (forall x, head l = Some x -> p x = false) -> drop_while p l = l.
Proof. destruct l as [|x l]; cbn; [done|]. intros H. by rewrite H. Qed.

Lemma drop_while_forall {A} (p : A -> bool) l :
  Forall (fun x => p x = false) l -> drop_while p l = l.
Proof. destruct 1 as [|x l Hx]; cbn; [done|]. by rewrite Hx. Qed.

(** A string whose first and last characters are not spaces is its own
    trim. *)
Lemma trim_no_spaces s :
  Forall (fun c => is_whitespace c = false) (chars s) -> trim s = s.
Proof.
  intros H. unfold trim. rewrite (drop_while_forall _ (chars s)) by done.
  rewrite drop_while_forall by by rewrite Forall_reverse.
  rewrite reverse_involutive. apply utf8_chunks_concat.
Qed.

(** ** Decimal numbers *)
Definition digit (d : Z) : byte := z2b (48 + d).

Definition digit_val (b : byte) : option Z :=
  if in_range 48 57 b then Some (b2z b - 48) else None.

Fixpoint show_fuel (fuel : nat) (x : Z) (acc : str) : str :=
  match fuel with
  | O => acc
  | S fuel =>
      let acc := digit (x mod 10) :: acc in
      if x <? 10 then acc else show_fuel fuel (x / 10) acc
  end.

(** [{}] of an unsigned integer. *)
Definition show_u (x : Z) : str := show_fuel (Z.to_nat (Z.log2 x) + 1) x [].

Fixpoint digits_val (acc : Z) (s : str) : option Z :=
  match s with
  | [] => Some acc
  | b :: s => d ← digit_val b; digits_val (acc * 10 + d) s
  end.

(** [s.parse::<u{w}>()]: one optional plus sign, then at least one digit, and
    the value must fit. *)
Definition parse_u (w : Z) (s : str) : option Z :=
  let ds := match s with
            | b :: s' => if decide (b = Byte.x2b) then s' else s
            | [] => s
            end in
  match ds with
  | [] => None
  | _ => x ← digits_val 0 ds; if decide (in_u w x) then Some x else None
  end.

Lemma digit_val_digit d : 0 <= d < 10 -> digit_val (digit d) = Some d.
Proof.
  intros Hd. unfold digit_val, digit, in_range.
  rewrite z2b_b2z_u8 by (unfold in_u; lia).
  rewrite (proj2 (Z.leb_le _ _)), (proj2 (Z.leb_le _ _)) by lia. cbn. f_equal. lia.
Qed.

Lemma show_fuel_digits fuel x acc :
  0 <= x < 10 ^ Z.of_nat fuel -> (0 < fuel)%nat ->
  digits_val 0 (show_fuel fuel x acc) = digits_val x acc.
Proof.
  revert x acc. induction fuel as [|fuel IH]; intros x acc Hx Hf; [lia|].
  rewrite Nat2Z.inj_succ, Z.pow_succ_r in Hx by lia.
  pose proof (Z.mod_pos_bound x 10 eq_refl). pose proof (Z.div_mod x 10 ltac:(lia)).
  cbn [show_fuel]. destruct (x <? 10) eqn:E.
  - apply Z.ltb_lt in E. cbn [digits_val]. rewrite digit_val_digit by lia. cbn.
    f_equal. rewrite Z.mod_small; lia.
  - apply Z.ltb_ge in E. rewrite IH.
    + cbn [digits_val]. rewrite digit_val_digit by lia. cbn. f_equal. lia.
    + split; [apply Z.div_pos; lia|]. apply Z.div_lt_upper_bound; lia.
    + destruct fuel; [cbn in Hx; lia|lia].
Qed.

Lemma show_u_fuel x : 0 <= x -> x < 10 ^ Z.of_nat (Z.to_nat (Z.log2 x) + 1).
Proof.
  intros Hx. rewrite Nat2Z.inj_add, Z2Nat.id by apply Z.log2_nonneg.
  destruct (decide (x = 0)) as [->|Hne]; [done|].
  pose proof (Z.log2_spec x ltac:(lia)) as [_ Hl].
  eapply Z.lt_le_trans; [exact Hl|]. rewrite <- Z.add_1_r.
  apply Z.pow_le_mono_l. lia.
Qed.

Lemma show_u_digits x : 0 <= x -> digits_val 0 (show_u x) = Some x.
Proof.
  intros Hx. unfold show_u. rewrite show_fuel_digits; [done| |lia].
  split; [done|]. by apply show_u_fuel.
Qed.

Lemma show_fuel_is_digits fuel x acc :
  Forall (fun b => is_Some (digit_val b)) acc ->
  Forall (fun b => is_Some (digit_val b)) (show_fuel fuel x acc).
Proof.
  revert x acc. induction fuel as [|fuel IH]; intros x acc Ha; [done|]. cbn [show_fuel].
  pose proof (Z.mod_pos_bound x 10 eq_refl).
  assert (Forall (fun b => is_Some (digit_val b)) (digit (x mod 10) :: acc)) as Ha'.
  { constructor; [|done]. rewrite digit_val_digit by lia. eauto. }
  case_bool; [done|]. by apply IH.
Qed.

Lemma show_u_is_digits x : Forall (fun b => is_Some (digit_val b)) (show_u x).
Proof. by apply show_fuel_is_digits. Qed.

Lemma show_u_not_nil x : show_u x <> [].
Proof.
  unfold show_u. rewrite Nat.add_1_r. cbn [show_fuel].
  assert (forall fuel y acc, acc <> [] -> show_fuel fuel y acc <> []) as H.
  { induction fuel as [|fuel IH]; intros y acc Ha; [done|]. cbn [show_fuel].
    case_bool; [done|]. by apply IH. }
  case_bool; [done|]. by apply H.
Qed.

Lemma digit_val_bounds b d : digit_val b = Some d -> 48 <= b2z b <= 57 /\ d = b2z b - 48.
Proof.
  unfold digit_val, in_range. destruct (_ && _) eqn:E; [|done].
  apply andb_true_iff in E as [?%Z.leb_le ?%Z.leb_le]. naive_solver lia.
Qed.

Lemma show_u_ascii x : ascii (show_u x).
Proof.
  eapply Forall_impl; [apply show_u_is_digits|].
  intros b [d Hd]. apply digit_val_bounds in Hd. lia.
Qed.

Lemma show_u_not_elem b x : b2z b < 48 \/ 57 < b2z b -> b ∉ show_u x.
Proof.
  intros Hb Hin. pose proof (show_u_is_digits x) as Hd. rewrite Forall_forall in Hd.
  destruct (Hd _ Hin) as [d Hb']. apply digit_val_bounds in Hb'. lia.
Qed.

(** Printing then parsing a number gives it back. *)
Lemma parse_u_show_u w x : in_u w x -> parse_u w (show_u x) = Some x.
Proof.
  intros Hx. assert (0 <= x) as H0 by (unfold in_u in Hx; lia).
  pose proof (show_u_not_nil x) as Hne. pose proof (show_u_digits x H0) as Hv.
  pose proof (show_u_not_elem Byte.x2b x ltac:(by left)) as Hp.
  unfold parse_u. destruct (show_u x) as [|b s] eqn:E; [done|].
  rewrite decide_False by set_solver. rewrite Hv. cbn. by rewrite decide_True.
Qed.

Lemma digits_val_ge acc s x : 0 <= acc -> digits_val acc s = Some x -> acc <= x.
Proof.
  revert acc. induction s as [|b s IH]; intros acc Ha; cbn; [naive_solver lia|].
  destruct (digit_val b) as [d|] eqn:E; cbn; [|done].
  apply digit_val_bounds in E. intros Hx. apply IH in Hx; lia.
Qed.

Lemma parse_u_range w s x : parse_u w s = Some x -> in_u w x.
Proof.
  unfold parse_u. generalize (match s with [] => s | b :: s' => if decide (b = Byte.x2b) then s' else s end).
  intros [|b l]; [done|]. destruct (digits_val 0 (b :: l)); cbn; [|done].
  case_decide; naive_solver.
Qed.

(** ** Searching and splitting *)
Fixpoint starts_with (p s : str) : bool :=
  match p, s with
  | [], _ => true
  | _, [] => false
  | a :: p, b :: s => bool_decide (a = b) && starts_with p s
  end.

(** [s.find(p)]: the offset of the first occurrence. *)
Fixpoint find (p s : str) : option nat :=
  if starts_with p s then Some O
  else match s with [] => None | _ :: s => S <$> find p s end.

Definition contains (p s : str) : bool :=
  match find p s with Some _ => true | None => false end.

(** The part before the first [c] and, if there is one, the part after. *)
Fixpoint cut (c : byte) (s : str) : str * option str :=
  match s with
  | [] => ([], None)
  | b :: s =>
      if decide (b = c) then ([], Some s)
      else let '(l, r) := cut c s in (b :: l, r)
  end.

Definition strip_last (c : byte) (s : str) : str :=
  match last s with
  | Some b => if decide (b = c) then take (length s - 1) s else s
  | None => s
  end.

(** [s.lines().next()]. *)
Definition first_line (s : str) : option str :=
  match s with
  | [] => None
  | _ => match cut Byte.x0a s with
         | (l, Some _) => Some (strip_last Byte.x0d l)
         | (l, None) => Some l
         end
  end.

(** [s.splitn(n, c)]. *)
Fixpoint splitn (n : nat) (c : byte) (s : str) : list str :=
  match n with
  | O => []
  | S O => [s]
  | S n => match cut c s with
           | (l, Some r) => l :: splitn n c r
           | (l, None) => [l]
           end
  end.

(** [s.rsplit_once(c)]: split at the last [c]. *)
Fixpoint rsplit_once (c : byte) (s : str) : option (str * str) :=
  match s with
  | [] => None
  | b :: s =>
      match rsplit_once c s with
      | Some (l, r) => Some (b :: l, r)
      | None => if decide (b = c) then Some ([], s) else None
      end
  end.

(** [println!] of a text. *)
Definition line (s : str) : str := s ++ [Byte.x0a].

(** [{:<n}] and [{:>n}] count characters. *)
Definition char_count (s : str) : nat := length (chars s).

Definition pad_right (n : nat) (s : str) : str :=
  s ++ replicate (n - char_count s) Byte.x20.

Definition pad_left (n : nat) (s : str) : str :=
  replicate (n - char_count s) Byte.x20 ++ s.

Lemma starts_with_app p s : starts_with p (p ++ s) = true.
Proof. induction p as [|a p IH]; cbn; [done|]. by rewrite bool_decide_true. Qed.

Lemma starts_with_spec p s : starts_with p s = true <-> exists r, s = p ++ r.
Proof.
  split.
  - revert s. induction p as [|a p IH]; intros s; cbn; [eauto|].
    destruct s as [|b s]; [done|].
    intros [->%bool_decide_eq_true [r ->]%IH]%andb_true_iff. eauto.
  - intros [r ->]. apply starts_with_app.
Qed.

Lemma find_bound p s i : find p s = Some i -> (i + length p <= length s)%nat.
Proof.
  revert i. induction s as [|b s IH]; intros i; cbn [find].
  - destruct (starts_with p []) eqn:E; [|done]. apply starts_with_spec in E as [r Hr].
    destruct p; [|done]. naive_solver.
  - destruct (starts_with p (b :: s)) eqn:E.
    + apply starts_with_spec in E as [r Hr]. intros [= <-]. rewrite Hr, length_app. lia.
    + destruct (find p s) as [j|]; [|done]. intros [= <-].
      specialize (IH j eq_refl). cbn. lia.
Qed.

Lemma cut_none c s : c ∉ s -> cut c s = (s, None).
Proof.
  induction s as [|b s IH]; [done|]. intros [Hb Hs]%not_elem_of_cons. cbn.
  rewrite decide_False by done. by rewrite IH.
Qed.

Lemma cut_app c a b : c ∉ a -> cut c (a ++ c :: b) = (a, Some b).
Proof.
  induction a as [|x a IH]; cbn; [by rewrite decide_True|].
  intros [Hx Ha]%not_elem_of_cons. rewrite decide_False by done. by rewrite IH.
Qed.

Lemma strip_last_snoc c s : strip_last c (s ++ [c]) = s.
Proof.
  unfold strip_last. rewrite last_snoc, decide_True by done.
  rewrite length_app. cbn. rewrite Nat.add_sub. apply take_app_length.
Qed.

Lemma rsplit_once_app c a b : c ∉ b -> rsplit_once c (a ++ c :: b) = Some (a, b).
Proof.
  intros Hb. assert (rsplit_once c b = None) as Hn.
  { clear a. induction b as [|x b IH]; [done|].
    apply not_elem_of_cons in Hb as [Hx Hb]. cbn. rewrite IH by done.
    by rewrite decide_False. }
  induction a as [|x a IH]; cbn [app rsplit_once]; [|by rewrite IH].
  by rewrite Hn, decide_True.
Qed.

Lemma rsplit_once_spec c s l r :
  rsplit_once c s = Some (l, r) -> s = l ++ c :: r /\ c ∉ r.
Proof.
  revert l. induction s as [|b s IH]; intros l; cbn; [done|].
  destruct (rsplit_once c s) as [[l' r']|] eqn:E.
  - intros [= <- <-]. destruct (IH _ eq_refl) as [-> Hr]. done.
  - case_decide; [|done]. intros [= <- <-]. subst. split; [done|].
    clear IH. induction s as [|x s IHs]; [set_solver|]. cbn in E.
    destruct (rsplit_once c s) as [[??]|]; [done|]. case_decide; [done|]. set_solver.
Qed.

Lemma char_count_ascii s : ascii s -> char_count s = length s.
Proof. intros Hs. unfold char_count. rewrite chars_ascii by done. apply length_fmap. Qed.
