(* ===== verification/Net.v ===== *)
(** * IP and socket addresses (std::net as the program uses it)

    [IpAddr] and [SocketAddr] with their [Display] and [FromStr]: the
    program prints addresses into targets and error messages and parses
    hosts, DNS servers, interfaces and proxy addresses. *)
From S2P Require Import Prelude Text.

(** The octets in network order. *)
Inductive IpAddr : Type :=
| V4 (octets : list byte)
| V6 (octets : list byte).

#[export] Instance IpAddr_eq_dec : EqDecision IpAddr.
Proof. solve_decision. Defined.

(** Four octets, or sixteen. *)
Definition ip_wf (ip : IpAddr) : Prop :=
  match ip with V4 o => length o = 4%nat | V6 o => length o = 16%nat end.

Definition is_v6 (ip : IpAddr) : bool := match ip with V6 _ => true | V4 _ => false end.

Definition is_unspecified (ip : IpAddr) : bool :=
  match ip with V4 o | V6 o => forallb (fun b => b2z b =? 0) o end.

Record SocketAddr : Type := mk_addr { addr_ip : IpAddr; addr_port : Z }.

#[export] Instance SocketAddr_eq_dec : EqDecision SocketAddr.
Proof. solve_decision. Defined.

Definition addr_wf (a : SocketAddr) : Prop := ip_wf (addr_ip a) /\ u16 (addr_port a).

(** ** Display *)
Fixpoint join_str (sep : str) (ls : list str) : str :=
  match ls with
  | [] => []
  | [l] => l
  | l :: ls => l ++ sep ++ join_str sep ls
  end.

Definition show_v4 (o : list byte) : str := join_str (lit ".") ((fun b => show_u (b2z b)) <$> o).

(** The eight 16-bit groups of an IPv6 address. *)
Fixpoint segments (o : list byte) : list Z :=
  match o with
  | a :: b :: o => b2z a * 256 + b2z b :: segments o
  | _ => []
  end.

Definition unsegments (gs : list Z) : list byte := concat (be_bytes 2 <$> gs).

Definition hex_digit (d : Z) : byte := if d <? 10 then z2b (48 + d) else z2b (87 + d).

Fixpoint show_hex_fuel (fuel : nat) (x : Z) (acc : str) : str :=
  match fuel with
  | O => acc
  | S fuel =>
      let acc := hex_digit (x mod 16) :: acc in
      if x <? 16 then acc else show_hex_fuel fuel (x / 16) acc
  end.

(** [{:x}] of a number below 2^64. *)
Definition show_hex (x : Z) : str := show_hex_fuel 16 x [].

Definition show_groups (gs : list Z) : str := join_str (lit ":") (show_hex <$> gs).

(** Start and length of the first longest run of zeros in [gs], which starts
    at group [i]; [cur] is the run that ends here and [best] the longest so
    far. *)
Fixpoint longest_zeros (i : nat) (cur best : nat * nat) (gs : list Z) : nat * nat :=
  match gs with
  | [] => best
  | g :: gs =>
      if g =? 0 then
        let start := if decide (snd cur = 0)%nat then i else fst cur in
        let cur := (start, S (snd cur)) in
        let best := if decide (snd best < snd cur)%nat then cur else best in
        longest_zeros (S i) cur best gs
      else longest_zeros (S i) (0, 0)%nat best gs
  end.

(** The IPv4 address of [::ffff:a.b.c.d]. *)
Definition mapped_v4 (o : list byte) : option (list byte) :=
  if decide (take 12 o = replicate 10 Byte.x00 ++ [Byte.xff; Byte.xff])
  then Some (drop 12 o) else None.

Definition show_v6 (o : list byte) : str :=
  match mapped_v4 o with
  | Some v4 => lit "::ffff:" ++ show_v4 v4
  | None =>
      let gs := segments o in
      let '(start, len) := longest_zeros 0 (0, 0)%nat (0, 0)%nat gs in
      if decide (1 < len)%nat
      then show_groups (take start gs) ++ lit "::" ++ show_groups (drop (start + len) gs)
      else show_groups gs
  end.

Definition show_ip (ip : IpAddr) : str :=
  match ip with V4 o => show_v4 o | V6 o => show_v6 o end.

Definition show_addr (a : SocketAddr) : str :=
  match addr_ip a with
  | V4 o => show_v4 o ++ lit ":" ++ show_u (addr_port a)
  | V6 o => lit "[" ++ show_v6 o ++ lit "]:" ++ show_u (addr_port a)
  end.

(** ** FromStr

    The parser reads from the front and gives the rest of the text back; a
    reader that fails consumes nothing. *)
Definition parser (A : Type) : Type := str -> option (A * str).

Definition hex_val (b : byte) : option Z :=
  match digit_val b with
  | Some d => Some d
  | None =>
      if in_range 97 102 b then Some (b2z b - 87)
      else if in_range 65 70 b then Some (b2z b - 55)
      else None
  end.

Definition radix_val (radix : Z) (b : byte) : option Z :=
  if radix =? 16 then hex_val b else digit_val b.

(** The digits at the front of [s] and their value. *)
Fixpoint read_digits (radix acc : Z) (n : nat) (s : str) : Z * nat * str :=
  match s with
  | [] => (acc, n, s)
  | b :: s' =>
      match radix_val radix b with
      | Some d => read_digits radix (acc * radix + d) (S n) s'
      | None => (acc, n, s)
      end
  end.

Definition read_number (w radix : Z) (max_digits : option nat) (allow_zero_prefix : bool) :
    parser Z := fun s =>
  let '(v, n, rest) := read_digits radix 0 0 s in
  let leading_zero := bool_decide (head s = Some (z2b 48)) in
  if decide (n = 0)%nat then None
  else if match max_digits with Some m => bool_decide (m < n)%nat | None => false end then None
  else if negb allow_zero_prefix && leading_zero && bool_decide (1 < n)%nat then None
  else if decide (in_u w v) then Some (v, rest) else None.

Definition read_given (c : byte) : parser unit := fun s =>
  match s with
  | b :: s => if decide (b = c) then Some (tt, s) else None
  | [] => None
  end.

(** The separator stands before every element but the first. *)
Definition read_separator {A} (sep : byte) (i : nat) (p : parser A) : parser A := fun s =>
  if decide (i = 0)%nat then p s
  else '(_, s) ← read_given sep s; p s.

Fixpoint read_octets (n i : nat) : parser (list byte) := fun s =>
  match n with
  | O => Some ([], s)
  | S n =>
      '(x, s) ← read_separator Byte.x2e i (read_number 8 10 (Some 3%nat) false) s;
      '(o, s) ← read_octets n (S i) s;
      Some (z2b x :: o, s)
  end.

Definition read_ipv4 : parser (list byte) := read_octets 4 0.

(** Up to [n] groups, of which [i] have been read; an IPv4 address may stand
    for the last two. *)
Fixpoint read_groups (n i : nat) (s : str) : list Z * bool * str :=
  match n with
  | O => ([], false, s)
  | S n' =>
      match (if decide (1 < n)%nat then read_separator Byte.x3a i read_ipv4 s else None) with
      | Some (o, s) => (segments o, true, s)
      | None =>
          match read_separator Byte.x3a i (read_number 16 16 (Some 4%nat) true) s with
          | Some (g, s) =>
              let '(gs, v4, s) := read_groups n' (S i) s in (g :: gs, v4, s)
          | None => ([], false, s)
          end
      end
  end.

Definition read_ipv6 : parser (list byte) := fun s =>
  let '(hd, v4, s) := read_groups 8 0 s in
  if decide (length hd = 8)%nat then Some (unsegments hd, s)
  else if v4 then None
  else
    '(_, s) ← read_given Byte.x3a s;
    '(_, s) ← read_given Byte.x3a s;
    let '(tl, _, s) := read_groups (8 - (length hd + 1)) 0 s in
    Some (unsegments (hd ++ replicate (8 - length hd - length tl) 0 ++ tl), s).

Definition parse_all {A} (p : parser A) (s : str) : option A :=
  match p s with Some (a, []) => Some a | _ => None end.

(** The second reader runs where the first fails; what it leaves unread is
    not tried again. *)
Definition read_ip : parser IpAddr := fun s =>
  match read_ipv4 s with
  | Some (o, s) => Some (V4 o, s)
  | None => '(o, s) ← read_ipv6 s; Some (V6 o, s)
  end.

Definition parse_ip (s : str) : option IpAddr := parse_all read_ip s.

Definition read_port : parser Z := fun s =>
  '(_, s) ← read_given Byte.x3a s; read_number 16 10 None true s.

Definition read_addr_v4 : parser SocketAddr := fun s =>
  '(o, s) ← read_ipv4 s;
  '(port, s) ← read_port s;
  Some (mk_addr (V4 o) port, s).

(** A scope id is read and, since the program never looks at it, dropped. *)
Definition read_scope : parser Z := fun s =>
  '(_, s) ← read_given Byte.x25 s; read_number 32 10 None true s.

Definition read_addr_v6 : parser SocketAddr := fun s =>
  '(_, s) ← read_given Byte.x5b s;
  '(o, s) ← read_ipv6 s;
  let s := match read_scope s with Some (_, s) => s | None => s end in
  '(_, s) ← read_given Byte.x5d s;
  '(port, s) ← read_port s;
  Some (mk_addr (V6 o) port, s).

Definition read_addr : parser SocketAddr := fun s =>
  match read_addr_v4 s with
  | Some r => Some r
  | None => read_addr_v6 s
  end.

Definition parse_addr (s : str) : option SocketAddr := parse_all read_addr s.

(** ** Round trips *)

(** [rest] does not go on with a decimal digit. *)
Definition no_digit (rest : str) : Prop :=
  match rest with [] => True | b :: _ => digit_val b = None end.

Lemma read_digits_val ds rest acc n v :
  digits_val acc ds = Some v -> no_digit rest ->
  read_digits 10 acc n (ds ++ rest) = (v, (n + length ds)%nat, rest).
Proof.
  intros H Hr. revert acc n H. induction ds as [|b ds IH]; intros acc n; cbn.
  - intros [= ->]. rewrite Nat.add_0_r. destruct rest as [|b rest]; cbn; [done|].
    unfold radix_val. cbn in *. by rewrite Hr.
  - unfold radix_val. cbn. destruct (digit_val b) as [d|]; cbn; [|done].
    intros H. rewrite (IH _ _ H). do 2 f_equal. lia.
Qed.

Lemma read_number_show w x max rest :
  in_u w x -> no_digit rest ->
  match max with Some m => (length (show_u x) <= m)%nat | None => True end ->
  read_number w 10 max true (show_u x ++ rest) = Some (x, rest).
Proof.
  intros Hx Hr Hm. unfold read_number.
  rewrite (read_digits_val _ _ _ _ x) by (done || apply show_u_digits; unfold in_u in Hx; lia).
  rewrite decide_False by (pose proof (show_u_not_nil x); destruct (show_u x); cbn; [done|lia]).
  destruct max as [m|]; [rewrite bool_decide_false by (cbn; lia)|]; cbn; by rewrite decide_True.
Qed.

(** A byte takes at most three digits and no leading zero. *)
Lemma show_u_byte b :
  (length (show_u (b2z b)) <= 3)%nat /\
  (head (show_u (b2z b)) = Some (z2b 48) -> length (show_u (b2z b)) = 1%nat).
Proof.
  enough ((length (show_u (b2z b)) <=? 3)%nat &&
    (negb (bool_decide (head (show_u (b2z b)) = Some (z2b 48))) ||
     (length (show_u (b2z b)) =? 1)%nat) = true) as H.
  - apply andb_prop in H as [H1%Nat.leb_le H2]. split; [done|]. intros Hh.
    rewrite bool_decide_true in H2 by done. by apply Nat.eqb_eq in H2.
  - destruct b; vm_compute; reflexivity.
Qed.

Lemma head_app_show x rest : head (show_u x ++ rest) = head (show_u x).
Proof. pose proof (show_u_not_nil x). by destruct (show_u x). Qed.

Lemma read_octet_show b rest :
  no_digit rest ->
  read_number 8 10 (Some 3%nat) false (show_u (b2z b) ++ rest) = Some (b2z b, rest).
Proof.
  intros Hr. destruct (show_u_byte b) as [Hl Hz].
  pose proof (read_number_show 8 (b2z b) (Some 3%nat) rest (b2z_u8 b) Hr Hl) as H.
  unfold read_number in *.
  rewrite (read_digits_val _ _ _ _ (b2z b)) in * by (done || apply show_u_digits, b2z_range).
  cbn [negb andb] in *. rewrite head_app_show.
  destruct (decide _) as [|_]; [done|]. rewrite bool_decide_false in * by (cbn; lia).
  case_bool_decide as Hh; [|done]. by rewrite (Hz Hh).
Qed.

Lemma dot_no_digit s : no_digit (Byte.x2e :: s).
Proof. done. Qed.

Lemma colon_no_digit s : no_digit (Byte.x3a :: s).
Proof. done. Qed.

Lemma read_separator_S {A} sep i (p : parser A) s :
  read_separator sep (S i) p (sep :: s) = p s.
Proof. unfold read_separator. rewrite decide_False by done. cbn. by rewrite decide_True. Qed.

Lemma join_str_dots o :
  join_str (lit ".") ((fun b => show_u (b2z b)) <$> o) =
    match o with [] => [] | b :: o => show_u (b2z b) ++ concat ((fun b => Byte.x2e :: show_u (b2z b)) <$> o) end.
Proof.
  destruct o as [|b o]; [done|]. cbn [fmap list_fmap]. revert b.
  induction o as [|c o IH]; intros b; [cbn; by rewrite app_nil_r|].
  cbn [fmap list_fmap join_str concat] in *. by rewrite IH.
Qed.

Lemma read_octets_show o i rest :
  no_digit rest ->
  read_octets (length o) (S i) (concat ((fun b => Byte.x2e :: show_u (b2z b)) <$> o) ++ rest) =
    Some (o, rest).
Proof.
  intros Hr. revert i. induction o as [|b o IH]; intros i; [done|].
  cbn [length fmap list_fmap concat read_octets]. rewrite <- app_assoc. cbn [app].
  rewrite read_separator_S, read_octet_show by (by destruct o).
  cbn [mbind option_bind]. rewrite IH. cbn. by rewrite z2b_b2z.
Qed.

Lemma read_ipv4_show o rest :
  length o = 4%nat -> no_digit rest -> read_ipv4 (show_v4 o ++ rest) = Some (o, rest).
Proof.
  intros Ho Hr. destruct o as [|b o]; [done|]. unfold show_v4, read_ipv4.
  rewrite join_str_dots, <- Ho, <- app_assoc. cbn [length read_octets]. unfold read_separator at 1.
  rewrite decide_True by done. rewrite read_octet_show by (by destruct o).
  cbn [mbind option_bind]. rewrite read_octets_show by done. cbn. by rewrite z2b_b2z.
Qed.

Lemma parse_ip_show_v4 o : length o = 4%nat -> parse_ip (show_v4 o) = Some (V4 o).
Proof.
  intros Ho. unfold parse_ip, parse_all, read_ip.
  rewrite <- (app_nil_r (show_v4 o)). by rewrite read_ipv4_show.
Qed.

Lemma read_port_show port rest :
  u16 port -> no_digit rest -> read_port (Byte.x3a :: show_u port ++ rest) = Some (port, rest).
Proof.
  intros Hp Hr. unfold read_port, read_given. rewrite decide_True by done. cbn [mbind option_bind].
  by apply read_number_show.
Qed.

Lemma parse_addr_show_v4 o port :
  length o = 4%nat -> u16 port -> parse_addr (show_addr (mk_addr (V4 o) port)) = Some (mk_addr (V4 o) port).
Proof.
  intros Ho Hp. unfold parse_addr, parse_all, read_addr, show_addr. cbn [addr_ip addr_port].
  unfold read_addr_v4. change (lit ":") with [Byte.x3a]. cbn [app].
  rewrite read_ipv4_show by (done || apply colon_no_digit). cbn [mbind option_bind].
  rewrite <- (app_nil_r (show_u port)). by rewrite read_port_show.
Qed.

Example show_v6_loopback : show_ip (V6 (replicate 15 Byte.x00 ++ [Byte.x01])) = lit "::1".
Proof. vm_compute. reflexivity. Qed.

Example parse_v6_doc :
  show_ip <$> parse_ip (lit "2001:DB8:0:0:1::192.0.2.33") = Some (lit "2001:db8::1:0:c000:221").
Proof. vm_compute. reflexivity. Qed.

Example parse_v4_octal : parse_ip (lit "1.2.3.04") = None.
Proof. vm_compute. reflexivity. Qed.

Example parse_addr_v6 :
  show_addr <$> parse_addr (lit "[::ffff:1.2.3.4%3]:053") = Some (lit "[::ffff:1.2.3.4]:53").
Proof. vm_compute. reflexivity. Qed.
