(* ===== verification/Errors.v ===== *)
(** * Errors (src/error.rs) *)
From S2P Require Import Prelude AsyncIo Text.

Inductive ProxyPenError : Type :=
| Socks (msg : str)
| Io (e : io_error)
| Http (msg : str)
| Tls (msg : str)
| Quic (msg : str)
| Timeout
| InvalidConfig (msg : str).

#[export] Instance ProxyPenError_eq_dec : EqDecision ProxyPenError.
Proof. solve_decision. Defined.

(** [Display], as [#[error(..)]] derives it. *)
Definition show_error (e : ProxyPenError) : str :=
  match e with
  | Socks m => lit "SOCKS5 error: " ++ m
  | Io e => lit "IO error: " ++ io_msg e
  | Http m => lit "HTTP error: " ++ m
  | Tls m => lit "TLS error: " ++ m
  | Quic m => lit "QUIC error: " ++ m
  | Timeout => lit "timeout"
  | InvalidConfig m => lit "invalid config: " ++ m
  end.

(** The crate's [Result]. *)
Abbreviation px := (outcome ProxyPenError).

(** [?] on an [io::Result]. *)
Definition from_io {A} (m : io A) : px A := map_err Io m.

(** [From<h2::Error>] and the [From]s of the SOCKS and QUIC errors, given
    their text. *)
Definition from_h2 (text : str) : ProxyPenError := Http (lit "h2: " ++ text).
Definition from_serror (text : str) : ProxyPenError := Socks text.
Definition from_quinn (text : str) : ProxyPenError := Quic text.

(** [tokio::time::timeout]: a future that is never ready times out. *)
Definition timeout {E A} (e : E) (m : outcome E A) : outcome E A :=
  match m with Hang => Err e | _ => m end.

(** [anyhow::Error], as its text. *)
Abbreviation anyhow := (outcome str).

Definition of_io {A} (m : io A) : anyhow A := map_err io_msg m.
Definition of_px {A} (m : px A) : anyhow A := map_err show_error m.

Lemma of_px_Ok {A} (m : px A) a : of_px m = Ok a <-> m = Ok a.
Proof. destruct m; cbn; split; congruence. Qed.

Lemma of_io_Ok {A} (m : io A) a : of_io m = Ok a <-> m = Ok a.
Proof. destruct m; cbn; split; congruence. Qed.

Lemma from_io_Ok {A} (m : io A) a : from_io m = Ok a <-> m = Ok a.
Proof. destruct m; cbn; split; congruence. Qed.

Lemma from_io_bind {A B} (m : io A) (f : A -> io B) :
  from_io (m ≫= f) = (from_io m ≫= fun a => from_io (f a)).
Proof. by destruct m. Qed.

Lemma timeout_not_hang {E A} (e : E) (m : outcome E A) : timeout e m <> Hang.
Proof. by destruct m. Qed.
