(* ===== verification/Listener.v ===== *)
(** * Listening servers

    What the listeners of the bench server and of the HTTP test server share:
    a task as the actions it takes and the way it ends, and the loop that
    accepts connections and starts a task for each. *)
From S2P Require Import Prelude AsyncIo Text Net Errors.

(** A task so far: what it has done, in order, and how it ends; one that runs
    for ever, or waits for ever, ends in [Hang]. *)
Record task (A X : Type) : Type := mk_task {
  actions : list A;
  ending : anyhow X;
}.

Arguments mk_task {A X} _ _.
Arguments actions {A X} _.
Arguments ending {A X} _.

(** [?] and sequencing. *)
#[export] Instance task_bind {A} : MBind (task A) := fun X Y f t =>
  match ending t with
  | Ok x => mk_task (actions t ++ actions (f x)) (ending (f x))
  | Err e => mk_task (actions t) (Err e)
  | Panic => mk_task (actions t) Panic
  | Hang => mk_task (actions t) Hang
  end.

Definition lift {A X} (m : anyhow X) : task A X := mk_task [] m.

(** One action; [tokio::spawn] is one. *)
Definition emit {A} (a : A) : task A unit := mk_task [a] (Ok tt).

Lemma bind_lift_Ok {A X Y} (m : anyhow X) x (f : X -> task A Y) : m = Ok x -> (lift m ≫= f) = f x.
Proof. intros ->. cbn. by destruct (f x). Qed.

Lemma bind_emit {A Y} (a : A) (f : unit -> task A Y) :
  (emit a ≫= f) = mk_task (a :: actions (f tt)) (ending (f tt)).
Proof. done. Qed.

Lemma bind_lift_fails {A X Y} (m : anyhow X) (f : X -> task A Y) :
  is_ok m = false -> exists r, (lift m ≫= f) = mk_task [] r /\ is_ok r = false.
Proof. destruct m; [done|..]; intros _; eexists; (split; [reflexivity|done]). Qed.

(** ** Listeners *)

(** A bound listener: its [local_addr()], and what its calls of [accept]
    give, one after the other; after the last one nobody connects. *)
Record listener (S : Type) : Type := mk_listener {
  li_local_addr : io SocketAddr;
  li_accepts : list (io (S * SocketAddr));
}.

Arguments mk_listener {S} _ _.
Arguments li_local_addr {S} _.
Arguments li_accepts {S} _.

(** [loop { let (stream, peer) = listener.accept().await?; spawn(..) }]. *)
Fixpoint accepting {S A} (spawn : S -> SocketAddr -> A) (accepts : list (io (S * SocketAddr))) :
    task A unit :=
  match accepts with
  | [] => lift Hang
  | accept :: accepts =>
      '(stream, peer) ← lift (of_io accept);
      _ ← emit (spawn stream peer);
      accepting spawn accepts
  end.

(** ** Lemmas *)

(** The connections made before the first call of [accept] that fails, and
    that failure. *)
Fixpoint accepted {S} (accepts : list (io (S * SocketAddr))) : list (S * SocketAddr) :=
  match accepts with Ok c :: accepts => c :: accepted accepts | _ => [] end.

Fixpoint stopped {S} (accepts : list (io (S * SocketAddr))) : anyhow unit :=
  match accepts with
  | [] => Hang
  | Ok _ :: accepts => stopped accepts
  | accept :: _ => _ ← of_io accept; Ok tt
  end.

(** The loop starts a task for each of them and ends with it. *)
Lemma accepting_spec {S A} (spawn : S -> SocketAddr -> A) accepts :
  accepting spawn accepts = mk_task ((fun c => spawn c.1 c.2) <$> accepted accepts) (stopped accepts).
Proof.
  induction accepts as [|a accepts IH]; [done|]. cbn [accepting].
  destruct a as [ [s peer]|e| |]; [|done..].
  erewrite bind_lift_Ok by reflexivity. cbn beta iota. by rewrite bind_emit, IH.
Qed.

Lemma stopped_not_ok {S} (accepts : list (io (S * SocketAddr))) : is_ok (stopped accepts) = false.
Proof. induction accepts as [|[c|e| |] accepts IH]; done. Qed.

(** It runs on exactly while nothing fails. *)
Lemma stopped_Hang {S} (accepts : list (io (S * SocketAddr))) :
  Forall (fun a => is_ok a = true) accepts -> stopped accepts = Hang.
Proof. induction 1 as [|[c|e| |] accepts Ha _ IH]; done. Qed.

Lemma stopped_error {S} (before : list (S * SocketAddr)) e after :
  stopped ((Ok <$> before) ++ Err e :: after) = Err (io_msg e) /\
  accepted ((Ok <$> before) ++ Err e :: after) = before.
Proof. induction before as [|c before [IH1 IH2] ]; [done|]. cbn. by rewrite IH2. Qed.
