(* ===== verification/Float64.v ===== *)
(** * f64

    Rust's [f64] as the executable IEEE 754 binary64 of the standard library
    ([spec_float] with 53 digits), the casts [as f64] and [as u64],
    [str::parse::<f64>], and the formatting [{:.2}]. *)
From S2P Require Import Prelude Text.
From Corelib Require Export SpecFloat.

Abbreviation f64 := spec_float.

Definition prec : Z := 53.
Definition emax : Z := 1024.

Definition f64_add : f64 -> f64 -> f64 := SFadd prec emax.
Definition f64_sub : f64 -> f64 -> f64 := SFsub prec emax.
Definition f64_mul : f64 -> f64 -> f64 := SFmul prec emax.
Definition f64_div : f64 -> f64 -> f64 := SFdiv prec emax.
Definition f64_lt : f64 -> f64 -> bool := SFltb.
Definition f64_le : f64 -> f64 -> bool := SFleb.

Definition f64_zero : f64 := S754_zero false.

(** [x as f64] of an integer: the nearest double, ties to even. *)
Definition f64_of_Z (x : Z) : f64 := binary_normalize prec emax x 0 false.

(** The integer part of a finite double, towards zero, without its sign. *)
Definition trunc_finite (m : positive) (e : Z) : Z := Z.shiftl (Z.pos m) e.

(** [x as u{w}]: NaN is 0, everything else saturates. *)
Definition f64_to_u (w : Z) (x : f64) : Z :=
  match x with
  | S754_nan | S754_zero _ => 0
  | S754_infinity s => if s then 0 else 2 ^ w - 1
  | S754_finite s m e => if s then 0 else Z.min (2 ^ w - 1) (trunc_finite m e)
  end.

Lemma f64_to_u_range w x : 0 <= w -> in_u w (f64_to_u w x).
Proof.
  intros Hw. unfold in_u. pose proof (Z.pow_pos_nonneg 2 w ltac:(lia) Hw).
  destruct x as [|[]| |[] m e]; unfold f64_to_u, trunc_finite; try lia.
  assert (0 <= Z.shiftl (Z.pos m) e) by (apply Z.shiftl_nonneg; lia). lia.
Qed.

(** ** Decimal to double *)

(** [m * 10^e], correctly rounded. *)
Definition f64_of_decimal (sign : bool) (m e : Z) : f64 :=
  match m with
  | Z.pos p =>
      match e with
      | Z.neg q => f64_div (S754_finite sign p 0) (S754_finite false (10 ^ q)%positive 0)
      | _ => binary_normalize prec emax (if sign then - (m * 10 ^ e) else m * 10 ^ e) 0 sign
      end
  | _ => S754_zero sign
  end.

(** The digits at the start of [s] and the rest. *)
Fixpoint span_digits (s : str) : str * str :=
  match s with
  | [] => ([], [])
  | b :: s' =>
      match digit_val b with
      | Some _ => let '(d, r) := span_digits s' in (b :: d, r)
      | None => ([], s)
      end
  end.

Definition lower (b : byte) : byte := if in_range 65 90 b then z2b (b2z b + 32) else b.

(** The exponent part: nothing, or [e] or [E], an optional sign and digits
    up to the end. *)
Definition parse_exponent (s : str) : option Z :=
  match s with
  | [] => Some 0
  | b :: s =>
      if decide (lower b = Byte.x65) then
        let '(neg, s) :=
          match s with
          | c :: s' => if decide (c = Byte.x2d) then (true, s')
                       else if decide (c = Byte.x2b) then (false, s') else (false, s)
          | [] => (false, [])
          end in
        match span_digits s with
        | (d :: ds, []) => x ← digits_val 0 (d :: ds); Some (if (neg : bool) then - x else x)
        | _ => None
        end
      else None
  end.

(** [s.parse::<f64>()]. *)
Definition parse_f64 (s : str) : option f64 :=
  let '(neg, s) :=
    match s with
    | c :: s' => if decide (c = Byte.x2d) then (true, s')
                 else if decide (c = Byte.x2b) then (false, s') else (false, s)
    | [] => (false, [])
    end in
  let l := lower <$> s in
  if decide (l = lit "inf" \/ l = lit "infinity") then Some (S754_infinity neg)
  else if decide (l = lit "nan") then Some S754_nan
  else
    let '(ip, s) := span_digits s in
    let '(fp, s) :=
      match s with
      | c :: s' => if decide (c = Byte.x2e) then span_digits s' else ([], s)
      | [] => ([], [])
      end in
    match ip ++ fp with
    | [] => None
    | ds =>
        m ← digits_val 0 ds;
        e ← parse_exponent s;
        Some (f64_of_decimal neg m (e - Z.of_nat (length fp)))
    end.

(** ** Double to text *)

(** [x / 2^k] rounded to an integer, ties to even. *)
Definition round_half_even (x k : Z) : Z :=
  let d := 2 ^ k in
  let q := x / d in
  match (2 * (x mod d) ?= d) with
  | Lt => q
  | Gt => q + 1
  | Eq => if Z.even q then q else q + 1
  end.

Definition hundredths (m : positive) (e : Z) : Z :=
  if 0 <=? e then Z.pos m * 2 ^ e * 100 else round_half_even (Z.pos m * 100) (- e).

Definition show_hundredths (sign : bool) (h : Z) : str :=
  (if sign then lit "-" else []) ++ show_u (h / 100) ++ lit "." ++
  [digit (h / 10 mod 10); digit (h mod 10)].

(** [{:.2}]. *)
Definition show_f64_2 (x : f64) : str :=
  match x with
  | S754_nan => lit "NaN"
  | S754_infinity s => if s then lit "-inf" else lit "inf"
  | S754_zero s => show_hundredths s 0
  | S754_finite s m e => show_hundredths s (hundredths m e)
  end.

Example parse_f64_1_5 :
  (fun x => f64_to_u 64 (f64_mul x (f64_of_Z 1000000))) <$> parse_f64 (lit "1.5") = Some 1500000.
Proof. vm_compute. reflexivity. Qed.

Example parse_f64_tenth : parse_f64 (lit "0.1") = Some (S754_finite false 7205759403792794 (-56)).
Proof. vm_compute. reflexivity. Qed.

Example parse_f64_bad :
  (parse_f64 (lit "abc"), parse_f64 (lit "."), parse_f64 (lit "1e"), parse_f64 []) =
  (None, None, None, None).
Proof. vm_compute. reflexivity. Qed.

Example show_f64_2_eighth : show_f64_2 (f64_div (f64_of_Z 1) (f64_of_Z 8)) = lit "0.12".
Proof. vm_compute. reflexivity. Qed.

Example show_f64_2_pi : show_f64_2 (f64_div (f64_of_Z 314159) (f64_of_Z 100000)) = lit "3.14".
Proof. vm_compute. reflexivity. Qed.

(** ** Signs and order

    The doubles a duration gives rise to are not negative, never NaN, and
    never a negative zero; on those the comparison is a total order. *)
Definition nonneg (x : f64) : Prop :=
  match x with
  | S754_zero s | S754_infinity s | S754_finite s _ _ => s = false
  | S754_nan => False
  end.

(** [partial_cmp], with unordered as equal. *)
Definition f64_cmp (a b : f64) : comparison := default Eq (SFcompare a b).

Lemma shr_nonneg mrs e n : 0 <= shr_m mrs -> 0 <= shr_m (shr mrs e n).1.
Proof.
  intros Hm. destruct n as [|n|n]; [done| |done]. cbn [shr fst].
  assert (forall r, 0 <= shr_m r -> 0 <= shr_m (shr_1 r)) as H1.
  { intros [ [|[q|q|]|q] r s]; cbn; lia. }
  revert mrs Hm. induction n as [n IH|n IH|]; intros mrs Hm; cbn [iter_pos]; auto.
Qed.

Lemma shr_record_of_loc_m m l : shr_m (shr_record_of_loc m l) = m.
Proof. by destruct l as [|[]]. Qed.

Lemma binary_round_aux_nonneg m e l : 0 <= m -> nonneg (binary_round_aux prec emax false m e l).
Proof.
  intros Hm. unfold binary_round_aux, shr_fexp.
  destruct (shr _ _ _) as [mrs e'] eqn:E.
  pose proof (shr_nonneg (shr_record_of_loc m l) e (fexp prec emax (Zdigits2 m + e) - e)) as H1.
  rewrite E, shr_record_of_loc_m in H1. specialize (H1 Hm). cbn [fst] in H1.
  set (m' := round_nearest_even _ _).
  assert (0 <= m').
  { unfold m', round_nearest_even. destruct (loc_of_shr_record mrs) as [|[]]; try case_match; lia. }
  destruct (shr _ e' _) as [mrs' e''] eqn:E'.
  pose proof (shr_nonneg (shr_record_of_loc m' loc_Exact) e' (fexp prec emax (Zdigits2 m' + e') - e')) as H2.
  rewrite E', shr_record_of_loc_m in H2. specialize (H2 ltac:(done)). cbn [fst] in H2.
  destruct (shr_m mrs'); [done| |lia]. by case_match.
Qed.

Lemma binary_normalize_nonneg m e : 0 <= m -> nonneg (binary_normalize prec emax m e false).
Proof.
  intros Hm. destruct m as [|m|m]; [done| |lia]. cbn. unfold binary_round.
  destruct (shl_align _ _ _). by apply binary_round_aux_nonneg.
Qed.

Lemma f64_of_Z_nonneg x : 0 <= x -> nonneg (f64_of_Z x).
Proof. apply binary_normalize_nonneg. Qed.

Lemma f64_add_nonneg a b : nonneg a -> nonneg b -> nonneg (f64_add a b).
Proof.
  destruct a as [s|s| |s m e], b as [s'|s'| |s' m' e']; cbn [nonneg]; intros Ha Hb;
    try done; subst; try done. unfold f64_add, SFadd. cbn [cond_Zopp].
  by apply binary_normalize_nonneg.
Qed.

(** Products and quotients, away from the indeterminate forms. *)
Lemma f64_mul_finite_nonneg m e b : nonneg b -> nonneg (f64_mul b (S754_finite false m e)).
Proof.
  destruct b as [s'|s'| |s' m' e']; cbn [nonneg]; intros Hb; try done; subst; try done.
  unfold f64_mul, SFmul. cbn [xorb]. by apply binary_round_aux_nonneg.
Qed.

Lemma f64_div_finite_nonneg m e a : nonneg a -> nonneg (f64_div a (S754_finite false m e)).
Proof.
  destruct a as [s'|s'| |s' m' e']; cbn [nonneg]; intros Ha; try done; subst; try done.
  unfold f64_div, SFdiv, SFdiv_core_binary.
  set (m2 := match _ with Z0 => _ | Zpos _ => _ | Zneg _ => _ end).
  assert (0 <= m2).
  { unfold m2. destruct (_ - _); [lia| |lia]. apply Z.shiftl_nonneg. lia. }
  pose proof (Z.div_pos m2 (Z.pos m) ltac:(done) ltac:(lia)) as Hq. unfold Z.div in Hq.
  destruct (Z.div_eucl m2 _) as [q r]. cbn [xorb]. by apply binary_round_aux_nonneg.
Qed.

Lemma f64_cmp_opp a b : f64_cmp b a = CompOpp (f64_cmp a b).
Proof.
  destruct a as [ [] | [] | | [] m e], b as [ [] | [] | | [] m' e']; try done; unfold f64_cmp; cbn;
    rewrite (Z.compare_antisym e e'); destruct (e ?= e') eqn:?; try done;
    fold (Pos.compare m m') (Pos.compare m' m); rewrite (Pos.compare_antisym m m');
    by destruct (Pos.compare m m').
Qed.

(** On non-negative doubles the order is that of exponent and mantissa. *)
Definition f64_below (a b : f64) : Prop :=
  match a, b with
  | S754_zero _, _ => True
  | _, S754_infinity _ => True
  | S754_finite _ m e, S754_finite _ m' e' => e < e' \/ e = e' /\ (m <= m')%positive
  | _, _ => False
  end.

Lemma f64_cmp_below a b : nonneg a -> nonneg b -> f64_cmp a b <> Gt <-> f64_below a b.
Proof.
  destruct a as [ [] | [] | | [] m e], b as [ [] | [] | | [] m' e']; cbn [nonneg]; intros Ha Hb;
    try done; unfold f64_cmp; cbn.
  fold (Pos.compare m m'). destruct (Z.compare_spec e e'), (Pos.compare_spec m m'); split; intros; try lia; done.
Qed.

Lemma f64_below_trans a b c : f64_below a b -> f64_below b c -> f64_below a c.
Proof. destruct a, b, c; cbn; try done; lia. Qed.

Lemma f64_below_antisym a b : nonneg a -> nonneg b -> f64_below a b -> f64_below b a -> a = b.
Proof.
  destruct a as [s|s| |s m e], b as [s'|s'| |s' m' e']; cbn; try done; intros; subst; try done.
  assert (e = e') as -> by lia. assert (m = m') as -> by lia. done.
Qed.

Lemma f64_below_total a b : nonneg a -> nonneg b -> f64_below a b \/ f64_below b a.
Proof.
  intros Ha Hb. rewrite <- !f64_cmp_below, (f64_cmp_opp a b) by done. destruct (f64_cmp a b); cbn; auto.
Qed.
