(* ===== verification/Protocol.v ===== *)
(** * Bench wire protocol (src/bench/protocol.rs)

    The control-channel messages and the per-datagram header, each with its
    writer, its reader and the bytes it takes on the wire. *)
From S2P Require Import Prelude AsyncIo Text.

Definition MAGIC : list byte := lit "PROXYBEN".
Definition VERSION : Z := 1.

Definition KIND_TCP_UP : Z := 0.
Definition KIND_TCP_DOWN : Z := 1.
Definition KIND_UDP_UP : Z := 2.
Definition KIND_UDP_DOWN : Z := 3.
Definition KIND_CLOSE : Z := 4.

Definition STATUS_OK : Z := 0.
Definition STATUS_ERR : Z := 1.

Definition UDP_HEADER_LEN : nat := 16.

(** ** Handshake *)
Definition write_handshake `{AsyncWrite W} (w : W) : io W :=
  w ← write_all MAGIC w;
  write_u8 VERSION w.

Definition read_handshake `{AsyncRead R} (r : R) : io (unit * R) :=
  '(magic, r) ← read_exact 8 r;
  if decide (magic = MAGIC) then
    '(version, r) ← read_u8 r;
    if decide (version = VERSION) then Ok (tt, r)
    else Err (mk_io_error InvalidData
                (lit "bench handshake: unsupported version " ++ show_u version))
  else Err (mk_io_error InvalidData (lit "bench handshake: bad magic")).

Definition handshake_wire : list byte := MAGIC ++ be_bytes 1 VERSION.

(** ** TestRequest *)
Module TestRequest.
Record t : Type := mk {
  kind : Z;
  duration_ms : Z;
  payload_size : Z;
  bandwidth_bps : Z;
  expected_packets : Z;
}.

Definition wf (m : t) : Prop :=
  u8 (kind m) /\ u32 (duration_ms m) /\ u32 (payload_size m) /\
  u64 (bandwidth_bps m) /\ u64 (expected_packets m).

Definition close : t := mk KIND_CLOSE 0 0 0 0.

Definition write `{AsyncWrite W} (self : t) (w : W) : io W :=
  w ← write_u8 (kind self) w;
  w ← write_u32 (duration_ms self) w;
  w ← write_u32 (payload_size self) w;
  w ← write_u64 (bandwidth_bps self) w;
  write_u64 (expected_packets self) w.

Definition read `{AsyncRead R} (r : R) : io (t * R) :=
  '(kind, r) ← read_u8 r;
  '(duration_ms, r) ← read_u32 r;
  '(payload_size, r) ← read_u32 r;
  '(bandwidth_bps, r) ← read_u64 r;
  '(expected_packets, r) ← read_u64 r;
  Ok (mk kind duration_ms payload_size bandwidth_bps expected_packets, r).

Definition is_udp (self : t) : bool :=
  bool_decide (kind self = KIND_UDP_UP) || bool_decide (kind self = KIND_UDP_DOWN).

Definition wire (m : t) : list byte :=
  be_bytes 1 (kind m) ++ be_bytes 4 (duration_ms m) ++ be_bytes 4 (payload_size m) ++
  be_bytes 8 (bandwidth_bps m) ++ be_bytes 8 (expected_packets m).
End TestRequest.

(** ** TestResponse *)
Module TestResponse.
Record t : Type := mk {
  status : Z;
  data_port : Z;
  error : str;
}.

Definition wf (m : t) : Prop :=
  u8 (status m) /\ u16 (data_port m) /\ utf8_valid (error m) = true.

Definition ok (data_port : Z) : t := mk STATUS_OK data_port [].

Definition err (msg : str) : t := mk STATUS_ERR 0 msg.

(** The length field: the byte count of the message, clamped to 16 bits. *)
Definition wire_len (error : str) : Z := clamp_u 16 (Z.of_nat (length error)).

Definition write `{AsyncWrite W} (self : t) (w : W) : io W :=
  w ← write_u8 (status self) w;
  w ← write_u16 (data_port self) w;
  let len := wire_len (error self) in
  w ← write_u16 len w;
  bytes ← slice (error self) 0 (Z.to_nat len);
  write_all bytes w.

Definition read `{AsyncRead R} (r : R) : io (t * R) :=
  '(status, r) ← read_u8 r;
  '(data_port, r) ← read_u16 r;
  '(err_len, r) ← read_u16 r;
  '(err_buf, r) ← read_exact (Z.to_nat err_len) r;
  Ok (mk status data_port (from_utf8_lossy err_buf), r).

Definition wire (m : t) : list byte :=
  be_bytes 1 (status m) ++ be_bytes 2 (data_port m) ++
  be_bytes 2 (wire_len (error m)) ++ take (Z.to_nat (wire_len (error m))) (error m).
End TestResponse.

(** ** TestReport *)
Module TestReport.
Record t : Type := mk {
  bytes : Z;
  packets : Z;
  max_seq : Z;
  ooo : Z;
  dup : Z;
  jitter_ns : Z;
  latency_min_ns : Z;
  latency_max_ns : Z;
  latency_sum_ns : Z;
  duration_actual_ns : Z;
}.

Definition default : t := mk 0 0 0 0 0 0 0 0 0 0.

Definition fields (m : t) : list Z :=
  [bytes m; packets m; max_seq m; ooo m; dup m; jitter_ns m; latency_min_ns m;
   latency_max_ns m; latency_sum_ns m; duration_actual_ns m].

Definition wf (m : t) : Prop := Forall u64 (fields m).

Definition write `{AsyncWrite W} (self : t) (w : W) : io W :=
  w ← write_u64 (bytes self) w;
  w ← write_u64 (packets self) w;
  w ← write_u64 (max_seq self) w;
  w ← write_u64 (ooo self) w;
  w ← write_u64 (dup self) w;
  w ← write_u64 (jitter_ns self) w;
  w ← write_u64 (latency_min_ns self) w;
  w ← write_u64 (latency_max_ns self) w;
  w ← write_u64 (latency_sum_ns self) w;
  write_u64 (duration_actual_ns self) w.

Definition read `{AsyncRead R} (r : R) : io (t * R) :=
  '(bytes, r) ← read_u64 r;
  '(packets, r) ← read_u64 r;
  '(max_seq, r) ← read_u64 r;
  '(ooo, r) ← read_u64 r;
  '(dup, r) ← read_u64 r;
  '(jitter_ns, r) ← read_u64 r;
  '(latency_min_ns, r) ← read_u64 r;
  '(latency_max_ns, r) ← read_u64 r;
  '(latency_sum_ns, r) ← read_u64 r;
  '(duration_actual_ns, r) ← read_u64 r;
  Ok (mk bytes packets max_seq ooo dup jitter_ns latency_min_ns latency_max_ns
        latency_sum_ns duration_actual_ns, r).

Definition wire (m : t) : list byte := concat (be_bytes 8 <$> fields m).
End TestReport.

#[export] Instance request_eq_dec : EqDecision TestRequest.t.
Proof. solve_decision. Defined.
#[export] Instance response_eq_dec : EqDecision TestResponse.t.
Proof. solve_decision. Defined.
#[export] Instance report_eq_dec : EqDecision TestReport.t.
Proof. solve_decision. Defined.

(** ** Datagram header: sequence number and send timestamp, 16 bytes *)
Definition encode_udp_header (buf : list byte) (seq send_ts_ns : Z) : io (list byte) :=
  buf ← copy_range buf 0 8 (be_bytes 8 seq);
  copy_range buf 8 16 (be_bytes 8 send_ts_ns).

Definition decode_udp_header (buf : list byte) : io (option (Z * Z)) :=
  if decide (length buf < UDP_HEADER_LEN)%nat then Ok None
  else
    seq ← slice buf 0 8;
    ts ← slice buf 8 16;
    Ok (Some (be_val seq, be_val ts)).

(** ** Lemmas *)
Section lemmas.
Context `{AsyncReadLaws R} `{AsyncWriteLaws W}.

Lemma write_handshake_encodes : encodes (W:=W) write_handshake handshake_wire.
Proof. apply encodes_bind; [apply encodes_write_all|apply encodes_uint]. Qed.

Lemma write_request_encodes (m : TestRequest.t) :
  encodes (W:=W) (TestRequest.write m) (TestRequest.wire m).
Proof. solve_encodes. Qed.

Lemma read_request_decodes (m : TestRequest.t) :
  TestRequest.wf m -> decodes (R:=R) TestRequest.read (TestRequest.wire m) m.
Proof.
  intros (?&?&?&?&?). destruct m as [k d p b e]; cbn in *.
  unfold TestRequest.wire, TestRequest.read. cbn. solve_decodes.
Qed.

Lemma read_request_accepts (r : R) m r' :
  TestRequest.read r = Ok (m, r') ->
  unread r = TestRequest.wire m ++ unread r' /\ TestRequest.wf m.
Proof.
  unfold TestRequest.read. intros Hr.
  repeat (inv_bind Hr; destruct a as [? ?]; apply read_uint_inv in Ha as [Hu ?];
          let U := fresh "U" in rename Hu into U).
  injection Hr as <- <-. unfold TestRequest.wire, TestRequest.wf. cbn.
  split; [|done]. by rewrite U, U0, U1, U2, U3, <- !app_assoc.
Qed.

Lemma write_response_encodes (m : TestResponse.t) :
  encodes (W:=W) (TestResponse.write m) (TestResponse.wire m).
Proof.
  solve_encodes.
  intros w w' Hw. inv_bind Hw. unfold slice in Ha. case_decide; [|done].
  simplify_eq. rewrite Nat.sub_0_r, drop_0 in Hw. by eapply encodes_write_all.
Qed.

Lemma wire_len_u16 e : u16 (TestResponse.wire_len e).
Proof. apply clamp_u_range. lia. Qed.

Lemma wire_len_le e : (Z.to_nat (TestResponse.wire_len e) <= length e)%nat.
Proof. unfold TestResponse.wire_len. rewrite clamp_u_min by lia. lia. Qed.

(** What the reader sees of a response: the message cut at the length
    field and decoded lossily. *)
Lemma read_response_decodes (m : TestResponse.t) :
  u8 (TestResponse.status m) -> u16 (TestResponse.data_port m) ->
  decodes (R:=R) TestResponse.read (TestResponse.wire m)
    (TestResponse.mk (TestResponse.status m) (TestResponse.data_port m)
       (from_utf8_lossy
          (take (Z.to_nat (TestResponse.wire_len (TestResponse.error m)))
             (TestResponse.error m)))).
Proof.
  intros Hs Hp. unfold TestResponse.wire, TestResponse.read.
  set (e := TestResponse.error m). pose proof (wire_len_u16 e). pose proof (wire_len_le e).
  solve_decodes.
  eapply (decodes_map _ (fun b => TestResponse.mk _ _ (from_utf8_lossy b))).
  apply decodes_read_exact. rewrite length_take. lia.
Qed.

Lemma write_report_encodes (m : TestReport.t) :
  encodes (W:=W) (TestReport.write m) (TestReport.wire m).
Proof.
  unfold TestReport.wire. cbn [TestReport.fields fmap list_fmap concat].
  rewrite app_nil_r. solve_encodes.
Qed.

Lemma read_report_decodes (m : TestReport.t) :
  TestReport.wf m -> decodes (R:=R) TestReport.read (TestReport.wire m) m.
Proof.
  unfold TestReport.wf, TestReport.fields. rewrite !Forall_cons.
  intros (?&?&?&?&?&?&?&?&?&?&_). destruct m; cbn in *.
  unfold TestReport.wire, TestReport.read. cbn [TestReport.fields fmap list_fmap concat].
  cbn. rewrite app_nil_r. solve_decodes.
Qed.

Lemma read_report_accepts (r : R) m r' :
  TestReport.read r = Ok (m, r') ->
  unread r = TestReport.wire m ++ unread r' /\ TestReport.wf m.
Proof.
  unfold TestReport.read. intros Hr.
  repeat (inv_bind Hr; destruct a as [? ?]; apply read_uint_inv in Ha as [Hu ?];
          let U := fresh "U" in rename Hu into U).
  injection Hr as <- <-. unfold TestReport.wire, TestReport.wf, TestReport.fields. cbn.
  split; [|by rewrite !Forall_cons]. rewrite app_nil_r.
  by rewrite U, U0, U1, U2, U3, U4, U5, U6, U7, U8, <- !app_assoc.
Qed.

Lemma read_handshake_decodes : decodes (R:=R) read_handshake handshake_wire tt.
Proof.
  unfold read_handshake, handshake_wire.
  eapply decodes_bind; [by apply decodes_read_exact|].
  cbn beta. destruct (decide (MAGIC = MAGIC)); [|done].
  rewrite <- (app_nil_r (be_bytes 1 VERSION)).
  eapply decodes_bind; [by apply decodes_uint|].
  cbn beta. destruct (decide (VERSION = VERSION)); [apply decodes_ret|done].
Qed.

Lemma read_handshake_accepts (r r' : R) :
  read_handshake r = Ok (tt, r') -> unread r = handshake_wire ++ unread r'.
Proof.
  unfold read_handshake. intros Hr. inv_bind Hr. destruct a as [magic r1].
  apply read_exact_inv in Ha as [Hu _]. case_decide; [subst|done].
  inv_bind Hr. destruct a as [v r2]. apply read_uint_inv in Ha as [Hu' _].
  case_decide; [subst|done]. simplify_eq. by rewrite Hu, Hu', app_assoc.
Qed.
End lemmas.

Lemma encode_udp_header_Ok buf seq ts :
  (UDP_HEADER_LEN <= length buf)%nat ->
  encode_udp_header buf seq ts = Ok (be_bytes 8 seq ++ be_bytes 8 ts ++ drop 16 buf).
Proof.
  unfold UDP_HEADER_LEN. intros Hl. unfold encode_udp_header.
  rewrite copy_range_Ok by (rewrite ?be_bytes_length; lia). rewrite bind_Ok_eq.
  change (take 0 buf) with (@nil byte). cbn [app].
  rewrite copy_range_Ok by (rewrite ?length_app, ?length_drop, ?be_bytes_length; lia).
  rewrite take_app_length' by by rewrite be_bytes_length.
  rewrite drop_app_ge by (rewrite be_bytes_length; lia).
  rewrite be_bytes_length, drop_drop. done.
Qed.

Lemma decode_udp_header_app seq ts rest :
  u64 seq -> u64 ts ->
  decode_udp_header (be_bytes 8 seq ++ be_bytes 8 ts ++ rest) = Ok (Some (seq, ts)).
Proof.
  intros Hs Ht. unfold decode_udp_header, UDP_HEADER_LEN.
  rewrite decide_False by (rewrite !length_app, !be_bytes_length; lia).
  pose proof (slice_app_mid (E:=io_error) [] (be_bytes 8 seq) (be_bytes 8 ts ++ rest)) as H1.
  pose proof (slice_app_mid (E:=io_error) (be_bytes 8 seq) (be_bytes 8 ts) rest) as H2.
  rewrite !be_bytes_length in *. cbn [app length Nat.add] in *.
  rewrite H1, bind_Ok_eq, H2, bind_Ok_eq. by rewrite !be_val_be_bytes_id.
Qed.

Lemma decode_udp_header_total buf : is_ok (decode_udp_header buf) = true.
Proof.
  unfold decode_udp_header, UDP_HEADER_LEN. case_decide; [done|].
  rewrite (slice_Ok buf 0 8) by lia. cbn. by rewrite slice_Ok by lia.
Qed.

Lemma wire_request_length m : length (TestRequest.wire m) = 25%nat.
Proof. unfold TestRequest.wire. by rewrite !length_app, !be_bytes_length. Qed.

Lemma wire_report_length m : length (TestReport.wire m) = 80%nat.
Proof.
  unfold TestReport.wire. cbn [TestReport.fields fmap list_fmap concat].
  by rewrite !length_app, !be_bytes_length.
Qed.

(** ** Properties *)

(** Writing a well-formed [TestRequest] sends 25 bytes, and a reader
    that meets them at the head of its stream yields the same request and
    leaves the rest of the stream; conversely whatever a reader accepts is a
    well-formed request followed by the rest of the stream. *)
Theorem request_roundtrip {R W} `{AsyncReadLaws R} `{AsyncWriteLaws W}
    (m : TestRequest.t) (w w' : W) :
  TestRequest.wf m -> TestRequest.write m w = Ok w' ->
  exists sent, written w' = written w ++ sent /\ length sent = 25%nat /\
    (forall (r : R) rest, unread r = sent ++ rest ->
       exists r', TestRequest.read r = Ok (m, r') /\ unread r' = rest) /\
    (forall (r r' : R) m', TestRequest.read r = Ok (m', r') ->
       TestRequest.wf m' /\ unread r = TestRequest.wire m' ++ unread r' /\
       (unread r = sent ++ unread r' -> m' = m)).
Proof.
  intros Hm Hw. exists (TestRequest.wire m).
  split; [by eapply write_request_encodes|]. split; [apply wire_request_length|].
  split; [intros r rest Hr; by eapply read_request_decodes|].
  intros r r' m' Hr. pose proof (read_request_accepts _ _ _ Hr) as [Hu Hwf].
  split; [done|]. split; [done|]. intros Hs.
  destruct (read_request_decodes m Hm r (unread r') Hs) as (r'' & Hr'' & _). congruence.
Qed.

Example request_roundtrip_witness :
  let m := TestRequest.mk KIND_UDP_UP 10000 1200 10000000 0 in
  exists sent, written [Byte.x07] ++ sent =
      written ([Byte.x07] ++ TestRequest.wire m) /\
    exists r', TestRequest.read (sent ++ [Byte.x2a]) = Ok (m, r') /\ r' = [Byte.x2a].
Proof.
  intros m.
  destruct (request_roundtrip (R:=list byte) (W:=list byte) m [Byte.x07]
              ([Byte.x07] ++ TestRequest.wire m)) as (sent & Hw & _ & Hr & _).
  - solve_closed.
  - vm_compute. reflexivity.
  - exists sent. split; [by rewrite Hw|].
    destruct (Hr (sent ++ [Byte.x2a]) [Byte.x2a] eq_refl) as (r' & H1 & H2).
    exists r'. split; [exact H1|exact H2].
Defined.

(** A control stream that ends inside a request or a report is never
    accepted as one: the reader returns no value, whatever the stream
    implementation does at its end. *)
Theorem truncated_message_rejected {R} `{AsyncReadLaws R} (r : R) :
  ((length (unread r) < 25)%nat -> is_ok (TestRequest.read r) = false) /\
  ((length (unread r) < 80)%nat -> is_ok (TestReport.read r) = false).
Proof.
  split; intros Hl.
  - apply (accepts_short _ TestRequest.wire); [by intros ??? ?%read_request_accepts; naive_solver|].
    intros m. by rewrite wire_request_length.
  - apply (accepts_short _ TestReport.wire); [by intros ??? ?%read_report_accepts; naive_solver|].
    intros m. by rewrite wire_report_length.
Qed.

Example truncated_message_rejected_witness :
  is_ok (TestRequest.read (replicate 24 Byte.x00)) = false /\
  is_ok (TestReport.read (replicate 79 Byte.x00)) = false.
Proof.
  destruct (truncated_message_rejected (replicate 24 Byte.x00)) as [H1 _].
  destruct (truncated_message_rejected (replicate 79 Byte.x00)) as [_ H2].
  split; [apply H1|apply H2]; apply Nat.ltb_lt; vm_compute; reflexivity.
Defined.

(** A well-formed [TestReport] survives the control channel: its writer
    sends 80 bytes that the reader turns back into the same report, leaving
    the rest of the stream. *)
Theorem report_roundtrip {R W} `{AsyncReadLaws R} `{AsyncWriteLaws W}
    (m : TestReport.t) (w w' : W) :
  TestReport.wf m -> TestReport.write m w = Ok w' ->
  exists sent, written w' = written w ++ sent /\ length sent = 80%nat /\
    forall (r : R) rest, unread r = sent ++ rest ->
      exists r', TestReport.read r = Ok (m, r') /\ unread r' = rest.
Proof.
  intros Hm Hw. exists (TestReport.wire m).
  split; [by eapply write_report_encodes|]. split; [apply wire_report_length|].
  intros r rest Hr. by eapply read_report_decodes.
Qed.

Example report_roundtrip_witness :
  let m := TestReport.mk 1 2 3 4 5 6 7 8 9 (2 ^ 64 - 1) in
  exists sent, length sent = 80%nat /\
    exists r', TestReport.read (mk_conn (sent ++ [Byte.x2a]) false [] None) = Ok (m, r').
Proof.
  intros m.
  destruct (report_roundtrip (R:=conn) (W:=list byte) m [] (TestReport.wire m))
    as (sent & _ & Hl & Hr).
  - repeat (apply Forall_cons_2; [solve_closed|]). by apply Forall_nil.
  - vm_compute. reflexivity.
  - exists sent. split; [exact Hl|].
    destruct (Hr (mk_conn (sent ++ [Byte.x2a]) false [] None) [Byte.x2a] eq_refl)
      as (r' & H1 & _). exists r'. exact H1.
Defined.

(** The error text of a [TestResponse] is cut at 65535 bytes and what
    the peer reads is the lossy UTF-8 decoding of that prefix, which is
    always valid text; a message of at most 65535 bytes arrives unchanged.
    Status and port are always preserved, and the rest of the stream is
    left. *)
Theorem response_roundtrip {R W} `{AsyncReadLaws R} `{AsyncWriteLaws W}
    (m : TestResponse.t) (w w' : W) (r : R) sent rest :
  TestResponse.wf m -> TestResponse.write m w = Ok w' ->
  written w' = written w ++ sent -> unread r = sent ++ rest ->
  exists m' r', TestResponse.read r = Ok (m', r') /\ unread r' = rest /\
    TestResponse.status m' = TestResponse.status m /\
    TestResponse.data_port m' = TestResponse.data_port m /\
    utf8_valid (TestResponse.error m') = true /\
    TestResponse.error m' = from_utf8_lossy (take (Z.to_nat 65535) (TestResponse.error m)) /\
    (Z.of_nat (length (TestResponse.error m)) <= 65535 -> m' = m).
Proof.
  intros (Hs & Hp & He) Hw Hsent Hr.
  assert (sent = TestResponse.wire m) as ->.
  { apply write_response_encodes in Hw. rewrite Hw in Hsent. by apply app_inv_head in Hsent. }
  destruct (read_response_decodes m Hs Hp r rest Hr) as (r' & Hr' & Hu).
  assert (take (Z.to_nat (TestResponse.wire_len (TestResponse.error m))) (TestResponse.error m)
          = take (Z.to_nat 65535) (TestResponse.error m)) as Hcut.
  { unfold TestResponse.wire_len. rewrite clamp_u_min by lia.
    destruct (Z.le_ge_cases (Z.of_nat (length (TestResponse.error m))) 65535).
    - rewrite !take_ge by lia. done.
    - f_equal. lia. }
  rewrite Hcut in Hr'.
  eexists _, r'. split; [exact Hr'|]. split; [exact Hu|]. cbn. split; [done|]. split; [done|].
  split; [apply from_utf8_lossy_is_valid|]. split; [done|].
  intros Hl. rewrite take_ge by lia. rewrite from_utf8_lossy_valid by done. by destruct m.
Qed.

Example response_roundtrip_witness :
  let m := TestResponse.err (lit "unknown test kind 9") in
  exists m' r', TestResponse.read (TestResponse.wire m ++ [Byte.x2a]) = Ok (m', r') /\ m' = m.
Proof.
  intros m.
  destruct (response_roundtrip (R:=list byte) (W:=list byte) m [] (TestResponse.wire m)
              (TestResponse.wire m ++ [Byte.x2a]) (TestResponse.wire m) [Byte.x2a])
    as (m' & r' & Hr & _ & _ & _ & _ & _ & He).
  - solve_closed.
  - vm_compute. reflexivity.
  - reflexivity.
  - reflexivity.
  - exists m', r'. split; [exact Hr|]. apply He. solve_closed.
Defined.

(** C40: the messages of the control connection delimit themselves.  A request,
    a response and a report written one after the other are read back one
    after the other, whatever follows them: the request and the report as they
    were, of the response status and port as they were and of its error text
    the lossy decoding of its first 65535 bytes, which a shorter text survives.
    And what a reader takes for a request or a report is the encoding of one
    that is well-formed. *)
Theorem messages_roundtrip {R W} `{AsyncReadLaws R} `{AsyncWriteLaws W}
    req resp rep (w w1 w2 w3 : W) :
  TestRequest.wf req -> TestResponse.wf resp -> TestReport.wf rep ->
  TestRequest.write req w = Ok w1 -> TestResponse.write resp w1 = Ok w2 -> TestReport.write rep w2 = Ok w3 ->
  exists sent, written w3 = written w ++ sent /\
    (forall (r : R) rest, unread r = sent ++ rest ->
       exists r1 resp' r2 r3, TestRequest.read r = Ok (req, r1) /\ TestResponse.read r1 = Ok (resp', r2) /\
         TestReport.read r2 = Ok (rep, r3) /\ unread r3 = rest /\
         TestResponse.status resp' = TestResponse.status resp /\
         TestResponse.data_port resp' = TestResponse.data_port resp /\
         TestResponse.error resp' = from_utf8_lossy (take (Z.to_nat 65535) (TestResponse.error resp)) /\
         (Z.of_nat (length (TestResponse.error resp)) <= 65535 -> resp' = resp)) /\
    (forall (r r' : R) m, TestRequest.read r = Ok (m, r') ->
       TestRequest.wf m /\ unread r = TestRequest.wire m ++ unread r') /\
    (forall (r r' : R) m, TestReport.read r = Ok (m, r') ->
       TestReport.wf m /\ unread r = TestReport.wire m ++ unread r').
Proof.
  intros Hreq Hresp Hrep W1 W2 W3.
  exists (TestRequest.wire req ++ TestResponse.wire resp ++ TestReport.wire rep). split; [|split; [|split] ].
  - apply write_request_encodes in W1. apply write_report_encodes in W3.
    pose proof (write_response_encodes _ _ _ W2) as W2'. by rewrite W3, W2', W1, !app_assoc.
  - intros r rest Hr. rewrite <- !app_assoc in Hr.
    destruct (read_request_decodes req Hreq r _ Hr) as (r1 & R1 & U1).
    destruct (response_roundtrip resp w1 w2 r1 (TestResponse.wire resp) (TestReport.wire rep ++ rest)
      Hresp W2) as (resp' & r2 & R2 & U2 & Hst & Hp & _ & He & Hfull);
      [by apply write_response_encodes in W2|done|].
    destruct (read_report_decodes rep Hrep r2 _ U2) as (r3 & R3 & U3).
    by exists r1, resp', r2, r3.
  - intros r r' m Hr. by apply read_request_accepts in Hr as [? ?].
  - intros r r' m Hr. by apply read_report_accepts in Hr as [? ?].
Qed.

Definition demo_request : TestRequest.t := TestRequest.mk KIND_UDP_UP 10000 1200 10000000 0.
Definition demo_response : TestResponse.t := TestResponse.err (lit "unknown test kind 9").
Definition demo_report : TestReport.t := TestReport.mk 1 2 3 4 5 6 7 8 9 (2 ^ 64 - 1).

Lemma messages_roundtrip_witness :
  exists r1 r2 r3, TestRequest.read (TestRequest.wire demo_request ++ TestResponse.wire demo_response ++
      TestReport.wire demo_report ++ [Byte.x2a]) = Ok (demo_request, r1) /\
    TestResponse.read r1 = Ok (demo_response, r2) /\ TestReport.read r2 = Ok (demo_report, r3) /\
    r3 = [Byte.x2a].
Proof.
  destruct (messages_roundtrip (R:=list byte) (W:=list byte) demo_request demo_response demo_report []
    (TestRequest.wire demo_request) (TestRequest.wire demo_request ++ TestResponse.wire demo_response)
    (TestRequest.wire demo_request ++ TestResponse.wire demo_response ++ TestReport.wire demo_report))
    as (sent & Hs & Hr & _).
  - solve_closed.
  - solve_closed.
  - repeat (apply Forall_cons_2; [solve_closed|]). by apply Forall_nil.
  - vm_compute. reflexivity.
  - vm_compute. reflexivity.
  - vm_compute. reflexivity.
  - destruct (Hr (TestRequest.wire demo_request ++ TestResponse.wire demo_response ++
      TestReport.wire demo_report ++ [Byte.x2a]) [Byte.x2a])
      as (r1 & resp' & r2 & r3 & H1 & H2 & H3 & H4 & _ & _ & _ & Hfull).
    + cbn [written buf_write app] in Hs. rewrite <- Hs. by rewrite <- !app_assoc.
    + rewrite Hfull in H2 by solve_closed.
      exists r1, r2, r3. split; [exact H1|]. split; [exact H2|]. split; [exact H3|exact H4].
Defined.

(** The bench handshake succeeds on exactly the streams that start with
    the magic and version 1; it consumes those nine bytes and nothing else,
    and they are what the other side's [write_handshake] sends. *)
Theorem handshake_exact {R W} `{AsyncReadLaws R} `{AsyncWriteLaws W} (r : R) :
  (forall r', read_handshake r = Ok (tt, r') -> unread r = handshake_wire ++ unread r') /\
  (forall rest, unread r = handshake_wire ++ rest ->
     exists r', read_handshake r = Ok (tt, r') /\ unread r' = rest) /\
  (forall w w' : W, write_handshake w = Ok w' -> written w' = written w ++ handshake_wire).
Proof.
  split; [intros r'; apply read_handshake_accepts|]. split.
  - intros rest Hr. by apply read_handshake_decodes.
  - intros w w' Hw. by eapply write_handshake_encodes.
Qed.

Example handshake_exact_witness :
  exists r', read_handshake (handshake_wire ++ [Byte.x04]) = Ok (tt, r') /\ r' = [Byte.x04].
Proof.
  destruct (handshake_exact (W:=list byte) (handshake_wire ++ [Byte.x04])) as (_ & H & _).
  destruct (H [Byte.x04]) as (r' & H1 & H2); [reflexivity|].
  exists r'. split; [exact H1|exact H2].
Defined.

(** A datagram header round-trips through any buffer of at least 16
    bytes and leaves the payload after it alone; decoding never panics, and
    yields nothing exactly when the datagram is shorter than a header. *)
Theorem udp_header_roundtrip buf seq ts :
  u64 seq -> u64 ts -> (UDP_HEADER_LEN <= length buf)%nat ->
  (exists buf', encode_udp_header buf seq ts = Ok buf' /\ length buf' = length buf /\
     drop UDP_HEADER_LEN buf' = drop UDP_HEADER_LEN buf /\
     decode_udp_header buf' = Ok (Some (seq, ts))) /\
  (forall d, is_ok (decode_udp_header d) = true /\
     (decode_udp_header d = Ok None <-> (length d < UDP_HEADER_LEN)%nat)).
Proof.
  intros Hs Ht Hl. split.
  - eexists. split; [by apply encode_udp_header_Ok|]. unfold UDP_HEADER_LEN in *.
    split; [rewrite !length_app, !be_bytes_length, length_drop; lia|].
    split; [|by apply decode_udp_header_app].
    rewrite app_assoc, drop_app_ge by (rewrite length_app, !be_bytes_length; lia).
    by rewrite length_app, !be_bytes_length.
  - intros d. split; [apply decode_udp_header_total|].
    unfold decode_udp_header, UDP_HEADER_LEN. case_decide as Hd; [done|].
    rewrite (slice_Ok d 0 8) by lia. cbn. rewrite slice_Ok by lia. cbn. naive_solver.
Qed.

Example udp_header_roundtrip_witness :
  exists buf', encode_udp_header (replicate 20 Byte.x00) 7 (2 ^ 40) = Ok buf' /\
    decode_udp_header buf' = Ok (Some (7, 2 ^ 40)).
Proof.
  destruct (udp_header_roundtrip (replicate 20 Byte.x00) 7 (2 ^ 40)) as [(b & H1 & _ & _ & H2) _].
  - solve_closed.
  - solve_closed.
  - vm_compute; lia.
  - exists b. split; [exact H1|exact H2].
Defined.
