(* ===== verification/Stats.v ===== *)
(** * Receive-side UDP statistics (src/bench/stats.rs)

    [UdpStats.record] with its overflow behaviour in both build profiles, and
    the summary it computes of a stream of datagrams: an abstract
    specification over the list of first arrivals that [record] implements. *)
From S2P Require Import Prelude AsyncIo Float64 Protocol.

Module UdpStats.
Record t : Type := mk {
  bytes : Z;
  packets : Z;
  max_seq : Z;
  ooo : Z;
  dup : Z;
  jitter_ns : f64;
  last_transit_ns : option Z;
  latency_min_ns : Z;
  latency_max_ns : Z;
  latency_sum_ns : Z;
  seen : gset Z;
  have_max : bool;
}.

Definition default : t := mk 0 0 0 0 0 f64_zero None 0 0 0 ∅ false.

(** The running minimum: 0 stands for "none yet". *)
Definition next_min (cur latency : Z) : Z :=
  if bool_decide (cur = 0) || (latency <? cur) then latency else cur.

Definition next_max (cur latency : Z) : Z := if cur <? latency then latency else cur.

(** One step of the RFC 3550 estimator. *)
Definition next_jitter (jitter : f64) (d : Z) : f64 :=
  f64_add jitter (f64_div (f64_sub (f64_of_Z d) jitter) (f64_of_Z 16)).

(** The highest sequence number and the out-of-order count. *)
Definition next_order (p : profile) (have_max : bool) (max_seq ooo seq : Z) : io (Z * Z) :=
  if negb have_max then Ok (seq, ooo)
  else if max_seq <? seq then Ok (seq, ooo)
  else ooo ← arith_u p 64 (ooo + 1); Ok (max_seq, ooo).

(** The jitter estimate after a datagram with this transit time. *)
Definition jitter_step (p : profile) (last : option Z) (jitter : f64) (transit_ns : Z) : io f64 :=
  match last with
  | Some last => d ← arith_i p 64 (transit_ns - last); Ok (next_jitter jitter (Z.abs d))
  | None => Ok jitter
  end.

Definition record (p : profile) (self : t) (seq send_ts_ns recv_ts_ns payload_len : Z) : io t :=
  if decide (seq ∈ seen self) then
    dup ← arith_u p 64 (dup self + 1);
    Ok (mk (bytes self) (packets self) (max_seq self) (ooo self) dup (jitter_ns self)
          (last_transit_ns self) (latency_min_ns self) (latency_max_ns self)
          (latency_sum_ns self) (seen self) (have_max self))
  else
    bytes ← arith_u p 64 (bytes self + payload_len);
    packets ← arith_u p 64 (packets self + 1);
    '(max_seq, ooo) ← next_order p (have_max self) (max_seq self) (ooo self) seq;
    let latency := saturating_sub recv_ts_ns send_ts_ns in
    let latency_min_ns := next_min (latency_min_ns self) latency in
    let latency_max_ns := next_max (latency_max_ns self) latency in
    let latency_sum_ns := saturating_add 128 (latency_sum_ns self) latency in
    transit_ns ← arith_i p 64 (cast_i 64 recv_ts_ns - cast_i 64 send_ts_ns);
    jitter_ns ← jitter_step p (last_transit_ns self) (jitter_ns self) transit_ns;
    Ok (mk bytes packets max_seq ooo (dup self) jitter_ns (Some transit_ns) latency_min_ns
          latency_max_ns latency_sum_ns ({[seq]} ∪ seen self) true).

Definition into_report (self : t) (duration_actual_ns : Z) : TestReport.t :=
  TestReport.mk (bytes self) (packets self) (max_seq self) (ooo self) (dup self)
    (f64_to_u 64 (jitter_ns self)) (latency_min_ns self) (latency_max_ns self)
    (clamp_u 64 (latency_sum_ns self)) duration_actual_ns.

(** Type invariant: every counter is a 64-bit integer, the sum a 128-bit
    one. *)
Definition wf (s : t) : Prop :=
  u64 (bytes s) /\ u64 (packets s) /\ u64 (max_seq s) /\ u64 (ooo s) /\ u64 (dup s) /\
  u64 (latency_min_ns s) /\ u64 (latency_max_ns s) /\ u128 (latency_sum_ns s).
End UdpStats.

(** ** Specification: what the statistics say about a stream of datagrams *)
Record datagram : Type := mk_datagram { seq : Z; sent : Z; received : Z; len : Z }.

#[export] Instance datagram_eq_dec : EqDecision datagram.
Proof. solve_decision. Defined.

Definition latency (d : datagram) : Z := saturating_sub (received d) (sent d).
Definition transit (d : datagram) : Z := received d - sent d.

(** The datagrams that were the first with their sequence number. *)
Definition add_arrival (a : list datagram) (d : datagram) : list datagram :=
  if decide (seq d ∈ (seq <$> a)) then a else a ++ [d].

Definition arrivals (h : list datagram) : list datagram := foldl add_arrival [] h.

(** How many of [a] came after a higher number, [m] being the highest so
    far. *)
Fixpoint late (m : Z) (a : list datagram) : Z :=
  match a with
  | [] => 0
  | d :: a => (if seq d <? m then 1 else 0) + late (Z.max m (seq d)) a
  end.

Definition highest (a : list datagram) : Z := foldr Z.max 0 (seq <$> a).

Definition sum_list_Z (l : list Z) : Z := foldr Z.add 0 l.

(** RFC 3550, A.8: [J += (|D| - J) / 16] for the difference [D] of each two
    consecutive transit times, from 0, in binary64. *)
Definition differences (ts : list Z) : list Z := zip_with (fun t t' => Z.abs (t' - t)) ts (tail ts).

Definition rfc3550 (j : f64) (d : Z) : f64 :=
  f64_add j (f64_div (f64_sub (f64_of_Z d) j) (f64_of_Z 16)).

Definition jitter_of (ts : list Z) : f64 := foldl rfc3550 f64_zero (differences ts).

(** The least of the latencies after the last one that is zero, or 0. *)
Fixpoint after_last_zero (l : list Z) : list Z :=
  match l with
  | [] => []
  | x :: l => if decide (0 ∈ l) then after_last_zero l else if x =? 0 then l else x :: l
  end.

Definition least (l : list Z) : Z := match l with [] => 0 | x :: l => foldr Z.min x l end.

Definition min_latency (a : list datagram) : Z := least (after_last_zero (latency <$> a)).

Definition max_latency (a : list datagram) : Z := foldr Z.max 0 (latency <$> a).

Definition summary (h : list datagram) : UdpStats.t :=
  let a := arrivals h in
  UdpStats.mk
    (sum_list_Z (len <$> a))
    (Z.of_nat (length a))
    (highest a)
    (late 0 a)
    (Z.of_nat (length h - length a))
    (jitter_of (transit <$> a))
    (last (transit <$> a))
    (min_latency a)
    (max_latency a)
    (Z.min u128_MAX (sum_list_Z (latency <$> a)))
    (list_to_set (seq <$> a))
    (bool_decide (a <> [])).

(** Feeding [record] a stream. *)
Definition record_all (p : profile) (s : UdpStats.t) (h : list datagram) : io UdpStats.t :=
  foldl (fun s d => s ← s; UdpStats.record p s (seq d) (sent d) (received d) (len d)) (Ok s) h.

(** A stream the counters can hold: timestamps below 2^62 ns (146 years). *)
Definition datagram_ok (d : datagram) : Prop :=
  u64 (seq d) /\ in_u 62 (sent d) /\ in_u 62 (received d) /\ 0 <= len d.

Definition fits (h : list datagram) : Prop :=
  Forall datagram_ok h /\ u64 (sum_list_Z (len <$> h)) /\ u64 (Z.of_nat (length h)).

(** ** Lemmas on the specification *)
Lemma arrivals_snoc h d : arrivals (h ++ [d]) = add_arrival (arrivals h) d.
Proof. unfold arrivals. by rewrite foldl_app. Qed.

Lemma arrivals_ind (P : list datagram -> list datagram -> Prop) :
  P [] [] ->
  (forall h a d, P h a -> seq d ∈ seq <$> a -> P (h ++ [d]) a) ->
  (forall h a d, P h a -> seq d ∉ seq <$> a -> P (h ++ [d]) (a ++ [d])) ->
  forall h, P h (arrivals h).
Proof.
  intros H0 H1 H2 h. induction h as [|d h IH] using rev_ind; [done|].
  rewrite arrivals_snoc. unfold add_arrival. case_decide; auto.
Qed.

Lemma arrivals_sub h d : d ∈ arrivals h -> d ∈ h.
Proof.
  revert h. apply (arrivals_ind (fun h a => d ∈ a -> d ∈ h)); [done| |];
    intros h a x IH Hx; rewrite ?elem_of_app; naive_solver.
Qed.

Lemma arrivals_Forall (P : datagram -> Prop) h : Forall P h -> Forall P (arrivals h).
Proof. rewrite !Forall_forall. eauto using arrivals_sub. Qed.

Lemma arrivals_length h : (length (arrivals h) <= length h)%nat.
Proof.
  revert h. apply (arrivals_ind (fun h a => (length a <= length h)%nat)); [done| |];
    intros h a x IH Hx; rewrite ?length_app; cbn; lia.
Qed.

(** No sequence number is counted twice, and none is missed. *)
Lemma arrivals_NoDup h : NoDup (seq <$> arrivals h).
Proof.
  revert h. apply (arrivals_ind (fun h a => NoDup (seq <$> a))); [constructor|done|].
  intros h a d IH Hd. rewrite fmap_app, NoDup_app. split_and!; [done| |apply NoDup_singleton].
  intros x Hx. cbn. rewrite list_elem_of_singleton. by intros ->.
Qed.

Lemma arrivals_seqs h x : x ∈ seq <$> arrivals h <-> x ∈ seq <$> h.
Proof.
  revert h. apply (arrivals_ind (fun h a => x ∈ seq <$> a <-> x ∈ seq <$> h)); [done| |];
    intros h a d IH Hd; rewrite ?fmap_app, ?elem_of_app, IH; cbn;
    rewrite ?list_elem_of_singleton; [|done].
  split; [by left|]. intros [ | -> ]; [done|]. by apply IH.
Qed.

Lemma arrivals_not_nil h : h <> [] -> arrivals h <> [].
Proof.
  intros Hh0 Ha. destruct h as [|d h]; [done|].
  assert (seq d ∈ seq <$> arrivals (d :: h)) as Hin by (apply arrivals_seqs; left).
  rewrite Ha in Hin. set_solver.
Qed.

Lemma sum_list_Z_app l l' : sum_list_Z (l ++ l') = sum_list_Z l + sum_list_Z l'.
Proof. unfold sum_list_Z. induction l; cbn; lia. Qed.

Lemma sum_list_Z_nonneg l : Forall (fun x => 0 <= x) l -> 0 <= sum_list_Z l.
Proof. unfold sum_list_Z. induction 1; cbn; lia. Qed.

Lemma foldr_max_app l l' : foldr Z.max 0 (l ++ l') = Z.max (foldr Z.max 0 l) (foldr Z.max 0 l').
Proof. induction l as [|x l IH]; cbn; [|lia]. induction l'; cbn; lia. Qed.

Lemma foldr_max_ge l x : x ∈ l -> x <= foldr Z.max 0 l.
Proof. induction 1; cbn; lia. Qed.

Lemma foldr_max_in l : Forall (fun x => 0 <= x) l -> l <> [] -> foldr Z.max 0 l ∈ l.
Proof.
  induction 1 as [|x l Hx Hl IH]; [done|]. intros _. cbn.
  destruct l as [|y l]; [cbn; rewrite Z.max_l by done; by left|].
  destruct (Z.max_spec x (foldr Z.max 0 (y :: l))) as [ [_ ->] | [_ ->] ]; [right; by apply IH|left].
Qed.

Lemma late_snoc m a d : 
  0 <= m ->
  late m (a ++ [d]) = late m a + (if seq d <? Z.max m (highest a) then 1 else 0).
Proof.
  unfold highest. revert m. induction a as [|x a IH]; intros m Hm.
  - cbn. rewrite Z.max_l by lia. lia.
  - cbn. rewrite IH by lia. rewrite <- Z.max_assoc. lia.
Qed.

Lemma late_bounds m a : 0 <= late m a <= Z.of_nat (length a).
Proof.
  revert m. induction a as [|d a IH]; intros m; cbn; [lia|].
  specialize (IH (Z.max m (seq d))). case_bool; lia.
Qed.

(** The first arrival is never late. *)
Lemma late_lt a :
  Forall (fun d => 0 <= seq d) a -> a <> [] -> late 0 a < Z.of_nat (length a).
Proof.
  destruct 1 as [|d a Hd Ha]; [done|]. intros _. cbn [late length].
  pose proof (late_bounds (Z.max 0 (seq d)) a). destruct (Z.ltb_spec (seq d) 0); lia.
Qed.

Lemma differences_snoc ts t :
  differences (ts ++ [t]) =
    match last ts with Some l => differences ts ++ [Z.abs (t - l)] | None => [] end.
Proof.
  induction ts as [|x ts IH]; [done|]. destruct ts as [|y ts]; [done|].
  rewrite last_cons_cons. change (differences ((x :: y :: ts) ++ [t])) with
    (Z.abs (y - x) :: differences ((y :: ts) ++ [t])). rewrite IH.
  destruct (last_is_Some (y :: ts)) as [_ [l ->] ]; done.
Qed.

Lemma jitter_of_snoc ts t :
  jitter_of (ts ++ [t]) =
    match last ts with
    | Some l => UdpStats.next_jitter (jitter_of ts) (Z.abs (t - l))
    | None => jitter_of ts
    end.
Proof.
  unfold jitter_of. rewrite differences_snoc. destruct (last ts) as [l|] eqn:E.
  - by rewrite foldl_app.
  - apply last_None in E. by subst ts.
Qed.

Lemma after_last_zero_snoc l x :
  after_last_zero (l ++ [x]) = if x =? 0 then [] else after_last_zero l ++ [x].
Proof.
  induction l as [|y l IH]; cbn; [by destruct (x =? 0)|]. rewrite IH.
  destruct (Z.eqb_spec x 0) as [E|Hx]; [subst x|].
  - by rewrite decide_True by set_solver.
  - destruct (decide (0 ∈ l)) as [H0|H0].
    + by rewrite decide_True by set_solver.
    + rewrite decide_False by set_solver. by destruct (y =? 0).
Qed.

Lemma after_last_zero_pos l :
  Forall (fun x => 0 <= x) l -> Forall (fun x => 0 < x) (after_last_zero l).
Proof.
  induction l as [|x l IH] using rev_ind; [done|]. intros [Hl [Hx _]%Forall_cons]%Forall_app.
  rewrite after_last_zero_snoc. destruct (Z.eqb_spec x 0); [done|].
  apply Forall_app. split; [by apply IH|]. constructor; [lia|done].
Qed.

Lemma least_snoc l x : least (l ++ [x]) = match l with [] => x | _ => Z.min (least l) x end.
Proof. destruct l as [|y l]; [done|]. cbn. induction l as [|z l IH]; cbn; [lia|]. rewrite IH. lia. Qed.

Lemma least_pos l : Forall (fun x => 0 < x) l -> l <> [] -> 0 < least l.
Proof. destruct 1 as [|x l Hx Hl]; [done|]. intros _. cbn. induction Hl; cbn; lia. Qed.

Lemma latency_nonneg d : 0 <= latency d.
Proof. unfold latency, saturating_sub. lia. Qed.

Lemma Forall_latency_nonneg a : Forall (fun x => 0 <= x) (latency <$> a).
Proof. rewrite Forall_fmap. apply Forall_true. intros d. apply latency_nonneg. Qed.

(** The running minimum of the code computes it. *)
Lemma min_latency_snoc a d :
  min_latency (a ++ [d]) = UdpStats.next_min (min_latency a) (latency d).
Proof.
  unfold min_latency. rewrite fmap_app. cbn [fmap list_fmap]. rewrite after_last_zero_snoc.
  pose proof (after_last_zero_pos _ (Forall_latency_nonneg a)) as Hp.
  set (l := after_last_zero _) in *. pose proof (latency_nonneg d). unfold UdpStats.next_min.
  destruct (decide (l = [])) as [->|Hne].
  - cbn. by destruct (Z.eqb_spec (latency d) 0).
  - pose proof (least_pos l Hp Hne). rewrite bool_decide_false by lia. cbn [orb].
    destruct (Z.eqb_spec (latency d) 0) as [E|E].
    + rewrite E. cbn [least]. destruct (Z.ltb_spec 0 (least l)); lia.
    + rewrite least_snoc. destruct l; [done|]. destruct (Z.ltb_spec (latency d) (least (z :: l))); lia.
Qed.

Lemma next_max_max cur x : UdpStats.next_max cur x = Z.max cur x.
Proof. unfold UdpStats.next_max. destruct (cur <? x) eqn:E; lia. Qed.

(** ** [record] computes the summary *)
Lemma arith_i64_small {E} p r :
  - 2 ^ 63 <= r < 2 ^ 63 -> arith_i (E:=E) p 64 r = Ok r.
Proof. intros H. unfold arith_i. by rewrite decide_True by (cbn in *; lia). Qed.

Lemma cast_i64_small x : in_u 62 x -> cast_i 64 x = x.
Proof. unfold in_u. intros H. apply cast_i_id; lia. Qed.

Lemma transit_small d : datagram_ok d -> - 2 ^ 62 < transit d < 2 ^ 62.
Proof. unfold datagram_ok, transit, in_u. lia. Qed.

Lemma summary_seen h x : x ∈ UdpStats.seen (summary h) <-> x ∈ seq <$> h.
Proof. cbn. rewrite elem_of_list_to_set. apply arrivals_seqs. Qed.

Lemma len_sum_arrivals h :
  Forall (fun d => 0 <= len d) h ->
  0 <= sum_list_Z (len <$> arrivals h) <= sum_list_Z (len <$> h).
Proof.
  revert h. apply (arrivals_ind (fun h a => Forall (fun d => 0 <= len d) h ->
    0 <= sum_list_Z (len <$> a) <= sum_list_Z (len <$> h))); [done| |];
    intros h a d IH Hd [Hh [Hl _]%Forall_cons]%Forall_app;
    specialize (IH Hh); rewrite !fmap_app, !sum_list_Z_app; cbn; lia.
Qed.

Lemma fits_app h d : fits (h ++ [d]) -> fits h /\ datagram_ok d.
Proof.
  intros ([Hh [Hd _]%Forall_cons]%Forall_app & Hs & Hl).
  split; [|done]. split; [done|].
  rewrite fmap_app, sum_list_Z_app in Hs. rewrite length_app in Hl. cbn in *.
  assert (0 <= sum_list_Z (len <$> h)).
  { apply sum_list_Z_nonneg. rewrite Forall_fmap.
    eapply Forall_impl; [exact Hh|]. unfold datagram_ok; cbn; tauto. }
  unfold datagram_ok, in_u in *. lia.
Qed.

Lemma highest_snoc a d : highest (a ++ [d]) = Z.max (highest a) (Z.max (seq d) 0).
Proof. unfold highest. rewrite fmap_app, foldr_max_app. cbn. lia. Qed.

Lemma highest_elem a :
  Forall (fun d => 0 <= seq d) a -> a <> [] -> highest a ∈ seq <$> a.
Proof.
  intros Ha Hne. apply foldr_max_in; [by rewrite Forall_fmap|]. by destruct a.
Qed.

Lemma highest_nonneg a : 0 <= highest a.
Proof. unfold highest. induction a; cbn; lia. Qed.

Lemma summary_dup h d :
  seq d ∈ seq <$> h -> summary (h ++ [d]) =
    let s := summary h in
    UdpStats.mk (UdpStats.bytes s) (UdpStats.packets s) (UdpStats.max_seq s)
      (UdpStats.ooo s) (UdpStats.dup s + 1) (UdpStats.jitter_ns s)
      (UdpStats.last_transit_ns s) (UdpStats.latency_min_ns s) (UdpStats.latency_max_ns s)
      (UdpStats.latency_sum_ns s) (UdpStats.seen s) (UdpStats.have_max s).
Proof.
  intros Hd. unfold summary. rewrite arrivals_snoc. unfold add_arrival.
  rewrite decide_True by by apply arrivals_seqs. cbn. f_equal.
  pose proof (arrivals_length h). rewrite length_app. cbn. lia.
Qed.

(** The counters of a fresh datagram, field by field. *)
Lemma summary_fresh h d :
  seq d ∉ seq <$> h -> datagram_ok d -> summary (h ++ [d]) =
    let s := summary h in
    UdpStats.mk (UdpStats.bytes s + len d) (UdpStats.packets s + 1)
      (Z.max (UdpStats.max_seq s) (seq d))
      (UdpStats.ooo s + (if seq d <? UdpStats.max_seq s then 1 else 0)) (UdpStats.dup s)
      (match UdpStats.last_transit_ns s with
       | Some l => UdpStats.next_jitter (UdpStats.jitter_ns s) (Z.abs (transit d - l))
       | None => UdpStats.jitter_ns s end)
      (Some (transit d)) (UdpStats.next_min (UdpStats.latency_min_ns s) (latency d))
      (UdpStats.next_max (UdpStats.latency_max_ns s) (latency d))
      (saturating_add 128 (UdpStats.latency_sum_ns s) (latency d))
      ({[seq d]} ∪ UdpStats.seen s) true.
Proof.
  intros Hd Hok. unfold summary. rewrite arrivals_snoc. unfold add_arrival.
  rewrite decide_False by by rewrite arrivals_seqs. cbn.
  pose proof (arrivals_length h) as Hl. pose proof (highest_nonneg (arrivals h)).
  assert (0 <= seq d) by (unfold datagram_ok, in_u in Hok; lia).
  rewrite !fmap_app, sum_list_Z_app, highest_snoc, late_snoc by lia.
  cbn [fmap list_fmap]. rewrite jitter_of_snoc, min_latency_snoc, last_snoc, next_max_max.
  f_equal; try (cbn; rewrite ?length_app; cbn; lia).
  - by rewrite Z.max_r by done.
  - unfold max_latency. rewrite fmap_app, foldr_max_app. cbn. pose proof (latency_nonneg d). lia.
  - unfold saturating_add, u128_MAX. rewrite sum_list_Z_app. cbn. pose proof (latency_nonneg d). lia.
  - rewrite list_to_set_app_L. cbn. set_solver.
  - rewrite bool_decide_true; [done|]. by destruct (arrivals h).
Qed.

Lemma seq_nonneg_arrivals h :
  Forall datagram_ok h -> Forall (fun d => 0 <= seq d) (arrivals h).
Proof.
  intros H. apply arrivals_Forall. eapply Forall_impl; [exact H|].
  unfold datagram_ok, in_u. intros d; cbn; lia.
Qed.

(** The last transit recorded is that of some earlier datagram. *)
Lemma last_transit_small h l :
  Forall datagram_ok h -> last (transit <$> arrivals h) = Some l -> - 2 ^ 62 < l < 2 ^ 62.
Proof.
  intros Hh Hl. apply last_Some_elem_of, list_elem_of_fmap in Hl as (d & -> & Hd).
  apply transit_small. rewrite Forall_forall in Hh. by apply Hh, arrivals_sub.
Qed.

Lemma next_order_summary p h d :
  fits h -> datagram_ok d -> seq d ∉ seq <$> h ->
  UdpStats.next_order p (bool_decide (arrivals h <> [])) (highest (arrivals h))
    (late 0 (arrivals h)) (seq d) =
  Ok (Z.max (highest (arrivals h)) (seq d),
      late 0 (arrivals h) + (if seq d <? highest (arrivals h) then 1 else 0)).
Proof.
  intros (Hh & _ & Hn) Hd Hin. destruct Hd as (Hsq & _). unfold UdpStats.next_order.
  pose proof (late_bounds 0 (arrivals h)). pose proof (arrivals_length h).
  case_bool_decide as Hne; cbn.
  - assert (highest (arrivals h) <> seq d) as Hneq.
    { intros Heq. apply Hin. rewrite <- Heq. apply arrivals_seqs, highest_elem; [|done].
      by apply seq_nonneg_arrivals. }
    destruct (Z.ltb_spec (highest (arrivals h)) (seq d)).
    + rewrite Z.max_r by lia. destruct (Z.ltb_spec (seq d) (highest (arrivals h))); [lia|].
      by rewrite Z.add_0_r.
    + destruct (Z.ltb_spec (seq d) (highest (arrivals h))); [|lia].
      assert (0 < length (arrivals h))%nat by (destruct (arrivals h); cbn; [done|lia]).
      rewrite arith_u_Ok; [cbn; by rewrite Z.max_l by lia|].
      pose proof (late_lt (arrivals h) (seq_nonneg_arrivals h Hh) Hne). unfold in_u in *. lia.
  - rewrite Hne. cbn. unfold in_u in Hsq.
    rewrite Z.max_r by lia. destruct (Z.ltb_spec (seq d) 0); [lia|done].
Qed.

Lemma record_summary p h d :
  fits (h ++ [d]) ->
  UdpStats.record p (summary h) (seq d) (sent d) (received d) (len d) = Ok (summary (h ++ [d])).
Proof.
  intros Hf. destruct (fits_app _ _ Hf) as [Hfh Hd].
  destruct Hf as (Hall & Hs & Hn). unfold UdpStats.record.
  assert (Forall (fun d => 0 <= len d) (h ++ [d])) as Hlen.
  { eapply Forall_impl; [exact Hall|]. unfold datagram_ok; cbn; tauto. }
  pose proof (len_sum_arrivals _ Hlen) as Hb. pose proof (arrivals_length h) as Hal.
  case_decide as Hin; rewrite summary_seen in Hin.
  { rewrite summary_dup by done. rewrite length_app in Hn. cbn in *.
    rewrite arith_u_Ok; [done|]. unfold in_u in *. lia. }
  rewrite summary_fresh by done. rewrite arrivals_snoc in Hb. unfold add_arrival in Hb.
  rewrite decide_False in Hb by by rewrite arrivals_seqs.
  rewrite fmap_app, sum_list_Z_app in Hb. rewrite length_app in Hn.
  pose proof (transit_small _ Hd). pose proof Hd as (_ & Hst & Hrt & _). cbn in *.
  rewrite arith_u_Ok by (unfold in_u in *; lia). cbn.
  rewrite arith_u_Ok by (unfold in_u in *; lia). cbn.
  rewrite next_order_summary by done. cbn.
  rewrite !cast_i64_small by done. fold (transit d).
  rewrite arith_i64_small by lia. cbn. unfold UdpStats.jitter_step.
  destruct (last (transit <$> arrivals h)) as [l|] eqn:El; cbn; [|done].
  apply last_transit_small in El; [|apply Hfh]. by rewrite arith_i64_small by lia.
Qed.

Lemma record_all_snoc p s h d :
  record_all p s (h ++ [d]) =
    s ← record_all p s h; UdpStats.record p s (seq d) (sent d) (received d) (len d).
Proof. unfold record_all. by rewrite foldl_app. Qed.

Lemma fits_prefix h d : fits (h ++ [d]) -> fits h.
Proof. intros H. apply (fits_app _ _ H). Qed.

(** ** Release builds never panic *)
Lemma record_release_total s sq st rt n :
  is_ok (UdpStats.record Release s sq st rt n) = true.
Proof.
  unfold UdpStats.record. case_decide; rewrite ?arith_u_Release; [done|]. cbn.
  assert (forall r, exists x, arith_i (E:=io_error) Release 64 r = Ok x) as Hi.
  { intros r. unfold arith_i. case_decide; eauto. }
  unfold UdpStats.next_order, UdpStats.jitter_step.
  rewrite !arith_u_Release. destruct (Hi (cast_i 64 rt - cast_i 64 st)) as [x Hx].
  rewrite Hx. destruct (negb _); [|destruct (_ <? _)]; cbn;
    (destruct (UdpStats.last_transit_ns s) as [l|]; cbn; [|done];
     destruct (Hi (x - l)) as [y Hy]; by rewrite Hy).
Qed.

(** ** Type invariant *)
Lemma next_order_wf p hm m o sq m' o' :
  u64 m -> u64 o -> u64 sq ->
  UdpStats.next_order p hm m o sq = Ok (m', o') -> u64 m' /\ u64 o'.
Proof.
  intros Hm Ho Hs. unfold UdpStats.next_order.
  destruct (negb hm); [naive_solver|]. destruct (m <? sq); [naive_solver|].
  intros H. inv_bind H. simplify_eq. split; [done|]. by eapply arith_u_range in Ha.
Qed.

Lemma next_min_wf m x : u64 m -> u64 x -> u64 (UdpStats.next_min m x).
Proof. unfold UdpStats.next_min. by destruct (_ || _). Qed.

Lemma next_max_wf m x : u64 m -> u64 x -> u64 (UdpStats.next_max m x).
Proof. unfold UdpStats.next_max. by destruct (_ <? _). Qed.

Lemma saturating_sub_u64 x y : u64 x -> u64 y -> u64 (saturating_sub x y).
Proof. unfold saturating_sub, in_u. lia. Qed.

Lemma record_wf p s sq st rt n s' :
  UdpStats.wf s -> u64 sq -> u64 st -> u64 rt ->
  UdpStats.record p s sq st rt n = Ok s' -> UdpStats.wf s'.
Proof.
  intros (Hb & Hp & Hm & Ho & Hd & Hmin & Hmax & Hsum) Hsq Hst Hrt.
  unfold UdpStats.record. case_decide.
  - intros H'. inv_bind H'. simplify_eq. eapply arith_u_range in Ha; [|lia].
    by unfold UdpStats.wf.
  - intros H'. inv_bind H'. eapply arith_u_range in Ha; [|lia].
    inv_bind H'. eapply arith_u_range in Ha0; [|lia].
    inv_bind H'. destruct a1 as [m o]. eapply next_order_wf in Ha1 as [? ?]; [|done..].
    inv_bind H'. inv_bind H'. simplify_eq. unfold UdpStats.wf; cbn.
    pose proof (saturating_sub_u64 rt st Hrt Hst) as Hl.
    split_and!; auto using next_min_wf, next_max_wf.
    apply saturating_add_range; unfold in_u in *; lia.
Qed.

Lemma into_report_wf s dur : UdpStats.wf s -> u64 dur -> TestReport.wf (UdpStats.into_report s dur).
Proof.
  intros (?&?&?&?&?&?&?&?) ?. unfold TestReport.wf, TestReport.fields, UdpStats.into_report. cbn.
  repeat apply Forall_cons_2; try done.
  - by apply f64_to_u_range.
  - by apply clamp_u_range.
Qed.

(** ** The minimum *)
Lemma least_spec l : l <> [] -> least l ∈ l /\ Forall (fun x => least l <= x) l.
Proof.
  destruct l as [|m l]; [done|]. intros _. cbn [least].
  induction l as [|x l IH]; cbn.
  - split; [by left|]. by repeat constructor.
  - destruct IH as [Hin Hle]. apply Forall_cons in Hle as [Hm Hl]. split.
    + destruct (Z.min_spec x (foldr Z.min m l)) as [ [_ ->] | [_ ->] ]; [by right; left|].
      apply elem_of_cons in Hin as [-> |Hin]; [by left|by do 2 right].
    + constructor; [lia|]. constructor; [lia|]. eapply Forall_impl; [exact Hl|]. cbn. lia.
Qed.

Lemma after_last_zero_app pre post :
  Forall (fun x => 0 < x) post -> after_last_zero (pre ++ 0 :: post) = post.
Proof.
  intros Hp. assert (0 ∉ post) as H0.
  { intros H0. rewrite Forall_forall in Hp. by apply Hp in H0. }
  induction pre as [|x pre IH]; cbn; [by rewrite decide_False by done|].
  rewrite decide_True by set_solver. exact IH.
Qed.

Lemma after_last_zero_id l : Forall (fun x => 0 < x) l -> after_last_zero l = l.
Proof.
  intros Hp. destruct l as [|x l]; [done|]. cbn. apply Forall_cons in Hp as [Hx Hp].
  rewrite decide_False. { by destruct (Z.eqb_spec x 0); [lia|]. }
  intros H0. rewrite Forall_forall in Hp. by apply Hp in H0.
Qed.

Lemma record_all_summary p h :
  fits h -> record_all p UdpStats.default h = Ok (summary h).
Proof.
  induction h as [|d h IH] using rev_ind; [done|]. intros Hf.
  rewrite record_all_snoc, IH by by eapply fits_prefix. cbn. by apply record_summary.
Qed.

Lemma record_all_wf p h s s' :
  Forall datagram_ok h -> UdpStats.wf s -> record_all p s h = Ok s' -> UdpStats.wf s'.
Proof.
  intros Hh Hs. revert s'. induction h as [|d h IH] using rev_ind; intros s'; [by intros [= <-]|].
  apply Forall_app in Hh as [Hh [Hd _]%Forall_cons]. rewrite record_all_snoc.
  intros H. inv_bind H. destruct Hd as (? & Hst & Hrt & _).
  eapply record_wf; [by apply IH| | | |exact H]; unfold in_u in *; lia.
Qed.

Lemma default_wf : UdpStats.wf UdpStats.default.
Proof. solve_closed. Qed.

Lemma summary_wf h : fits h -> UdpStats.wf (summary h).
Proof.
  intros Hf. apply (record_all_wf Dev h UdpStats.default); [apply Hf|apply default_wf|].
  by apply record_all_summary.
Qed.

(** ** Properties *)

(** C16: fed any stream the 64-bit counters can hold, [record] never panics in
    either build profile and its state is exactly the summary of the stream:
    the byte count and the latency figures over the first arrival of each
    sequence number, the highest number, the count of arrivals below an
    earlier one, the duplicates, the RFC 3550 estimate over consecutive
    transit times, and as the minimum that of the latencies after the last
    one that was zero. *)
Theorem stats_refine_summary (p : profile) (h : list datagram) :
  fits h -> record_all p UdpStats.default h = Ok (summary h).
Proof. apply record_all_summary. Qed.

Definition stats_example : list datagram :=
  [mk_datagram 0 0 700 20; mk_datagram 2 1000 1600 30; mk_datagram 1 500 1900 40;
   mk_datagram 2 1000 1950 30].

Lemma stats_example_fits : fits stats_example.
Proof.
  split; [|solve_closed]. repeat (apply Forall_cons_2; [solve_closed|]). by apply Forall_nil.
Qed.

Example stats_refine_summary_witness :
  (fun s => (UdpStats.bytes s, UdpStats.packets s, UdpStats.max_seq s, UdpStats.ooo s,
             UdpStats.dup s, f64_to_u 64 (UdpStats.jitter_ns s)))
    <$> record_all Dev UdpStats.default stats_example = Ok (90, 3, 2, 1, 1, 55).
Proof.
  rewrite (stats_refine_summary Dev stats_example stats_example_fits).
  vm_compute. reflexivity.
Defined.

(** The report of any stream that fits accounts for every datagram:
    received plus duplicates is the number of datagrams, received is the
    number of distinct sequence numbers, the maximum is the highest of them,
    out-of-order arrivals are fewer than the packets received, and the bytes
    are at most those delivered. *)
Theorem stats_report_counts (p : profile) (h : list datagram) (dur : Z) :
  fits h -> exists s, record_all p UdpStats.default h = Ok s /\
    let r := UdpStats.into_report s dur in
    TestReport.packets r + TestReport.dup r = Z.of_nat (length h) /\
    TestReport.packets r = Z.of_nat (size (list_to_set (seq <$> h) : gset Z)) /\
    (forall d, d ∈ h -> seq d <= TestReport.max_seq r) /\
    (h <> [] -> TestReport.max_seq r ∈ seq <$> h) /\
    (h <> [] -> TestReport.ooo r < TestReport.packets r) /\
    TestReport.bytes r <= sum_list_Z (len <$> h) /\
    (u64 dur -> TestReport.wf r).
Proof.
  intros Hf. exists (summary h). split; [by apply record_all_summary|].
  pose proof Hf as (Hh & Hs & Hn). pose proof (arrivals_length h) as Hl.
  pose proof (seq_nonneg_arrivals h Hh) as Hnn. cbn.
  assert (forall d, d ∈ h -> seq d <= highest (arrivals h)) as Hmax.
  { intros d Hd. apply foldr_max_ge, arrivals_seqs. by apply list_elem_of_fmap_2. }
  pose proof (arrivals_not_nil h) as Hne.
  split; [lia|]. split.
  { f_equal. rewrite <- (length_fmap seq (arrivals h)).
    rewrite <- (size_list_to_set (C:=gset Z) _ (arrivals_NoDup h)). f_equal.
    apply set_eq. intros x. rewrite !elem_of_list_to_set. apply arrivals_seqs. }
  split; [done|]. split; [intros H0; apply arrivals_seqs, highest_elem; auto|].
  split; [intros H0; apply late_lt; auto|]. split.
  - apply len_sum_arrivals. eapply Forall_impl; [exact Hh|]. unfold datagram_ok; cbn; tauto.
  - intros Hdur. apply into_report_wf; [|done]. by apply summary_wf.
Qed.

Example stats_report_counts_witness :
  exists s, record_all Release UdpStats.default stats_example = Ok s /\
    TestReport.packets (UdpStats.into_report s 7) = 3 /\
    TestReport.packets (UdpStats.into_report s 7) + TestReport.dup (UdpStats.into_report s 7) = 4.
Proof.
  destruct (stats_report_counts Release stats_example 7 stats_example_fits)
    as (s & Hs & Hsum & Hp & _).
  exists s. split; [exact Hs|]. split; [|exact Hsum]. rewrite Hp. vm_compute. reflexivity.
Defined.

(** When every first arrival took a positive time the reported minimum is
    the least latency of the stream, and the reported maximum is the largest
    one in any case. *)
Theorem stats_latency_extremes (p : profile) (h : list datagram) (dur : Z) :
  fits h -> h <> [] -> Forall (fun d => 0 < latency d) (arrivals h) ->
  exists s, record_all p UdpStats.default h = Ok s /\
    let r := UdpStats.into_report s dur in
    TestReport.latency_min_ns r ∈ latency <$> arrivals h /\
    TestReport.latency_max_ns r ∈ latency <$> arrivals h /\
    Forall (fun d => TestReport.latency_min_ns r <= latency d <= TestReport.latency_max_ns r)
      (arrivals h).
Proof.
  intros Hf Hne Hpos. exists (summary h). split; [by apply record_all_summary|]. cbn.
  assert (latency <$> arrivals h <> []) as Ha.
  { intros E. by apply fmap_nil_inv, arrivals_not_nil in E. }
  assert (min_latency (arrivals h) = least (latency <$> arrivals h)) as Hm.
  { unfold min_latency. by rewrite after_last_zero_id by by rewrite Forall_fmap. }
  destruct (least_spec _ Ha) as [Hin Hle]. rewrite <- Hm in Hin, Hle. split; [done|]. split.
  - by apply foldr_max_in; [apply Forall_latency_nonneg|].
  - rewrite Forall_fmap in Hle. rewrite Forall_forall in Hle |- *. intros x Hx. split; [by apply Hle|].
    apply foldr_max_ge. by apply list_elem_of_fmap_2.
Qed.

Example stats_latency_extremes_witness :
  exists s, record_all Dev UdpStats.default stats_example = Ok s /\
    TestReport.latency_min_ns (UdpStats.into_report s 7) ∈ [700; 600; 1400].
Proof.
  destruct (stats_latency_extremes Dev stats_example 7 stats_example_fits) as (s & Hs & Hin & _).
  - discriminate.
  - repeat (apply Forall_cons_2; [solve_closed|]). by apply Forall_nil.
  - exists s. split; [exact Hs|exact Hin].
Defined.

(** A latency of zero is forgotten: 0 also means "no sample yet", so once
    later first arrivals took longer the reported minimum is the least of
    those, and every latency up to the last zero is dropped from it. *)
Theorem stats_zero_latency_forgotten (p : profile) (h : list datagram) pre post (dur : Z) :
  fits h -> latency <$> arrivals h = pre ++ 0 :: post ->
  Forall (fun x => 0 < x) post -> post <> [] ->
  exists s, record_all p UdpStats.default h = Ok s /\
    let r := UdpStats.into_report s dur in
    TestReport.latency_min_ns r ∈ post /\ 0 < TestReport.latency_min_ns r.
Proof.
  intros Hf Hl Hpost Hne. exists (summary h). split; [by apply record_all_summary|]. cbn.
  unfold min_latency. rewrite Hl, after_last_zero_app by done.
  split; [by apply least_spec|by apply least_pos].
Qed.

Example stats_zero_latency_forgotten_witness :
  exists s, record_all Release UdpStats.default
      [mk_datagram 0 0 0 16; mk_datagram 1 100 105 16] = Ok s /\
    TestReport.latency_min_ns (UdpStats.into_report s 200) ∈ [5].
Proof.
  destruct (stats_zero_latency_forgotten Release
    [mk_datagram 0 0 0 16; mk_datagram 1 100 105 16] [] [5] 200) as (s & Hs & Hin & _).
  - split; [|solve_closed]. repeat (apply Forall_cons_2; [solve_closed|]). by apply Forall_nil.
  - vm_compute. reflexivity.
  - apply Forall_cons_2; [solve_closed|]. by apply Forall_nil.
  - discriminate.
  - exists s. split; [exact Hs|exact Hin].
Defined.

(** C38: whatever a datagram claims, a release build survives it; a build
    with overflow checks panics on a datagram whose send timestamp is 2^63,
    from any state in which the counters have room. *)
Theorem hostile_timestamp (s : UdpStats.t) (sq rt n : Z) :
  UdpStats.wf s -> sq ∉ UdpStats.seen s -> in_u 63 rt -> 0 <= n ->
  UdpStats.bytes s + n < 2 ^ 64 -> UdpStats.packets s + 1 < 2 ^ 64 -> UdpStats.ooo s + 1 < 2 ^ 64 ->
  UdpStats.record Dev s sq (2 ^ 63) rt n = Panic /\
  (forall sq st rt n, is_ok (UdpStats.record Release s sq st rt n) = true).
Proof.
  intros (Hb & Hp & _ & Ho & _) Hin Hrt Hn Hb1 Hp1 Ho1.
  split; [|intros; apply record_release_total].
  unfold UdpStats.record. rewrite decide_False by done.
  rewrite arith_u_Ok by (unfold in_u in *; lia). cbn.
  rewrite arith_u_Ok by (unfold in_u in *; lia). cbn.
  assert (exists mo, UdpStats.next_order Dev (UdpStats.have_max s) (UdpStats.max_seq s)
            (UdpStats.ooo s) sq = Ok mo) as [ [m o] ->].
  { unfold UdpStats.next_order. destruct (negb _); [eauto|]. destruct (_ <? _); [eauto|].
    rewrite arith_u_Ok by (unfold in_u in *; lia). cbn. eauto. }
  cbn. assert (cast_i 64 (2 ^ 63) = - 2 ^ 63) as -> by reflexivity.
  rewrite (cast_i_id 64 rt) by (unfold in_u in Hrt; lia).
  unfold arith_i. rewrite decide_False; [done|]. unfold in_u in Hrt. lia.
Qed.

Example hostile_timestamp_witness :
  UdpStats.record Dev UdpStats.default 0 (2 ^ 63) 1000 16 = Panic.
Proof.
  apply (hostile_timestamp UdpStats.default 0 1000 16).
  - apply default_wf.
  - apply not_elem_of_empty.
  - solve_closed.
  - solve_closed.
  - solve_closed.
  - solve_closed.
  - solve_closed.
Defined.
