(* ===== verification/Pacer.v ===== *)
(** * Send-rate pacer (src/bench/pacer.rs)

    Instants are nanoseconds on the monotonic clock; [Instant::now()] is an
    argument.  The 128-bit arithmetic keeps its width. *)
From S2P Require Import Prelude AsyncIo.

Definition NANOS_PER_SEC : Z := 1000000000.

Module Pacer.
Record t : Type := mk {
  bandwidth_bps : Z;
  packet_bytes : Z;
  start : Z;
}.

Definition wf (s : t) : Prop := u64 (bandwidth_bps s) /\ u64 (packet_bytes s).

Definition new (bandwidth_bps packet_bytes now : Z) : t := mk bandwidth_bps packet_bytes now.

Definition target_packets_now (p : profile) (self : t) (now : Z) : io Z :=
  if decide (bandwidth_bps self = 0) then Ok u64_MAX
  else
    let elapsed_ns := saturating_sub now (start self) in
    bits_per_pkt ← arith_u p 128 (packet_bytes self * 8);
    if decide (bits_per_pkt = 0) then Ok u64_MAX
    else
      num ← arith_u p 128 (elapsed_ns * bandwidth_bps self);
      den ← arith_u p 128 (bits_per_pkt * NANOS_PER_SEC);
      if decide (den = 0) then Panic
      else Ok (clamp_u 64 (num / den)).

(** The instant to sleep until, or [None] when the call returns at once. *)
Definition sleep_until_packet (p : profile) (self : t) (nth now : Z) : io (option Z) :=
  if decide (bandwidth_bps self = 0) then Ok None
  else
    bits_per_pkt ← arith_u p 128 (packet_bytes self * 8);
    num ← arith_u p 128 (nth * bits_per_pkt);
    num ← arith_u p 128 (num * NANOS_PER_SEC);
    let target_ns := num / bandwidth_bps self in
    let target := start self + clamp_u 64 target_ns in
    Ok (if now <? target then Some target else None).
End Pacer.

(** ** Specification over unbounded integers *)

(** Bits-times-nanoseconds of one packet: the time between two packets is
    [cost / bandwidth]. *)
Definition cost (s : Pacer.t) : Z := Pacer.packet_bytes s * 8 * NANOS_PER_SEC.

(** Packets that fit into [elapsed] at the configured rate. *)
Definition due (s : Pacer.t) (elapsed : Z) : Z := elapsed * Pacer.bandwidth_bps s / cost s.

(** When packet [nth] is due, relative to the start. *)
Definition due_at (s : Pacer.t) (nth : Z) : Z := nth * cost s / Pacer.bandwidth_bps s.

(** Elapsed times and packet numbers the 128-bit intermediates hold:
    elapsed times up to 2^64 ns, and packet numbers whose due time is. *)
Definition limited (s : Pacer.t) : Prop :=
  0 < Pacer.bandwidth_bps s /\ 0 < Pacer.packet_bytes s.

Lemma cost_pos s : limited s -> 0 < cost s.
Proof. unfold limited, cost, NANOS_PER_SEC. lia. Qed.

Lemma target_packets_now_eq p s now :
  Pacer.wf s -> limited s -> now - Pacer.start s < 2 ^ 64 ->
  Pacer.target_packets_now p s now =
    Ok (clamp_u 64 (due s (saturating_sub now (Pacer.start s)))).
Proof.
  intros [Hb Hp] [Hb0 Hp0] Hn. unfold Pacer.target_packets_now, due, cost.
  unfold in_u in *.
  assert (u128 (Pacer.packet_bytes s * 8)) as H1 by (unfold in_u; lia).
  assert (u128 (saturating_sub now (Pacer.start s) * Pacer.bandwidth_bps s)) as H2
    by (unfold in_u, saturating_sub; nia).
  assert (u128 (Pacer.packet_bytes s * 8 * NANOS_PER_SEC)) as H3
    by (unfold in_u, NANOS_PER_SEC; lia).
  rewrite decide_False by lia. rewrite (arith_u_Ok _ _ _ H1). cbn.
  rewrite decide_False by lia. rewrite (arith_u_Ok _ _ _ H2), (arith_u_Ok _ _ _ H3). cbn.
  by rewrite decide_False by (unfold NANOS_PER_SEC; lia).
Qed.

Lemma sleep_until_packet_eq p s nth now :
  Pacer.wf s -> limited s -> 0 <= nth -> nth * cost s < 2 ^ 128 ->
  Pacer.sleep_until_packet p s nth now =
    Ok (let target := Pacer.start s + clamp_u 64 (due_at s nth) in
        if now <? target then Some target else None).
Proof.
  intros [Hb Hp] [Hb0 Hp0] Hn Hc. unfold Pacer.sleep_until_packet, due_at.
  unfold cost, in_u in *.
  assert (u128 (Pacer.packet_bytes s * 8)) as H1 by (unfold in_u; lia).
  assert (u128 (nth * (Pacer.packet_bytes s * 8))) as H2
    by (unfold in_u, NANOS_PER_SEC in *; nia).
  assert (u128 (nth * (Pacer.packet_bytes s * 8) * NANOS_PER_SEC)) as H3
    by (unfold in_u, NANOS_PER_SEC in *; nia).
  rewrite decide_False by lia. rewrite (arith_u_Ok _ _ _ H1). cbn.
  rewrite (arith_u_Ok _ _ _ H2). cbn. rewrite (arith_u_Ok _ _ _ H3). cbn.
  by rewrite <- Z.mul_assoc.
Qed.

Lemma target_packets_not_hang p s now : Pacer.target_packets_now p s now <> Hang.
Proof.
  unfold Pacer.target_packets_now. case_decide; [done|].
  apply bind_not_hang; [apply arith_u_not_hang|intros a _]. case_decide; [done|].
  apply bind_not_hang; [apply arith_u_not_hang|intros b _].
  apply bind_not_hang; [apply arith_u_not_hang|intros c _]. by case_decide.
Qed.

Lemma sleep_until_packet_not_hang p s nth now : Pacer.sleep_until_packet p s nth now <> Hang.
Proof.
  unfold Pacer.sleep_until_packet. case_decide; [done|].
  do 3 (apply bind_not_hang; [apply arith_u_not_hang|intros ? _]). done.
Qed.

(** A sleep ends no earlier than it starts, and within 2^64 ns of the
    start. *)
Lemma sleep_until_packet_wake p s nth now t :
  Pacer.sleep_until_packet p s nth now = Ok (Some t) ->
  now < t /\ t - Pacer.start s < 2 ^ 64.
Proof.
  unfold Pacer.sleep_until_packet. case_decide; [done|]. intros H'. do 3 inv_bind H'.
  injection H' as H'. pose proof (clamp_u_range 64 (a1 / Pacer.bandwidth_bps s)).
  destruct (Z.ltb_spec now (Pacer.start s + clamp_u 64 (a1 / Pacer.bandwidth_bps s))); [|done].
  simplify_eq. unfold in_u in *. lia.
Qed.

Lemma due_spec s elapsed :
  limited s -> due s elapsed * cost s <= elapsed * Pacer.bandwidth_bps s < (due s elapsed + 1) * cost s.
Proof.
  intros Hl. pose proof (cost_pos s Hl). unfold due.
  pose proof (Z.mul_div_le (elapsed * Pacer.bandwidth_bps s) (cost s)).
  pose proof (Z.mul_succ_div_gt (elapsed * Pacer.bandwidth_bps s) (cost s)). lia.
Qed.

Lemma due_mono s e e' : limited s -> e <= e' -> due s e <= due s e'.
Proof.
  intros Hl He. apply Z.div_le_mono; [by apply cost_pos|]. unfold limited in Hl. nia.
Qed.

Lemma due_nonneg s e : limited s -> 0 <= e -> 0 <= due s e.
Proof.
  intros Hl He. apply Z.div_pos; [|by apply cost_pos]. unfold limited in Hl. nia.
Qed.

Lemma due_at_spec s nth :
  limited s ->
  due_at s nth * Pacer.bandwidth_bps s <= nth * cost s < (due_at s nth + 1) * Pacer.bandwidth_bps s.
Proof.
  intros [Hb Hp]. unfold due_at.
  pose proof (Z.mul_div_le (nth * cost s) (Pacer.bandwidth_bps s)).
  pose proof (Z.mul_succ_div_gt (nth * cost s) (Pacer.bandwidth_bps s)). lia.
Qed.

(** Packet [nth] is counted as due only from its due time on ... *)
Lemma due_le_nth s nth e : limited s -> e <= due_at s nth -> due s e <= nth.
Proof.
  intros Hl He. pose proof (due_spec s e Hl). pose proof (due_at_spec s nth Hl).
  pose proof (cost_pos s Hl). unfold limited in Hl. nia.
Qed.

(** ... and [nth] packets are counted one nanosecond later at the latest. *)
Lemma due_ge_nth s nth e : limited s -> due_at s nth < e -> nth <= due s e.
Proof.
  intros Hl He. pose proof (due_spec s e Hl). pose proof (due_at_spec s nth Hl).
  pose proof (cost_pos s Hl). unfold limited in Hl. nia.
Qed.

(** Before packet [nth + 1] is due the count does not include packet [nth],
    even after packet [nth] itself is due. *)
Lemma slot_spin s nth e : limited s -> e < due_at s (nth + 1) -> due s e <= nth.
Proof.
  intros Hl He. pose proof (due_spec s e Hl). pose proof (due_at_spec s (nth + 1) Hl).
  pose proof (cost_pos s Hl). unfold limited in Hl. nia.
Qed.

Lemma due_at_mono s n n' : limited s -> n <= n' -> due_at s n <= due_at s n'.
Proof.
  intros Hl Hn. pose proof (cost_pos s Hl). apply Z.div_le_mono; [apply Hl|]. nia.
Qed.

Lemma due_at_nonneg s n : limited s -> 0 <= n -> 0 <= due_at s n.
Proof. intros Hl Hn. pose proof (cost_pos s Hl). apply Z.div_pos; [nia|apply Hl]. Qed.

(** ** Release builds: the wrapped 128-bit arithmetic never divides by 0 *)
Lemma target_packets_release s now :
  Pacer.wf s -> is_ok (Pacer.target_packets_now Release s now) = true.
Proof.
  intros [_ Hp]. unfold Pacer.target_packets_now. case_decide; [done|].
  unfold in_u in Hp.
  assert (u128 (Pacer.packet_bytes s * 8)) as H1 by (unfold in_u; lia).
  rewrite (arith_u_Ok _ _ _ H1). cbn. case_decide; [done|].
  assert (u128 (Pacer.packet_bytes s * 8 * NANOS_PER_SEC)) as H3
    by (unfold in_u, NANOS_PER_SEC; lia).
  rewrite (arith_u_Ok _ _ _ H3), arith_u_Release. cbn.
  by rewrite decide_False by (unfold NANOS_PER_SEC; lia).
Qed.

Lemma sleep_until_packet_release s nth now :
  is_ok (Pacer.sleep_until_packet Release s nth now) = true.
Proof.
  unfold Pacer.sleep_until_packet. case_decide; [done|].
  repeat (rewrite arith_u_Release; cbn). done.
Qed.
