(* ===== verification/UdpPlane.v ===== *)
(** * UDP data plane (the UDP halves of src/bench/client.rs and
    src/bench/server.rs)

    The paced sender of both ends and the receivers that feed [UdpStats].
    Time is a script of clock readings: every [Instant::now()] or
    [elapsed()] consumes one, no reading is earlier than the one before it,
    and a sleep moves the clock to its deadline.  A receiver waits in a
    [select!] for its socket and for its deadline: its script is the sequence
    of what happens to it, arrivals and moments at which the timer looks at
    the clock. *)
From S2P Require Import Prelude AsyncIo Float64 Protocol Stats Pacer.

Definition STRAGGLE_GRACE : Z := 500 * 1000000.

(** [elapsed().as_nanos() as u64] since [start]. *)
Definition elapsed_u64 (start t : Z) : Z := cast_u 64 (saturating_sub t start).

(** ** The paced sender

    The loop reads the clock at four places, one constructor each: the check
    at the head of the outer loop, the packet target, the check at the head
    of the inner loop (or, when nothing is due, the pacer's sleep), and the
    send timestamp. *)
Module Sender.
Inductive pc : Type :=
| Outer
| Target
| Inner (due : Z)
| Stamp (due : Z).

Inductive next : Type :=
| Goto (at_ : pc)
| Break.

Record t : Type := mk {
  seq : Z;
  bytes : Z;
  buf : list byte;
  log : list (list byte);
}.

Section loop.
Context (p : profile) (pacer : Pacer.t) (session_start deadline : Z).
(** The socket: what sending this datagram returns. *)
Context (net : list byte -> io Z).

(** One clock reading: where the loop goes next, the time it wakes up,
    and the state. *)
Definition step (at_ : pc) (now : Z) (s : t) : io (next * Z * t) :=
  match at_ with
  | Outer => Ok (if deadline <=? now then Break else Goto Target, now, s)
  | Target =>
      due ← Pacer.target_packets_now p pacer now;
      Ok (Goto (Inner due), now, s)
  | Inner due =>
      if seq s <? due then
        Ok (if deadline <=? now then Break else Goto (Stamp due), now, s)
      else
        wake ← Pacer.sleep_until_packet p pacer (seq s) now;
        Ok (Goto Outer, default now wake, s)
  | Stamp due =>
      let send_ts := elapsed_u64 session_start now in
      buf ← encode_udp_header (buf s) (seq s) send_ts;
      match net buf with
      | Ok n =>
          bytes ← arith_u p 64 (bytes s + n);
          seq ← arith_u p 64 (seq s + 1);
          Ok (Goto (Inner due), now, mk seq bytes buf (log s ++ [buf]))
      | Err _ => Ok (Break, now, mk (seq s) (bytes s) buf (log s))
      | Panic => Panic
      | Hang => Hang
      end
  end.

(** Run the loop over the script; the rest of the script is returned. *)
Fixpoint run (readings : list Z) (time : Z) (at_ : pc) (s : t) : io (t * Z * list Z) :=
  match readings with
  | [] => Hang
  | r :: readings =>
      '(next, time, s) ← step at_ (Z.max time r) s;
      match next with
      | Break => Ok (s, time, readings)
      | Goto at_ => run readings time at_ s
      end
  end.
End loop.
End Sender.

(** [run_udp_up] of the client, from the open socket on.  The script starts
    with the readings of [session_start] and of [Pacer::new]. *)
Definition client_run_udp_up (p : profile) (net : list byte -> io unit)
    (duration datagram_size bandwidth_bps : Z) (readings : list Z) :
    io (TestReport.t * list (list byte)) :=
  let buf := replicate (Nat.max (Z.to_nat datagram_size) UDP_HEADER_LEN) Byte.x00 in
  match readings with
  | session_start :: readings =>
      buf ← encode_udp_header buf 0 0;
      _ ← net buf;
      match readings with
      | r :: readings =>
          let deadline := session_start + duration in
          let start := Z.max session_start r in
          let len := Z.of_nat (length buf) in
          let pacer := Pacer.new bandwidth_bps len start in
          '(s, time, readings) ←
            Sender.run p pacer session_start deadline (fun d => (fun _ => len) <$> net d) readings start
              Sender.Outer (Sender.mk 1 len buf [buf]);
          match readings with
          | r :: _ =>
              Ok (TestReport.mk (Sender.bytes s) (Sender.seq s) (saturating_sub (Sender.seq s) 1)
                    0 0 0 0 0 0 (elapsed_u64 session_start (Z.max time r)), Sender.log s)
          | [] => Hang
          end
      | [] => Hang
      end
  | [] => Hang
  end.

(** [run_udp_down] of the server, from the received hello on. *)
Definition server_run_udp_down (p : profile) (net : list byte -> io Z)
    (req : TestRequest.t) (readings : list Z) : io (TestReport.t * list (list byte)) :=
  let datagram_size := Z.max (TestRequest.payload_size req) (Z.of_nat UDP_HEADER_LEN) in
  match readings with
  | session_start :: r :: readings =>
      let deadline := session_start + TestRequest.duration_ms req * 1000000 in
      let buf := replicate (Z.to_nat datagram_size) Byte.x00 in
      let start := Z.max session_start r in
      let pacer := Pacer.new (TestRequest.bandwidth_bps req) datagram_size start in
      '(s, time, readings) ←
        Sender.run p pacer session_start deadline net readings start
          Sender.Outer (Sender.mk 0 0 buf []);
      match readings with
      | r :: _ =>
          Ok (TestReport.mk (Sender.bytes s) (Sender.seq s) (saturating_sub (Sender.seq s) 1)
                0 0 0 0 0 0 (elapsed_u64 session_start (Z.max time r)), Sender.log s)
      | [] => Hang
      end
  | _ => Hang
  end.

(** ** Receivers *)

(** [process_packet] of the server; the client inlines it. *)
Definition process_packet (p : profile) (stats : UdpStats.t) (buf : list byte)
    (recv_ts_ns : Z) : io UdpStats.t :=
  header ← decode_udp_header buf;
  match header with
  | Some (seq, send_ts_ns) =>
      UdpStats.record p stats seq send_ts_ns recv_ts_ns (Z.of_nat (length buf))
  | None => Ok stats
  end.

(** [socket.recv_from(&mut buf)]: a datagram longer than the buffer is cut. *)
Definition fill (cap : nat) (datagram : list byte) : list byte := take cap datagram.

(** What the receiving socket returns: a datagram with two integers (its
    source and arrival time at the server, the two clock readings at the
    client), or an error. *)
Definition arrival : Type := io (list byte * Z * Z).

(** One turn of [select! { r = recv => .., _ = sleep_until(deadline) => .. }]:
    the socket is ready and its branch is taken, or the timer looks at the
    clock at [now], and its branch is taken when the deadline has come.  A
    socket that is ready after the deadline may still be taken first:
    [select!] has no order of preference. *)
Inductive turn (A : Type) : Type :=
| Recv (a : A)
| Tick (now : Z).
Arguments Recv {A} _.
Arguments Tick {A} _.

(** The receive loop of [run_udp_up] of the server.  Without another turn it
    waits. *)
Fixpoint server_recv_loop (p : profile) (cap : nat) (peer session_start deadline : Z)
    (stats : UdpStats.t) (script : list (turn arrival)) : io UdpStats.t :=
  match script with
  | [] => Hang
  | Recv r :: script =>
      '(datagram, src, t) ← r;
      if decide (src <> peer) then server_recv_loop p cap peer session_start deadline stats script
      else
        stats ← process_packet p stats (fill cap datagram) (elapsed_u64 session_start t);
        server_recv_loop p cap peer session_start deadline stats script
  | Tick now :: script =>
      if deadline <=? now then Ok stats
      else server_recv_loop p cap peer session_start deadline stats script
  end.

(** The deadlines of the receivers: the time of the test and a grace. *)
Definition server_deadline (req : TestRequest.t) (session_start : Z) : Z :=
  session_start + TestRequest.duration_ms req * 1000000 + STRAGGLE_GRACE.

Definition client_stop_at (test_start duration : Z) : Z := test_start + duration + STRAGGLE_GRACE.

(** [run_udp_up] of the server, from the bound socket to the report.  The
    hello is the first arrival; [t0] and [t1] are the readings of
    [session_start] and of the first [process_packet], [t_end] the last. *)
Definition server_run_udp_up (p : profile) (req : TestRequest.t) (hello : arrival)
    (t0 t1 t_end : Z) (script : list (turn arrival)) : io TestReport.t :=
  let datagram_size := Z.max (TestRequest.payload_size req) (Z.of_nat UDP_HEADER_LEN) in
  let cap := (Z.to_nat datagram_size + 64)%nat in
  '(datagram, peer, _) ← hello;
  stats ← process_packet p UdpStats.default (fill cap datagram) (elapsed_u64 t0 t1);
  stats ← server_recv_loop p cap peer t0 (server_deadline req t0) stats script;
  Ok (UdpStats.into_report stats (elapsed_u64 t0 t_end)).

(** The receive loop of [run_udp_down] of the client: any error ends it, the
    first datagram anchors the session clock.  A datagram comes with the
    reading its arrival would anchor the session at and the reading of its
    [elapsed()]. *)
Fixpoint client_recv_loop (p : profile) (cap : nat) (stop_at : Z) (session_start : option Z)
    (stats : UdpStats.t) (script : list (turn arrival)) : io (UdpStats.t * option Z) :=
  match script with
  | [] => Hang
  | Recv (Ok (datagram, t0, t)) :: script =>
      let s := default t0 session_start in
      stats ← process_packet p stats (fill cap datagram) (elapsed_u64 s t);
      client_recv_loop p cap stop_at (Some s) stats script
  | Recv (Err _) :: _ => Ok (stats, session_start)
  | Recv Panic :: _ => Panic
  | Recv Hang :: _ => Hang
  | Tick now :: script =>
      if stop_at <=? now then Ok (stats, session_start)
      else client_recv_loop p cap stop_at session_start stats script
  end.

(** [run_udp_down] of the client, from the open socket on; the hello goes
    out first.  [test_start] and [t_end] are the readings before and after
    the loop. *)
Definition client_run_udp_down (p : profile) (net : list byte -> io unit)
    (duration datagram_size test_start t_end : Z) (script : list (turn arrival)) : io TestReport.t :=
  let size := Nat.max (Z.to_nat datagram_size) UDP_HEADER_LEN in
  hello ← encode_udp_header (replicate size Byte.x00) 0 0;
  _ ← net hello;
  '(stats, session_start) ←
    client_recv_loop p (size + 64) (client_stop_at test_start duration) None UdpStats.default script;
  let duration_actual_ns :=
    match session_start with Some s => elapsed_u64 s t_end | None => 0 end in
  Ok (UdpStats.into_report stats duration_actual_ns).

(** ** Lemmas: the sender *)
Section sender.
Context (p : profile) (pacer : Pacer.t) (session_start deadline : Z).
Context (net : list byte -> io Z).

Abbreviation step := (Sender.step p pacer session_start deadline net).
Abbreviation run := (Sender.run p pacer session_start deadline net).

(** The [i]-th of [new] is a datagram of [size] bytes with sequence number
    [from + i] that the socket accepted. *)
Definition numbered (from : Z) (size : nat) (new : list (list byte)) : Prop :=
  forall i d, new !! i = Some d ->
    length d = size /\ is_ok (net d) = true /\
    exists ts, u64 ts /\ decode_udp_header d = Ok (Some (from + Z.of_nat i, ts)).

Definition pc_ok (at_ : Sender.pc) : Prop :=
  match at_ with
  | Sender.Inner due | Sender.Stamp due => due <= u64_MAX
  | _ => True
  end.

(** A [Stamp] is only reached with a packet due. *)
Definition stamp_due (at_ : Sender.pc) (s : Sender.t) : Prop :=
  match at_ with Sender.Stamp due => Sender.seq s < due | _ => True end.

Definition state_ok (s : Sender.t) : Prop :=
  u64 (Sender.seq s) /\ (UDP_HEADER_LEN <= length (Sender.buf s))%nat.

Lemma target_packets_max now due :
  Pacer.target_packets_now p pacer now = Ok due -> due <= u64_MAX.
Proof.
  unfold Pacer.target_packets_now. case_decide; [naive_solver|]. intros H'.
  inv_bind H'. case_decide; [naive_solver|]. inv_bind H'. inv_bind H'.
  case_decide; [done|]. simplify_eq.
  pose proof (clamp_u_range 64 (a0 / a1)). unfold in_u, u64_MAX in *. lia.
Qed.

Lemma numbered_nil from size : numbered from size [].
Proof. intros i d. done. Qed.

Lemma numbered_cons from size d new ts :
  length d = size -> is_ok (net d) = true -> u64 ts ->
  decode_udp_header d = Ok (Some (from, ts)) ->
  numbered (from + 1) size new -> numbered from size (d :: new).
Proof.
  intros Hl Hn Hts Hd Hnew [|i] x Hx; cbn in Hx.
  - simplify_eq. split_and!; [done..|]. exists ts. by rewrite Z.add_0_r.
  - destruct (Hnew i x Hx) as (? & ? & ts' & ? & ?). split_and!; [done..|].
    exists ts'. split; [done|]. by replace (from + Z.of_nat (S i)) with (from + 1 + Z.of_nat i) by lia.
Qed.

(** One clock reading appends at most one datagram, the next in sequence,
    and keeps the invariants of the program point. *)
Lemma step_spec at_ now s nx t s' :
  state_ok s -> pc_ok at_ -> stamp_due at_ s -> step at_ now s = Ok (nx, t, s') ->
  state_ok s' /\ length (Sender.buf s') = length (Sender.buf s) /\ now <= t /\
  (forall at', nx = Sender.Goto at' -> pc_ok at' /\ stamp_due at' s') /\
  ((Sender.seq s' = Sender.seq s /\ Sender.log s' = Sender.log s /\
    Sender.bytes s' = Sender.bytes s)
   \/ (exists d due ts n, at_ = Sender.Stamp due /\
         Sender.seq s' = Sender.seq s + 1 /\ Sender.log s' = Sender.log s ++ [d] /\
         length d = length (Sender.buf s) /\ net d = Ok n /\ u64 ts /\
         arith_u p 64 (Sender.bytes s + n) = (Ok (Sender.bytes s') : io Z) /\
         decode_udp_header d = Ok (Some (Sender.seq s, ts)))).
Proof.
  intros [Hs Hb] Hpc Hst. destruct at_ as [| |due|due]; cbn.
  - intros H. simplify_eq. refine (conj _ (conj _ (conj _ (conj _ _)))); try done; [|by left].
    intros at' Ha. by destruct (deadline <=? _); simplify_eq.
  - intros H. inv_bind H. simplify_eq. refine (conj _ (conj _ (conj _ (conj _ _)))); try done; [|by left].
    intros at' Ha'. simplify_eq. cbn. split; [|done]. by eapply target_packets_max.
  - destruct (Z.ltb_spec (Sender.seq s) due).
    + intros H'. simplify_eq. refine (conj _ (conj _ (conj _ (conj _ _)))); try done; [|by left].
      intros at' Ha. by destruct (deadline <=? _); simplify_eq.
    + intros H'. inv_bind H'. simplify_eq. refine (conj _ (conj _ (conj _ (conj _ _)))); try done; [|naive_solver|by left].
      destruct a as [w|]; cbn; [|lia]. apply sleep_until_packet_wake in Ha. lia.
  - intros H. inv_bind H. rewrite encode_udp_header_Ok in Ha by done. simplify_eq.
    set (d := be_bytes 8 _ ++ _) in *.
    assert (length d = length (Sender.buf s)) as Hl.
    { unfold d, UDP_HEADER_LEN in *. rewrite !length_app, !be_bytes_length, length_drop. lia. }
    destruct (net d) as [n|e| |] eqn:En; try done.
    + inv_bind H. inv_bind H. simplify_eq. cbn in *.
      assert (a0 = Sender.seq s + 1 /\ u64 a0) as [-> Ha1].
      { rewrite arith_u_Ok in Ha0 by (unfold in_u, u64_MAX in *; lia). simplify_eq.
        split; [done|]. unfold in_u, u64_MAX in *. lia. }
      refine (conj _ (conj _ (conj _ (conj _ _)))); try done; [|intros at' Ha'; by simplify_eq|right].
      { split; cbn [Sender.seq Sender.buf]; [done|]. by rewrite Hl. }
      exists d, due, (elapsed_u64 session_start t), n.
      assert (u64 (elapsed_u64 session_start t)) by by apply cast_u_range.
      refine (conj _ (conj _ (conj _ (conj _ (conj _ (conj _ (conj _ _))))))); try done. unfold d. by apply decode_udp_header_app.
    + simplify_eq. refine (conj _ (conj _ (conj _ (conj _ _)))); try done; [|by left].
      split; cbn [Sender.seq Sender.buf]; [done|]. by rewrite Hl.
Qed.

(** The whole loop: consecutive datagrams, counted in [seq]. *)
Lemma run_log readings time at_ s s' t' rest :
  state_ok s -> pc_ok at_ -> stamp_due at_ s ->
  run readings time at_ s = Ok (s', t', rest) ->
  exists new, Sender.log s' = Sender.log s ++ new /\
    Sender.seq s' = Sender.seq s + Z.of_nat (length new) /\ u64 (Sender.seq s') /\
    numbered (Sender.seq s) (length (Sender.buf s)) new.
Proof.
  revert time at_ s. induction readings as [|r readings IH]; intros time at_ s Hs Hpc Hst; [done|].
  cbn. intros H. inv_bind H. destruct a as [ [nx t1] s1].
  destruct (step_spec _ _ _ _ _ _ Hs Hpc Hst Ha) as (Hs1 & Hb1 & _ & Hnx & Hcase).
  assert (exists new, Sender.log s' = Sender.log s1 ++ new /\
    Sender.seq s' = Sender.seq s1 + Z.of_nat (length new) /\ u64 (Sender.seq s') /\
    numbered (Sender.seq s1) (length (Sender.buf s1)) new) as (new & Hl & Hq & Hu & Hn).
  { destruct nx as [at'|].
    - destruct (Hnx at' eq_refl) as [Hpc' Hst']. by apply (IH _ _ _ Hs1 Hpc' Hst') in H.
    - simplify_eq. exists []. rewrite app_nil_r. cbn.
      refine (conj _ (conj _ (conj _ _))); [done|lia|apply Hs1|apply numbered_nil]. }
  destruct Hcase as [(Eq & El & _)|(d & due & ts & n & _ & Eq & El & Hd & Hnet & Hts & _ & Hdec)].
  - exists new. rewrite Eq, El, Hb1 in *. done.
  - exists (d :: new). rewrite Hl, El, <- app_assoc.
    refine (conj _ (conj _ (conj _ _))); [done| |done|].
    + rewrite Hq, Eq. cbn. lia.
    + rewrite Eq, Hb1 in Hn. eapply (numbered_cons _ _ _ _ ts); try done. by rewrite Hnet.
Qed.

(** The byte count, up to the wrap of its 64 bits. *)
Lemma run_bytes size readings time at_ s s' t' rest :
  (forall d n, length d = length (Sender.buf s) -> net d = Ok n -> n = size) ->
  state_ok s -> pc_ok at_ -> stamp_due at_ s ->
  run readings time at_ s = Ok (s', t', rest) ->
  cast_u 64 (Sender.bytes s') =
    cast_u 64 (Sender.bytes s + (Sender.seq s' - Sender.seq s) * size).
Proof.
  revert time at_ s.
  induction readings as [|r readings IH]; intros time at_ s Hsize Hs Hpc Hst; [done|].
  cbn. intros H. inv_bind H. destruct a as [ [nx t1] s1].
  destruct (step_spec _ _ _ _ _ _ Hs Hpc Hst Ha) as (Hs1 & Hb1 & _ & Hnx & Hcase).
  assert (cast_u 64 (Sender.bytes s') =
    cast_u 64 (Sender.bytes s1 + (Sender.seq s' - Sender.seq s1) * size)) as Hrest.
  { destruct nx as [at'|].
    - destruct (Hnx at' eq_refl) as [Hpc' Hst']. rewrite <- Hb1 in Hsize.
      by apply (IH _ _ _ Hsize Hs1 Hpc' Hst') in H.
    - simplify_eq. f_equal. lia. }
  rewrite Hrest. destruct Hcase as [(Eq & _ & Eb)|(d & due & ts & n & _ & Eq & _ & Hld & Hnet & _ & Hb & _)].
  - by rewrite Eq, Eb.
  - apply Hsize in Hnet as ->; [|done]. apply arith_u_cong in Hb; [|lia]. rewrite Eq.
    unfold cast_u in *. rewrite Z.add_mod, Hb, <- Z.add_mod by lia. f_equal. lia.
Qed.

(** Packets due by time [t]. *)
Definition due_by (t : Z) : Z := due pacer (saturating_sub t (Pacer.start pacer)).

Definition pc_paced (at_ : Sender.pc) (t : Z) : Prop :=
  match at_ with
  | Sender.Inner k | Sender.Stamp k => k <= due_by t
  | _ => True
  end.

Lemma due_by_mono t t' : limited pacer -> t <= t' -> due_by t <= due_by t'.
Proof. intros Hl Ht. apply due_mono; [done|]. unfold saturating_sub. lia. Qed.

Lemma pc_paced_mono at_ t t' : limited pacer -> t <= t' -> pc_paced at_ t -> pc_paced at_ t'.
Proof.
  intros Hl Ht. pose proof (due_by_mono t t' Hl Ht). destruct at_; cbn; [done..|lia|lia].
Qed.

Lemma step_paced at_ now s nx t s' :
  Pacer.wf pacer -> limited pacer -> now - Pacer.start pacer < 2 ^ 64 ->
  state_ok s -> pc_ok at_ -> stamp_due at_ s -> pc_paced at_ now ->
  step at_ now s = Ok (nx, t, s') ->
  t - Pacer.start pacer < 2 ^ 64 /\ (forall at', nx = Sender.Goto at' -> pc_paced at' t) /\
  Sender.seq s' <= Z.max (Sender.seq s) (due_by t).
Proof.
  intros Hwf Hlim Hnow Hs Hpc Hst Hp Hstep.
  destruct (step_spec _ _ _ _ _ _ Hs Hpc Hst Hstep) as (_ & _ & Hle & _ & Hcase).
  split; [|split].
  - destruct at_; cbn in Hstep; [naive_solver|by inv_bind Hstep; naive_solver| |].
    + destruct (_ <? _); [naive_solver|]. inv_bind Hstep. simplify_eq.
      destruct a as [w|]; cbn; [|done]. apply sleep_until_packet_wake in Ha. lia.
    + inv_bind Hstep. destruct (net _); [|naive_solver..]. by do 2 inv_bind Hstep; naive_solver.
  - intros at' ->. destruct at_; cbn in Hstep.
    + destruct (_ <=? _); naive_solver.
    + inv_bind Hstep. simplify_eq. cbn. rewrite target_packets_now_eq in Ha by done. simplify_eq.
      fold (due_by t). rewrite clamp_u_min; [lia|]. apply due_nonneg; [done|].
      unfold saturating_sub. lia.
    + destruct (_ <? _); [destruct (_ <=? _); naive_solver|]. inv_bind Hstep. naive_solver.
    + inv_bind Hstep. destruct (net _); [|naive_solver..]. do 2 inv_bind Hstep. naive_solver.
  - destruct Hcase as [(-> & _)|(d & k & ts & n & -> & -> & _)]; [lia|].
    cbn in Hp, Hst. pose proof (due_by_mono now t Hlim Hle). lia.
Qed.

(** Pacing: past the first packet, none is sent before it is due. *)
Lemma run_paced readings time at_ s s' t' rest :
  Pacer.wf pacer -> limited pacer ->
  Forall (fun r => r - Pacer.start pacer < 2 ^ 64) readings ->
  time - Pacer.start pacer < 2 ^ 64 ->
  state_ok s -> pc_ok at_ -> stamp_due at_ s -> pc_paced at_ time ->
  run readings time at_ s = Ok (s', t', rest) ->
  time <= t' /\ Sender.seq s' <= Z.max (Sender.seq s) (due_by t').
Proof.
  intros Hwf Hlim Hr. revert time at_ s.
  induction Hr as [|r readings Hr0 Hr IH]; intros time at_ s Ht Hs Hpc Hst Hp; [done|].
  cbn. intros H. inv_bind H. destruct a as [ [nx t1] s1].
  apply (pc_paced_mono _ _ (Z.max time r)) in Hp; [|done|lia]. cbn in Hr0.
  destruct (step_spec _ _ _ _ _ _ Hs Hpc Hst Ha) as (Hs1 & _ & Hle & Hnx & _).
  assert (Z.max time r - Pacer.start pacer < 2 ^ 64) as Hnow by lia.
  destruct (step_paced _ _ _ _ _ _ Hwf Hlim Hnow Hs Hpc Hst Hp Ha) as (Ht1 & Hp1 & Hseq).
  destruct nx as [at'|].
  - destruct (Hnx at' eq_refl) as [Hpc' Hst'].
    destruct (IH t1 at' s1 Ht1 Hs1 Hpc' Hst' (Hp1 _ eq_refl) H) as [Hle' Hseq'].
    pose proof (due_by_mono t1 t' Hlim Hle'). lia.
  - simplify_eq. lia.
Qed.

Definition stamp_in_time (at_ : Sender.pc) : Prop :=
  match at_ with Sender.Stamp k => k <= due_by deadline | _ => True end.

(** Datagrams only leave before the deadline, so the whole run sends what
    is due by then. *)
Lemma run_deadline readings time at_ s s' t' rest :
  Pacer.wf pacer -> limited pacer ->
  Forall (fun r => r - Pacer.start pacer < 2 ^ 64) readings ->
  time - Pacer.start pacer < 2 ^ 64 ->
  state_ok s -> pc_ok at_ -> stamp_due at_ s -> pc_paced at_ time -> stamp_in_time at_ ->
  run readings time at_ s = Ok (s', t', rest) ->
  Sender.seq s' <= Z.max (Sender.seq s) (due_by deadline).
Proof.
  intros Hwf Hlim Hr. revert time at_ s.
  induction Hr as [|r readings Hr0 Hr IH]; intros time at_ s Ht Hs Hpc Hst Hp Hin; [done|].
  cbn. intros H. inv_bind H. destruct a as [ [nx t1] s1].
  apply (pc_paced_mono _ _ (Z.max time r)) in Hp; [|done|lia]. cbn in Hr0.
  destruct (step_spec _ _ _ _ _ _ Hs Hpc Hst Ha) as (Hs1 & _ & Hle & Hnx & Hcase).
  assert (Z.max time r - Pacer.start pacer < 2 ^ 64) as Hnow by lia.
  destruct (step_paced _ _ _ _ _ _ Hwf Hlim Hnow Hs Hpc Hst Hp Ha) as (Ht1 & Hp1 & _).
  assert (Sender.seq s1 <= Z.max (Sender.seq s) (due_by deadline)) as Hs1d.
  { destruct Hcase as [(-> & _)|(d & k & ts & n & -> & -> & _)]; [lia|]. cbn in Hin, Hst. lia. }
  destruct nx as [at'|]; [|by simplify_eq].
  destruct (Hnx at' eq_refl) as [Hpc' Hst'].
  assert (stamp_in_time at') as Hin'.
  { destruct at'; cbn; [done..|]. destruct at_; cbn in Ha; [by destruct (_ <=? _)|by inv_bind Ha| |].
    - destruct (_ <? _); [|by inv_bind Ha].
      destruct (Z.leb_spec deadline (Z.max time r)); [done|]. simplify_eq. cbn in Hp.
      pose proof (due_by_mono (Z.max time r) deadline Hlim). cbn in *. lia.
    - inv_bind Ha. destruct (net _); [|done..]. by do 2 inv_bind Ha. }
  pose proof (IH t1 at' s1 Ht1 Hs1 Hpc' Hst' (Hp1 _ eq_refl) Hin' H). lia.
Qed.

(** Readings until the loop ends once the deadline has passed. *)
Definition steps_left (at_ : Sender.pc) : nat :=
  match at_ with
  | Sender.Outer => 1
  | Sender.Inner _ => 2
  | Sender.Target | Sender.Stamp _ => 3
  end.

Lemma step_wake at_ now s nx t s' : step at_ now s = Ok (nx, t, s') -> now <= t.
Proof.
  destruct at_; cbn; [naive_solver lia|intros H; inv_bind H; naive_solver lia| |].
  - destruct (_ <? _); [naive_solver lia|]. intros H. inv_bind H. simplify_eq.
    destruct a as [w|]; cbn; [|lia]. apply sleep_until_packet_wake in Ha. lia.
  - intros H. inv_bind H. destruct (net _); [|naive_solver lia..].
    do 2 inv_bind H. naive_solver lia.
Qed.

Lemma step_not_hang at_ now s : (forall d, net d <> Hang) -> step at_ now s <> Hang.
Proof.
  intros Hnet. destruct at_ as [| |k|k]; cbn; [done| | |].
  - by apply bind_not_hang; [apply target_packets_not_hang|].
  - destruct (_ <? _); [done|].
    by apply bind_not_hang; [apply sleep_until_packet_not_hang|].
  - apply bind_not_hang.
    { unfold encode_udp_header, copy_range. by repeat (case_decide; cbn). }
    intros d _. specialize (Hnet d). destruct (net d); try done.
    do 2 (apply bind_not_hang; [apply arith_u_not_hang|intros ? _]). done.
Qed.

Lemma step_after_deadline at_ now s at' t s' :
  deadline <= now -> step at_ now s = Ok (Sender.Goto at', t, s') ->
  (steps_left at' < steps_left at_)%nat.
Proof.
  intros Hd%Z.leb_le. destruct at_ as [| |k|k]; cbn; rewrite ?Hd; [done| | |].
  - intros H. inv_bind H. simplify_eq. cbn. lia.
  - destruct (_ <? _); [done|]. intros H. inv_bind H. simplify_eq. cbn. lia.
  - intros H. inv_bind H. destruct (net a); try done. do 2 inv_bind H. simplify_eq. cbn. lia.
Qed.

(** Once the clock is past the deadline the loop ends within three more
    readings. *)
Lemma run_after_deadline readings time at_ s :
  deadline <= time -> (steps_left at_ <= length readings)%nat ->
  (forall d, net d <> Hang) ->
  run readings time at_ s <> Hang.
Proof.
  intros Ht Hl Hnet. revert time at_ s Ht Hl.
  induction readings as [|r readings IH]; intros time at_ s Ht Hl.
  { destruct at_; cbn in Hl; lia. }
  pose proof (step_not_hang at_ (Z.max time r) s Hnet) as Hs.
  cbn. destruct (step at_ (Z.max time r) s) as [ [ [ [at'|] t] s'] | | |] eqn:E; try done. cbn.
  pose proof (step_wake _ _ _ _ _ _ E). apply step_after_deadline in E; [|lia].
  apply IH; cbn in Hl; lia.
Qed.

Lemma run_terminates pre r post time at_ s :
  deadline <= r -> (3 <= length post)%nat -> (forall d, net d <> Hang) ->
  run (pre ++ r :: post) time at_ s <> Hang.
Proof.
  intros Hr Hl Hnet. revert time at_ s.
  induction pre as [|r0 pre IH]; intros time at_ s; cbn.
  - pose proof (step_not_hang at_ (Z.max time r) s Hnet) as Hs.
    destruct (step at_ (Z.max time r) s) as [ [ [ [at'|] t] s'] | | |] eqn:E; try done. cbn.
    apply step_wake in E. apply run_after_deadline; [lia| |done]. destruct at'; cbn; lia.
  - pose proof (step_not_hang at_ (Z.max time r0) s Hnet) as Hs.
    destruct (step at_ (Z.max time r0) s) as [ [ [ [at'|] t] s'] | | |]; try done. apply IH.
Qed.

Lemma run_app readings extra time at_ s :
  run readings time at_ s <> Hang ->
  run (readings ++ extra) time at_ s =
    (fun '(s, t, rest) => (s, t, rest ++ extra)) <$> run readings time at_ s.
Proof.
  revert time at_ s. induction readings as [|r readings IH]; intros time at_ s; [done|].
  cbn. destruct (step at_ (Z.max time r) s) as [ [ [ [at'|] t] s'] | | |]; cbn; try done.
  apply IH.
Qed.

(** Without overflow checks no reading of the clock can make the sender
    panic, and a socket error only ends the loop. *)
Lemma step_release_Ok at_ now s :
  p = Release -> Pacer.wf pacer -> state_ok s -> (forall d, returns (net d)) ->
  is_ok (step at_ now s) = true.
Proof.
  intros Hp Hwf [_ Hs] Hnet. destruct at_ as [| |k|k]; cbn; [done| | |].
  - rewrite Hp. pose proof (target_packets_release pacer now Hwf) as H.
    by destruct (Pacer.target_packets_now _ _ _).
  - destruct (_ <? _); [done|]. rewrite Hp.
    pose proof (sleep_until_packet_release pacer (Sender.seq s) now) as H.
    by destruct (Pacer.sleep_until_packet _ _ _ _).
  - rewrite encode_udp_header_Ok by done. cbn. specialize (Hnet (be_bytes 8 (Sender.seq s) ++
      be_bytes 8 (elapsed_u64 session_start now) ++ drop UDP_HEADER_LEN (Sender.buf s))).
    destruct (net _); try done. by rewrite Hp, !arith_u_Release.
Qed.

Lemma run_release_Ok readings time at_ s :
  p = Release -> Pacer.wf pacer -> state_ok s -> pc_ok at_ -> stamp_due at_ s ->
  (forall d, returns (net d)) -> run readings time at_ s <> Hang ->
  is_ok (run readings time at_ s) = true.
Proof.
  intros Hp Hwf Hs Hpc Hst Hnet. revert time at_ s Hs Hpc Hst.
  induction readings as [|r readings IH]; intros time at_ s Hs Hpc Hst; [done|]. cbn.
  pose proof (step_release_Ok at_ (Z.max time r) s Hp Hwf Hs Hnet) as Hok.
  destruct (step at_ (Z.max time r) s) as [ [ [nx t1] s1] | | |] eqn:E; try done. cbn.
  destruct (step_spec _ _ _ _ _ _ Hs Hpc Hst E) as (Hs1 & _ & _ & Hnx & _).
  destruct nx as [at'|]; [|done]. destruct (Hnx at' eq_refl). by apply IH.
Qed.

(** The wait for a packet ends at its due time, and the target does not
    count the packet before the next one is due: three readings in that
    slot send nothing and sleep nowhere. *)
Lemma run_spins t1 t2 t3 readings time s :
  Pacer.wf pacer -> limited pacer -> state_ok s -> Sender.seq s * cost pacer < 2 ^ 128 ->
  time <= t1 -> t1 <= t2 -> t2 <= t3 -> t3 < deadline ->
  Pacer.start pacer + clamp_u 64 (due_at pacer (Sender.seq s)) <= t1 ->
  t3 <= Pacer.start pacer + due_at pacer (Sender.seq s + 1) - 1 ->
  t3 - Pacer.start pacer < 2 ^ 64 ->
  run (t1 :: t2 :: t3 :: readings) time Sender.Outer s = run readings t3 Sender.Outer s.
Proof.
  intros Hwf Hlim [Hs _] Hc H0 H1 H2 Hd Hfrom Hto H64.
  assert (0 <= due_at pacer (Sender.seq s)) as Hdn.
  { apply due_at_nonneg; [done|]. unfold in_u in Hs. lia. }
  rewrite clamp_u_min in Hfrom by done.
  cbn. replace (Z.max time t1) with t1 by lia.
  destruct (Z.leb_spec deadline t1); [lia|]. cbn. replace (Z.max t1 t2) with t2 by lia.
  rewrite target_packets_now_eq by (done || lia). cbn. replace (Z.max t2 t3) with t3 by lia.
  destruct (Z.ltb_spec (Sender.seq s) (clamp_u 64 (due_by t2))) as [Hlt|Hge].
  - exfalso. unfold due_by in Hlt.
    rewrite clamp_u_min in Hlt by (apply due_nonneg; [done|]; unfold saturating_sub; lia).
    assert (due pacer (saturating_sub t2 (Pacer.start pacer)) <= Sender.seq s); [|lia].
    apply slot_spin; [done|]. unfold saturating_sub. lia.
  - unfold due_by in Hge. destruct (Z.ltb_spec (Sender.seq s) (clamp_u 64 (due pacer (saturating_sub t2 (Pacer.start pacer))))); [lia|].
    rewrite sleep_until_packet_eq by (done || (unfold in_u in Hs; lia)). cbn.
    rewrite clamp_u_min by done.
    destruct (Z.ltb_spec t3 (Pacer.start pacer + Z.min (due_at pacer (Sender.seq s)) (2 ^ 64 - 1))); [lia|done].
Qed.
End sender.

(** ** Lemmas: whole runs *)

(** The [i]-th datagram has [size] bytes and carries number [from + i]. *)
Definition in_sequence (from : Z) (size : nat) (ds : list (list byte)) : Prop :=
  forall i d, ds !! i = Some d ->
    length d = size /\
    exists ts, u64 ts /\ decode_udp_header d = Ok (Some (from + Z.of_nat i, ts)).

Lemma numbered_in_sequence net from size ds : numbered net from size ds -> in_sequence from size ds.
Proof. intros H i d Hd. by destruct (H i d Hd) as (? & _ & ?). Qed.

Lemma in_sequence_cons from size d ds :
  in_sequence from size (d :: ds) <->
  (length d = size /\ exists ts, u64 ts /\ decode_udp_header d = Ok (Some (from, ts))) /\
  in_sequence (from + 1) size ds.
Proof.
  split.
  - intros H. split.
    + destruct (H O d eq_refl) as (Hl & ts & ?). rewrite Z.add_0_r in *. eauto.
    + intros i x Hx. destruct (H (S i) x Hx) as (Hl & ts & Ht & Hd). split; [done|].
      exists ts. split; [done|]. rewrite Hd. do 3 f_equal. lia.
  - intros [(Hl & ts & Ht & Hd) H] [|i] x Hx; cbn in Hx.
    + simplify_eq. split; [done|]. exists ts. by rewrite Z.add_0_r.
    + destruct (H i x Hx) as (Hl' & ts' & Ht' & Hd'). split; [done|].
      exists ts'. split; [done|]. rewrite Hd'. do 3 f_equal. lia.
Qed.

Lemma in_sequence_app from size a b :
  in_sequence from size a -> in_sequence (from + Z.of_nat (length a)) size b ->
  in_sequence from size (a ++ b).
Proof.
  intros Ha Hb i x Hx. destruct (decide (i < length a)%nat) as [Hi|Hi].
  - rewrite lookup_app_l in Hx by done. by apply Ha.
  - rewrite lookup_app_r in Hx by lia. destruct (Hb _ _ Hx) as (Hl & ts & Ht & Hd).
    split; [done|]. exists ts. split; [done|]. rewrite Hd. do 3 f_equal. lia.
Qed.

Lemma fmap_outcome_Ok {E A B} (f : A -> B) (m : outcome E A) b :
  f <$> m = Ok b <-> exists a, m = Ok a /\ b = f a.
Proof. destruct m; cbn; naive_solver. Qed.

(** What the client's upload reports, against what it put on the wire. *)
Lemma client_udp_up_spec p net duration datagram_size bw readings rep log :
  0 <= datagram_size ->
  client_run_udp_up p net duration datagram_size bw readings = Ok (rep, log) ->
  let size := Nat.max (Z.to_nat datagram_size) UDP_HEADER_LEN in
  in_sequence 0 size log /\
  (1 <= length log)%nat /\
  u64 (Z.of_nat (length log)) /\
  cast_u 64 (TestReport.bytes rep) = cast_u 64 (Z.of_nat (length log) * Z.of_nat size) /\
  rep = TestReport.mk (TestReport.bytes rep) (Z.of_nat (length log)) (Z.of_nat (length log) - 1)
          0 0 0 0 0 0 (TestReport.duration_actual_ns rep).
Proof.
  intros Hsize. unfold client_run_udp_up. set (size := Nat.max _ _).
  destruct readings as [|t0 readings]; [done|].
  rewrite encode_udp_header_Ok by (rewrite length_replicate; lia). cbn [mbind outcome_bind].
  set (hello := be_bytes 8 0 ++ be_bytes 8 0 ++ _).
  assert (length hello = size) as Hhl.
  { unfold hello. rewrite !length_app, !be_bytes_length, length_drop, length_replicate.
    unfold size, UDP_HEADER_LEN. lia. }
  intros H. inv_bind H. destruct readings as [|t1 readings]; [done|].
  inv_bind H. destruct a0 as [ [s t] rest]. destruct rest as [|t2 rest]; [done|].
  injection H as Hrep Hlog.
  assert (state_ok (Sender.mk 1 (Z.of_nat (length hello)) hello [hello])) as Hok.
  { split; cbn; [unfold in_u; lia|]. rewrite Hhl. unfold size, UDP_HEADER_LEN. lia. }
  pose proof Ha0 as Hrun.
  apply run_log in Hrun as (new & Hl & Hq & Hu & Hn); [|done..].
  apply (run_bytes _ _ _ _ _ (Z.of_nat size)) in Ha0; [|by intros d n _ (_ & _ & ->)%fmap_outcome_Ok; rewrite Hhl|done..].
  cbn [Sender.log Sender.seq Sender.bytes Sender.buf] in *. rewrite Hhl in Hn, Ha0.
  assert (Z.of_nat (length log) = Sender.seq s) as Hlen.
  { rewrite <- Hlog, Hl, length_app. cbn. lia. }
  rewrite <- Hlog at 1. rewrite Hl, Hlen.
  refine (conj _ (conj _ (conj _ (conj _ _)))).
  - apply in_sequence_cons. split.
    + split; [done|]. exists 0. split; [unfold in_u; lia|]. by apply decode_udp_header_app.
    + by eapply numbered_in_sequence.
  - rewrite <- Hlog, Hl, length_app. cbn. lia.
  - done.
  - rewrite <- Hrep. cbn. rewrite Ha0. f_equal. lia.
  - rewrite <- Hrep. cbn. f_equal. unfold saturating_sub, in_u in *. lia.
Qed.

(** The same for the server's download. *)
Lemma server_udp_down_spec p net req readings rep log :
  server_run_udp_down p net req readings = Ok (rep, log) ->
  let size := Z.to_nat (Z.max (TestRequest.payload_size req) (Z.of_nat UDP_HEADER_LEN)) in
  in_sequence 0 size log /\
  u64 (Z.of_nat (length log)) /\
  rep = TestReport.mk (TestReport.bytes rep) (Z.of_nat (length log))
          (saturating_sub (Z.of_nat (length log)) 1)
          0 0 0 0 0 0 (TestReport.duration_actual_ns rep).
Proof.
  unfold server_run_udp_down. set (size := Z.to_nat _).
  destruct readings as [|t0 [|t1 readings] ]; [done..|]. intros H. inv_bind H.
  destruct a as [ [s t] rest]. destruct rest as [|t2 rest]; [done|]. injection H as Hrep Hlog.
  set (buf := replicate size Byte.x00) in *.
  assert (length buf = size) as Hbl by apply length_replicate.
  assert (state_ok (Sender.mk 0 0 buf [])) as Hok.
  { split; cbn; [unfold in_u; lia|]. rewrite Hbl. unfold size, UDP_HEADER_LEN. lia. }
  apply run_log in Ha as (new & Hl & Hq & Hu & Hn); [|done..].
  cbn [Sender.log Sender.seq Sender.buf app] in *. rewrite Hbl in Hn. subst log.
  assert (Z.of_nat (length (Sender.log s)) = Sender.seq s) as Hlen by (rewrite Hl; lia).
  rewrite Hlen. refine (conj _ (conj _ _)); [|done|].
  - rewrite Hl. by eapply numbered_in_sequence.
  - by rewrite <- Hrep.
Qed.

(** ** Lemmas: the timer of a receiver *)

(** What is taken from the socket before the timer fires, and whether it
    does. *)
Fixpoint before {A} (deadline : Z) (script : list (turn A)) : list A :=
  match script with
  | [] => []
  | Recv a :: script => a :: before deadline script
  | Tick now :: script => if deadline <=? now then [] else before deadline script
  end.

Fixpoint fires {A} (deadline : Z) (script : list (turn A)) : bool :=
  match script with
  | [] => false
  | Recv _ :: script => fires deadline script
  | Tick now :: script => (deadline <=? now) || fires deadline script
  end.

(** What the server makes of the arrivals it takes. *)
Fixpoint server_takes (p : profile) (cap : nat) (peer session_start : Z)
    (stats : UdpStats.t) (script : list arrival) : io UdpStats.t :=
  match script with
  | [] => Ok stats
  | a :: script =>
      '(datagram, src, t) ← a;
      if decide (src = peer) then
        stats ← process_packet p stats (fill cap datagram) (elapsed_u64 session_start t);
        server_takes p cap peer session_start stats script
      else server_takes p cap peer session_start stats script
  end.

Lemma server_recv_loop_takes p cap peer st dl stats script :
  fires dl script = true ->
  server_recv_loop p cap peer st dl stats script = server_takes p cap peer st stats (before dl script).
Proof.
  revert stats. induction script as [|[a|now] script IH]; intros stats Hf; [done|..].
  - cbn [server_recv_loop before server_takes]. destruct a as [ [ [d src] t]| | |]; try done.
    cbn [mbind outcome_bind]. destruct (decide (src = peer)) as [He|He].
    + rewrite decide_False by (intros Hn; by apply Hn). destruct (process_packet _ _ _ _); try done. by apply IH.
    + rewrite decide_True by done. by apply IH.
  - cbn in *. destruct (dl <=? now); [done|]. by apply IH.
Qed.

(** ** Lemmas: the receivers *)

(** The counters after [k] datagrams numbered from 0 and [b] bytes. *)
Definition counted (k b : Z) (s : UdpStats.t) : Prop :=
  UdpStats.packets s = k /\ UdpStats.bytes s = b /\ UdpStats.max_seq s = k - 1 /\
  UdpStats.ooo s = 0 /\ UdpStats.dup s = 0 /\ UdpStats.have_max s = true /\
  (forall x, x ∈ UdpStats.seen s -> x < k).

Lemma process_packet_in_order s d k b recv ts :
  decode_udp_header d = Ok (Some (k, ts)) ->
  (counted k b s /\ 0 < k \/ s = UdpStats.default /\ k = 0 /\ b = 0) ->
  0 <= b -> u64 (b + Z.of_nat (length d)) -> u64 (k + 1) ->
  exists s', process_packet Release s d recv = Ok s' /\ counted (k + 1) (b + Z.of_nat (length d)) s'.
Proof.
  intros Hd Hs Hb0 Hb Hk. unfold process_packet. rewrite Hd. cbn.
  assert (k ∉ UdpStats.seen s) as Hnin.
  { destruct Hs as [((_ & _ & _ & _ & _ & _ & Hseen) & _)|(-> & -> & ->)].
    - intros Hin. apply Hseen in Hin. lia.
    - cbn. set_solver. }
  pose proof (record_release_total s k ts recv (Z.of_nat (length d))) as Htot.
  destruct (UdpStats.record Release s k ts recv (Z.of_nat (length d))) as [s'| | |] eqn:E; try done.
  exists s'. split; [done|]. clear Htot.
  unfold UdpStats.record in E. rewrite decide_False in E by done.
  assert (UdpStats.bytes s = b /\ UdpStats.packets s = k) as [Eb Ep].
  { destruct Hs as [((? & ? & _) & _)|(-> & -> & ->)]; done. }
  rewrite Eb, Ep in E. rewrite arith_u_Ok in E by done. cbn in E.
  rewrite arith_u_Ok in E by done. cbn in E.
  assert (UdpStats.next_order Release (UdpStats.have_max s) (UdpStats.max_seq s) (UdpStats.ooo s) k
          = Ok (k, 0)) as Ho.
  { unfold UdpStats.next_order.
    destruct Hs as [((_ & _ & Em & Eo & _ & Eh & _) & _)|(-> & -> & ->)]; [|done].
    rewrite Eh, Em, Eo. cbn. destruct (Z.ltb_spec (k - 1) k); [done|lia]. }
  rewrite Ho in E. cbn in E. inv_bind E. inv_bind E. simplify_eq.
  unfold counted; cbn. repeat split; try lia.
  - destruct Hs as [((_ & _ & _ & _ & Ed & _) & _)|(-> & _)]; done.
  - intros x. rewrite elem_of_union, elem_of_singleton. intros [-> |Hx]; [lia|].
    destruct Hs as [((_ & _ & _ & _ & _ & _ & Hseen) & _)|(-> & _)].
    + apply Hseen in Hx. lia.
    + cbn in Hx. set_solver.
Qed.

Definition in_order_script (peer : Z) (ds : list (list byte)) (times : list Z) : list arrival :=
  zip_with (fun d t => Ok (d, peer, t)) ds times.

Lemma server_recv_in_order cap peer t0 size ds times s k b :
  in_sequence k size ds -> (size <= cap)%nat -> length times = length ds ->
  counted k b s -> 0 < k -> 0 <= b ->
  u64 (k + Z.of_nat (length ds)) -> u64 (b + Z.of_nat (length ds) * Z.of_nat size) ->
  exists s', server_takes Release cap peer t0 s (in_order_script peer ds times) = Ok s' /\
    counted (k + Z.of_nat (length ds)) (b + Z.of_nat (length ds) * Z.of_nat size) s'.
Proof.
  revert times s k b. induction ds as [|d ds IH]; intros [|t times] s k b Hseq Hcap Hl Hc Hk Hb Hku Hbu;
    try done.
  - exists s. split; [done|]. cbn. by rewrite !Z.add_0_r.
  - apply in_sequence_cons in Hseq as [(Hlen & ts & Hts & Hd) Hseq].
    cbn in Hl. apply (inj S) in Hl. cbn [length] in Hku, Hbu |- *.
    cbn [in_order_script zip_with server_takes mbind outcome_bind].
    rewrite decide_True by done. unfold fill. rewrite take_ge by lia.
    destruct (process_packet_in_order s d k b (elapsed_u64 t0 t) ts) as (s1 & Hs1 & Hc1);
      [done|by left|done| | |].
    { unfold in_u in *. rewrite Hlen. nia. }
    { unfold in_u in *. lia. }
    rewrite Hs1. cbn [mbind outcome_bind]. rewrite Hlen in Hc1.
    destruct (IH times s1 (k + 1) (b + Z.of_nat size)) as (s' & Hs' & Hc'); try done; try lia.
    { unfold in_u in *. lia. }
    { unfold in_u in *. lia. }
    exists s'. split; [done|].
    replace (k + Z.of_nat (S (length ds))) with (k + 1 + Z.of_nat (length ds)) by lia.
    replace (b + Z.of_nat (S (length ds)) * Z.of_nat size)
      with (b + Z.of_nat size + Z.of_nat (length ds) * Z.of_nat size) by lia.
    done.
Qed.

(** ** Lemmas: a receiver behind a network that loses, repeats and reorders *)

(** The counters after [n] datagrams with numbers below [k]. *)
Definition tallied (k n : Z) (s : UdpStats.t) : Prop :=
  UdpStats.packets s = Z.of_nat (size (UdpStats.seen s)) /\
  UdpStats.packets s + UdpStats.dup s = n /\ 0 <= UdpStats.dup s /\
  0 <= UdpStats.ooo s /\ (UdpStats.have_max s = true -> UdpStats.ooo s < UdpStats.packets s) /\
  (UdpStats.have_max s = false -> UdpStats.ooo s = 0 /\ UdpStats.packets s = 0) /\
  (forall x, x ∈ UdpStats.seen s -> 0 <= x < k) /\
  0 <= UdpStats.max_seq s /\ (UdpStats.have_max s = true -> UdpStats.max_seq s < k).

Lemma tallied_default k : tallied k 0 UdpStats.default.
Proof. unfold tallied. cbn. repeat split; try done; set_solver. Qed.

Lemma tallied_packets k n s : 0 <= k -> tallied k n s -> UdpStats.packets s <= k.
Proof.
  intros Hk (-> & _ & _ & _ & _ & _ & Hseen & _).
  assert (UdpStats.seen s ⊆ list_to_set (seqZ 0 k)) as Hsub.
  { intros x Hx. apply Hseen in Hx. apply elem_of_list_to_set, elem_of_seqZ. lia. }
  apply subseteq_size in Hsub. rewrite size_list_to_set in Hsub by apply NoDup_seqZ.
  rewrite length_seqZ in Hsub. lia.
Qed.

Lemma process_packet_tallied s d k n q recv ts :
  tallied k n s -> decode_udp_header d = Ok (Some (q, ts)) -> 0 <= q < k -> u64 k -> u64 (n + 1) ->
  exists s', process_packet Release s d recv = Ok s' /\ tallied k (n + 1) s' /\
    UdpStats.have_max s' = true.
Proof.
  intros Hs Hd Hq Hk Hn. unfold process_packet. rewrite Hd. cbn.
  pose proof (record_release_total s q ts recv (Z.of_nat (length d))) as Htot.
  pose proof (tallied_packets k n s ltac:(lia) Hs) as Hpk.
  destruct Hs as (Hp & Hpd & Hdp & Ho & Hhm & Hnm & Hseen & Hmx & Hmxk).
  destruct (UdpStats.record Release s q ts recv (Z.of_nat (length d))) as [s'| | |] eqn:E; try done.
  clear Htot. exists s'. unfold UdpStats.record in E. case_decide as Hin.
  - rewrite arith_u_Ok in E by (unfold in_u in *; lia). cbn in E. simplify_eq.
    destruct (UdpStats.have_max s) eqn:Eh.
    + split; [done|]. split; [|done].
      unfold tallied; cbn. repeat split; try done; try lia; by apply Hseen.
    + destruct (Hnm eq_refl) as [_ H0]. rewrite Hp in H0.
      assert (size (UdpStats.seen s) = 0%nat) as Hz by lia.
      apply size_empty_inv in Hz. set_solver.
  - split; [done|]. inv_bind E. rewrite arith_u_Ok in E by (unfold in_u in *; lia). cbn in E.
    inv_bind E. destruct a0 as [m o]. inv_bind E. inv_bind E. simplify_eq.
    split; [|done]. unfold UdpStats.next_order in Ha0.
    assert (0 <= m < k /\ 0 <= o < UdpStats.packets s + 1) as [Hm Ho'].
    { destruct (UdpStats.have_max s) eqn:Eh; cbn in Ha0; [|naive_solver lia].
      specialize (Hhm eq_refl). specialize (Hmxk eq_refl).
      destruct (Z.ltb_spec (UdpStats.max_seq s) q); [naive_solver lia|].
      rewrite arith_u_Ok in Ha0 by (unfold in_u in *; lia). cbn in Ha0. naive_solver lia. }
    unfold tallied; cbn. split.
    { rewrite size_union by set_solver. rewrite size_singleton. lia. }
    refine (conj _ (conj _ (conj _ (conj _ (conj _ (conj _ _)))))); try done; try lia.
    intros x [ ->%elem_of_singleton | Hx ]%elem_of_union; [done|by apply Hseen].
Qed.

(** What the server counts: the arrivals from the peer. *)
Definition is_from (peer : Z) (a : arrival) : bool :=
  match a with Ok (_, src, _) => bool_decide (src = peer) | _ => false end.

Fixpoint count_from (peer : Z) (script : list arrival) : Z :=
  match script with
  | [] => 0
  | a :: script => (if is_from peer a then 1 else 0) + count_from peer script
  end.

(** The script delivers copies of datagrams of [log] from the peer, and
    anything from elsewhere. *)
Definition delivers (peer : Z) (log : list (list byte)) (script : list arrival) : Prop :=
  Forall (fun a => exists d src t, a = Ok (d, src, t) /\ (src = peer -> d ∈ log)) script.

Lemma count_from_bounds peer script : 0 <= count_from peer script <= Z.of_nat (length script).
Proof. induction script as [|a script IH]; cbn; [lia|]. destruct (is_from peer a); lia. Qed.

Lemma in_sequence_elem from size log d :
  in_sequence from size log -> d ∈ log ->
  length d = size /\ exists q ts, decode_udp_header d = Ok (Some (q, ts)) /\
    from <= q < from + Z.of_nat (length log).
Proof.
  intros Hseq [i Hi]%list_elem_of_lookup. pose proof (lookup_lt_Some _ _ _ Hi).
  destruct (Hseq i d Hi) as (Hl & ts & _ & Hd). split; [done|].
  exists (from + Z.of_nat i), ts. split; [done|]. lia.
Qed.

Lemma server_recv_tallied cap peer t0 size log script s n :
  in_sequence 0 size log -> (size <= cap)%nat -> u64 (Z.of_nat (length log)) ->
  delivers peer log script -> 0 <= n -> u64 (n + Z.of_nat (length script)) ->
  tallied (Z.of_nat (length log)) n s -> UdpStats.have_max s = true ->
  exists s', server_takes Release cap peer t0 s script = Ok s' /\
    tallied (Z.of_nat (length log)) (n + count_from peer script) s' /\
    UdpStats.have_max s' = true.
Proof.
  intros Hseq Hcap Hk Hdel. revert s n.
  induction Hdel as [|a script (d & src & t & -> & Hsrc) Hdel IH]; intros s n Hn0 Hn Hs Hh.
  - exists s. rewrite Z.add_0_r. done.
  - cbn [length] in Hn. cbn [count_from is_from server_takes mbind outcome_bind].
    case_bool_decide as Hp.
    + rewrite decide_True by done. specialize (Hsrc Hp).
      destruct (in_sequence_elem _ _ _ _ Hseq Hsrc) as (Hl & q & ts & Hd & Hq).
      unfold fill. rewrite take_ge by lia.
      destruct (process_packet_tallied s d (Z.of_nat (length log)) n q (elapsed_u64 t0 t) ts)
        as (s1 & Hs1 & Ht1 & Hh1); try done; try lia; [unfold in_u in *; lia|].
      rewrite Hs1. cbn [mbind outcome_bind].
      destruct (IH s1 (n + 1)) as (s' & Hs' & Ht' & Hh'); try done; try lia;
        [unfold in_u in *; lia|].
      exists s'. split; [done|]. by rewrite Z.add_assoc.
    + rewrite decide_False by done. apply IH; try done. unfold in_u in *; lia.
Qed.

Lemma server_size ds :
  0 <= ds -> Z.to_nat (Z.max ds (Z.of_nat UDP_HEADER_LEN)) = Nat.max (Z.to_nat ds) UDP_HEADER_LEN.
Proof. intros. lia. Qed.

Lemma log_cons {A} (log : list A) : (1 <= length log)%nat -> exists d rest, log = d :: rest.
Proof. destruct log as [|d rest]; cbn; [lia|eauto]. Qed.

(** ** Properties *)

(** C6: a UDP upload over a network that delivers every datagram once and in
    order before the server's deadline, which comes half a second after the
    time of the test: the server's report agrees with the client's on packets, bytes and
    highest sequence number, with nothing out of order or duplicated. *)
Theorem udp_upload_lossless (p : profile) net duration size bw readings crep log
    req peer t t0 t1 t_end times script :
  client_run_udp_up p net duration size bw readings = Ok (crep, log) ->
  0 <= size -> TestRequest.payload_size req = size ->
  u64 (TestReport.bytes crep) -> u64 (Z.of_nat (length log) * Z.max size 16) ->
  S (length times) = length log ->
  before (server_deadline req t0) script = in_order_script peer (tail log) times ->
  fires (server_deadline req t0) script = true ->
  exists hello rest srep, log = hello :: rest /\
    server_run_udp_up Release req (Ok (hello, peer, t)) t0 t1 t_end script = Ok srep /\
    TestReport.packets srep = TestReport.packets crep /\
    TestReport.bytes srep = TestReport.bytes crep /\
    TestReport.max_seq srep = TestReport.max_seq crep /\
    TestReport.ooo srep = 0 /\ TestReport.dup srep = 0.
Proof.
  intros Hrun Hsize Hreq Hcb Hb Hl Hscript Hfires.
  destruct (client_udp_up_spec _ _ _ _ _ _ _ _ Hsize Hrun) as (Hseq & Hlen & Hu & Hbytes & Hrep).
  set (sz := Nat.max _ _) in *.
  assert (Z.of_nat sz = Z.max size 16) as Hsz by (subst sz; unfold UDP_HEADER_LEN; lia).
  rewrite <- Hsz in Hb. rewrite !cast_u_id in Hbytes by done.
  destruct (log_cons log Hlen) as (hello & rest & ->).
  exists hello, rest. unfold server_run_udp_up. rewrite Hreq, server_size by done. fold sz.
  apply in_sequence_cons in Hseq as [(Hhl & ts & _ & Hdec) Hrest]. cbn [length] in *.
  cbn [mbind outcome_bind]. unfold fill. rewrite take_ge by lia.
  destruct (process_packet_in_order UdpStats.default hello 0 0 (elapsed_u64 t0 t1) ts)
    as (s1 & Hs1 & Hc1); try done; [by right|unfold in_u in *; nia|].
  rewrite Hs1. cbn [mbind outcome_bind]. rewrite server_recv_loop_takes, Hscript by done.
  change (tail (hello :: rest)) with rest.
  destruct (server_recv_in_order (sz + 64) peer t0 sz rest times s1 1 (Z.of_nat sz))
    as (s' & Hs' & Hc'); try done; try lia; try (unfold in_u in *; lia).
  { by rewrite <- Hhl. }
  rewrite Hs'. cbn [mbind outcome_bind]. eexists. split; [done|]. split; [done|].
  destruct Hc' as (Hp & Hb' & Hm & Ho & Hd & _). cbn.
  rewrite Hp, Hb', Hm, Ho, Hd, Hrep. cbn. rewrite Hbytes. repeat split; lia.
Qed.

(** A second of 100-byte datagrams at 4 kbit/s, read every 20 ms. *)
Definition demo_readings : list Z := (fun i => i * 20000000) <$> seqZ 0 60.

Definition demo_upload : io (TestReport.t * list (list byte)) :=
  client_run_udp_up Dev (fun _ => Ok tt) 1000000000 100 4000 demo_readings.

Definition demo_report : TestReport.t :=
  match demo_upload with Ok (rep, _) => rep | _ => TestReport.default end.

Definition demo_log : list (list byte) :=
  match demo_upload with Ok (_, log) => log | _ => [] end.

Definition demo_request : TestRequest.t := TestRequest.mk KIND_UDP_UP 1000 100 4000 0.

Lemma demo_upload_Ok : demo_upload = Ok (demo_report, demo_log).
Proof. vm_compute. reflexivity. Qed.

(** The other datagrams arrive, the timer looks at the clock in between. *)
Definition demo_turns : list (turn arrival) :=
  Tick 5 :: (Recv <$> in_order_script 1 (tail demo_log) [10; 20; 30]) ++ [Tick 900; Tick 1500000005].

Example udp_upload_lossless_witness :
  exists hello rest srep, demo_log = hello :: rest /\
    server_run_udp_up Release demo_request (Ok (hello, 1, 0)) 5 5 1600000000
      demo_turns = Ok srep /\
    TestReport.packets srep = 4.
Proof.
  destruct (udp_upload_lossless Dev (fun _ => Ok tt) 1000000000 100 4000 demo_readings
    demo_report demo_log demo_request 1 0 5 5 1600000000 [10; 20; 30] demo_turns)
    as (hello & rest & srep & Hlog & Hrun & Hp & _).
  - exact demo_upload_Ok.
  - discriminate.
  - reflexivity.
  - solve_closed.
  - solve_closed.
  - vm_compute. reflexivity.
  - vm_compute. reflexivity.
  - vm_compute. reflexivity.
  - exists hello, rest, srep. split; [exact Hlog|]. split; [exact Hrun|].
    rewrite Hp. vm_compute. reflexivity.
Defined.

(** C7: a UDP upload over a network that loses, repeats, delays and reorders,
    with strangers sending to the server's port: a release server finishes
    when its deadline comes; it counts no more packets than the client sent
    and no higher number, its packets and duplicates add up to the datagrams
    that came from the client before that, and fewer packets are out of order
    than arrived. *)
Theorem udp_upload_lossy (p : profile) net duration size bw readings crep log
    req peer hello t t0 t1 t_end script :
  client_run_udp_up p net duration size bw readings = Ok (crep, log) ->
  0 <= size -> TestRequest.payload_size req = size ->
  let arrivals := before (server_deadline req t0) script in
  fires (server_deadline req t0) script = true ->
  hello ∈ log -> delivers peer log arrivals -> u64 (1 + Z.of_nat (length arrivals)) ->
  exists srep,
    server_run_udp_up Release req (Ok (hello, peer, t)) t0 t1 t_end script = Ok srep /\
    TestReport.packets srep <= TestReport.packets crep /\
    TestReport.max_seq srep <= TestReport.max_seq crep /\
    TestReport.packets srep + TestReport.dup srep = 1 + count_from peer arrivals /\
    TestReport.ooo srep < TestReport.packets srep.
Proof.
  intros Hrun Hsize Hreq arrivals Hfires Hhello Hdel Hn.
  destruct (client_udp_up_spec _ _ _ _ _ _ _ _ Hsize Hrun) as (Hseq & Hlen & Hu & _ & Hrep).
  set (sz := Nat.max _ _) in *.
  unfold server_run_udp_up. rewrite Hreq, server_size by done. fold sz.
  destruct (in_sequence_elem _ _ _ _ Hseq Hhello) as (Hl & q & ts & Hd & Hq).
  cbn [mbind outcome_bind]. unfold fill. rewrite take_ge by lia.
  destruct (process_packet_tallied UdpStats.default hello (Z.of_nat (length log)) 0 q
    (elapsed_u64 t0 t1) ts) as (s1 & Hs1 & Ht1 & Hh1); try done.
  rewrite Hs1. cbn [mbind outcome_bind]. rewrite server_recv_loop_takes by done. fold arrivals.
  destruct (server_recv_tallied (sz + 64) peer t0 sz log arrivals s1 (0 + 1))
    as (s' & Hs' & Ht' & Hh'); try done; [lia|].
  rewrite Hs'. cbn [mbind outcome_bind]. eexists. split; [done|].
  pose proof (tallied_packets _ _ _ (Nat2Z.is_nonneg _) Ht') as Hp.
  destruct Ht' as (_ & Hpd & _ & _ & Hho & _ & _ & _ & Hm). specialize (Hho Hh'). specialize (Hm Hh').
  rewrite Hrep. cbn. lia.
Qed.

(** A datagram comes too late. *)
Definition demo_lossy_turns : list (turn arrival) :=
  [Recv (Ok (default [] (demo_log !! 0%nat), 1, 10)); Recv (Ok ([], 2, 10)); Tick 20;
   Recv (Ok (default [] (demo_log !! 2%nat), 1, 30)); Tick 1500000005;
   Recv (Ok (default [] (demo_log !! 3%nat), 1, 1500000006))].

Example udp_upload_lossy_witness :
  exists srep,
    server_run_udp_up Release demo_request (Ok (default [] (demo_log !! 2%nat), 1, 0)) 5 5 1600000000
      demo_lossy_turns = Ok srep /\
    TestReport.packets srep + TestReport.dup srep = 3.
Proof.
  destruct (udp_upload_lossy Dev (fun _ => Ok tt) 1000000000 100 4000 demo_readings
    demo_report demo_log demo_request 1 (default [] (demo_log !! 2%nat)) 0 5 5 1600000000
    demo_lossy_turns) as (srep & Hrun & _ & _ & Hsum & _).
  - exact demo_upload_Ok.
  - discriminate.
  - reflexivity.
  - vm_compute. reflexivity.
  - apply list_elem_of_lookup. exists 2%nat. vm_compute. reflexivity.
  - change (before _ demo_lossy_turns) with ([Ok (default [] (demo_log !! 0%nat), 1, 10); Ok ([], 2, 10);
      Ok (default [] (demo_log !! 2%nat), 1, 30)] : list arrival).
    repeat apply Forall_cons_2; [..|by apply Forall_nil].
    + eexists _, 1, 10. split; [reflexivity|]. intros _. apply list_elem_of_lookup.
      exists 0%nat. vm_compute. reflexivity.
    + eexists _, 2, 10. split; [reflexivity|]. discriminate.
    + eexists _, 1, 30. split; [reflexivity|]. intros _. apply list_elem_of_lookup.
      exists 2%nat. vm_compute. reflexivity.
  - solve_closed.
  - exists srep. split; [exact Hrun|]. rewrite Hsum. vm_compute. reflexivity.
Defined.

(** C10: a rate-limited upload never exceeds its rate: the hello apart, the
    packets it reports, at their size, take no longer at the configured
    bandwidth than the test lasts. *)
Theorem udp_upload_paced (p : profile) net duration size bw readings crep log :
  client_run_udp_up p net duration size bw readings = Ok (crep, log) ->
  0 <= size -> u64 (Z.max size 16) -> u64 bw -> 0 < bw -> 0 <= duration ->
  (forall start, head readings = Some start -> Forall (fun r => r - start < 2 ^ 64) readings) ->
  TestReport.packets crep = 1 \/
  TestReport.packets crep * (Z.max size 16 * 8 * NANOS_PER_SEC) <= bw * duration.
Proof.
  intros Hrun Hsize Hmax Hbw Hbw0 Hdur Hread.
  pose proof (client_udp_up_spec _ _ _ _ _ _ _ _ Hsize Hrun) as (_ & Hlen & _ & _ & Hrep).
  unfold client_run_udp_up in Hrun. set (sz := Nat.max _ _) in *.
  assert (Z.of_nat sz = Z.max size 16) as Hsz by (subst sz; unfold UDP_HEADER_LEN; lia).
  destruct readings as [|st readings]; [done|]. specialize (Hread st eq_refl).
  apply Forall_cons in Hread as [_ Hread].
  rewrite encode_udp_header_Ok in Hrun by (rewrite length_replicate; lia).
  cbn [mbind outcome_bind] in Hrun. set (h := be_bytes 8 0 ++ be_bytes 8 0 ++ _) in Hrun.
  assert (length h = sz) as Hhl.
  { unfold h. rewrite !length_app, !be_bytes_length, length_drop, length_replicate.
    unfold UDP_HEADER_LEN in *. lia. }
  inv_bind Hrun. destruct readings as [|t1 readings]; [done|].
  inv_bind Hrun. destruct a0 as [ [s t] rest]. destruct rest as [|t2 rest]; [done|].
  injection Hrun as Hr _. apply Forall_cons in Hread as [Ht1 Hread]. rewrite Hhl, Hsz in Ha0.
  set (pacer := Pacer.new bw (Z.max size 16) (Z.max st t1)) in *.
  assert (limited pacer) as Hlim by (split; cbn; lia).
  apply run_deadline in Ha0; try done; cbn [Pacer.start pacer Pacer.new].
  - rewrite <- Hr. cbn [TestReport.packets Sender.seq] in *.
    assert (Z.of_nat (length log) = Sender.seq s) as Hls.
    { rewrite <- Hr in Hrep. by injection Hrep. }
    unfold due_by in Ha0. pose proof (due_spec pacer (saturating_sub (st + duration) (Z.max st t1)) Hlim) as [Hd _].
    cbn [Pacer.start Pacer.bandwidth_bps pacer Pacer.new] in *.
    change (cost pacer) with (Z.max size 16 * 8 * NANOS_PER_SEC) in Hd.
    destruct (decide (Sender.seq s = 1)) as [ |Hne]; [by left|right].
    assert (0 < Z.max size 16 * 8 * NANOS_PER_SEC) by (unfold NANOS_PER_SEC; lia).
    set (D := due pacer _) in *. assert (Sender.seq s <= D) by lia.
    unfold saturating_sub in Hd. nia.
  - eapply Forall_impl; [exact Hread|]. cbn. lia.
  - lia.
  - split; cbn; [unfold in_u; lia|]. rewrite Hhl. unfold sz, UDP_HEADER_LEN. lia.
Qed.

Example udp_upload_paced_witness :
  TestReport.packets demo_report = 1 \/
  TestReport.packets demo_report * (100 * 8 * NANOS_PER_SEC) <= 4000 * 1000000000.
Proof.
  apply (udp_upload_paced Dev (fun _ => Ok tt) 1000000000 100 4000 demo_readings
    demo_report demo_log).
  - exact demo_upload_Ok.
  - discriminate.
  - solve_closed.
  - solve_closed.
  - reflexivity.
  - discriminate.
  - intros start [= <-]. unfold demo_readings. apply Forall_fmap, Forall_forall.
    intros x Hx%elem_of_seqZ. cbn. lia.
Defined.

(** C11: an upload ends: in a release build, with a socket that answers every
    send and accepts the hello, once some reading of the clock has reached
    the deadline four more are enough for the client to have its report. *)
Theorem udp_upload_terminates net duration size bw st t1 before r after :
  u64 (Z.max size 16) -> u64 bw -> 0 <= size ->
  (forall d, returns (net d)) ->
  (forall hello, encode_udp_header (replicate (Nat.max (Z.to_nat size) UDP_HEADER_LEN) Byte.x00) 0 0 = Ok hello ->
    net hello = Ok tt) ->
  st + duration <= r -> (4 <= length after)%nat ->
  is_ok (client_run_udp_up Release net duration size bw (st :: t1 :: before ++ r :: after)) = true.
Proof.
  intros Hsz Hbw Hsize Hnet Hhello Hr Hafter. unfold client_run_udp_up.
  set (n := Nat.max _ _).
  assert (16 <= n)%nat as Hn by (unfold n, UDP_HEADER_LEN; lia).
  assert (Z.of_nat n = Z.max size 16) as Hnz by (unfold n, UDP_HEADER_LEN; lia).
  specialize (Hhello _ (encode_udp_header_Ok (replicate n Byte.x00) 0 0
    ltac:(rewrite length_replicate; exact Hn))).
  rewrite encode_udp_header_Ok by (rewrite length_replicate; exact Hn). cbn [mbind outcome_bind].
  set (h := be_bytes 8 0 ++ be_bytes 8 0 ++ _) in *. rewrite Hhello. cbn [mbind outcome_bind].
  assert (length h = n) as Hh.
  { unfold h. rewrite !length_app, !be_bytes_length, length_drop, length_replicate.
    unfold UDP_HEADER_LEN. lia. }
  set (pacer := Pacer.new _ _ _). set (net' := fun d => (fun _ => Z.of_nat (length h)) <$> net d).
  set (s0 := Sender.mk _ _ _ _).
  assert (forall d, returns (net' d)) as Hnet'.
  { intros d. unfold net'. specialize (Hnet d). by destruct (net d). }
  assert (Pacer.wf pacer) as Hwf by (split; [done|]; cbn; by rewrite Hh, Hnz).
  assert (state_ok s0) as Hs0 by (split; cbn; [done|]; rewrite Hh; exact Hn).
  destruct after as [|a0 [|a1 [|a2 [|a3 after] ] ] ]; cbn in Hafter; try lia.
  change (r :: a0 :: a1 :: a2 :: a3 :: after) with (r :: [a0; a1; a2] ++ a3 :: after).
  rewrite app_comm_cons, app_assoc.
  pose proof (run_terminates Release pacer st (st + duration) net' before r [a0; a1; a2]
    (Z.max st t1) Sender.Outer s0 Hr (le_n 3)) as Hh1.
  rewrite run_app; [|apply Hh1; intros d Hd; specialize (Hnet' d); by rewrite Hd in Hnet'].
  assert (is_ok (Sender.run Release pacer st (st + duration) net' (before ++ [r; a0; a1; a2])
    (Z.max st t1) Sender.Outer s0) = true) as Hok.
  { apply run_release_Ok; try done. apply Hh1. intros d Hd. specialize (Hnet' d). by rewrite Hd in Hnet'. }
  change (r :: [a0; a1; a2]) with [r; a0; a1; a2].
  destruct (Sender.run _ _ _ _ _ _ _ _ _) as [ [ [s t] rest] | | |]; try done. cbn.
  by destruct (rest ++ a3 :: after) as [|? ?] eqn:E; [by destruct rest|].
Qed.

Example udp_upload_terminates_witness :
  is_ok (client_run_udp_up Release (fun _ => Ok tt) 1000 20 0
    (0 :: 0 :: [1; 2; 3; 4; 5; 6] ++ 1000 :: [1001; 1002; 1003; 1004])) = true.
Proof.
  apply (udp_upload_terminates (fun _ => Ok tt) 1000 20 0 0 0 [1; 2; 3; 4; 5; 6] 1000).
  - solve_closed.
  - solve_closed.
  - discriminate.
  - intros d. exact I.
  - intros hello _. reflexivity.
  - discriminate.
  - apply le_n.
Defined.

(** Successive readings, three to a round of the loop. *)
Inductive in_slot (from to : Z) : Z -> list Z -> Z -> Prop :=
| in_slot_nil t : in_slot from to t [] t
| in_slot_round t t1 t2 t3 readings t' :
    t <= t1 -> from <= t1 -> t1 <= t2 -> t2 <= t3 -> t3 < to -> in_slot from to t3 readings t' ->
    in_slot from to t (t1 :: t2 :: t3 :: readings) t'.

(** C29: the slot of a packet is spent spinning: at readings of the clock from
    the moment packet [seq] is due until packet [seq + 1] is, the sender goes
    round its loop, one reading at the head, one for the target and one for
    the sleep that returns at once, however often it gets to run, and neither
    sends a datagram nor sleeps. *)
Theorem sender_spins_in_slot (p : profile) (pacer : Pacer.t) session_start deadline net
    time readings time' rest s :
  Pacer.wf pacer -> limited pacer -> state_ok s -> Sender.seq s * cost pacer < 2 ^ 128 ->
  in_slot (Pacer.start pacer + clamp_u 64 (due_at pacer (Sender.seq s)))
    (Z.min (Pacer.start pacer + Z.min (due_at pacer (Sender.seq s + 1)) (2 ^ 64)) deadline)
    time readings time' ->
  Sender.run p pacer session_start deadline net (readings ++ rest) time Sender.Outer s =
  Sender.run p pacer session_start deadline net rest time' Sender.Outer s.
Proof.
  intros Hwf Hlim Hs Hc Hslot. induction Hslot as [|t t1 t2 t3 readings t' H0 Hf H1 H2 Hto _ IH]; [done|].
  change ((t1 :: t2 :: t3 :: readings) ++ rest) with (t1 :: t2 :: t3 :: (readings ++ rest)).
  rewrite run_spins; [exact IH|done..|lia|done|lia|lia].
Qed.

(** Packet 4 of the upload above is due at 0.8 s, packet 5 at 1 s. *)
Example sender_spins_in_slot_witness :
  Sender.run Release (Pacer.new 4000 100 0) 0 1000000000 (fun _ => Ok 100)
    ([800000000; 800000001; 800000002; 999999997; 999999998; 999999999] ++ [1000000000]) 800000000
    Sender.Outer (Sender.mk 4 400 (replicate 100 Byte.x00) []) =
  Ok (Sender.mk 4 400 (replicate 100 Byte.x00) [], 1000000000, []).
Proof.
  rewrite (sender_spins_in_slot Release (Pacer.new 4000 100 0) 0 1000000000 (fun _ => Ok 100)
    800000000 [800000000; 800000001; 800000002; 999999997; 999999998; 999999999] 999999999).
  - reflexivity.
  - solve_closed.
  - split; reflexivity.
  - split; [solve_closed|]. apply Nat.leb_le. vm_compute. reflexivity.
  - vm_compute. reflexivity.
  - repeat (eapply in_slot_round; [solve_closed..|]). apply in_slot_nil.
Defined.
