(* ===== verification/UdpDown.v ===== *)
(** * UDP downloads, end to end

    The server's paced sender against the client's receiver: what the two
    reports of a download have to do with each other, over a network that
    keeps the order and over one that does not. *)
From S2P Require Import Prelude AsyncIo Float64 Protocol Stats Pacer UdpPlane.

(** The socket of the server reports the length of what it sent. *)
Definition full_sends (net : list byte -> io Z) : Prop :=
  forall d n, net d = Ok n -> n = Z.of_nat (length d).

(** Arrivals without an error, and the same as a server sees them. *)
Definition arrived (a : arrival) : Prop := is_ok a = true.

Definition from_peer (peer : Z) (a : arrival) : arrival :=
  '(d, _, t) ← a; Ok (d, peer, t).

Definition payload (a : arrival) : list byte :=
  match a with Ok (d, _, _) => d | _ => [] end.

(** What ends the client's loop after the datagrams it took: the deadline,
    or the first error. *)
Definition ending (fired : bool) (rest : list arrival) : Prop :=
  rest = [] /\ fired = true \/ exists e later, rest = Err e :: later.

(** ** Lemmas *)

(** What the client makes of the arrivals it takes. *)
Fixpoint client_takes (p : profile) (cap : nat) (session_start : option Z)
    (stats : UdpStats.t) (script : list arrival) : io (UdpStats.t * option Z) :=
  match script with
  | Ok (datagram, t0, t) :: script =>
      let s := default t0 session_start in
      stats ← process_packet p stats (fill cap datagram) (elapsed_u64 s t);
      client_takes p cap (Some s) stats script
  | [] | Err _ :: _ => Ok (stats, session_start)
  | Panic :: _ => Panic
  | Hang :: _ => Hang
  end.

Lemma client_recv_loop_takes p cap dl st stats script arrivals rest :
  before dl script = arrivals ++ rest -> ending (fires dl script) rest ->
  client_recv_loop p cap dl st stats script = client_takes p cap st stats (arrivals ++ rest).
Proof.
  revert arrivals st stats. induction script as [|[a|now] script IH]; intros arrivals st stats Hb He; cbn in *.
  - destruct arrivals, rest; try done. by destruct He as [ [_ ?]|(e & l & ?)].
  - destruct arrivals as [|a' arrivals]; cbn [app] in *.
    + destruct He as [ [-> _]|(e & later & ->)]; [done|]. by injection Hb as -> _.
    + injection Hb as <- Hb. cbn [client_takes].
      destruct a as [ [ [d t0] t]| | |]; try done.
      destruct (process_packet _ _ _ _); cbn [mbind outcome_bind]; try done. by apply IH.
  - destruct (dl <=? now); [|by apply IH]. by destruct arrivals, rest.
Qed.

(** Once its clock is anchored the client counts as a server would. *)
Lemma client_recv_server p cap peer s0 stats script rest fired :
  ending fired rest -> Forall arrived script ->
  client_takes p cap (Some s0) stats (script ++ rest) =
    ((fun s => (s, Some s0)) <$>
     server_takes p cap peer s0 stats (from_peer peer <$> script) : io (UdpStats.t * option Z)).
Proof.
  intros Hr Hs. revert stats. induction Hs as [|a script Ha Hs IH]; intros stats.
  - by destruct Hr as [ [-> _]|(e & later & ->)].
  - destruct a as [ [ [d a] t]| | |]; try done.
    rewrite fmap_cons. cbn [app client_takes server_takes from_peer mbind outcome_bind].
    rewrite decide_True by done. change (default a (Some s0)) with s0.
    destruct (process_packet p stats (fill cap d) (elapsed_u64 s0 t)); cbn [mbind outcome_bind]; done.
Qed.

(** The first datagram anchors it. *)
Lemma client_recv_first p cap stats d t0 t script :
  client_takes p cap None stats (Ok (d, t0, t) :: script) =
  client_takes p cap (Some t0) stats (Ok (d, t0, t) :: script).
Proof. done. Qed.

Lemma server_udp_down_bytes p net req readings rep log :
  full_sends net -> server_run_udp_down p net req readings = Ok (rep, log) ->
  cast_u 64 (TestReport.bytes rep) =
    cast_u 64 (Z.of_nat (length log) * Z.max (TestRequest.payload_size req) (Z.of_nat UDP_HEADER_LEN)).
Proof.
  intros Hnet Hrun. pose proof (server_udp_down_spec _ _ _ _ _ _ Hrun) as (_ & _ & Hrep).
  unfold server_run_udp_down in Hrun. set (size := Z.max _ _) in *.
  destruct readings as [|t0 [|t1 readings] ]; [done..|]. inv_bind Hrun.
  destruct a as [ [s t] rest]. destruct rest as [|t2 rest]; [done|]. injection Hrun as Hr Hlog.
  assert (0 <= size) by (unfold size; lia).
  set (buf := replicate (Z.to_nat size) Byte.x00) in *.
  assert (length buf = Z.to_nat size) as Hbl by apply length_replicate.
  apply (run_bytes _ _ _ _ _ size) in Ha; [|cbn|split; cbn|done..].
  - cbn [Sender.bytes Sender.seq] in Ha. rewrite <- Hr in Hrep |- *. cbn [TestReport.bytes].
    injection Hrep as Hseq _. rewrite Ha, Hseq. f_equal. lia.
  - intros d n Hd Hn. apply Hnet in Hn. lia.
  - unfold in_u; lia.
  - rewrite Hbl. unfold size. lia.
Qed.

Lemma from_peer_in_order peer script :
  Forall arrived script ->
  exists times, length times = length script /\
    from_peer peer <$> script = in_order_script peer (payload <$> script) times.
Proof.
  induction 1 as [|a script Ha _ (times & Hl & IH)]; [by exists []|].
  destruct a as [ [ [d a] t]| | |]; try done. exists (t :: times). cbn. rewrite Hl. split; [done|].
  f_equal. exact IH.
Qed.

(** ** Properties *)

(** C8: a UDP download over a network that delivers every datagram once and
    in order before the client's deadline, half a second after the time of
    the test: the client's report agrees with the
    server's on packets, bytes and highest sequence number, with nothing out
    of order or duplicated. *)
Theorem udp_download_lossless (p : profile) net net' req readings srep log size t_end (script rest : list arrival) hello
    duration test_start turns :
  server_run_udp_down p net req readings = Ok (srep, log) -> full_sends net ->
  TestRequest.payload_size req = size -> 0 <= size ->
  u64 (TestReport.bytes srep) -> u64 (Z.of_nat (length log) * Z.max size 16) ->
  encode_udp_header (replicate (Nat.max (Z.to_nat size) UDP_HEADER_LEN) Byte.x00) 0 0 = Ok hello ->
  net' hello = Ok tt ->
  let stop_at := client_stop_at test_start duration in
  before stop_at turns = script ++ rest -> ending (fires stop_at turns) rest ->
  Forall arrived script -> payload <$> script = log ->
  exists crep, client_run_udp_down Release net' duration size test_start t_end turns = Ok crep /\
    TestReport.packets crep = TestReport.packets srep /\
    TestReport.bytes crep = TestReport.bytes srep /\
    TestReport.max_seq crep = TestReport.max_seq srep /\
    TestReport.ooo crep = 0 /\ TestReport.dup crep = 0.
Proof.
  intros Hrun Hnet Hreq Hsize Hsb Hb Hhello Hnet' stop_at Hturns Hend Har Hlog.
  pose proof (server_udp_down_bytes _ _ _ _ _ _ Hnet Hrun) as Hbytes.
  destruct (server_udp_down_spec _ _ _ _ _ _ Hrun) as (Hseq & Hu & Hrep).
  rewrite Hreq in Hseq, Hbytes. rewrite server_size in Hseq by done.
  change (Z.of_nat UDP_HEADER_LEN) with 16 in Hbytes.
  rewrite !cast_u_id in Hbytes by done.
  unfold client_run_udp_down. set (sz := Nat.max _ _) in *.
  assert (Z.of_nat sz = Z.max size 16) as Hsz by (subst sz; unfold UDP_HEADER_LEN; lia).
  rewrite <- Hsz in Hb, Hbytes. rewrite Hhello. cbn [mbind outcome_bind]. rewrite Hnet'.
  cbn [mbind outcome_bind]. fold stop_at. rewrite (client_recv_loop_takes _ _ _ _ _ _ _ _ Hturns Hend).
  subst log. rewrite length_fmap in *.
  destruct Har as [|a script Ha Har].
  - assert (client_takes Release (sz + 64) None UdpStats.default ([] ++ rest)
      = Ok (UdpStats.default, None)) as -> by (by destruct Hend as [ [-> _]|(e & later & ->)]).
    cbn [mbind outcome_bind]. eexists. split; [reflexivity|]. rewrite Hrep. cbn in *.
    rewrite Hbytes. done.
  - destruct a as [ [ [d t0] t]| | |]; try done. cbn [app].
    rewrite client_recv_first, app_comm_cons, (client_recv_server _ _ 0 _ _ _ _ _ Hend) by (by constructor).
    rewrite fmap_cons in *. cbn [payload length] in *.
    apply in_sequence_cons in Hseq as [(Hl & ts & _ & Hd) Hrest].
    change (payload (Ok (d, t0, t))) with d in *.
    cbn [from_peer mbind outcome_bind server_takes]. rewrite decide_True by done.
    unfold fill. rewrite take_ge by lia.
    destruct (process_packet_in_order UdpStats.default d 0 0 (elapsed_u64 t0 t) ts)
      as (s1 & Hs1 & Hc1); try done; [by right|unfold in_u in *; nia|].
    rewrite Hs1. cbn [mbind outcome_bind].
    destruct (from_peer_in_order 0 script Har) as (times & Htl & ->).
    destruct (server_recv_in_order (sz + 64) 0 t0 sz (payload <$> script) times s1 1 (Z.of_nat sz))
      as (s' & Hs' & Hc'); rewrite ?length_fmap; try done; try lia; try (unfold in_u in *; lia).
    { by rewrite <- Hl. }
    rewrite Hs'. cbn [fmap outcome_fmap mbind outcome_bind]. eexists. split; [reflexivity|].
    rewrite length_fmap in Hc'. destruct Hc' as (Hp & Hb' & Hm & Ho & Hdup & _). cbn.
    rewrite Hp, Hb', Hm, Ho, Hdup, Hrep. cbn. rewrite Hbytes. unfold saturating_sub. repeat split; lia.
Qed.

(** A second of 100-byte datagrams at 4 kbit/s, the server's clock read every
    20 ms. *)
Definition demo_down : io (TestReport.t * list (list byte)) :=
  server_run_udp_down Dev (fun d => Ok (Z.of_nat (length d)))
    (TestRequest.mk KIND_UDP_DOWN 1000 100 4000 0) demo_readings.

Definition demo_down_report : TestReport.t :=
  match demo_down with Ok (rep, _) => rep | _ => TestReport.default end.

Definition demo_down_log : list (list byte) :=
  match demo_down with Ok (_, log) => log | _ => [] end.

Definition demo_hello : list byte :=
  match encode_udp_header (replicate 100 Byte.x00) 0 0 with Ok h => h | _ => [] end.

Definition demo_arrivals : list arrival :=
  (fun d => Ok (d, 7, 11)) <$> demo_down_log.

(** The timer looks at the clock before and after. *)
Definition demo_down_turns : list (turn arrival) :=
  Tick 3 :: (Recv <$> demo_arrivals) ++ [Tick 1500000002; Tick 1500000003].

Lemma udp_download_lossless_witness :
  exists crep, client_run_udp_down Release (fun _ => Ok tt) 1000000000 100 3 1600000000
      demo_down_turns = Ok crep /\
    TestReport.packets crep = TestReport.packets demo_down_report.
Proof.
  destruct (udp_download_lossless Dev (fun d => Ok (Z.of_nat (length d))) (fun _ => Ok tt)
    (TestRequest.mk KIND_UDP_DOWN 1000 100 4000 0) demo_readings demo_down_report demo_down_log
    100 1600000000 demo_arrivals [] demo_hello 1000000000 3 demo_down_turns) as (crep & Hrun & Hp & _).
  - vm_compute. reflexivity.
  - intros d n [= <-]. reflexivity.
  - reflexivity.
  - discriminate.
  - solve_closed.
  - solve_closed.
  - vm_compute. reflexivity.
  - reflexivity.
  - vm_compute. reflexivity.
  - left. split; [reflexivity|]. vm_compute. reflexivity.
  - apply Forall_fmap, Forall_forall. intros d _. reflexivity.
  - vm_compute. reflexivity.
  - exists crep. split; [exact Hrun|exact Hp].
Defined.

Lemma count_from_peer peer script :
  Forall arrived script -> count_from peer (from_peer peer <$> script) = Z.of_nat (length script).
Proof.
  induction 1 as [|a script Ha _ IH]; [done|]. destruct a as [ [ [d a] t]| | |]; try done.
  rewrite fmap_cons. cbn [count_from is_from from_peer mbind outcome_bind length].
  rewrite bool_decide_eq_true_2 by done. rewrite IH. lia.
Qed.

Lemma delivers_from_peer peer log script :
  Forall (fun a : arrival => exists d t0 t, a = Ok (d, t0, t) /\ d ∈ log) script ->
  delivers peer log (from_peer peer <$> script).
Proof.
  intros Hs. apply Forall_fmap. eapply Forall_impl; [exact Hs|].
  intros a (d & t0 & t & -> & Hd). by exists d, peer, t.
Qed.

(** C9: a UDP download over a network that loses, repeats, delays and
    reorders: a release client finishes, whether the deadline or an error ends
    its loop; it counts no more packets than the server sent and no higher
    number, its packets and duplicates add up to the datagrams that came
    before the end, and fewer packets are out of order than arrived. *)
Theorem udp_download_lossy (p : profile) net net' req readings srep log size t_end (script rest : list arrival) hello
    duration test_start turns :
  server_run_udp_down p net req readings = Ok (srep, log) ->
  TestRequest.payload_size req = size -> 0 <= size ->
  encode_udp_header (replicate (Nat.max (Z.to_nat size) UDP_HEADER_LEN) Byte.x00) 0 0 = Ok hello ->
  net' hello = Ok tt ->
  let stop_at := client_stop_at test_start duration in
  before stop_at turns = script ++ rest -> ending (fires stop_at turns) rest ->
  Forall (fun a : arrival => exists d t0 t, a = Ok (d, t0, t) /\ d ∈ log) script ->
  u64 (Z.of_nat (length script)) ->
  exists crep, client_run_udp_down Release net' duration size test_start t_end turns = Ok crep /\
    TestReport.packets crep <= TestReport.packets srep /\
    TestReport.max_seq crep <= TestReport.max_seq srep /\
    TestReport.packets crep + TestReport.dup crep = Z.of_nat (length script) /\
    (script <> [] -> TestReport.ooo crep < TestReport.packets crep).
Proof.
  intros Hrun Hreq Hsize Hhello Hnet' stop_at Hturns Hend Hdel Hn.
  destruct (server_udp_down_spec _ _ _ _ _ _ Hrun) as (Hseq & Hu & Hrep).
  rewrite Hreq, server_size in Hseq by done.
  unfold client_run_udp_down. set (sz := Nat.max _ _) in *. rewrite Hhello.
  cbn [mbind outcome_bind]. rewrite Hnet'. cbn [mbind outcome_bind]. fold stop_at.
  rewrite (client_recv_loop_takes _ _ _ _ _ _ _ _ Hturns Hend).
  assert (Forall arrived script) as Har.
  { eapply Forall_impl; [exact Hdel|]. by intros a (d & t0 & t & -> & _). }
  destruct Hdel as [|a script (d & t0 & t & -> & Hd) Hdel].
  - cbn [app]. assert (client_takes Release (sz + 64) None UdpStats.default rest
      = Ok (UdpStats.default, None)) as -> by (by destruct Hend as [ [-> _]|(e & later & ->)]).
    cbn [mbind outcome_bind]. eexists. split; [reflexivity|]. rewrite Hrep. cbn.
    unfold saturating_sub. repeat split; try done; lia.
  - cbn [app]. rewrite client_recv_first, app_comm_cons, (client_recv_server _ _ 0 _ _ _ _ _ Hend) by done.
    apply Forall_cons in Har as [_ Har]. rewrite fmap_cons. cbn [length] in Hn.
    cbn [from_peer mbind outcome_bind server_takes]. rewrite decide_True by done.
    destruct (in_sequence_elem _ _ _ _ Hseq Hd) as (Hl & q & ts & Hdec & Hq).
    unfold fill. rewrite take_ge by lia.
    destruct (process_packet_tallied UdpStats.default d (Z.of_nat (length log)) 0 q
      (elapsed_u64 t0 t) ts) as (s1 & Hs1 & Ht1 & Hh1); try done.
    rewrite Hs1. cbn [mbind outcome_bind].
    destruct (server_recv_tallied (sz + 64) 0 t0 sz log (from_peer 0 <$> script) s1 (0 + 1))
      as (s' & Hs' & Ht' & Hh'); rewrite ?length_fmap; try done; try lia.
    { by apply delivers_from_peer. }
    { unfold in_u in *. lia. }
    rewrite Hs'. cbn [fmap outcome_fmap mbind outcome_bind]. eexists. split; [reflexivity|].
    pose proof (tallied_packets _ _ _ (Nat2Z.is_nonneg _) Ht') as Hp.
    destruct Ht' as (_ & Hpd & _ & _ & Hho & _ & _ & _ & Hm). specialize (Hho Hh'). specialize (Hm Hh').
    rewrite count_from_peer in Hpd by done. rewrite Hrep. cbn -[length Z.of_nat]. cbn [length]. unfold saturating_sub.
    repeat split; intros; lia.
Qed.

Definition demo_down_lossy : list arrival :=
  [Ok (default [] (demo_down_log !! 1%nat), 5, 9); Ok (default [] (demo_down_log !! 0%nat), 5, 10);
   Ok (default [] (demo_down_log !! 1%nat), 5, 11)].

Lemma udp_download_lossy_witness :
  exists crep, client_run_udp_down Release (fun _ => Ok tt) 1000000000 100 3 1600000000
      (Recv <$> demo_down_lossy ++ [Err early_eof]) = Ok crep /\
    TestReport.packets crep + TestReport.dup crep = 3.
Proof.
  destruct (udp_download_lossy Dev (fun d => Ok (Z.of_nat (length d))) (fun _ => Ok tt)
    (TestRequest.mk KIND_UDP_DOWN 1000 100 4000 0) demo_readings demo_down_report demo_down_log
    100 1600000000 demo_down_lossy [Err early_eof] demo_hello 1000000000 3
    (Recv <$> demo_down_lossy ++ [Err early_eof])) as (crep & Hrun & _ & _ & Hsum & _).
  - vm_compute. reflexivity.
  - reflexivity.
  - discriminate.
  - vm_compute. reflexivity.
  - reflexivity.
  - reflexivity.
  - right. exists early_eof, []. reflexivity.
  - repeat apply Forall_cons_2; [..|by apply Forall_nil].
    + eexists _, 5, 9. split; [reflexivity|]. apply list_elem_of_lookup. exists 1%nat. vm_compute. reflexivity.
    + eexists _, 5, 10. split; [reflexivity|]. apply list_elem_of_lookup. exists 0%nat. vm_compute. reflexivity.
    + eexists _, 5, 11. split; [reflexivity|]. apply list_elem_of_lookup. exists 1%nat. vm_compute. reflexivity.
  - solve_closed.
  - exists crep. split; [exact Hrun|exact Hsum].
Defined.
