(* ===== verification/TcpPlane.v ===== *)
(** * TCP data plane (the TCP halves of src/bench/client.rs and
    src/bench/server.rs)

    The timed send and receive loops of both ends.  A script gives the
    readings of the clock and what each write returns, or the turns of the
    receiver's [select!]. *)
From S2P Require Import Prelude AsyncIo Float64 Protocol Stats Pacer UdpPlane.

(** [while Instant::now() < deadline { stream.write(&buf) }]: each element
    is the reading at the head of the loop and the result of the write. *)
Fixpoint tcp_send_loop (p : profile) (deadline bytes : Z) (writes : list (Z * io Z)) : io Z :=
  match writes with
  | [] => Hang
  | (now, r) :: writes =>
      if now <? deadline then
        match r with
        | Ok n =>
            if decide (n = 0) then Ok bytes
            else bytes ← arith_u p 64 (bytes + n); tcp_send_loop p deadline bytes writes
        | Err _ => Ok bytes
        | Panic => Panic
        | Hang => Hang
        end
      else Ok bytes
  end.

(** The receive loop, a [select!] of the read and the deadline; when that has
    come its branch gives a read of nothing. *)
Fixpoint tcp_recv_loop (p : profile) (deadline bytes : Z) (script : list (turn (io Z))) : io Z :=
  match script with
  | [] => Hang
  | Recv r :: script =>
      n ← r;
      if decide (n = 0) then Ok bytes
      else bytes ← arith_u p 64 (bytes + n); tcp_recv_loop p deadline bytes script
  | Tick now :: script =>
      if deadline <=? now then Ok bytes else tcp_recv_loop p deadline bytes script
  end.

(** [TestReport { bytes, duration_actual_ns, ..Default::default() }]. *)
Definition tcp_report (bytes duration_actual_ns : Z) : TestReport.t :=
  TestReport.mk bytes 0 0 0 0 0 0 0 0 duration_actual_ns.

(** [run_tcp_data] of the client, from the open stream on; [start] and
    [t_end] are the first and the last reading of the clock. *)
Definition client_run_tcp_data (p : profile) (kind duration start t_end : Z)
    (writes : list (Z * io Z)) (reads : list (turn (io Z))) : io TestReport.t :=
  bytes ← (if decide (kind = KIND_TCP_UP) then tcp_send_loop p (start + duration) 0 writes
           else tcp_recv_loop p (client_stop_at start duration) 0 reads);
  Ok (tcp_report bytes (elapsed_u64 start t_end)).

(** ** Lemmas *)

(** The bytes the script moves before it ends, stops or fails. *)
Fixpoint moved (results : list (io Z)) : Z :=
  match results with
  | Ok n :: results => if decide (n = 0) then 0 else n + moved results
  | _ => 0
  end.

Definition ends_well (reads : list (io Z)) : Prop := Forall (fun r => is_ok r = true) reads.

Lemma moved_nonneg rs : Forall (fun r => forall n, r = Ok n -> 0 <= n) rs -> 0 <= moved rs.
Proof.
  induction 1 as [|r rs Hr _ IH]; cbn; [done|]. destruct r as [n| | |]; try done.
  specialize (Hr n eq_refl). case_decide; lia.
Qed.

(** The loop is over: the stream has ended or the timer has fired. *)
Definition finishes (deadline : Z) (script : list (turn (io Z))) : Prop :=
  Ok 0 ∈ before deadline script \/ fires deadline script = true.

Lemma tcp_recv_loop_moved p deadline b script :
  finishes deadline script -> ends_well (before deadline script) ->
  Forall (fun r => forall n, r = Ok n -> 0 <= n) (before deadline script) ->
  0 <= b -> u64 (b + moved (before deadline script)) ->
  tcp_recv_loop p deadline b script = Ok (b + moved (before deadline script)).
Proof.
  unfold finishes. revert b.
  induction script as [|[r|now] script IH]; intros b Hf Hw Hn Hb Hu; cbn [tcp_recv_loop before fires] in *.
  - by destruct Hf as [ []%not_elem_of_nil|].
  - apply Forall_cons in Hw as [Hr Hw]. apply Forall_cons in Hn as [Hn Hn'].
    destruct r as [n| | |]; try done. cbn [mbind outcome_bind moved] in *.
    specialize (Hn n eq_refl). pose proof (moved_nonneg _ Hn').
    case_decide; [by rewrite Z.add_0_r|].
    assert (u64 (b + n)) as Hbn by (unfold in_u in *; lia). rewrite (arith_u_Ok _ _ _ Hbn). cbn.
    rewrite IH; [f_equal; lia| |done|done|lia|by rewrite <- Z.add_assoc].
    destruct Hf as [ [Hf|Hf]%elem_of_cons|Hf]; [congruence|by left|by right].
  - destruct (deadline <=? now); [by rewrite Z.add_0_r|]. by apply IH.
Qed.

(** What was written before the deadline. *)
Fixpoint timely (deadline : Z) (writes : list (Z * io Z)) : list (io Z) :=
  match writes with
  | [] => []
  | (now, r) :: writes => if now <? deadline then r :: timely deadline writes else []
  end.

Lemma tcp_send_loop_moved p deadline b writes b' :
  Forall (fun w => forall n, snd w = Ok n -> 0 <= n) writes -> 0 <= b ->
  u64 (b + moved (timely deadline writes)) ->
  tcp_send_loop p deadline b writes = Ok b' -> b' = b + moved (timely deadline writes).
Proof.
  intros Hn. revert b. induction Hn as [|[now r] writes Hr Hn IH]; intros b Hb Hu; [done|].
  cbn [tcp_send_loop timely] in *. destruct (now <? deadline); [|cbn; intros [= <-]; lia].
  cbn [moved snd] in *. destruct r as [n|e| |]; try done; [|intros [= <-]; lia].
  specialize (Hr n eq_refl). case_decide; [intros [= <-]; lia|].
  assert (0 <= moved (timely deadline writes)) as Hm.
  { apply moved_nonneg. clear -Hn. induction Hn as [|[t w] ws Hw _ IHn]; cbn; [done|].
    destruct (t <? deadline); [constructor|constructor]; done. }
  assert (u64 (b + n)) as Hbn by (unfold in_u in *; lia). rewrite (arith_u_Ok _ _ _ Hbn). cbn.
  intros Hrun. rewrite (IH (b + n)) by (done || lia || by rewrite <- Z.add_assoc). lia.
Qed.

(** The sender's loop ends: no write hangs, and the clock reaches the
    deadline. *)
Definition reaches (deadline : Z) (writes : list (Z * io Z)) : Prop :=
  Forall (fun w => returns (snd w) /\ forall n, snd w = Ok n -> 0 <= n) writes /\
  Exists (fun w => deadline <= fst w) writes.

Lemma tcp_send_loop_Ok p deadline b writes :
  reaches deadline writes -> 0 <= b -> u64 (b + moved (timely deadline writes)) ->
  tcp_send_loop p deadline b writes = Ok (b + moved (timely deadline writes)).
Proof.
  intros [Hw He] Hb Hu.
  assert (Forall (fun w => forall n, snd w = Ok n -> 0 <= n) writes) as Hn.
  { eapply Forall_impl; [exact Hw|]. by intros w [_ H]. }
  destruct (tcp_send_loop p deadline b writes) as [b'|e| |] eqn:E.
  { f_equal. by eapply tcp_send_loop_moved. }
  all: exfalso; clear Hn; revert b Hb Hu E; induction Hw as [|[now r] writes [Hr Hnn] Hw IH];
    intros b Hb Hu E; [by apply Exists_nil in He|].
  all: cbn [tcp_send_loop timely fst snd] in *; destruct (Z.ltb_spec now deadline) as [Hlt|Hge]; [|done].
  all: apply Exists_cons in He as [He|He]; [cbn in He; lia|].
  all: destruct r as [n|e'| |]; try done; specialize (Hnn n eq_refl); cbn [moved] in Hu; case_decide; [done|].
  all: assert (0 <= moved (timely deadline writes)) as Hm
    by (apply moved_nonneg; clear -Hw; induction Hw as [|[t w] ws [_ Hw] _ IHn]; cbn; [done|];
        destruct (t <? deadline); by constructor).
  all: rewrite arith_u_Ok in E by (unfold in_u in *; lia); cbn [mbind outcome_bind] in E.
  all: apply (IH He (b + n)); [lia| |done]; by rewrite <- Z.add_assoc.
Qed.

(** A sender that writes until [sends_until] and a receiver that reads until
    [stops_at]: both loops end, and before that the stream brings the receiver
    the bytes of the writes the sender began in time, in pieces of any size. *)
Record transfers (sends_until : Z) (writes : list (Z * io Z)) (stops_at : Z)
    (script : list (turn (io Z))) : Prop := {
  tr_sender : reaches sends_until writes;
  tr_receiver : finishes stops_at script;
  tr_reads : ends_well (before stops_at script);
  tr_nonneg : Forall (fun r => forall n, r = Ok n -> 0 <= n) (before stops_at script);
  tr_delivered : moved (before stops_at script) = moved (timely sends_until writes);
  tr_u64 : u64 (moved (timely sends_until writes));
}.

Lemma transfers_loops p sends_until writes stops_at script :
  transfers sends_until writes stops_at script ->
  tcp_send_loop p sends_until 0 writes = Ok (moved (timely sends_until writes)) /\
  tcp_recv_loop p stops_at 0 script = Ok (moved (timely sends_until writes)).
Proof.
  intros [Hw Hf Hr Hn Hm Hu]. split; [by apply tcp_send_loop_Ok|].
  rewrite <- Hm in *. by apply tcp_recv_loop_moved.
Qed.

(** C28: a TCP test moves what it reports, in either build and direction.  Up:
    the client stops at its deadline and reports the bytes of the writes it
    began before it, and the server, reading until the time of the request and
    the grace are over, counts the same number.  Down: the server writes for
    the time of the request, and the client, reading until its own time and the
    grace are over, reports the number the server has counted. *)
Theorem tcp_transfer_agrees (p : profile) duration req start start' t_end writes script other other' :
  (transfers (start + duration) writes (server_deadline req start') script ->
   exists up, client_run_tcp_data p KIND_TCP_UP duration start t_end writes other = Ok up /\
     TestReport.bytes up = moved (timely (start + duration) writes) /\
     tcp_recv_loop p (server_deadline req start') 0 script = Ok (TestReport.bytes up)) /\
  (let sends_until := start' + TestRequest.duration_ms req * 1000000 in
   transfers sends_until writes (client_stop_at start duration) script ->
   exists down, client_run_tcp_data p KIND_TCP_DOWN duration start t_end other' script = Ok down /\
     TestReport.bytes down = moved (timely sends_until writes) /\
     tcp_send_loop p sends_until 0 writes = Ok (TestReport.bytes down)).
Proof.
  split; intros; edestruct transfers_loops as [Hs Hr]; [eassumption| |eassumption|];
    unfold client_run_tcp_data; [rewrite Hs, Hr|rewrite Hr]; cbn; eauto 10.
Qed.

(** The stream brings 17 bytes and stays open until the timer fires; the
    request has a duration of no milliseconds. *)
Definition demo_reads : list (turn (io Z)) :=
  [Recv (Ok 3); Tick 90; Recv (Ok 14); Tick 500000100].

Definition demo_tcp_request : TestRequest.t := TestRequest.mk KIND_TCP_UP 0 1000 0 0.

Lemma tcp_transfer_agrees_witness :
  exists up, client_run_tcp_data Dev KIND_TCP_UP 100 0 101
      [(0, Ok 10); (50, Ok 7); (100, Ok 9)] [] = Ok up /\
    tcp_recv_loop Dev (server_deadline demo_tcp_request 100) 0 demo_reads = Ok (TestReport.bytes up).
Proof.
  destruct (tcp_transfer_agrees Dev 100 demo_tcp_request 0 100 101 [(0, Ok 10); (50, Ok 7); (100, Ok 9)]
    demo_reads [] []) as [Hup _].
  destruct Hup as (up & Hup & _ & Hr).
  - assert (before (server_deadline demo_tcp_request 100) demo_reads = [Ok 3; Ok 14]) as Hb by reflexivity.
    split; rewrite ?Hb.
    + split.
      * repeat apply Forall_cons_2; [..|by apply Forall_nil]; (split; [exact I|]); intros n [= <-]; lia.
      * right. right. left. cbn. lia.
    + right. vm_compute. reflexivity.
    + repeat constructor.
    + repeat apply Forall_cons_2; [..|by apply Forall_nil]; intros n [= <-]; lia.
    + vm_compute. reflexivity.
    + solve_closed.
  - exists up. split; [exact Hup|exact Hr].
Defined.
