(* ===== verification/Socks5Udp.v ===== *)
(** * SOCKS5 UDP framing (src/udp_socket.rs)

    The datagram header's encoder and decoder, and the socket wrapper that
    adds and strips it under the QUIC endpoint. *)
From S2P Require Import Prelude AsyncIo Text Net.

(** ** Addresses of the SOCKS messages

    The types of the wire-format library, as the program builds and matches
    them: a length-prefixed vector keeps its length byte next to its
    contents. *)
Record VarVec : Type := mk_varvec { vv_len : Z; vv_contents : list byte }.

Inductive AddrOrDomain : Type :=
| AddrV4 (octets : list byte)
| AddrV6 (octets : list byte)
| AddrDomain (d : VarVec).

Record SocksAddr : Type := mk_socks_addr { sa_addr : AddrOrDomain; sa_port : Z }.

#[export] Instance VarVec_eq_dec : EqDecision VarVec.
Proof. solve_decision. Defined.

#[export] Instance AddrOrDomain_eq_dec : EqDecision AddrOrDomain.
Proof. solve_decision. Defined.

#[export] Instance SocksAddr_eq_dec : EqDecision SocksAddr.
Proof. solve_decision. Defined.

(** The arrays have their size and the vector at least its length. *)
Definition addr_ok (a : AddrOrDomain) : Prop :=
  match a with
  | AddrV4 o => length o = 4%nat
  | AddrV6 o => length o = 16%nat
  | AddrDomain d => u8 (vv_len d) /\ vv_len d <= Z.of_nat (length (vv_contents d))
  end.

Definition socks_addr_ok (a : SocksAddr) : Prop := addr_ok (sa_addr a) /\ u16 (sa_port a).

(** What the header carries of an address: a domain's first [len] bytes. *)
Definition on_wire (a : SocksAddr) : SocksAddr :=
  match sa_addr a with
  | AddrDomain d =>
      mk_socks_addr (AddrDomain (mk_varvec (vv_len d) (take (Z.to_nat (vv_len d)) (vv_contents d))))
        (sa_port a)
  | _ => a
  end.

(** ** The header *)
Definition encode_socks5_udp_header (dst : SocksAddr) : io (list byte) :=
  addr ← match sa_addr dst with
         | AddrV4 ip => Ok (Byte.x01 :: ip)
         | AddrV6 ip => Ok (Byte.x04 :: ip)
         | AddrDomain domain =>
             contents ← slice (vv_contents domain) 0 (Z.to_nat (vv_len domain));
             Ok (Byte.x03 :: z2b (vv_len domain) :: contents)
         end;
  Ok ([Byte.x00; Byte.x00; Byte.x00] ++ addr ++
      [z2b (Z.shiftr (sa_port dst) 8); z2b (Z.land (sa_port dst) 255)]).

Definition invalid (msg : str) : io_error := mk_io_error InvalidData msg.

Definition decode_socks5_udp_header (buf : list byte) : io (SocksAddr * nat) :=
  if decide (length buf < 4)%nat then Err (invalid (lit "UDP header too short"))
  else
    frag ← index buf 2;
    if decide (frag <> Byte.x00) then Err (invalid (lit "fragmented UDP not supported"))
    else
      atyp ← index buf 3;
      '(addr, offset) ←
        (if decide (atyp = Byte.x01) then
           if decide (length buf < 4 + 4 + 2)%nat then Err (invalid (lit "IPv4 addr too short"))
           else ip ← slice buf 4 8; Ok (AddrV4 ip, 8%nat)
         else if decide (atyp = Byte.x04) then
           if decide (length buf < 4 + 16 + 2)%nat then Err (invalid (lit "IPv6 addr too short"))
           else ip ← slice buf 4 20; Ok (AddrV6 ip, 20%nat)
         else if decide (atyp = Byte.x03) then
           if decide (length buf < 5)%nat then Err (invalid (lit "domain header too short"))
           else
             len ← index buf 4;
             let domain_len := Z.to_nat (b2z len) in
             if decide (length buf < 5 + domain_len + 2)%nat
             then Err (invalid (lit "domain addr too short"))
             else
               contents ← slice buf 5 (5 + domain_len);
               Ok (AddrDomain (mk_varvec (b2z len) contents), (5 + domain_len)%nat)
         else Err (invalid (lit "unknown address type: 0x" ++ show_hex (b2z atyp))));
      hi ← index buf offset;
      lo ← index buf (offset + 1);
      Ok (mk_socks_addr addr (be_val [hi; lo]), (offset + 2)%nat).

(** The longest header. *)
Definition max_header : nat := 262.

(** ** [SocksUdpSocket]: the framing under the QUIC endpoint *)
Inductive poll (A : Type) : Type :=
| Ready (a : A)
| Pending.
Arguments Ready {A} a.
Arguments Pending {A}.

Record RecvMeta : Type := mk_meta { meta_addr : SocketAddr; meta_len : Z; meta_stride : Z }.

Module SocksUdpSocket.
Record t : Type := mk { target : SocksAddr; remote_addr : SocketAddr }.

(** [inner] is what the socket's [try_send] answers. *)
Definition try_send (inner : list byte -> io Z) (self : t) (contents : list byte) : io unit :=
  header ← encode_socks5_udp_header (target self);
  (fun _ => tt) <$> inner (header ++ contents).

(** [inner] is what the socket has received, if anything; the buffers and
    the metadata are filled in place. *)
Definition poll_recv (self : t) (inner : poll (io (list byte)))
    (bufs : list (list byte)) (meta : list RecvMeta) :
    io (poll Z * list (list byte) * list RecvMeta) :=
  match inner with
  | Pending => Ok (Pending, bufs, meta)
  | Ready received =>
      datagram ← received;
      let filled := take (Z.to_nat 65535) datagram in
      if decide (filled = []) then Ok (Ready 0, bufs, meta)
      else
        '(_, header_len) ← decode_socks5_udp_header filled;
        payload ← slice_from filled header_len;
        if decide (payload = []) then Ok (Ready 0, bufs, meta)
        else
          buf ← index bufs 0;
          let copy_len := Nat.min (length payload) (length buf) in
          src ← slice payload 0 copy_len;
          buf ← copy_range buf 0 copy_len src;
          _ ← index meta 0;
          Ok (Ready 1, <[0%nat := buf]> bufs,
              <[0%nat := mk_meta (remote_addr self) (Z.of_nat copy_len) (Z.of_nat copy_len)]> meta)
  end.

(** The rest of the socket's interface, and its poller, hand on what the inner
    socket answers; it takes and gives one datagram at a time. *)
Definition local_addr (inner : io SocketAddr) (self : t) : io SocketAddr := inner.
Definition may_fragment (self : t) : bool := false.
Definition max_transmit_segments (self : t) : Z := 1.
Definition max_receive_segments (self : t) : Z := 1.
Definition create_io_poller (self : t) : t := self.
Definition poll_writable (inner : poll (io unit)) (poller : t) : poll (io unit) := inner.
End SocksUdpSocket.

(** ** Lemmas *)
Lemma port_bytes port :
  u16 port -> be_val [z2b (Z.shiftr port 8); z2b (Z.land port 255)] = port.
Proof.
  unfold in_u. intros Hp. rewrite be_val_2, !b2z_z2b, Z.shiftr_div_pow2 by lia.
  change 255 with (Z.ones 8). rewrite Z.land_ones by lia. change (2 ^ 8) with 256.
  rewrite Z.mod_mod by lia. pose proof (Z.div_mod port 256).
  rewrite (Z.mod_small (port / 256)) by (split; [apply Z.div_pos|apply Z.div_lt_upper_bound]; lia).
  lia.
Qed.

(** The bytes of an address, without the reserved and fragment fields. *)
Definition addr_wire (a : AddrOrDomain) : list byte :=
  match a with
  | AddrV4 ip => Byte.x01 :: ip
  | AddrV6 ip => Byte.x04 :: ip
  | AddrDomain d => Byte.x03 :: z2b (vv_len d) :: take (Z.to_nat (vv_len d)) (vv_contents d)
  end.

Definition header_wire (a : SocksAddr) : list byte :=
  [Byte.x00; Byte.x00; Byte.x00] ++ addr_wire (sa_addr a) ++
  [z2b (Z.shiftr (sa_port a) 8); z2b (Z.land (sa_port a) 255)].

Lemma encode_header_Ok a : addr_ok (sa_addr a) -> encode_socks5_udp_header a = Ok (header_wire a).
Proof.
  destruct a as [ [o|o|d] port]; cbn; [done..|]. intros [Hl Hc]. unfold in_u in Hl.
  rewrite slice_Ok by lia. cbn. by rewrite Nat.sub_0_r.
Qed.

Lemma header_wire_length a :
  addr_ok (sa_addr a) ->
  length (header_wire a) =
    match sa_addr a with
    | AddrV4 _ => 10%nat
    | AddrV6 _ => 22%nat
    | AddrDomain d => (7 + Z.to_nat (vv_len d))%nat
    end.
Proof.
  unfold header_wire. intros Ha. rewrite !length_app. destruct (sa_addr a) as [o|o|d]; cbn in *;
    [lia..|]. unfold in_u in Ha. rewrite length_take. lia.
Qed.

Lemma header_wire_bounds a :
  addr_ok (sa_addr a) -> (7 <= length (header_wire a) <= max_header)%nat.
Proof.
  intros Ha. rewrite header_wire_length by done. unfold max_header.
  destruct (sa_addr a) as [o|o|d]; cbn in *; [lia..|]. unfold in_u in Ha. lia.
Qed.

(** ** What the decoder accepts

    [decode_view buf a n]: [buf] starts with a header of [n] bytes for
    [a], whatever its two reserved bytes are. *)
Definition decode_view (buf : list byte) (a : SocksAddr) (n : nat) : Prop :=
  exists r0 r1 payload,
    buf = r0 :: r1 :: Byte.x00 :: addr_wire (sa_addr a) ++
          [z2b (Z.shiftr (sa_port a) 8); z2b (Z.land (sa_port a) 255)] ++ payload /\
    n = length (header_wire a).

Lemma decode_port pre buf addr hi lo rest port (n m : nat) :
  buf = pre ++ [hi; lo] ++ rest -> n = length pre -> port = be_val [hi; lo] -> m = (n + 2)%nat ->
  (hi ← index buf n;
   lo ← index buf (n + 1);
   Ok (mk_socks_addr addr (be_val [hi; lo]), (n + 2)%nat)) =
  (Ok (mk_socks_addr addr port, m) : io _).
Proof.
  intros -> -> -> ->. cbn [app].
  rewrite (index_mid pre _ hi (length pre)) by done. cbn [mbind outcome_bind].
  rewrite (cons_middle hi), app_assoc, index_mid by (rewrite length_app; done). done.
Qed.

(** The decoder reads the port after [pre], whose length it returns. *)
Ltac decode_at pre :=
  cbn [mbind outcome_bind]; eapply (decode_port pre);
  [reflexivity|cbn [length]; lia|by rewrite port_bytes|cbn [length]; lia].

Lemma decode_header_wire r0 r1 a payload :
  socks_addr_ok a ->
  decode_socks5_udp_header
    (r0 :: r1 :: Byte.x00 :: addr_wire (sa_addr a) ++
     [z2b (Z.shiftr (sa_port a) 8); z2b (Z.land (sa_port a) 255)] ++ payload) =
  Ok (on_wire a, length (header_wire a)).
Proof.
  intros [Ha Hp]. rewrite header_wire_length by done.
  destruct a as [addr port]. cbn [sa_addr sa_port] in *.
  assert (length ([z2b (Z.shiftr port 8); z2b (Z.land port 255)] ++ payload) =
    (2 + length payload)%nat) as Htail by done.
  revert Htail. set (tail := [_; _] ++ payload). intros Htail.
  unfold decode_socks5_udp_header.
  destruct addr as [o|o|d]; cbn [addr_wire addr_ok app] in *;
    erewrite (index_Ok _ 2), (index_Ok _ 3) by done; settle.
  - rewrite slice_Ok by (cbn [length]; rewrite length_app; lia). cbn [skipn]; rewrite drop_0.
    rewrite take_app_length' by lia. decode_at (r0 :: r1 :: Byte.x00 :: Byte.x01 :: o).
  - rewrite slice_Ok by (cbn [length]; rewrite length_app; lia). cbn [skipn]; rewrite drop_0.
    rewrite take_app_length' by lia. decode_at (r0 :: r1 :: Byte.x00 :: Byte.x04 :: o).
  - destruct Ha as [Hl Hc]. unfold in_u in Hl. revert H H0 H1 H2 H3. set (dom := take _ _).
    assert (length dom = Z.to_nat (vv_len d)) as Hd by (unfold dom; rewrite length_take; lia).
    erewrite (index_Ok _ 4) by done. intros. cbn [mbind outcome_bind].
    rewrite z2b_b2z_u8 by done. settle.
    rewrite slice_Ok by (cbn [length]; rewrite length_app; lia). cbn [skipn]; rewrite drop_0.
    rewrite take_app_length' by lia.
    decode_at (r0 :: r1 :: Byte.x00 :: Byte.x03 :: z2b (vv_len d) :: dom).
Qed.

Lemma port_bytes_inv hi lo :
  [z2b (Z.shiftr (be_val [hi; lo]) 8); z2b (Z.land (be_val [hi; lo]) 255)] = [hi; lo] /\
  u16 (be_val [hi; lo]).
Proof.
  pose proof (b2z_range hi). pose proof (b2z_range lo). rewrite be_val_2. split; [|unfold in_u; lia].
  rewrite Z.shiftr_div_pow2 by lia. change 255 with (Z.ones 8). rewrite Z.land_ones by lia.
  change (2 ^ 8) with 256. f_equal; [|f_equal]; apply b2z_inj; rewrite b2z_z2b.
  - rewrite Z.div_add_l, (Z.div_small (b2z lo)), Z.add_0_r by lia. by apply Z.mod_small.
  - by rewrite Z.mod_mod, Z.add_comm, Z.mod_add, Z.mod_small by lia.
Qed.

(** The port's two bytes stand at [n]. *)
Lemma decode_port_inv buf addr n a m :
  (hi ← index buf n;
   lo ← index buf (n + 1);
   Ok (mk_socks_addr addr (be_val [hi; lo]), (n + 2)%nat)) = (Ok (a, m) : io _) ->
  m = (n + 2)%nat /\ sa_addr a = addr /\ u16 (sa_port a) /\
  drop n buf = [z2b (Z.shiftr (sa_port a) 8); z2b (Z.land (sa_port a) 255)] ++ drop m buf.
Proof.
  intros H. inv_bind H. inv_bind H. simplify_eq. cbn [sa_addr sa_port].
  destruct (port_bytes_inv a0 a1) as [-> Hp].
  apply index_inv in Ha. apply index_inv in Ha0.
  refine (conj eq_refl (conj eq_refl (conj Hp _))). cbn [app].
  rewrite (drop_S _ _ _ Ha). f_equal. replace (S n) with (n + 1)%nat by lia.
  rewrite (drop_S _ _ _ Ha0). do 2 f_equal. lia.
Qed.

(** The decoder neither panics nor waits, whatever it is given. *)
Lemma decode_header_returns buf : returns (decode_socks5_udp_header buf).
Proof.
  unfold decode_socks5_udp_header. case_decide; [done|].
  apply returns_bind; [apply index_returns; lia|]. intros frag Hf. case_decide; [done|].
  apply returns_bind; [apply index_returns; lia|]. intros atyp Hat.
  apply returns_bind.
  - repeat case_decide; try done;
      (apply returns_bind; [try apply slice_returns; try apply index_returns; lia|done]) || idtac.
    apply returns_bind; [apply index_returns; lia|]. intros len Hlen. case_decide; [done|].
    apply returns_bind; [apply slice_returns; lia|done].
  - intros [addr off] Ho. assert (off + 2 <= length buf)%nat as Hb.
    { repeat case_decide; try done; inv_bind Ho; simplify_eq; try lia.
      case_decide; [done|]. inv_bind Ho. simplify_eq. lia. }
    apply returns_bind; [apply index_returns; lia|]. intros hi _.
    apply returns_bind; [apply index_returns; lia|done].
Qed.

Lemma four_bytes {A} (buf : list A) x y :
  buf !! 2%nat = Some x -> buf !! 3%nat = Some y ->
  exists r0 r1, buf = r0 :: r1 :: x :: y :: drop 4 buf.
Proof. destruct buf as [|r0 [|r1 [|b2 [|b3 rest] ] ] ]; naive_solver. Qed.

Lemma slice_at {E A} (l s : list A) i j :
  slice (E:=E) l i j = Ok s -> length s = (j - i)%nat /\ (i <= j)%nat /\ drop i l = s ++ drop j l.
Proof.
  unfold slice. case_decide; [|done]. intros [= <-]. rewrite length_take, length_drop.
  split; [lia|]. split; [lia|]. rewrite <- (take_drop (j - i) (drop i l)) at 1.
  rewrite drop_drop. do 2 f_equal. lia.
Qed.

(** What it accepts is a header, byte for byte, up to the reserved bytes. *)
Lemma decode_header_inv buf a n :
  decode_socks5_udp_header buf = Ok (a, n) ->
  socks_addr_ok a /\ on_wire a = a /\ decode_view buf a n.
Proof.
  unfold decode_socks5_udp_header. case_decide; [done|]. intros H'.
  apply bind_Ok in H' as (frag & Hfrag%index_inv & H'). case_decide as Hf; [done|].
  apply bind_Ok in H' as (atyp & Hatyp%index_inv & H').
  assert (frag = Byte.x00) as -> by (by destruct (decide (frag = Byte.x00))).
  destruct (four_bytes _ _ _ Hfrag Hatyp) as (r0 & r1 & Hbuf).
  apply bind_Ok in H' as ([addr off] & Haddr & Hport).
  apply decode_port_inv in Hport as (Hn & Ha & Hp & Hdrop).
  destruct a as [a' port]. cbn [sa_addr sa_port] in *. subst a'.
  unfold decode_view, socks_addr_ok. cbn [sa_addr sa_port].
  case_decide as H4; [|case_decide as H6; [|case_decide as Hd; [|done] ] ].
  - case_decide; [done|]. apply bind_Ok in Haddr as (ip & Hip%slice_at & Haddr). simplify_eq.
    destruct Hip as (Hl & _ & Hip). cbn in Hl. split; [done|]. split; [done|].
    exists r0, r1, (drop (8 + 2) buf). rewrite <- Hdrop.
    cbn [addr_wire app]. rewrite <- Hip, <- Hbuf. split; [done|]. by rewrite header_wire_length.
  - case_decide; [done|]. apply bind_Ok in Haddr as (ip & Hip%slice_at & Haddr). simplify_eq.
    destruct Hip as (Hl & _ & Hip). cbn in Hl. split; [done|]. split; [done|].
    exists r0, r1, (drop (20 + 2) buf). rewrite <- Hdrop.
    cbn [addr_wire app]. rewrite <- Hip, <- Hbuf. split; [done|]. by rewrite header_wire_length.
  - case_decide; [done|]. apply bind_Ok in Haddr as (len & Hlen%index_inv & Haddr).
    case_decide; [done|]. apply bind_Ok in Haddr as (dom & Hdom%slice_at & Haddr). simplify_eq.
    destruct Hdom as (Hl & _ & Hdom). pose proof (b2z_range len).
    assert (length dom = Z.to_nat (b2z len)) as Hl' by lia.
    assert (addr_ok (AddrDomain (mk_varvec (b2z len) dom))) as Hok.
    { split; cbn; [apply b2z_u8|lia]. }
    split; [done|]. split.
    { unfold on_wire. cbn. by rewrite take_ge by lia. }
    eexists r0, r1, _. rewrite <- Hdrop.
    cbn [addr_wire app vv_len vv_contents]. rewrite take_ge, z2b_b2z by lia.
    rewrite (drop_S _ _ _ Hlen) in Hbuf. cbn [app] in Hbuf |- *.
    cbn [Nat.add] in Hdom. rewrite <- Hdom. split; [done|].
    rewrite header_wire_length by done. cbn. lia.
Qed.

Lemma header_wire_split a :
  header_wire a = [Byte.x00; Byte.x00] ++ (Byte.x00 :: addr_wire (sa_addr a) ++
    [z2b (Z.shiftr (sa_port a) 8); z2b (Z.land (sa_port a) 255)]).
Proof. done. Qed.

Lemma decode_header_app a payload :
  socks_addr_ok a ->
  decode_socks5_udp_header (header_wire a ++ payload) = Ok (on_wire a, length (header_wire a)).
Proof.
  intros Ha. rewrite <- (decode_header_wire Byte.x00 Byte.x00 a payload Ha).
  unfold header_wire at 1. by rewrite <- !app_assoc.
Qed.

Lemma decode_view_length buf a n : decode_view buf a n -> (n <= length buf)%nat.
Proof.
  intros (r0 & r1 & payload & -> & ->). unfold header_wire. cbn [length app].
  rewrite !length_app. cbn. lia.
Qed.

(** Whatever the wrapper receives, with room to put it, it answers. *)
Lemma poll_recv_returns self inner bufs meta :
  match inner with Ready received => returns received | Pending => True end ->
  (0 < length bufs)%nat -> (0 < length meta)%nat ->
  returns (SocksUdpSocket.poll_recv self inner bufs meta).
Proof.
  intros Hin Hb Hm. destruct inner as [received|]; [|done].
  apply returns_bind; [done|]. intros d _. cbn. case_decide; [done|].
  apply returns_bind; [apply decode_header_returns|]. intros [a n] Hd.
  apply decode_header_inv in Hd as (_ & _ & Hv). apply decode_view_length in Hv.
  apply returns_bind; [by apply slice_returns|]. intros payload _. case_decide; [done|].
  apply returns_bind; [by apply index_returns|]. intros buf _.
  apply returns_bind; [apply slice_returns; lia|]. intros src Hsrc%slice_inv.
  apply returns_bind.
  { rewrite copy_range_Ok; [done|lia..]. }
  intros buf' _. apply returns_bind; [by apply index_returns|done].
Qed.

(** ** Properties *)

(** Every address whose arrays have their sizes is encoded without a
    panic, in at most 262 bytes, and the header followed by any payload
    decodes to the address (of an over-long domain, what its length byte
    says) and the offset of the payload. *)
Theorem socks_header_roundtrip (a : SocksAddr) (payload : list byte) :
  socks_addr_ok a ->
  exists header, encode_socks5_udp_header a = Ok header /\
    decode_socks5_udp_header (header ++ payload) = Ok (on_wire a, length header) /\
    drop (length header) (header ++ payload) = payload /\
    (7 <= length header <= max_header)%nat.
Proof.
  intros Ha. exists (header_wire a). split; [apply encode_header_Ok, Ha|].
  split; [by apply decode_header_app|]. split; [apply drop_app_length|].
  apply header_wire_bounds, Ha.
Qed.

Example socks_header_roundtrip_witness :
  exists header,
    encode_socks5_udp_header
      (mk_socks_addr (AddrDomain (mk_varvec 11 (lit "example.com"))) 443) = Ok header /\
    decode_socks5_udp_header (header ++ lit "hi") =
      Ok (mk_socks_addr (AddrDomain (mk_varvec 11 (lit "example.com"))) 443, length header).
Proof.
  destruct (socks_header_roundtrip
    (mk_socks_addr (AddrDomain (mk_varvec 11 (lit "example.com"))) 443) (lit "hi"))
    as (header & He & Hd & _).
  - split; solve_closed.
  - exists header. split; [exact He|exact Hd].
Defined.

(** Whatever arrives, the decoder answers; it accepts only what the
    encoder writes, up to the two reserved bytes, which it does not look
    at, and the offset it returns is inside the buffer. *)
Theorem socks_header_decoder (buf : list byte) :
  returns (decode_socks5_udp_header buf) /\
  forall a n, decode_socks5_udp_header buf = Ok (a, n) ->
    (n <= length buf)%nat /\ socks_addr_ok a /\
    exists header, encode_socks5_udp_header a = Ok header /\ drop 2 (take n buf) = drop 2 header.
Proof.
  split; [apply decode_header_returns|]. intros a n Hd.
  destruct (decode_header_inv _ _ _ Hd) as (Ha & _ & Hv). pose proof (decode_view_length _ _ _ Hv).
  split; [done|]. split; [done|]. exists (header_wire a). split; [apply encode_header_Ok, Ha|].
  destruct Hv as (r0 & r1 & payload & -> & ->). rewrite header_wire_split.
  set (body := Byte.x00 :: addr_wire (sa_addr a) ++ _).
  assert (forall rest, r0 :: r1 :: Byte.x00 :: addr_wire (sa_addr a) ++
    [z2b (Z.shiftr (sa_port a) 8); z2b (Z.land (sa_port a) 255)] ++ rest =
    r0 :: r1 :: body ++ rest) as ->.
  { intros rest. unfold body. cbn [app]. by rewrite <- app_assoc. }
  clearbody body. cbn. by rewrite take_app_length.
Qed.

Definition demo_datagram : list byte :=
  z2b 0 :: z2b 7 :: z2b 0 :: z2b 1 :: z2b 127 :: z2b 0 :: z2b 0 :: z2b 1 :: z2b 0 :: z2b 80 :: lit "hi".

Lemma socks_header_decoder_witness :
  decode_socks5_udp_header demo_datagram = Ok (mk_socks_addr (AddrV4 [z2b 127; z2b 0; z2b 0; z2b 1]) 80, 10%nat) /\
  exists header, encode_socks5_udp_header (mk_socks_addr (AddrV4 [z2b 127; z2b 0; z2b 0; z2b 1]) 80) = Ok header /\
    drop 2 (take 10 demo_datagram) = drop 2 header.
Proof.
  assert (decode_socks5_udp_header demo_datagram =
    Ok (mk_socks_addr (AddrV4 [z2b 127; z2b 0; z2b 0; z2b 1]) 80, 10%nat)) as Hd by (vm_compute; reflexivity).
  split; [exact Hd|].
  exact (proj2 (proj2 (proj2 (socks_header_decoder demo_datagram) _ _ Hd))).
Defined.

(** C33: the SOCKS5 UDP header.  Every address whose arrays have their sizes is
    encoded without a panic, in at most 262 bytes, and the header followed by
    any payload decodes to the address (of an over-long domain, what its length
    byte says) and the offset of the payload.  Whatever arrives, the decoder
    answers; it accepts only what the encoder writes, up to the two reserved
    bytes, and the offset it returns is inside the buffer. *)
Theorem socks_header_codec :
  (forall a payload, socks_addr_ok a ->
     exists header, encode_socks5_udp_header a = Ok header /\
       decode_socks5_udp_header (header ++ payload) = Ok (on_wire a, length header) /\
       drop (length header) (header ++ payload) = payload /\ (7 <= length header <= max_header)%nat) /\
  (forall buf, returns (decode_socks5_udp_header buf) /\
     forall a n, decode_socks5_udp_header buf = Ok (a, n) ->
       (n <= length buf)%nat /\ socks_addr_ok a /\
       exists header, encode_socks5_udp_header a = Ok header /\ drop 2 (take n buf) = drop 2 header).
Proof. split; [exact socks_header_roundtrip|exact socks_header_decoder]. Qed.

Lemma socks_header_codec_witness :
  exists header, encode_socks5_udp_header (mk_socks_addr (AddrV4 (replicate 4 Byte.x01)) 443) = Ok header /\
    (7 <= length header <= max_header)%nat.
Proof.
  destruct (proj1 socks_header_codec (mk_socks_addr (AddrV4 (replicate 4 Byte.x01)) 443) [])
    as (header & He & _ & _ & Hl).
  - split; solve_closed.
  - exists header. split; [exact He|exact Hl].
Defined.

(** C34: a QUIC packet relayed in a datagram with any source address the relay
    writes is handed to QUIC as coming from the configured peer, in full when
    the buffer has room; other datagrams, an empty one or one that is no
    SOCKS5 datagram, never make the wrapper panic. *)
Theorem quic_socket_receives (self : SocksUdpSocket.t) src header payload buf meta0 :
  socks_addr_ok src -> encode_socks5_udp_header src = Ok header -> payload <> [] ->
  (length header + length payload <= Z.to_nat 65535)%nat ->
  let copy := Nat.min (length payload) (length buf) in
  SocksUdpSocket.poll_recv self (Ready (Ok (header ++ payload))) [buf] [meta0] =
    Ok (Ready 1, [take copy payload ++ drop copy buf],
        [mk_meta (SocksUdpSocket.remote_addr self) (Z.of_nat copy) (Z.of_nat copy)]) /\
  forall received, returns received ->
    returns (SocksUdpSocket.poll_recv self (Ready received) [buf] [meta0]).
Proof.
  intros Ha He Hp Hl copy. split; [|intros; by apply poll_recv_returns; cbn; try lia].
  rewrite encode_header_Ok in He by apply Ha. simplify_eq. unfold SocksUdpSocket.poll_recv.
  cbn [mbind outcome_bind]. rewrite take_ge by (rewrite length_app; lia).
  rewrite decide_False by (destruct payload; [done|]; by destruct (header_wire src)).
  rewrite decode_header_app by done. cbn [mbind outcome_bind].
  rewrite slice_from_Ok by (rewrite length_app; lia). rewrite drop_app_length.
  cbn [mbind outcome_bind]. rewrite decide_False by done.
  cbn [index lookup list_lookup mbind outcome_bind]. fold copy.
  rewrite slice_Ok by (unfold copy; lia). cbn [mbind outcome_bind].
  rewrite drop_0, Nat.sub_0_r. rewrite copy_range_Ok by (rewrite ?length_take; unfold copy; lia).
  done.
Qed.

Example quic_socket_receives_witness :
  SocksUdpSocket.poll_recv
    (SocksUdpSocket.mk (mk_socks_addr (AddrV4 (replicate 4 Byte.x01)) 443)
       (mk_addr (V4 (replicate 4 Byte.x7f)) 443))
    (Ready (Ok ([Byte.x00; Byte.x00; Byte.x00; Byte.x01; Byte.x0a; Byte.x00; Byte.x00; Byte.x01;
                 Byte.x01; Byte.xbb] ++ lit "quic"))) [replicate 6 Byte.x00]
    [mk_meta (mk_addr (V4 []) 0) 0 0] =
  Ok (Ready 1, [lit "quic" ++ [Byte.x00; Byte.x00] ],
      [mk_meta (mk_addr (V4 (replicate 4 Byte.x7f)) 443) 4 4]).
Proof.
  destruct (quic_socket_receives
    (SocksUdpSocket.mk (mk_socks_addr (AddrV4 (replicate 4 Byte.x01)) 443)
       (mk_addr (V4 (replicate 4 Byte.x7f)) 443))
    (mk_socks_addr (AddrV4 [Byte.x0a; Byte.x00; Byte.x00; Byte.x01]) 443)
    [Byte.x00; Byte.x00; Byte.x00; Byte.x01; Byte.x0a; Byte.x00; Byte.x00; Byte.x01;
     Byte.x01; Byte.xbb] (lit "quic") (replicate 6 Byte.x00) (mk_meta (mk_addr (V4 []) 0) 0 0))
    as [H _].
  - split; solve_closed.
  - reflexivity.
  - discriminate.
  - apply Nat.leb_le. vm_compute. reflexivity.
  - exact H.
Defined.
