(* ===== verification/Os.v ===== *)
(** * The operating system's network interface

    The calls the program makes on sockets, as an interface: [Os] gives the
    calls, [OsLaws] the documented behaviour the theorems rely on.  A model
    host, on which the witnesses run, implements both. *)
From S2P Require Import Prelude AsyncIo Text Net.

Inductive sock_type : Type := STREAM | DGRAM.

Class Os : Type := {
  (** Connected TCP streams, UDP sockets and raw sockets. *)
  Tcp : Type;
  Udp : Type;
  Sock : Type;
  tcp_read :: AsyncRead Tcp;
  tcp_read_some :: AsyncReadSome Tcp;
  tcp_write :: AsyncWrite Tcp;
  (** [TcpStream::connect] of a [host:port] text and of an address. *)
  tcp_connect_str : str -> io Tcp;
  tcp_connect : SocketAddr -> io Tcp;
  set_nodelay : Tcp -> io Tcp;
  (** [lookup_host] and the [ToSocketAddrs] of a text. *)
  lookup_host : str -> io (list SocketAddr);
  to_socket_addrs : str -> io (list SocketAddr);
  (** UDP sockets: [bind] of a text, [connect], [send] and [recv] into a
      buffer of that many bytes. *)
  udp_bind : str -> io Udp;
  udp_connect : SocketAddr -> Udp -> io Udp;
  udp_send : list byte -> Udp -> io (Z * Udp);
  udp_recv : nat -> Udp -> io (list byte * Udp);
  (** [socket2]: a fresh socket of the family (IPv6 or not) and its calls. *)
  sock_new : bool -> sock_type -> io Sock;
  sock_bind : SocketAddr -> Sock -> io Sock;
  sock_bind_device : str -> Sock -> io Sock;
  if_nametoindex : str -> Z;
  sock_bind_index : bool -> Z -> Sock -> io Sock;
  sock_set_nonblocking : Sock -> io Sock;
  sock_connect : SocketAddr -> Sock -> io Tcp;
  sock_into_udp : Sock -> io Udp;
}.

(** What the calls leave behind: the local address a socket is bound to, the
    device it is confined to (by name or index), and its peer. *)
Inductive device : Type :=
| DeviceName (name : str)
| DeviceIndex (idx : Z).

#[export] Instance device_eq_dec : EqDecision device.
Proof. solve_decision. Defined.

Record endpoint : Type := mk_endpoint {
  ep_local : option SocketAddr;
  ep_device : option device;
  ep_peer : option SocketAddr;
}.

(** An interface name as [SO_BINDTODEVICE] takes it: a string of at most 15
    bytes ([IFNAMSIZ] with its NUL).  The empty one removes the binding. *)
Definition ifname_ok (n : str) : Prop := (length n <= 15)%nat /\ Byte.x00 ∉ n.

Definition device_named (n : str) : option device :=
  if decide (n = []) then None else Some (DeviceName n).

Class OsLaws `{Os} : Type := {
  tcp_read_laws :: AsyncReadLaws Tcp;
  tcp_read_some_laws :: AsyncReadSomeLaws Tcp;
  tcp_write_laws :: AsyncWriteLaws Tcp;
  tcp_duplex_laws :: DuplexLaws Tcp;
  tcp_read_some_duplex_laws :: ReadSomeDuplexLaws Tcp;
  tcp_end : Tcp -> endpoint;
  udp_end : Udp -> endpoint;
  sock_end : Sock -> endpoint;
  sock_new_end v6 ty s : sock_new v6 ty = Ok s -> sock_end s = mk_endpoint None None None;
  sock_bind_end a s s' :
    sock_bind a s = Ok s' -> sock_end s' = mk_endpoint (Some a) (ep_device (sock_end s)) (ep_peer (sock_end s));
  sock_bind_device_end n s s' :
    sock_bind_device n s = Ok s' ->
    ep_local (sock_end s') = ep_local (sock_end s) /\ ep_peer (sock_end s') = ep_peer (sock_end s) /\
    (ifname_ok n -> ep_device (sock_end s') = device_named n);
  sock_bind_index_end v6 i s s' :
    sock_bind_index v6 i s = Ok s' ->
    sock_end s' = mk_endpoint (ep_local (sock_end s)) (Some (DeviceIndex i)) (ep_peer (sock_end s));
  sock_set_nonblocking_end s s' : sock_set_nonblocking s = Ok s' -> sock_end s' = sock_end s;
  sock_connect_end a s t :
    sock_connect a s = Ok t ->
    tcp_end t = mk_endpoint (ep_local (sock_end s)) (ep_device (sock_end s)) (Some a);
  sock_into_udp_end s u : sock_into_udp s = Ok u -> udp_end u = sock_end s;
  tcp_connect_end a t : tcp_connect a = Ok t -> tcp_end t = mk_endpoint None None (Some a);
  set_nodelay_end t t' : set_nodelay t = Ok t' -> tcp_end t' = tcp_end t;
  set_nodelay_unread t t' : set_nodelay t = Ok t' -> unread t' = unread t;
  set_nodelay_written t t' : set_nodelay t = Ok t' -> written t' = written t;
  udp_connect_end a u u' :
    udp_connect a u = Ok u' -> udp_end u' = mk_endpoint (ep_local (udp_end u)) (ep_device (udp_end u)) (Some a);
  udp_recv_length n u bs u' : udp_recv n u = Ok (bs, u') -> (length bs <= n)%nat;
}.

(** ** A model host

    Its peers answer every TCP connection with [script] and every UDP socket
    with [datagrams]; names resolve by [names]; the devices of [devices]
    exist, numbered from 1. *)
Record host : Type := mk_host {
  script : list byte;
  datagrams : list (list byte);
  names : str -> list SocketAddr;
  devices : list str;
}.

Record host_tcp : Type := mk_host_tcp { ht_conn : conn; ht_end : endpoint }.

Record host_udp : Type := mk_host_udp {
  hu_inbox : list (list byte);
  hu_outbox : list (list byte);
  hu_end : endpoint;
}.

#[export] Instance host_tcp_read : AsyncRead host_tcp := {
  unread t := inbound (ht_conn t);
  read_exact n t := '(bs, c) ← read_exact n (ht_conn t); Ok (bs, mk_host_tcp c (ht_end t));
}.

#[export] Instance host_tcp_read_some : AsyncReadSome host_tcp := {
  read n t := '(bs, c) ← read n (ht_conn t); Ok (bs, mk_host_tcp c (ht_end t));
}.

#[export] Instance host_tcp_write : AsyncWrite host_tcp := {
  written t := outbound (ht_conn t);
  write_all bs t := (fun c => mk_host_tcp c (ht_end t)) <$> write_all bs (ht_conn t);
}.

Fixpoint position (n : str) (l : list str) (i : Z) : Z :=
  match l with
  | [] => 0
  | x :: l => if decide (x = n) then i else position n l (i + 1)
  end.

Definition no_device : io_error := mk_io_error (OtherKind 19) (lit "No such device (os error 19)").

Definition host_os (h : host) : Os := {|
  Tcp := host_tcp;
  Udp := host_udp;
  Sock := endpoint;
  tcp_connect_str _ := Ok (mk_host_tcp (mk_conn (script h) true [] None) (mk_endpoint None None None));
  tcp_connect a := Ok (mk_host_tcp (mk_conn (script h) true [] None) (mk_endpoint None None (Some a)));
  set_nodelay t := Ok t;
  lookup_host n := Ok (names h n);
  to_socket_addrs n := Ok (names h n);
  udp_bind _ := Ok (mk_host_udp (datagrams h) [] (mk_endpoint None None None));
  udp_connect a u :=
    Ok (mk_host_udp (hu_inbox u) (hu_outbox u)
          (mk_endpoint (ep_local (hu_end u)) (ep_device (hu_end u)) (Some a)));
  udp_send d u := Ok (Z.of_nat (length d), mk_host_udp (hu_inbox u) (hu_outbox u ++ [d]) (hu_end u));
  udp_recv n u :=
    match hu_inbox u with
    | [] => Hang
    | d :: ds => Ok (take n d, mk_host_udp ds (hu_outbox u) (hu_end u))
    end;
  sock_new _ _ := Ok (mk_endpoint None None None);
  sock_bind a s := Ok (mk_endpoint (Some a) (ep_device s) (ep_peer s));
  sock_bind_device n s :=
    if decide (n = [] \/ n ∈ devices h)
    then Ok (mk_endpoint (ep_local s) (device_named n) (ep_peer s)) else Err no_device;
  if_nametoindex n := position n (devices h) 1;
  sock_bind_index _ i s := Ok (mk_endpoint (ep_local s) (Some (DeviceIndex i)) (ep_peer s));
  sock_set_nonblocking s := Ok s;
  sock_connect a s :=
    Ok (mk_host_tcp (mk_conn (script h) true [] None)
          (mk_endpoint (ep_local s) (ep_device s) (Some a)));
  sock_into_udp s := Ok (mk_host_udp (datagrams h) [] s);
|}.

#[export] Instance host_tcp_read_laws : AsyncReadLaws host_tcp.
Proof.
  split; intros n [c e].
  - intros Hn. destruct (read_exact_enough (R:=conn) n c) as (c' & Hc & Hu); [exact Hn|].
    exists (mk_host_tcp c' e). cbn [read_exact host_tcp_read ht_conn]. by rewrite Hc.
  - intros [bs [c' e'] ] Hn. cbn [read_exact host_tcp_read ht_conn].
    intros H. apply bind_Ok in H as ([bs' c''] & H & _). by eapply read_exact_short in H.
Qed.

#[export] Instance host_tcp_read_some_laws : AsyncReadSomeLaws host_tcp.
Proof.
  split; intros n [c e].
  - intros bs t' Ht. cbn [read host_tcp_read_some ht_conn] in Ht.
    apply bind_Ok in Ht as ([bs' c'] & Hc & [= <- <-]). by apply read_prefix in Hc.
  - intros t' Hn Ht. cbn [read host_tcp_read_some ht_conn] in Ht.
    apply bind_Ok in Ht as ([bs' c'] & Hc & [= -> <-]). by apply read_end in Hc.
Qed.

#[export] Instance host_tcp_write_laws : AsyncWriteLaws host_tcp.
Proof.
  split. intros bs [c e] [c' e']. cbn. destruct (broken c); [done|]. by intros [= <- <-].
Qed.

#[export] Instance host_tcp_duplex_laws : DuplexLaws host_tcp.
Proof.
  split.
  - intros bs [c e] t'. cbn. destruct (broken c); [done|]. by intros [= <-].
  - intros n [c e] bs t'. cbn. case_decide; cbn; [by intros [= _ <-]|]. by destruct (peer_closed c).
Qed.

#[export] Instance host_tcp_read_some_duplex_laws : ReadSomeDuplexLaws host_tcp.
Proof.
  split. intros n [c e] bs t' Ht. cbn [read host_tcp_read_some ht_conn] in Ht.
  apply bind_Ok in Ht as ([bs' c'] & Hc & [= <- <-]). by apply read_written in Hc.
Qed.

#[export] Instance host_os_laws (h : host) : @OsLaws (host_os h).
Proof.
  refine (@Build_OsLaws (host_os h) host_tcp_read_laws host_tcp_read_some_laws host_tcp_write_laws host_tcp_duplex_laws
            host_tcp_read_some_duplex_laws
            ht_end hu_end id _ _ _ _ _ _ _ _ _ _ _ _ _); cbn; try (intros; simplify_eq; done).
  - intros n s s'. case_decide; [|done]. by intros [= <-].
  - intros n u bs u'. destruct (hu_inbox u); [done|]. intros [= <- _]. rewrite length_take. lia.
Defined.
