(* ===== verification/SocksLib.v ===== *)
(** * The SOCKS5 message library as the program uses it

    The wire formats of the handshake messages belong to a library: its
    constants, constructors, encoders and decoders are the parameters of
    [SocksLib], and [SocksLaws] is the documented behaviour the theorems rely
    on (RFC 1928 and RFC 1929 layouts are the library's business: a message
    has some bytes, which the encoder appends and the decoder consumes). *)
From S2P Require Import Prelude AsyncIo Text Net Socks5Udp.

Record AuthReq : Type := mk_auth_req { ar_version : Z; ar_methods : VarVec }.
Record AuthReply : Type := mk_auth_reply { ap_version : Z; ap_method : Z }.
Record PasswordAuthReq : Type := mk_password_req {
  pr_version : Z; pr_username : VarVec; pr_password : VarVec }.
Record PasswordAuthReply : Type := mk_password_reply { pp_version : Z; pp_status : Z }.
Record CmdReq : Type := mk_cmd_req { cr_version : Z; cr_cmd : Z; cr_rsv : Z; cr_dst : SocksAddr }.
Record CmdReply : Type := mk_cmd_reply {
  cp_version : Z; cp_rep : Z; cp_rsv : Z; cp_bind_addr : SocksAddr }.

(** The library's error, as its text. *)
Abbreviation sq := (outcome str).

Class SocksLib : Type := {
  SOCKS5_VERSION : Z;
  SOCKS5_AUTH_METHOD_NONE : Z;
  SOCKS5_AUTH_METHOD_PASSWORD : Z;
  SOCKS5_CMD_TCP_CONNECT : Z;
  SOCKS5_CMD_UDP_ASSOCIATE : Z;
  SOCKS5_RESERVE : Z;
  SOCKS5_REPLY_SUCCEEDED : Z;
  socks_addr_from : SocketAddr -> SocksAddr;
  socks_addr_from_domain : str -> Z -> SocksAddr;
  socks_to_socket_addrs : SocksAddr -> io (list SocketAddr);
  encode_auth_req : forall {S} `{AsyncWrite S}, AuthReq -> S -> sq S;
  encode_password_req : forall {S} `{AsyncWrite S}, PasswordAuthReq -> S -> sq S;
  encode_cmd_req : forall {S} `{AsyncWrite S}, CmdReq -> S -> sq S;
  decode_auth_reply : forall {S} `{AsyncRead S}, S -> sq (AuthReply * S);
  decode_password_reply : forall {S} `{AsyncRead S}, S -> sq (PasswordAuthReply * S);
  decode_cmd_reply : forall {S} `{AsyncRead S}, S -> sq (CmdReply * S);
}.

(** [e] appends [bs] and leaves the other direction alone. *)
Definition appends {S} `{AsyncRead S} `{AsyncWrite S} (e : S -> sq S) (bs : list byte) : Prop :=
  forall s s', e s = Ok s' -> written s' = written s ++ bs /\ unread s' = unread s.

(** [d] consumes the bytes [wire] gives what it returns. *)
Definition consumes {S A} `{AsyncRead S} `{AsyncWrite S} (d : S -> sq (A * S))
    (wire : A -> list byte) : Prop :=
  forall s a s', d s = Ok (a, s') -> unread s = wire a ++ unread s' /\ written s' = written s.

Class SocksLaws `{SocksLib} : Type := {
  wire_auth_req : AuthReq -> list byte;
  wire_password_req : PasswordAuthReq -> list byte;
  wire_cmd_req : CmdReq -> list byte;
  wire_auth_reply : AuthReply -> list byte;
  wire_password_reply : PasswordAuthReply -> list byte;
  wire_cmd_reply : CmdReply -> list byte;
  socks_addr_from_v4 o port :
    socks_addr_from (mk_addr (V4 o) port) = mk_socks_addr (AddrV4 o) port;
  socks_addr_from_v6 o port :
    socks_addr_from (mk_addr (V6 o) port) = mk_socks_addr (AddrV6 o) port;
  socks_addr_from_domain_spec d port :
    (length d <= 255)%nat ->
    socks_addr_from_domain d port =
      mk_socks_addr (AddrDomain (mk_varvec (Z.of_nat (length d)) d)) port;
}.

(** The codecs on one kind of stream. *)
Class SocksCodec `{SocksLaws} (S : Type) `{AsyncRead S} `{AsyncWrite S} : Prop := {
  encode_auth_req_appends m : appends (encode_auth_req (S:=S) m) (wire_auth_req m);
  encode_password_req_appends m : appends (encode_password_req (S:=S) m) (wire_password_req m);
  encode_cmd_req_appends m : appends (encode_cmd_req (S:=S) m) (wire_cmd_req m);
  decode_auth_reply_consumes : consumes (decode_auth_reply (S:=S)) wire_auth_reply;
  decode_password_reply_consumes : consumes (decode_password_reply (S:=S)) wire_password_reply;
  decode_cmd_reply_consumes : consumes (decode_cmd_reply (S:=S)) wire_cmd_reply;
}.

(** ** An implementation on the RFC layouts *)
Section rfc.
Context {S : Type} `{AsyncRead S} `{AsyncWrite S}.

(** Bytes through [write_all] and [read_exact], the error as its text. *)
Definition put (bs : list byte) (s : S) : sq S := map_err io_msg (write_all bs s).
Definition get (n : nat) (s : S) : sq (list byte * S) := map_err io_msg (read_exact n s).

Definition get_byte (s : S) : sq (Z * S) :=
  '(bs, s) ← get 1 s; Ok (be_val bs, s).

Definition get_auth_reply (s : S) : sq (AuthReply * S) :=
  '(v, s) ← get_byte s;
  '(m, s) ← get_byte s;
  Ok (mk_auth_reply v m, s).

Definition get_password_reply (s : S) : sq (PasswordAuthReply * S) :=
  '(v, s) ← get_byte s;
  '(m, s) ← get_byte s;
  Ok (mk_password_reply v m, s).

Definition get_addr (s : S) : sq (AddrOrDomain * S) :=
  '(atyp, s) ← get 1 s;
  if decide (atyp = [Byte.x01]) then '(o, s) ← get 4 s; Ok (AddrV4 o, s)
  else if decide (atyp = [Byte.x04]) then '(o, s) ← get 16 s; Ok (AddrV6 o, s)
  else if decide (atyp = [Byte.x03]) then
    '(n, s) ← get_byte s;
    '(d, s) ← get (Z.to_nat n) s;
    Ok (AddrDomain (mk_varvec n d), s)
  else Err (lit "unknown address type").

Definition get_cmd_reply (s : S) : sq (CmdReply * S) :=
  '(v, s) ← get_byte s;
  '(r, s) ← get_byte s;
  '(rsv, s) ← get_byte s;
  '(a, s) ← get_addr s;
  '(port, s) ← get 2 s;
  Ok (mk_cmd_reply v r rsv (mk_socks_addr a (be_val port)), s).
End rfc.

Definition varvec_wire (v : VarVec) : list byte := be_bytes 1 (vv_len v) ++ vv_contents v.

Definition rfc_socks : SocksLib := {|
  SOCKS5_VERSION := 5;
  SOCKS5_AUTH_METHOD_NONE := 0;
  SOCKS5_AUTH_METHOD_PASSWORD := 2;
  SOCKS5_CMD_TCP_CONNECT := 1;
  SOCKS5_CMD_UDP_ASSOCIATE := 3;
  SOCKS5_RESERVE := 0;
  SOCKS5_REPLY_SUCCEEDED := 0;
  socks_addr_from a :=
    mk_socks_addr (match addr_ip a with V4 o => AddrV4 o | V6 o => AddrV6 o end) (addr_port a);
  socks_addr_from_domain d port :=
    mk_socks_addr (AddrDomain (mk_varvec (cast_u 8 (Z.of_nat (length d))) d)) port;
  socks_to_socket_addrs a :=
    match sa_addr a with
    | AddrV4 o => Ok [mk_addr (V4 o) (sa_port a)]
    | AddrV6 o => Ok [mk_addr (V6 o) (sa_port a)]
    | AddrDomain _ => Ok []
    end;
  encode_auth_req _ _ m := put (be_bytes 1 (ar_version m) ++ varvec_wire (ar_methods m));
  encode_password_req _ _ m :=
    put (be_bytes 1 (pr_version m) ++ varvec_wire (pr_username m) ++ varvec_wire (pr_password m));
  encode_cmd_req _ _ m :=
    put (be_bytes 1 (cr_version m) ++ be_bytes 1 (cr_cmd m) ++ be_bytes 1 (cr_rsv m) ++
         drop 3 (header_wire (cr_dst m)));
  decode_auth_reply _ _ := get_auth_reply;
  decode_password_reply _ _ := get_password_reply;
  decode_cmd_reply _ _ := get_cmd_reply;
|}.

Definition rfc_laws : @SocksLaws rfc_socks.
Proof.
  refine (@Build_SocksLaws rfc_socks
    (fun m => be_bytes 1 (ar_version m) ++ varvec_wire (ar_methods m))
    (fun m => be_bytes 1 (pr_version m) ++ varvec_wire (pr_username m) ++
       varvec_wire (pr_password m))
    (fun m => be_bytes 1 (cr_version m) ++ be_bytes 1 (cr_cmd m) ++ be_bytes 1 (cr_rsv m) ++
       drop 3 (header_wire (cr_dst m)))
    (fun m => be_bytes 1 (ap_version m) ++ be_bytes 1 (ap_method m))
    (fun m => be_bytes 1 (pp_version m) ++ be_bytes 1 (pp_status m))
    (fun m => be_bytes 1 (cp_version m) ++ be_bytes 1 (cp_rep m) ++ be_bytes 1 (cp_rsv m) ++
       addr_wire (sa_addr (cp_bind_addr m)) ++ be_bytes 2 (sa_port (cp_bind_addr m))) _ _ _).
  - done.
  - done.
  - intros d port Hd. cbn. rewrite cast_u_id; [done|]. unfold in_u. lia.
Defined.

Section rfc_codec.
Context {S : Type} `{AsyncReadLaws S} `{!AsyncWrite S} `{!AsyncWriteLaws S} `{!DuplexLaws S}.

Lemma map_err_Ok {E E' A} (f : E -> E') (m : outcome E A) a : map_err f m = Ok a <-> m = Ok a.
Proof. destruct m; cbn; split; congruence. Qed.

Lemma put_appends bs : appends (put (S:=S) bs) bs.
Proof.
  intros s s' Hp. apply map_err_Ok in Hp. split.
  - by apply write_all_written in Hp.
  - by apply write_all_unread in Hp.
Qed.

Lemma get_inv n (s : S) bs s' :
  get n s = Ok (bs, s') -> unread s = bs ++ unread s' /\ length bs = n /\ written s' = written s.
Proof.
  intros Hg. apply map_err_Ok in Hg. pose proof (read_exact_written _ _ _ _ Hg).
  by apply read_exact_inv in Hg as [? ?].
Qed.

Lemma get_byte_inv (s : S) x s' :
  get_byte s = Ok (x, s') ->
  unread s = be_bytes 1 x ++ unread s' /\ u8 x /\ written s' = written s.
Proof.
  unfold get_byte. intros Hg. inv_bind Hg. destruct a as [bs s1]. simplify_eq.
  apply get_inv in Ha as (Hu & Hl & Hw). split; [|split; [|done] ].
  - rewrite Hu. f_equal. rewrite <- Hl. by rewrite be_bytes_be_val.
  - pose proof (be_val_range bs) as Hr. by rewrite Hl in Hr.
Qed.

Lemma get_addr_inv (s : S) a s' :
  get_addr s = Ok (a, s') -> unread s = addr_wire a ++ unread s' /\ written s' = written s.
Proof.
  unfold get_addr. intros Hg. inv_bind Hg. destruct a0 as [atyp s1].
  apply get_inv in Ha as (Hu & _ & Hw).
  repeat case_decide; try done; inv_bind Hg; destruct a0 as [x s2].
  - simplify_eq. apply get_inv in Ha as (Hu2 & _ & Hw2). rewrite Hu, Hu2. subst. split; [done|congruence].
  - simplify_eq. apply get_inv in Ha as (Hu2 & _ & Hw2). rewrite Hu, Hu2. subst. split; [done|congruence].
  - apply get_byte_inv in Ha as (Hu2 & Hx & Hw2). inv_bind Hg. destruct a0 as [d s3]. simplify_eq.
    apply get_inv in Ha as (Hu3 & Hl & Hw3). rewrite Hu, Hu2, Hu3. subst. split; [|congruence].
    cbn. rewrite take_ge by lia. done.
Qed.

#[export] Instance rfc_codec : @SocksCodec rfc_socks rfc_laws S _ _.
Proof.
  split; try (intros m; apply put_appends).
  - intros s [v m] s' Hd. cbn in Hd. unfold get_auth_reply in Hd.
    inv_bind Hd. destruct a as [? s1]. inv_bind Hd. destruct a as [? s2]. simplify_eq.
    apply get_byte_inv in Ha as (Hu & _ & Hw). apply get_byte_inv in Ha0 as (Hu2 & _ & Hw2).
    cbn. rewrite <- app_assoc, <- Hu2. split; congruence.
  - intros s [v m] s' Hd. cbn in Hd. unfold get_password_reply in Hd.
    inv_bind Hd. destruct a as [? s1]. inv_bind Hd. destruct a as [? s2]. simplify_eq.
    apply get_byte_inv in Ha as (Hu & _ & Hw). apply get_byte_inv in Ha0 as (Hu2 & _ & Hw2).
    cbn. rewrite <- app_assoc, <- Hu2. split; congruence.
  - intros s m s' Hd. cbn in Hd. unfold get_cmd_reply in Hd.
    inv_bind Hd. destruct a as [v s1]. inv_bind Hd. destruct a as [r s2].
    inv_bind Hd. destruct a as [rsv s3]. inv_bind Hd. destruct a as [addr s4].
    inv_bind Hd. destruct a as [port s5]. simplify_eq.
    apply get_byte_inv in Ha as (Hu & _ & Hw). apply get_byte_inv in Ha0 as (Hu2 & _ & Hw2).
    apply get_byte_inv in Ha1 as (Hu3 & _ & Hw3). apply get_addr_inv in Ha2 as (Hu4 & Hw4).
    apply get_inv in Ha3 as (Hu5 & Hl & Hw5). cbn. rewrite <- Hl, be_bytes_be_val.
    rewrite <- !app_assoc, <- Hu5, <- Hu4, <- Hu3, <- Hu2. split; congruence.
Qed.
End rfc_codec.
