(* ===== verification/Config.v ===== *)
(** * Configuration and targets (src/config.rs) *)
From S2P Require Import Prelude AsyncIo Text Net Socks5Udp Os SocksLib.

Record ProxyAuth : Type := mk_proxy_auth { pa_username : str; pa_password : str }.

Record ProxyConfig : Type := mk_proxy_config { pc_addr : str; pc_auth : option ProxyAuth }.

Record TestTarget : Type := mk_target {
  tt_host : str;
  tt_port : Z;
  tt_path : str;
  tt_use_tls : bool;
  tt_resolved_addr : option IpAddr;
  tt_danger_accept_invalid_certs : bool;
}.

(** [format!("{}:{}", host, port)]. *)
Definition host_port (host : str) (port : Z) : str := host ++ lit ":" ++ show_u port.

Definition resolve_local `{Os} (self : TestTarget) : io TestTarget :=
  match parse_ip (tt_host self) with
  | Some _ => Ok self
  | None =>
      addrs ← lookup_host (host_port (tt_host self) (tt_port self));
      Ok (mk_target (tt_host self) (tt_port self) (tt_path self) (tt_use_tls self)
            (addr_ip <$> head addrs) (tt_danger_accept_invalid_certs self))
  end.

Definition to_socks_addr `{SocksLib} (self : TestTarget) : SocksAddr :=
  match tt_resolved_addr self with
  | Some ip => socks_addr_from (mk_addr ip (tt_port self))
  | None =>
      match parse_ip (tt_host self) with
      | Some ip => socks_addr_from (mk_addr ip (tt_port self))
      | None => socks_addr_from_domain (tt_host self) (tt_port self)
      end
  end.

Definition authority (self : TestTarget) : str :=
  if (tt_port self =? 80) || (tt_port self =? 443) then tt_host self
  else host_port (tt_host self) (tt_port self).

(** The address the target stands for, when no name has to be resolved. *)
Definition known_ip (t : TestTarget) : option IpAddr :=
  match tt_resolved_addr t with Some ip => Some ip | None => parse_ip (tt_host t) end.
