(* ===== verification/Handshake.v ===== *)
(** * SOCKS5 client handshake (src/socks/)

    Authentication, the CONNECT and UDP ASSOCIATE commands, the TCP
    connector and the UDP association.  The message codecs are those of
    [SocksLib], the sockets those of [Os]. *)
From S2P Require Import Prelude AsyncIo Text Net Errors Socks5Udp Os SocksLib Config.

(** [?] on the library's result. *)
Definition from_sq {A} (m : sq A) : px A := map_err from_serror m.

Section handshake.
Context `{SocksLib} {S : Type} `{AsyncRead S} `{AsyncWrite S}.

(** The method the credentials call for. *)
Definition wanted_method (auth : option ProxyAuth) : Z :=
  match auth with
  | Some _ => SOCKS5_AUTH_METHOD_PASSWORD
  | None => SOCKS5_AUTH_METHOD_NONE
  end.

Definition greeting (auth : option ProxyAuth) : AuthReq :=
  mk_auth_req SOCKS5_VERSION (mk_varvec 1 [z2b (wanted_method auth)]).

(** The length byte is the length [as u8]; the contents are not cut. *)
Definition credential (s : str) : VarVec := mk_varvec (cast_u 8 (Z.of_nat (length s))) s.

Definition password_req (cred : ProxyAuth) : PasswordAuthReq :=
  mk_password_req 1 (credential (pa_username cred)) (credential (pa_password cred)).

Definition authenticate (stream : S) (auth : option ProxyAuth) : px S :=
  let method := wanted_method auth in
  stream ← from_sq (encode_auth_req (greeting auth) stream);
  '(rep, stream) ← from_sq (decode_auth_reply stream);
  if decide (ap_version rep <> SOCKS5_VERSION) then Err (Socks (lit "server version mismatch"))
  else if decide (ap_method rep <> method) then
    Err (Socks (lit "auth method not supported (wanted 0x" ++ show_hex method ++
                lit ", got 0x" ++ show_hex (ap_method rep) ++ lit ")"))
  else
    match auth with
    | Some cred =>
        stream ← from_sq (encode_password_req (password_req cred) stream);
        '(pw_rep, stream) ← from_sq (decode_password_reply stream);
        if decide (pp_status pw_rep <> SOCKS5_REPLY_SUCCEEDED)
        then Err (Socks (lit "authentication failed"))
        else Ok stream
    | None => Ok stream
    end.

Definition connect_req (dst : SocksAddr) : CmdReq :=
  mk_cmd_req SOCKS5_VERSION SOCKS5_CMD_TCP_CONNECT SOCKS5_RESERVE dst.

Definition send_connect (stream : S) (dst : SocksAddr) : px (CmdReply * S) :=
  stream ← from_sq (encode_cmd_req (connect_req dst) stream);
  '(reply, stream) ← from_sq (decode_cmd_reply stream);
  if decide (cp_rep reply <> SOCKS5_REPLY_SUCCEEDED)
  then Err (Socks (lit "CONNECT failed with reply code 0x" ++ show_hex (cp_rep reply)))
  else Ok (reply, stream).

Definition associate_req (bind_hint : SocksAddr) : CmdReq :=
  mk_cmd_req SOCKS5_VERSION SOCKS5_CMD_UDP_ASSOCIATE SOCKS5_RESERVE bind_hint.

Definition send_udp_associate (stream : S) (bind_hint : SocksAddr) : px (CmdReply * S) :=
  stream ← from_sq (encode_cmd_req (associate_req bind_hint) stream);
  '(reply, stream) ← from_sq (decode_cmd_reply stream);
  if decide (cp_rep reply <> SOCKS5_REPLY_SUCCEEDED)
  then Err (Socks (lit "UDP ASSOCIATE failed with reply code 0x" ++ show_hex (cp_rep reply)))
  else Ok (reply, stream).
End handshake.

(** ** The TCP connector *)
Definition connect `{Os} `{SocksLib} (config : ProxyConfig) (target : TestTarget) : px Tcp :=
  stream ← from_io (tcp_connect_str (pc_addr config));
  stream ← from_io (set_nodelay stream);
  stream ← authenticate stream (pc_auth config);
  '(_, stream) ← send_connect stream (to_socks_addr target);
  Ok stream.

(** ** The UDP association *)
Record UdpAssociation `{Os} : Type := mk_association {
  as_socket : Udp;
  as_relay_addr : SocketAddr;
  as_control : Tcp;
}.
Arguments mk_association {_} as_socket as_relay_addr as_control.

Definition unspecified_v4 : IpAddr := V4 (replicate 4 Byte.x00).

(** The proxy's own address: its text parsed, or else resolved, the first
    result taken without looking whether there is one. *)
Definition proxy_addr `{Os} (addr : str) : io SocketAddr :=
  match parse_addr addr with
  | Some a => Ok a
  | None =>
      addrs ← to_socket_addrs addr;
      match addrs with a :: _ => Ok a | [] => Panic end
  end.

(** Where the relay is: the address of the reply, with the proxy's IP in the
    place of an unspecified one. *)
Definition relay_addr `{Os} `{SocksLib} (config : ProxyConfig) (bind_addr : SocksAddr) :
    px SocketAddr :=
  addrs ← map_err (fun e => Socks (lit "cannot resolve relay addr: " ++ io_msg e))
            (socks_to_socket_addrs bind_addr);
  relay ← ok_or (Socks (lit "relay addr resolved to nothing")) (head addrs);
  if is_unspecified (addr_ip relay) then
    proxy ← map_err (fun e => Socks (lit "cannot parse proxy addr: " ++ io_msg e))
              (proxy_addr (pc_addr config));
    Ok (mk_addr (addr_ip proxy) (addr_port relay))
  else Ok relay.

Definition associate `{Os} `{SocksLib} (config : ProxyConfig) : px UdpAssociation :=
  stream ← from_io (tcp_connect_str (pc_addr config));
  stream ← from_io (set_nodelay stream);
  stream ← authenticate stream (pc_auth config);
  let bind_hint := socks_addr_from (mk_addr unspecified_v4 0) in
  '(reply, stream) ← send_udp_associate stream bind_hint;
  relay ← relay_addr config (cp_bind_addr reply);
  let bind_addr := if is_v6 (addr_ip relay) then lit "[::]:0" else lit "0.0.0.0:0" in
  socket ← from_io (udp_bind bind_addr);
  socket ← from_io (udp_connect relay socket);
  Ok (mk_association socket relay stream).

(** ** Lemmas *)
Lemma from_sq_Ok {A} (m : sq A) a : from_sq m = Ok a <-> m = Ok a.
Proof. destruct m; cbn; split; congruence. Qed.

(** What the client sends to authenticate, and what a proxy that lets it in
    answers. *)
Definition auth_sent `{SocksLaws} (auth : option ProxyAuth) : list byte :=
  wire_auth_req (greeting auth) ++
  match auth with Some cred => wire_password_req (password_req cred) | None => [] end.

Definition auth_accepted `{SocksLaws} (auth : option ProxyAuth) (bs : list byte) : Prop :=
  exists rep, ap_version rep = SOCKS5_VERSION /\ ap_method rep = wanted_method auth /\
    match auth with
    | Some _ => exists pw, pp_status pw = SOCKS5_REPLY_SUCCEEDED /\
                  bs = wire_auth_reply rep ++ wire_password_reply pw
    | None => bs = wire_auth_reply rep
    end.

Section lemmas.
Context `{SocksLaws} {S : Type} `{AsyncRead S} `{AsyncWrite S} `{!SocksCodec S}.

Lemma authenticate_transcript (s s' : S) auth :
  authenticate s auth = Ok s' ->
  written s' = written s ++ auth_sent auth /\
  exists bs, auth_accepted auth bs /\ unread s = bs ++ unread s'.
Proof.
  unfold authenticate, auth_sent, auth_accepted. intros Hau.
  apply bind_Ok in Hau as (s1 & [Hw1 Hu1]%from_sq_Ok%encode_auth_req_appends & Hau).
  apply bind_Ok in Hau as ([rep s2] & [Hu2 Hw2]%from_sq_Ok%decode_auth_reply_consumes & Hau).
  case_decide as Hv; [done|]. case_decide as Hm; [done|].

  destruct auth as [cred|].
  - apply bind_Ok in Hau as (s3 & [Hw3 Hu3]%from_sq_Ok%encode_password_req_appends & Hau).
    apply bind_Ok in Hau as ([pw s4] & [Hu4 Hw4]%from_sq_Ok%decode_password_reply_consumes & Hau).
    case_decide as Hst; [done|]. simplify_eq. split.
    + by rewrite Hw4, Hw3, Hw2, Hw1, <- app_assoc.
    + exists (wire_auth_reply rep ++ wire_password_reply pw). split; [eauto 10|].
      by rewrite <- app_assoc, <- Hu4, Hu3, <- Hu2.
  - simplify_eq. rewrite app_nil_r. split; [congruence|]. exists (wire_auth_reply rep).
    split; [eauto|]. congruence.
Qed.

Lemma send_connect_transcript (s s' : S) dst reply :
  send_connect s dst = Ok (reply, s') ->
  written s' = written s ++ wire_cmd_req (connect_req dst) /\
  unread s = wire_cmd_reply reply ++ unread s' /\ cp_rep reply = SOCKS5_REPLY_SUCCEEDED.
Proof.
  unfold send_connect. intros Hs.
  apply bind_Ok in Hs as (s1 & [Hw1 Hu1]%from_sq_Ok%encode_cmd_req_appends & Hs).
  apply bind_Ok in Hs as ([rep s2] & [Hu2 Hw2]%from_sq_Ok%decode_cmd_reply_consumes & Hs).
  case_decide as Hr; [done|]. simplify_eq.
  split; [|split]; congruence.
Qed.

Lemma send_udp_associate_transcript (s s' : S) hint reply :
  send_udp_associate s hint = Ok (reply, s') ->
  written s' = written s ++ wire_cmd_req (associate_req hint) /\
  unread s = wire_cmd_reply reply ++ unread s' /\ cp_rep reply = SOCKS5_REPLY_SUCCEEDED.
Proof.
  unfold send_udp_associate. intros Hs.
  apply bind_Ok in Hs as (s1 & [Hw1 Hu1]%from_sq_Ok%encode_cmd_req_appends & Hs).
  apply bind_Ok in Hs as ([rep s2] & [Hu2 Hw2]%from_sq_Ok%decode_cmd_reply_consumes & Hs).
  case_decide as Hr; [done|]. simplify_eq.
  split; [|split]; congruence.
Qed.
End lemmas.

(** Where the credential's length byte and its contents part ways. *)
Lemma credential_overflow s :
  256 <= Z.of_nat (length s) -> vv_len (credential s) < Z.of_nat (length (vv_contents (credential s))).
Proof.
  intros Hs. cbn. pose proof (cast_u_range 8 (Z.of_nat (length s))). unfold in_u in *. lia.
Qed.

Lemma relay_addr_spec `{Os} `{SocksLib} config bind_addr a :
  relay_addr config bind_addr = Ok a ->
  exists told rest, socks_to_socket_addrs bind_addr = Ok (told :: rest) /\
    addr_port a = addr_port told /\
    if is_unspecified (addr_ip told)
    then exists proxy, proxy_addr (pc_addr config) = Ok proxy /\ addr_ip a = addr_ip proxy
    else a = told.
Proof.
  unfold relay_addr. intros Hr.
  apply bind_Ok in Hr as (addrs & Ha & Hr).
  destruct (socks_to_socket_addrs bind_addr) as [addrs'| | |] eqn:E; try done. simplify_eq/=.
  destruct addrs as [|told rest]; [done|]. cbn in Hr. exists told, rest. split; [done|].
  destruct (is_unspecified (addr_ip told)); [|by simplify_eq].
  destruct (proxy_addr (pc_addr config)) as [proxy| | |]; try done. cbn in Hr. simplify_eq. eauto.
Qed.

(** ** Properties *)

(** C21: a SOCKS5 tunnel that opens has sent the proxy exactly the greeting,
    the credentials if there are any, and the CONNECT for the target, in that
    order; the proxy chose the wanted method, accepted the credentials and
    granted the request, and every byte it sent after its reply is still
    there to read. *)
Theorem socks_connect_transcript `{OsLaws} `{SocksLaws} `{!SocksCodec Tcp} config target t t0 :
  tcp_connect_str (pc_addr config) = Ok t0 -> connect config target = Ok t ->
  written t = written t0 ++ auth_sent (pc_auth config) ++
    wire_cmd_req (connect_req (to_socks_addr target)) /\
  exists bs reply, auth_accepted (pc_auth config) bs /\
    cp_rep reply = SOCKS5_REPLY_SUCCEEDED /\
    unread t0 = bs ++ wire_cmd_reply reply ++ unread t.
Proof.
  intros Ht0. unfold connect. rewrite Ht0. cbn. intros Hc.
  apply bind_Ok in Hc as (t1 & Hn%from_io_Ok & Hc).
  apply bind_Ok in Hc as (t2 & (Hw2 & bs & Hbs & Hu2)%authenticate_transcript & Hc).
  apply bind_Ok in Hc as ([reply t3] & (Hw3 & Hu3 & Hr)%send_connect_transcript & Hc).
  simplify_eq. rewrite (set_nodelay_written _ _ Hn) in Hw2. rewrite (set_nodelay_unread _ _ Hn) in Hu2.
  split; [by rewrite Hw3, Hw2, <- app_assoc|]. exists bs, reply. split; [done|]. split; [done|]. congruence.
Qed.

(** A proxy at 10.0.0.1 that asks for the password and grants the request,
    with two bytes of the server's behind its reply. *)
Definition demo_host : host :=
  mk_host ([Byte.x05; Byte.x02; Byte.x01; Byte.x00; Byte.x05; Byte.x00; Byte.x00; Byte.x01;
            Byte.x00; Byte.x00; Byte.x00; Byte.x00; Byte.x04; Byte.x38] ++ lit "hi")
    [lit "dgram"] (fun _ => [mk_addr (V4 [Byte.x0a; Byte.x00; Byte.x00; Byte.x01]) 1080]) [lit "en0"].

Definition demo_proxy : ProxyConfig :=
  mk_proxy_config (lit "10.0.0.1:1080") (Some (mk_proxy_auth (lit "user") (lit "secret"))).

Definition demo_target : TestTarget := mk_target (lit "example.com") 443 (lit "/") true None false.

Example socks_connect_transcript_witness :
  exists t, @connect (host_os demo_host) rfc_socks demo_proxy demo_target = Ok t /\
    outbound (ht_conn t) =
      [Byte.x05; Byte.x01; Byte.x02] ++
      [Byte.x01; Byte.x04] ++ lit "user" ++ [Byte.x06] ++ lit "secret" ++
      [Byte.x05; Byte.x01; Byte.x00; Byte.x03; Byte.x0b] ++ lit "example.com" ++ [Byte.x01; Byte.xbb].
Proof.
  eexists. split; [vm_compute; reflexivity|].
  match goal with |- outbound (ht_conn ?t) = _ =>
    destruct (@socks_connect_transcript (host_os demo_host) (host_os_laws demo_host) rfc_socks
      rfc_laws rfc_codec demo_proxy demo_target t
      (mk_host_tcp (mk_conn (script demo_host) true [] None) (mk_endpoint None None None)))
      as [Hw _]
  end.
  - reflexivity.
  - vm_compute. reflexivity.
  - etransitivity; [exact Hw|]. vm_compute. reflexivity.
Defined.

(** C23: the credentials are only sent to a proxy that speaks SOCKS5 and asks
    for the password method: otherwise authentication fails in the same way
    whatever they are, so nothing of them has been used. *)
Theorem credentials_withheld `{SocksLib} {S} `{AsyncRead S} `{AsyncWrite S} (s : S) c c' :
  (forall s1 s2 rep, encode_auth_req (greeting (Some c)) s = Ok s1 ->
     decode_auth_reply s1 = Ok (rep, s2) ->
     ap_version rep <> SOCKS5_VERSION \/ ap_method rep <> SOCKS5_AUTH_METHOD_PASSWORD) ->
  authenticate s (Some c) = authenticate s (Some c') /\ is_ok (authenticate s (Some c)) = false.
Proof.
  intros Hrep. unfold authenticate. change (greeting (Some c')) with (greeting (Some c)).
  destruct (encode_auth_req (greeting (Some c)) s) as [s1| | |] eqn:E; try done. cbn.
  destruct (decode_auth_reply s1) as [ [rep s2] | | |] eqn:E2; try done. cbn.
  specialize (Hrep s1 s2 rep eq_refl E2).
  case_decide; [done|]. case_decide; [done|]. cbn in *. tauto.
Qed.

Example credentials_withheld_witness :
  is_ok (@authenticate rfc_socks conn _ _
    (mk_conn [Byte.x05; Byte.x00] true [] None) (pc_auth demo_proxy)) = false.
Proof.
  destruct (@credentials_withheld rfc_socks conn _ _ (mk_conn [Byte.x05; Byte.x00] true [] None)
    (mk_proxy_auth (lit "user") (lit "secret")) (mk_proxy_auth (lit "other") [])) as [_ H].
  - intros s1 s2 rep Hs1. vm_compute in Hs1. injection Hs1 as <-. intros Hd. vm_compute in Hd.
    injection Hd as <- _. right. discriminate.
  - exact H.
Defined.

(** C22: an association that opens has a local socket connected to the port
    the proxy named, at the address it named, or at the proxy's own when it
    named none; authentication came first and the control connection is the
    one it ran on, with nothing past the reply consumed. *)
Theorem associate_relay `{OsLaws} `{SocksLaws} `{!SocksCodec Tcp} config assoc t0 :
  tcp_connect_str (pc_addr config) = Ok t0 -> associate config = Ok assoc ->
  exists bs reply told rest,
    auth_accepted (pc_auth config) bs /\
    unread t0 = bs ++ wire_cmd_reply reply ++ unread (as_control assoc) /\
    cp_rep reply = SOCKS5_REPLY_SUCCEEDED /\
    socks_to_socket_addrs (cp_bind_addr reply) = Ok (told :: rest) /\
    ep_peer (udp_end (as_socket assoc)) = Some (as_relay_addr assoc) /\
    addr_port (as_relay_addr assoc) = addr_port told /\
    (is_unspecified (addr_ip told) = false -> as_relay_addr assoc = told) /\
    (is_unspecified (addr_ip told) = true ->
     exists proxy, proxy_addr (pc_addr config) = Ok proxy /\
       addr_ip (as_relay_addr assoc) = addr_ip proxy).
Proof.
  intros Ht0. unfold associate. rewrite Ht0. cbn. intros Hc.
  apply bind_Ok in Hc as (t1 & Hn%from_io_Ok & Hc).
  apply bind_Ok in Hc as (t2 & (_ & bs & Hbs & Hu2)%authenticate_transcript & Hc).
  apply bind_Ok in Hc as ([reply t3] & (_ & Hu3 & Hr)%send_udp_associate_transcript & Hc).
  apply bind_Ok in Hc as (relay & (told & rest & Ht & Hport & Hip)%relay_addr_spec & Hc).
  apply bind_Ok in Hc as (u & _ & Hc). apply bind_Ok in Hc as (u' & Hu'%from_io_Ok & Hc).
  simplify_eq. cbn. exists bs, reply, told, rest.
  rewrite (set_nodelay_unread _ _ Hn) in Hu2. rewrite (udp_connect_end _ _ _ Hu').
  split; [done|]. split; [congruence|]. do 4 (split; [done|]).
  destruct (is_unspecified (addr_ip told)); naive_solver.
Qed.

(** The proxy answered 0.0.0.0:1080. *)
Example associate_relay_witness :
  exists assoc, @associate (host_os demo_host) rfc_socks demo_proxy = Ok assoc /\
    exists proxy, @proxy_addr (host_os demo_host) (pc_addr demo_proxy) = Ok proxy /\
      addr_ip (as_relay_addr assoc) = addr_ip proxy.
Proof.
  eexists. split; [vm_compute; reflexivity|].
  match goal with |- exists proxy, _ /\ addr_ip (as_relay_addr ?a) = _ =>
    destruct (@associate_relay (host_os demo_host) (host_os_laws demo_host) rfc_socks
      rfc_laws rfc_codec demo_proxy a
      (mk_host_tcp (mk_conn (script demo_host) true [] None) (mk_endpoint None None None)))
      as (bs & reply & told & rest & _ & _ & _ & _ & _ & _ & Hs & Hu)
  end.
  - reflexivity.
  - vm_compute. reflexivity.
  - destruct (is_unspecified (addr_ip told)); [exact (Hu eq_refl)|].
    eexists. split; [vm_compute; reflexivity|vm_compute; reflexivity].
Defined.
