(* ===== verification/Direct.v ===== *)
(** * Direct mode (src/direct.rs)

    Interface selection, name resolution and the sockets of direct mode.
    The platform the crate is compiled for is an argument, since the source
    selects its code by it. *)
From S2P Require Import Prelude AsyncIo Text Net Errors Socks5Udp Os SocksLib Config.

Inductive InterfaceSpec : Type :=
| IfName (name : str)
| IfAddress (ip : IpAddr).

#[export] Instance InterfaceSpec_eq_dec : EqDecision InterfaceSpec.
Proof. solve_decision. Defined.

Definition describe (i : InterfaceSpec) : str :=
  match i with IfName n => n | IfAddress a => show_ip a end.

Record DirectConfig : Type := mk_direct_config { dc_interface : option InterfaceSpec }.

Definition parse_interface (s : str) : InterfaceSpec :=
  match parse_ip s with Some ip => IfAddress ip | None => IfName s end.

Definition resolve_target `{Os} (target : TestTarget) : px SocketAddr :=
  match tt_resolved_addr target with
  | Some ip => Ok (mk_addr ip (tt_port target))
  | None =>
      match parse_ip (tt_host target) with
      | Some ip => Ok (mk_addr ip (tt_port target))
      | None =>
          addrs ← from_io (lookup_host (host_port (tt_host target) (tt_port target)));
          ok_or (InvalidConfig (lit "DNS lookup returned no addresses for " ++ tt_host target))
            (head addrs)
      end
  end.

(** ** Binding to an interface *)
Inductive platform : Type := Linux | Apple | OtherUnix | NonUnix.

Definition is_unix (p : platform) : bool := match p with NonUnix => false | _ => true end.

Definition bind_by_name `{Os} (p : platform) (socket : Sock) (name : str) (ipv6 : bool) : px Sock :=
  match p with
  | Apple =>
      if decide (Byte.x00 ∈ name) then Err (InvalidConfig (lit "invalid interface name: " ++ name))
      else
        let idx := if_nametoindex name in
        if decide (idx = 0) then Err (InvalidConfig (lit "unknown interface: " ++ name))
        else
          map_err (fun e => InvalidConfig (lit "bind to interface " ++ name ++ lit ": " ++ io_msg e))
            (sock_bind_index ipv6 idx socket)
  | Linux =>
      map_err (fun e => InvalidConfig (lit "bind to interface " ++ name ++ lit ": " ++ io_msg e ++
                 lit " (SO_BINDTODEVICE typically requires CAP_NET_RAW or root)"))
        (sock_bind_device name socket)
  | OtherUnix =>
      Err (InvalidConfig
        (lit "interface name binding not supported on this platform; specify a local IP instead"))
  | NonUnix => Panic (* not compiled there, and never called *)
  end.

Definition apply_interface `{Os} (p : platform) (socket : Sock) (iface : InterfaceSpec)
    (ipv6 : bool) : px Sock :=
  if is_unix p then
    match iface with
    | IfAddress ip =>
        map_err (fun e => InvalidConfig (lit "bind to source IP " ++ show_ip ip ++ lit ": " ++ io_msg e))
          (sock_bind (mk_addr ip 0) socket)
    | IfName name => bind_by_name p socket name ipv6
    end
  else Err (InvalidConfig (lit "--interface is not supported on this platform")).

Definition direct_connect_tcp `{Os} (p : platform) (target : TestTarget)
    (iface : option InterfaceSpec) : px Tcp :=
  addr ← resolve_target target;
  match iface with
  | None =>
      stream ← from_io (tcp_connect addr);
      from_io (set_nodelay stream)
  | Some iface =>
      if is_unix p then
        socket ← from_io (sock_new (is_v6 (addr_ip addr)) STREAM);
        socket ← apply_interface p socket iface (is_v6 (addr_ip addr));
        socket ← from_io (sock_set_nonblocking socket);
        stream ← from_io (sock_connect addr socket);
        from_io (set_nodelay stream)
      else Err (InvalidConfig (lit "--interface requires a unix-like OS"))
  end.

(** The texts are constants that parse. *)
Definition wildcard_addr (ipv6 : bool) : SocketAddr :=
  if ipv6 then mk_addr (V6 (replicate 16 Byte.x00)) 0 else mk_addr (V4 (replicate 4 Byte.x00)) 0.

Lemma wildcard_addr_parses (ipv6 : bool) :
  parse_addr (if ipv6 then lit "[::]:0" else lit "0.0.0.0:0") = Some (wildcard_addr ipv6).
Proof. destruct ipv6; vm_compute; reflexivity. Qed.

Definition build_udp_socket `{Os} (p : platform) (target_is_v6 : bool)
    (iface : option InterfaceSpec) : px Udp :=
  socket ← (from_io (sock_new target_is_v6 DGRAM) : px Sock);
  socket ← (
    match iface with
    | Some (IfAddress ip) =>
        map_err (fun e => InvalidConfig (lit "bind UDP to source IP " ++ show_ip ip ++ lit ": " ++ io_msg e))
          (sock_bind (mk_addr ip 0) socket)
    | Some (IfName name) =>
        if is_unix p then
          socket ← bind_by_name p socket name target_is_v6;
          from_io (sock_bind (wildcard_addr target_is_v6) socket)
        else Err (InvalidConfig (lit "--interface is not supported on this platform"))
    | None => from_io (sock_bind (wildcard_addr target_is_v6) socket)
    end : px Sock);
  socket ← from_io (sock_set_nonblocking socket);
  from_io (sock_into_udp socket).

(** ** Lemmas *)

(** A name that can be the name of a device. *)
Definition nameable (p : platform) (name : str) : Prop :=
  match p with Linux => name <> [] /\ ifname_ok name | _ => True end.

(** The endpoint confined as the specification asks. *)
Definition confined (p : platform) `{Os} (iface : option InterfaceSpec) (e : endpoint) : Prop :=
  match iface with
  | None => ep_device e = None
  | Some (IfAddress ip) => ep_local e = Some (mk_addr ip 0) /\ ep_device e = None
  | Some (IfName name) =>
      nameable p name ->
      ep_device e = Some match p with
                         | Apple => DeviceIndex (if_nametoindex name)
                         | _ => DeviceName name
                         end
  end.

(** No device confines the endpoint. *)
Definition unconfined (e : endpoint) : Prop := ep_device e = None.

Section lemmas.
Context `{OsLaws}.

Lemma bind_by_name_end p s name ipv6 s' :
  bind_by_name p s name ipv6 = Ok s' ->
  ep_local (sock_end s') = ep_local (sock_end s) /\
  confined p (Some (IfName name)) (sock_end s') /\
  (p = Linux -> name = [] -> unconfined (sock_end s')).
Proof.
  unfold unconfined. destruct p; cbn; [| |done|done].
  - intros Hb%map_err_Ok. destruct (sock_bind_device_end _ _ _ Hb) as (Hl & _ & Hd).
    split; [done|]. split.
    + intros [Hne Hok]. rewrite (Hd Hok). unfold device_named. by rewrite decide_False.
    + intros _ ->. rewrite Hd; [done|]. split; [cbn; lia|apply not_elem_of_nil].
  - case_decide; [done|]. case_decide; [done|]. intros Hb%map_err_Ok.
    by rewrite (sock_bind_index_end _ _ _ _ Hb).
Qed.

Lemma apply_interface_end p s iface ipv6 s' :
  sock_end s = mk_endpoint None None None ->
  apply_interface p s iface ipv6 = Ok s' ->
  confined p (Some iface) (sock_end s') /\
  (p = Linux -> iface = IfName [] -> unconfined (sock_end s')).
Proof.
  intros Hs. unfold apply_interface. destruct (is_unix p); [|done].
  destruct iface as [name|ip].
  - intros (_ & Hc & Hu)%bind_by_name_end. split; [done|]. intros Hp [= ->]. by apply Hu.
  - intros Hb%map_err_Ok. rewrite (sock_bind_end _ _ _ Hb), Hs. done.
Qed.

Lemma from_io_map_err {A} (m : io A) : from_io m = map_err Io m.
Proof. done. Qed.
End lemmas.

Lemma build_udp_socket_end `{OsLaws} p iface v6 u :
  build_udp_socket p v6 iface = Ok u ->
  confined p iface (udp_end u) /\
  (match iface with Some (IfAddress _) => True | _ => ep_local (udp_end u) = Some (wildcard_addr v6) end) /\
  (p = Linux -> iface = Some (IfName []) -> unconfined (udp_end u)).
Proof.
  intros Hb. unfold build_udp_socket in Hb.
  apply bind_Ok in Hb as (s & Hs%from_io_Ok%sock_new_end & Hb).
  apply bind_Ok in Hb as (s1 & Hi & Hb).
  apply bind_Ok in Hb as (s2 & Hs2%from_io_Ok%sock_set_nonblocking_end & Hb).
  apply from_io_Ok, sock_into_udp_end in Hb. rewrite Hb, Hs2. unfold unconfined.
  destruct iface as [ [name|ip]|].
  + destruct (is_unix p); [|done]. apply bind_Ok in Hi as (s3 & (_ & Hc & Hu)%bind_by_name_end & Hi).
    apply from_io_Ok, sock_bind_end in Hi. rewrite Hi. cbn in *. split; [done|]. split; [done|].
    intros Hp [= ->]. by apply Hu.
  + apply map_err_Ok, sock_bind_end in Hi. by rewrite Hi, Hs.
  + apply from_io_Ok, sock_bind_end in Hi. by rewrite Hi, Hs.
Qed.

Lemma build_udp_socket_confined `{OsLaws} p iface v6 u :
  build_udp_socket p v6 iface = Ok u ->
  confined p iface (udp_end u) /\
  (match iface with Some (IfAddress _) => True | _ => ep_local (udp_end u) = Some (wildcard_addr v6) end).
Proof. intros (? & ? & _)%build_udp_socket_end. done. Qed.

Lemma direct_connect_tcp_end `{OsLaws} p iface target t :
  direct_connect_tcp p target iface = Ok t ->
  confined p iface (tcp_end t) /\
  (exists addr, resolve_target target = Ok addr /\ ep_peer (tcp_end t) = Some addr) /\
  (p = Linux -> iface = Some (IfName []) -> unconfined (tcp_end t)).
Proof.
  intros Hc. unfold direct_connect_tcp in Hc.
  apply bind_Ok in Hc as (addr & Ha & Hc). unfold unconfined. destruct iface as [iface|].
  - destruct (is_unix p); [|done].
    apply bind_Ok in Hc as (s & Hs%from_io_Ok%sock_new_end & Hc).
    apply bind_Ok in Hc as (s1 & [Hi Hu]%apply_interface_end & Hc); [|done].
    apply bind_Ok in Hc as (s2 & Hs2%from_io_Ok%sock_set_nonblocking_end & Hc).
    apply bind_Ok in Hc as (t1 & Ht1%from_io_Ok%sock_connect_end & Hc).
    apply from_io_Ok, set_nodelay_end in Hc. rewrite Hc, Ht1, Hs2.
    split; [by destruct iface|]. split; [eauto|]. intros Hp [= ->]. by apply Hu.
  - apply bind_Ok in Hc as (t1 & Ht1%from_io_Ok%tcp_connect_end & Hc).
    apply from_io_Ok, set_nodelay_end in Hc. rewrite Hc, Ht1. cbn. eauto.
Qed.

(** ** Properties *)

(** C35: an interface that is asked for by an address or by a name that a
    device can have is used or the call fails: a UDP socket that is built, and
    a TCP connection that opens, is confined to the named device (by index on
    Apple systems) or bound to the given address, a UDP socket besides to a
    wildcard address of the target's family; without a request no device is
    set.  The empty name is the exception: on Linux it is accepted, and
    neither the socket nor the connection is confined. *)
Theorem interface_respected `{OsLaws} (p : platform) (iface : option InterfaceSpec) :
  (forall v6 u, build_udp_socket p v6 iface = Ok u ->
     confined p iface (udp_end u) /\
     (match iface with Some (IfAddress _) => True | _ => ep_local (udp_end u) = Some (wildcard_addr v6) end)) /\
  (forall target t, direct_connect_tcp p target iface = Ok t ->
     confined p iface (tcp_end t) /\
     exists addr, resolve_target target = Ok addr /\ ep_peer (tcp_end t) = Some addr) /\
  (forall v6 u, build_udp_socket Linux v6 (Some (parse_interface [])) = Ok u -> unconfined (udp_end u)) /\
  (forall target t, direct_connect_tcp Linux target (Some (parse_interface [])) = Ok t -> unconfined (tcp_end t)).
Proof.
  split; [|split; [|split] ].
  - intros v6 u. apply build_udp_socket_confined.
  - intros target t (? & ? & _)%direct_connect_tcp_end. done.
  - intros v6 u (_ & _ & Hu)%build_udp_socket_end. by apply Hu.
  - intros target t (_ & _ & Hu)%direct_connect_tcp_end. by apply Hu.
Qed.

Definition en0_host : host := mk_host [] [] (fun _ => []) [lit "en0"].

Example interface_respected_witness :
  exists u u', @build_udp_socket (host_os en0_host) Linux false (Some (parse_interface (lit "en0"))) = Ok u /\
    ep_device (hu_end u) = Some (DeviceName (lit "en0")) /\
    @build_udp_socket (host_os en0_host) Linux false (Some (parse_interface [])) = Ok u' /\
    ep_device (hu_end u') = None.
Proof.
  eexists _, _. split; [vm_compute; reflexivity|].
  destruct (@interface_respected (host_os en0_host) (host_os_laws en0_host) Linux
    (Some (parse_interface (lit "en0")))) as (Hudp & _ & Hempty & _).
  split; [|split; [vm_compute; reflexivity|] ].
  - match goal with |- ep_device (hu_end ?u) = _ => destruct (Hudp false u) as [Hc _] end.
    + vm_compute. reflexivity.
    + apply Hc. split; [discriminate|]. split; [apply Nat.leb_le; vm_compute; reflexivity|solve_decided].
  - match goal with |- ep_device (hu_end ?u) = _ => apply (Hempty false u) end.
    vm_compute. reflexivity.
Defined.
