(* ===== verification/Transport.v ===== *)
(** * Transports (src/transport.rs)

    One interface over SOCKS5 and direct connections: TCP streams, and UDP
    sockets that hide the SOCKS5 framing. *)
From S2P Require Import Prelude AsyncIo Text Net Errors Socks5Udp Os SocksLib Config Handshake Direct.

Inductive Transport : Type :=
| Socks5 (cfg : ProxyConfig)
| Direct (cfg : DirectConfig).

Definition is_direct (t : Transport) : bool :=
  match t with Direct _ => true | Socks5 _ => false end.

Inductive TransportUdpSocket `{Os} : Type :=
| UdpDirect (socket : Udp)
| UdpSocks5 (socket : Udp) (target : SocksAddr) (control : Tcp).

Section transport.
Context `{Os} `{SocksLib} (p : platform).

Definition connect_tcp (self : Transport) (target : TestTarget) : px Tcp :=
  match self with
  | Socks5 cfg => connect cfg target
  | Direct cfg => direct_connect_tcp p target (dc_interface cfg)
  end.

Definition open_udp (self : Transport) (target : SocketAddr) : px TransportUdpSocket :=
  match self with
  | Direct cfg =>
      socket ← build_udp_socket p (is_v6 (addr_ip target)) (dc_interface cfg);
      socket ← from_io (udp_connect target socket);
      Ok (UdpDirect socket)
  | Socks5 cfg =>
      assoc ← associate cfg;
      Ok (UdpSocks5 (as_socket assoc) (socks_addr_from target) (as_control assoc))
  end.

Definition send (self : TransportUdpSocket) (payload : list byte) : io TransportUdpSocket :=
  match self with
  | UdpDirect socket =>
      '(_, socket) ← udp_send payload socket;
      Ok (UdpDirect socket)
  | UdpSocks5 socket target control =>
      header ← encode_socks5_udp_header target;
      '(_, socket) ← udp_send (header ++ payload) socket;
      Ok (UdpSocks5 socket target control)
  end.

(** Receive into [buf]; the buffer comes back with the number of payload
    bytes in it. *)
Definition recv (self : TransportUdpSocket) (buf : list byte) :
    io (nat * list byte * TransportUdpSocket) :=
  match self with
  | UdpDirect socket =>
      '(datagram, socket) ← udp_recv (length buf) socket;
      buf ← copy_range buf 0 (length datagram) datagram;
      Ok (length datagram, buf, UdpDirect socket)
  | UdpSocks5 socket target control =>
      '(tmp, socket) ← udp_recv (length buf + 256) socket;
      '(_, hlen) ← decode_socks5_udp_header tmp;
      payload ← slice tmp hlen (length tmp);
      let copy := Nat.min (length payload) (length buf) in
      src ← slice payload 0 copy;
      buf ← copy_range buf 0 copy src;
      Ok (copy, buf, UdpSocks5 socket target control)
  end.
End transport.

(** ** Lemmas *)
Lemma copy_prefix {E} (buf src : list byte) :
  (length src <= length buf)%nat ->
  copy_range (E:=E) buf 0 (length src) src = Ok (src ++ drop (length src) buf).
Proof. intros Hl. rewrite copy_range_Ok by lia. done. Qed.

Section lemmas.
Context `{OsLaws} `{SocksLaws}.

(** What a receive hands up of a datagram: everything in direct mode, what
    follows the header otherwise, cut to the buffer. *)
Definition payload_of (hidden : option SocksAddr) (datagram : list byte) : list byte :=
  match hidden with
  | None => datagram
  | Some src => drop (length (header_wire src)) datagram
  end.

Lemma recv_direct u u' d buf :
  udp_recv (length buf) u = Ok (d, u') ->
  recv (UdpDirect u) buf = Ok (length d, d ++ drop (length d) buf, UdpDirect u').
Proof.
  intros Hr. unfold recv. rewrite Hr. cbn [mbind outcome_bind].
  apply udp_recv_length in Hr. by rewrite copy_prefix by lia.
Qed.

(** Behind a header of [src] the payload arrives whole if it fits the buffer
    and the header fits into the slack of 256 bytes. *)
Lemma recv_socks5 u u' target control src payload buf :
  socks_addr_ok src ->
  udp_recv (length buf + 256) u = Ok (header_wire src ++ payload, u') ->
  let copy := Nat.min (length payload) (length buf) in
  recv (UdpSocks5 u target control) buf =
    Ok (copy, take copy payload ++ drop copy buf, UdpSocks5 u' target control).
Proof.
  intros Hs Hr copy. unfold recv. rewrite Hr. cbn [mbind outcome_bind].
  rewrite decode_header_app by done. cbn [mbind outcome_bind].
  fold (slice_from (E:=io_error) (header_wire src ++ payload) (length (header_wire src))).
  rewrite slice_from_Ok by (rewrite length_app; lia). rewrite drop_app_length.
  cbn [mbind outcome_bind]. fold copy.
  rewrite slice_Ok by (unfold copy; lia). cbn [mbind outcome_bind].
  rewrite drop_0, Nat.sub_0_r. rewrite copy_range_Ok by (rewrite ?length_take; unfold copy; lia).
  done.
Qed.

Lemma recv_returns u buf :
  (forall n s, udp_recv n s <> Hang /\ udp_recv n s <> Panic) -> returns (recv u buf).
Proof.
  intros Hu. destruct u as [s|s target control]; cbn.
  - specialize (Hu (length buf) s) as [Hh Hp].
    destruct (udp_recv (length buf) s) as [ [d s']| | |] eqn:E; try done. cbn.
    apply udp_recv_length in E. by rewrite copy_prefix by lia.
  - specialize (Hu (length buf + 256)%nat s) as [Hh Hp].
    destruct (udp_recv (length buf + 256) s) as [ [d s']| | |] eqn:E; try done. cbn.
    apply returns_bind; [apply decode_header_returns|]. intros [a n] Hd.
    apply decode_header_inv in Hd as (_ & _ & Hv). apply decode_view_length in Hv.
    apply returns_bind; [apply slice_returns; lia|]. intros payload _.
    apply returns_bind; [apply slice_returns; lia|]. intros src Hsrc%slice_inv.
    apply returns_bind; [|done]. rewrite copy_range_Ok; [done|lia..].
Qed.
End lemmas.

(** ** Properties *)

(** A datagram that a relay forwards to another socket of the same kind
    is received as it was sent: for every destination, the bytes put on the
    wire are a header for the destination and the payload; and a payload that
    arrives behind any header, with the buffer long enough for it and the
    whole datagram within the buffer's length plus 256, is what the receiver
    gets. *)
Theorem transport_udp_frames `{OsLaws} `{SocksLaws} u target control payload u' :
  socks_addr_ok target ->
  send (UdpSocks5 u target control) payload = Ok u' ->
  (exists n v, udp_send (header_wire target ++ payload) u = Ok (n, v) /\
     u' = UdpSocks5 v target control) /\
  forall r r' t' c' src buf, socks_addr_ok src -> (length payload <= length buf)%nat ->
    udp_recv (length buf + 256) r = Ok (header_wire src ++ payload, r') ->
    recv (UdpSocks5 r t' c') buf =
      Ok (length payload, payload ++ drop (length payload) buf, UdpSocks5 r' t' c').
Proof.
  intros Ht Hs. unfold send in Hs. rewrite encode_header_Ok in Hs by apply Ht. cbn in Hs.
  apply bind_Ok in Hs as ([n v] & Hv & Hs). simplify_eq. split; [eauto|].
  intros r r' t' c' src buf Hsrc Hl Hr. rewrite (recv_socks5 _ _ _ _ _ _ _ Hsrc Hr).
  by rewrite Nat.min_l, take_ge by lia.
Qed.

Definition relay_target : SocksAddr := mk_socks_addr (AddrV4 [Byte.x0a; Byte.x00; Byte.x00; Byte.x01]) 53.

Definition idle_control : host_tcp := mk_host_tcp (mk_conn [] true [] None) (mk_endpoint None None None).

Definition relay_host : host := mk_host [] [header_wire relay_target ++ lit "reply"] (fun _ => []) [].

Definition host_socket (h : host) : host_udp := mk_host_udp (datagrams h) [] (mk_endpoint None None None).

Example transport_udp_frames_witness :
  exists u', @send (host_os relay_host) (UdpSocks5 (H:=host_os relay_host) (host_socket relay_host) relay_target idle_control) (lit "reply") = Ok u' /\
    @recv (host_os relay_host) (UdpSocks5 (H:=host_os relay_host) (host_socket relay_host) relay_target idle_control) (replicate 512 Byte.x00) =
      Ok (5%nat, lit "reply" ++ replicate 507 Byte.x00,
          UdpSocks5 (H:=host_os relay_host) (mk_host_udp [] [] (mk_endpoint None None None)) relay_target idle_control).
Proof.
  eexists. split; [vm_compute; reflexivity|].
  match goal with |- _ = Ok (_, _, ?r) =>
    destruct (@transport_udp_frames (host_os relay_host) (host_os_laws relay_host) rfc_socks rfc_laws (host_socket relay_host) relay_target idle_control
      (lit "reply") (UdpSocks5 (H:=host_os relay_host) (mk_host_udp (datagrams relay_host) [header_wire relay_target ++ lit "reply"]
        (mk_endpoint None None None)) relay_target idle_control)) as [_ Hr]
  end.
  - split; solve_closed.
  - vm_compute. reflexivity.
  - apply (Hr (host_socket relay_host) _ relay_target idle_control relay_target (replicate 512 Byte.x00)).
    + split; solve_closed.
    + apply Nat.leb_le. vm_compute. reflexivity.
    + vm_compute. reflexivity.
Defined.

(** The slack of 256 bytes is too small for the longest header: behind
    the 262 bytes a 255-byte domain takes, the last bytes of a payload that
    fills the buffer are lost without an error. *)
Theorem socks_slack_truncates `{OsLaws} `{SocksLaws} r r' t' c' src d buf payload :
  sa_addr src = AddrDomain (mk_varvec 255 d) -> length d = 255%nat -> u16 (sa_port src) ->
  length payload = length buf -> (6 <= length payload)%nat ->
  udp_recv (length buf + 256) r = Ok (take (length buf + 256) (header_wire src ++ payload), r') ->
  recv (UdpSocks5 r t' c') buf =
    Ok ((length payload - 6)%nat, take (length payload - 6) payload ++ drop (length payload - 6) buf,
        UdpSocks5 r' t' c').
Proof.
  intros Ha Hd Hp Hl Hlen Hr.
  assert (socks_addr_ok src) as Hok.
  { split; [|done]. rewrite Ha. split; cbn; [unfold in_u; lia|lia]. }
  assert (length (header_wire src) = 262%nat) as Hh.
  { rewrite header_wire_length by apply Hok. by rewrite Ha. }
  rewrite take_app_ge in Hr by lia.
  rewrite (recv_socks5 _ _ _ _ _ _ _ Hok Hr). rewrite length_take, Hh, Hl.
  replace (Nat.min (length buf + 256 - 262) (length buf)) with (length buf - 6)%nat by lia.
  rewrite Nat.min_l by lia. rewrite take_take, Nat.min_l by lia. done.
Qed.

Definition long_source : SocksAddr :=
  mk_socks_addr (AddrDomain (mk_varvec 255 (replicate 255 Byte.x61))) 53.

Definition long_host : host := mk_host [] [header_wire long_source ++ lit "0123456789"] (fun _ => []) [].

Example socks_slack_truncates_witness :
  @recv (host_os long_host) (UdpSocks5 (H:=host_os long_host) (host_socket long_host) relay_target idle_control) (replicate 10 Byte.x2e) =
    Ok (4%nat, lit "0123......",
        UdpSocks5 (H:=host_os long_host) (mk_host_udp [] [] (mk_endpoint None None None)) relay_target idle_control).
Proof.
  apply (@socks_slack_truncates (host_os long_host) (host_os_laws long_host) rfc_socks rfc_laws (host_socket long_host)
    (mk_host_udp [] [] (mk_endpoint None None None)) relay_target idle_control long_source (replicate 255 Byte.x61)
    (replicate 10 Byte.x2e) (lit "0123456789")).
  - reflexivity.
  - vm_compute. reflexivity.
  - solve_closed.
  - vm_compute. reflexivity.
  - apply Nat.leb_le. vm_compute. reflexivity.
  - vm_compute. reflexivity.
Defined.

(** C32: a datagram that a relay forwards to another socket of the same kind
    is received as it was sent: for every destination, the bytes put on the
    wire are a header for the destination and the payload; and a payload that
    arrives behind any header, with the buffer long enough for it and the
    whole datagram within the buffer's length plus 256, is what the receiver
    gets.  The slack of 256 bytes is too small for the longest header: behind
    the 262 bytes a 255-byte domain takes, the last bytes of a payload that
    fills the buffer are lost without an error. *)
Theorem socks_udp_transfer `{OsLaws} `{SocksLaws} :
  (forall u target control payload u', socks_addr_ok target ->
     send (UdpSocks5 u target control) payload = Ok u' ->
     exists n v, udp_send (header_wire target ++ payload) u = Ok (n, v) /\ u' = UdpSocks5 v target control) /\
  (forall r r' t c src buf payload, socks_addr_ok src -> (length payload <= length buf)%nat ->
     udp_recv (length buf + 256) r = Ok (header_wire src ++ payload, r') ->
     recv (UdpSocks5 r t c) buf =
       Ok (length payload, payload ++ drop (length payload) buf, UdpSocks5 r' t c)) /\
  (forall r r' t c src d buf payload,
     sa_addr src = AddrDomain (mk_varvec 255 d) -> length d = 255%nat -> u16 (sa_port src) ->
     length payload = length buf -> (6 <= length payload)%nat ->
     udp_recv (length buf + 256) r = Ok (take (length buf + 256) (header_wire src ++ payload), r') ->
     recv (UdpSocks5 r t c) buf =
       Ok ((length payload - 6)%nat, take (length payload - 6) payload ++ drop (length payload - 6) buf,
           UdpSocks5 r' t c)).
Proof.
  split; [|split].
  - intros u target control payload u' Ht Hs. by apply (transport_udp_frames u target control payload u').
  - intros r r' t c src buf payload Hsrc Hl Hr. rewrite (recv_socks5 _ _ _ _ _ _ _ Hsrc Hr).
    by rewrite Nat.min_l, take_ge by lia.
  - intros r r' t c src d buf payload. apply socks_slack_truncates.
Qed.

Lemma socks_udp_transfer_witness :
  @recv (host_os long_host) (UdpSocks5 (H:=host_os long_host) (host_socket long_host) relay_target idle_control) (replicate 10 Byte.x2e) =
    Ok (4%nat, lit "0123......",
        UdpSocks5 (H:=host_os long_host) (mk_host_udp [] [] (mk_endpoint None None None)) relay_target idle_control).
Proof.
  apply (proj2 (proj2 (@socks_udp_transfer (host_os long_host) (host_os_laws long_host) rfc_socks rfc_laws))
    (host_socket long_host) (mk_host_udp [] [] (mk_endpoint None None None)) relay_target idle_control long_source
    (replicate 255 Byte.x61) (replicate 10 Byte.x2e) (lit "0123456789")).
  - reflexivity.
  - vm_compute. reflexivity.
  - solve_closed.
  - vm_compute. reflexivity.
  - apply Nat.leb_le. vm_compute. reflexivity.
  - vm_compute. reflexivity.
Defined.
