(* ===== verification/Dns.v ===== *)
(** * DNS over a transport (src/dns.rs)

    The A query, the response parser, and [resolve_a] over the UDP sockets of
    [Transport]; a specification of DNS messages that the parser is checked
    against. *)
From S2P Require Import Prelude AsyncIo Text Net Errors Socks5Udp Os SocksLib Config Handshake Direct.
From S2P Require Import Transport.

Definition DEFAULT_DNS_PORT : Z := 53.
Definition MAX_LABEL_LEN : nat := 63.
Definition MAX_NAME_LEN : nat := 255.

Record DnsConfig : Type := mk_dns_config { dns_server : SocketAddr }.

Definition bad {A} (msg : str) : px A := Err (InvalidConfig msg).

Definition parse_server (raw : str) : px SocketAddr :=
  match parse_addr raw with
  | Some sa => Ok sa
  | None =>
      match parse_ip raw with
      | Some ip => Ok (mk_addr ip DEFAULT_DNS_PORT)
      | None => bad (lit "DNS server must be an IP or IP:PORT, got '" ++ raw ++ lit "'")
      end
  end.

(** [None] is a clock before the epoch. *)
Definition random_id (subsec_nanos : option Z) : Z :=
  cast_u 16 (Z.land (default 0 subsec_nanos) 65535).

(** ** The query *)
Fixpoint encode_labels (labels : list str) (buf : list byte) : px (list byte) :=
  match labels with
  | [] => Ok buf
  | label :: labels =>
      if decide (label = []) then encode_labels labels buf
      else if decide (MAX_LABEL_LEN < length label)%nat
      then bad (lit "DNS label too long: " ++ label)
      else encode_labels labels (buf ++ [z2b (Z.of_nat (length label))] ++ label)
  end.

Definition query_header (id : Z) : list byte :=
  be_bytes 2 id ++ be_bytes 2 256 ++ be_bytes 2 1 ++ be_bytes 2 0 ++ be_bytes 2 0 ++ be_bytes 2 0.

Definition encode_query (id : Z) (hostname : str) : px (list byte) :=
  buf ← encode_labels (split_on Byte.x2e hostname) (query_header id);
  Ok (buf ++ [Byte.x00] ++ be_bytes 2 1 ++ be_bytes 2 1).

(** ** The response *)

(** Each round of the loop moves forward, so [length buf] of them are
    enough: more is an endless loop. *)
Fixpoint skip_name_fuel (fuel : nat) (buf : list byte) (pos : nat) : px nat :=
  match fuel with
  | O => Hang
  | S fuel =>
      if decide (length buf <= pos)%nat then bad (lit "DNS name truncated")
      else
        len ← index buf pos;
        if decide (len = Byte.x00) then Ok (pos + 1)%nat
        else if Z.land (b2z len) 192 =? 192 then
          if decide (length buf <= pos + 1)%nat then bad (lit "DNS name pointer truncated")
          else Ok (pos + 2)%nat
        else skip_name_fuel fuel buf (pos + (1 + Z.to_nat (b2z len)))
  end.

Definition skip_name (buf : list byte) (pos : nat) : px nat :=
  skip_name_fuel (length buf + 1) buf pos.

(** [u16::from_be_bytes([buf[i], buf[i + 1]])]. *)
Definition be_u16 (buf : list byte) (i : nat) : px Z :=
  hi ← index buf i;
  lo ← index buf (i + 1);
  Ok (be_val [hi; lo]).

Fixpoint skip_questions (n : nat) (buf : list byte) (pos : nat) : px nat :=
  match n with
  | O => Ok pos
  | S n =>
      pos ← skip_name buf pos;
      if decide (length buf < pos + 4)%nat then bad (lit "DNS question truncated")
      else skip_questions n buf (pos + 4)
  end.

Fixpoint find_a (n : nat) (buf : list byte) (pos : nat) : px IpAddr :=
  match n with
  | O => bad (lit "DNS response had no A record")
  | S n =>
      pos ← skip_name buf pos;
      if decide (length buf < pos + 10)%nat then bad (lit "DNS answer header truncated")
      else
        rtype ← be_u16 buf pos;
        rdlength ← be_u16 buf (pos + 8);
        let pos := (pos + 10)%nat in
        if decide (length buf < pos + Z.to_nat rdlength)%nat then bad (lit "DNS rdata truncated")
        else if bool_decide (rtype = 1) && bool_decide (rdlength = 4) then
          a ← index buf pos;
          b ← index buf (pos + 1);
          c ← index buf (pos + 2);
          d ← index buf (pos + 3);
          Ok (V4 [a; b; c; d])
        else find_a n buf (pos + Z.to_nat rdlength)
  end.

Definition decode_a_response (expected_id : Z) (buf : list byte) : px IpAddr :=
  if decide (length buf < 12)%nat then bad (lit "DNS response too short")
  else
    id ← be_u16 buf 0;
    if decide (id <> expected_id) then
      bad (lit "DNS response ID mismatch (got " ++ show_u id ++ lit ", expected " ++
           show_u expected_id ++ lit ")")
    else
      flags ← be_u16 buf 2;
      let rcode := Z.land flags 15 in
      if decide (rcode <> 0) then bad (lit "DNS server returned RCODE " ++ show_u rcode)
      else
        qd ← be_u16 buf 4;
        an ← be_u16 buf 6;
        if decide (an = 0) then bad (lit "DNS response contains no answers")
        else
          pos ← skip_questions (Z.to_nat qd) buf 12;
          find_a (Z.to_nat an) buf pos.

(** ** Resolution *)
Definition resolve_a `{Os} `{SocksLib} (p : platform) (clock : option Z) (transport : Transport)
    (dns : DnsConfig) (hostname : str) : px IpAddr :=
  if decide (MAX_NAME_LEN < length hostname)%nat then bad (lit "DNS hostname too long: " ++ hostname)
  else
    socket ← open_udp p transport (dns_server dns);
    let id := random_id clock in
    query ← encode_query id hostname;
    socket ← from_io (send socket query);
    let buf := replicate (Z.to_nat 1500) Byte.x00 in
    '(n, buf, _) ←
      timeout (InvalidConfig (lit "DNS query to " ++ show_addr (dns_server dns) ++ lit " timed out"))
        (from_io (recv socket buf));
    response ← slice buf 0 n;
    decode_a_response id response.

(** ** Specification: DNS messages *)

(** How a name on the wire ends: with the root label or with a compression
    pointer. *)
Inductive name_end : Type :=
| Root
| Pointer (hi lo : byte).

Record name : Type := mk_name { labels : list (list byte); ending : name_end }.

Definition label_wire (l : list byte) : list byte := z2b (Z.of_nat (length l)) :: l.

Definition end_wire (e : name_end) : list byte :=
  match e with Root => [Byte.x00] | Pointer hi lo => [hi; lo] end.

Definition name_wire (n : name) : list byte := concat (label_wire <$> labels n) ++ end_wire (ending n).

Definition label_ok (l : list byte) : Prop := (1 <= length l <= MAX_LABEL_LEN)%nat.

Definition name_ok (n : name) : Prop :=
  Forall label_ok (labels n) /\
  match ending n with Root => True | Pointer hi _ => 192 <= b2z hi end.

Record question : Type := mk_question { q_name : name; q_tail : list byte }.

Definition question_wire (q : question) : list byte := name_wire (q_name q) ++ q_tail q.

Definition question_ok (q : question) : Prop := name_ok (q_name q) /\ length (q_tail q) = 4%nat.

Record answer : Type := mk_answer {
  a_name : name;
  a_type : Z;
  a_class_ttl : list byte;
  a_data : list byte;
}.

Definition answer_wire (a : answer) : list byte :=
  name_wire (a_name a) ++ be_bytes 2 (a_type a) ++ a_class_ttl a ++
  be_bytes 2 (Z.of_nat (length (a_data a))) ++ a_data a.

Definition answer_ok (a : answer) : Prop :=
  name_ok (a_name a) /\ u16 (a_type a) /\ length (a_class_ttl a) = 6%nat /\
  u16 (Z.of_nat (length (a_data a))).

Record message : Type := mk_message {
  m_id : Z;
  m_flags : Z;
  m_questions : list question;
  m_answers : list answer;
}.

Definition message_wire (m : message) (counts rest : list byte) : list byte :=
  be_bytes 2 (m_id m) ++ be_bytes 2 (m_flags m) ++
  be_bytes 2 (Z.of_nat (length (m_questions m))) ++ be_bytes 2 (Z.of_nat (length (m_answers m))) ++
  counts ++ concat (question_wire <$> m_questions m) ++ concat (answer_wire <$> m_answers m) ++ rest.

Definition message_ok (m : message) : Prop :=
  u16 (m_id m) /\ u16 (m_flags m) /\ u16 (Z.of_nat (length (m_questions m))) /\
  u16 (Z.of_nat (length (m_answers m))) /\
  Forall question_ok (m_questions m) /\ Forall answer_ok (m_answers m).

(** The first answer of type A with four bytes of data. *)
Fixpoint first_a (answers : list answer) : option IpAddr :=
  match answers with
  | [] => None
  | a :: answers =>
      if bool_decide (a_type a = 1) && bool_decide (length (a_data a) = 4%nat)
      then Some (V4 (a_data a)) else first_a answers
  end.

(** ** Lemmas: the parser on well-formed messages *)
Lemma label_byte b : b2z b < 64 -> (Z.land (b2z b) 192 =? 192) = false.
Proof. destruct b; vm_compute; intros; congruence. Qed.

Lemma pointer_byte b : 192 <= b2z b -> (Z.land (b2z b) 192 =? 192) = true /\ b <> Byte.x00.
Proof. destruct b; vm_compute; intros H; split; congruence. Qed.

Lemma label_len_byte l : label_ok l -> b2z (z2b (Z.of_nat (length l))) = Z.of_nat (length l).
Proof. unfold label_ok, MAX_LABEL_LEN. intros H. apply z2b_b2z_u8. unfold in_u. lia. Qed.

(** A position in the buffer is known by what follows it. *)
Lemma index_drop {E A} (l : list A) i x rest : drop i l = x :: rest -> index (E:=E) l i = Ok x.
Proof.
  intros H. apply index_Ok. rewrite <- (Nat.add_0_r i), <- lookup_drop, H. done.
Qed.

Lemma drop_more {A} (l a rest : list A) i j :
  drop i l = a ++ rest -> j = (i + length a)%nat -> drop j l = rest.
Proof. intros H ->. rewrite <- drop_drop, H. apply drop_app_length. Qed.

Lemma drop_bound {A} (l a rest : list A) i :
  drop i l = a ++ rest -> a <> [] -> (i + length a <= length l)%nat.
Proof.
  intros H Ha. assert (length (drop i l) = length (a ++ rest)) as Hl by by rewrite H.
  rewrite length_drop, length_app in Hl. destruct a; [done|]. cbn in *. lia.
Qed.

Lemma be_u16_drop buf x rest i :
  u16 x -> drop i buf = be_bytes 2 x ++ rest -> be_u16 buf i = Ok x.
Proof.
  intros Hx Hd. pose proof (be_bytes_length 2 x) as Hl. pose proof (be_val_be_bytes_id 2 x Hx) as Hv.
  destruct (be_bytes 2 x) as [|hi [|lo [|] ] ]; try done. unfold be_u16. cbn [app] in Hd.
  rewrite (index_drop _ _ _ _ Hd). cbn [mbind outcome_bind].
  rewrite (index_drop buf (i + 1) lo rest) by (by apply (drop_more buf [hi] _ i)).
  cbn. by rewrite Hv.
Qed.

Lemma skip_name_fuel_wire fuel buf pos ls e rest :
  Forall label_ok ls -> match e with Root => True | Pointer hi _ => 192 <= b2z hi end ->
  drop pos buf = concat (label_wire <$> ls) ++ end_wire e ++ rest -> (length ls < fuel)%nat ->
  skip_name_fuel fuel buf pos =
    Ok (pos + length (concat (label_wire <$> ls)) + length (end_wire e))%nat.
Proof.
  intros Hls He. revert fuel pos. induction Hls as [|l ls Hl Hls IH]; intros [|fuel] pos Hd Hf;
    try (cbn in Hf; lia); cbn [skip_name_fuel].
  - cbn [fmap list_fmap concat app] in Hd.
    assert (end_wire e <> []) as He0 by by destruct e.
    pose proof (drop_bound _ _ _ _ Hd He0) as Hb.
    rewrite decide_False by (destruct e; cbn in *; lia).
    destruct e as [|hi lo]; cbn [end_wire app length] in *; rewrite (index_drop _ _ _ _ Hd).
    + cbn. f_equal. lia.
    + cbn [mbind outcome_bind]. destruct (pointer_byte hi He) as [-> Hz].
      rewrite decide_False by done. rewrite decide_False by lia. f_equal. cbn. lia.
  - cbn [fmap list_fmap concat] in *. rewrite <- app_assoc in Hd.
    pose proof (drop_bound _ _ _ _ Hd) as Hb. cbn [length label_wire] in Hb.
    rewrite decide_False by (specialize (Hb ltac:(done)); lia).
    rewrite (index_drop _ _ _ _ Hd). cbn [mbind outcome_bind]. pose proof (label_len_byte l Hl) as Hlb.
    rewrite decide_False by (intros Hz; rewrite Hz in Hlb; unfold label_ok in Hl; cbn in Hlb; lia).
    rewrite label_byte by (unfold label_ok, MAX_LABEL_LEN in Hl; lia).
    rewrite Hlb, Nat2Z.id.
    rewrite (IH fuel); [|by apply (drop_more buf (label_wire l) _ pos)|cbn in Hf; lia].
    f_equal. cbn [length label_wire]. rewrite length_app. cbn. lia.
Qed.

Lemma concat_labels_length ls :
  Forall label_ok ls -> (length ls <= length (concat (label_wire <$> ls)))%nat.
Proof. induction 1 as [|l ls Hl Hls IH]; cbn; [lia|]. rewrite length_app. lia. Qed.

Lemma name_wire_not_nil n : name_wire n <> [].
Proof. unfold name_wire. by destruct n as [ [|l ls] [] ]. Qed.

Lemma skip_name_wire buf pos n rest :
  name_ok n -> drop pos buf = name_wire n ++ rest ->
  skip_name buf pos = Ok (pos + length (name_wire n))%nat.
Proof.
  intros [Hl He] Hd. pose proof (drop_bound _ _ _ _ Hd (name_wire_not_nil n)) as Hb.
  pose proof (concat_labels_length _ Hl). unfold skip_name, name_wire in *.
  rewrite length_app in *. rewrite <- app_assoc in Hd.
  rewrite (skip_name_fuel_wire _ _ _ (labels n) (ending n) rest) by (done || lia). f_equal. lia.
Qed.

Lemma skip_questions_wire qs buf pos rest :
  Forall question_ok qs -> drop pos buf = concat (question_wire <$> qs) ++ rest ->
  skip_questions (length qs) buf pos = Ok (pos + length (concat (question_wire <$> qs)))%nat.
Proof.
  intros Hqs. revert pos. induction Hqs as [|q qs [Hn Ht] Hqs IH]; intros pos Hd.
  { cbn. by rewrite Nat.add_0_r. }
  cbn [length skip_questions fmap list_fmap concat] in *. rewrite <- app_assoc in Hd.
  pose proof (drop_bound _ _ _ _ Hd) as Hb. unfold question_wire at 1 in Hd.
  rewrite <- app_assoc in Hd. rewrite (skip_name_wire _ _ _ _ Hn Hd). cbn [mbind outcome_bind].
  assert (length (question_wire q) = length (name_wire (q_name q)) + 4)%nat as Hq.
  { unfold question_wire. rewrite length_app. lia. }
  pose proof (name_wire_not_nil (q_name q)).
  rewrite decide_False.
  2:{ specialize (Hb ltac:(unfold question_wire; by destruct (name_wire (q_name q)))). lia. }
  rewrite IH.
  - rewrite length_app. f_equal. lia.
  - rewrite app_assoc in Hd. eapply drop_more; [exact Hd|]. rewrite length_app. lia.
Qed.

Lemma four_data {A} (l rest : list A) :
  length l = 4%nat -> exists a b c d, l = [a; b; c; d].
Proof. destruct l as [|a [|b [|c [|d [|] ] ] ] ]; try done. intros _. eauto. Qed.

Lemma find_a_wire answers buf pos rest :
  Forall answer_ok answers -> drop pos buf = concat (answer_wire <$> answers) ++ rest ->
  find_a (length answers) buf pos =
    match first_a answers with
    | Some ip => Ok ip
    | None => bad (lit "DNS response had no A record")
    end.
Proof.
  intros Has. revert pos. induction Has as [|a answers (Hn & Hty & Hct & Hlen) Has IH]; intros pos Hd;
    [done|].
  cbn [length find_a fmap list_fmap concat first_a] in *.
  rewrite <- app_assoc in Hd. pose proof Hd as Hwhole. unfold answer_wire at 1 in Hd.
  rewrite <- !app_assoc in Hd. set (after := concat _ ++ rest) in *.
  assert (length (answer_wire a) = length (name_wire (a_name a)) + 10 + length (a_data a))%nat as Hwl.
  { unfold answer_wire. rewrite !length_app, !be_bytes_length. lia. }
  pose proof (drop_bound _ _ _ _ Hwhole) as Hb.
  specialize (Hb ltac:(intros Hnil; rewrite Hnil in Hwl; cbn in Hwl; lia)).
  rewrite (skip_name_wire _ _ _ _ Hn Hd). cbn [mbind outcome_bind].
  eapply drop_more in Hd; [|reflexivity]. set (p := (pos + length (name_wire (a_name a)))%nat) in *.
  rewrite decide_False by (subst p; lia). rewrite (be_u16_drop _ _ _ _ Hty Hd).
  cbn [mbind outcome_bind].
  assert (drop (p + 8) buf = be_bytes 2 (Z.of_nat (length (a_data a))) ++ a_data a ++ after) as Hd8.
  { rewrite app_assoc in Hd. eapply drop_more; [exact Hd|].
    rewrite length_app, be_bytes_length, Hct. subst p. lia. }
  rewrite (be_u16_drop _ _ _ _ Hlen Hd8). cbn [mbind outcome_bind]. rewrite Nat2Z.id.
  assert (drop (p + 10) buf = a_data a ++ after) as Hdata.
  { eapply drop_more; [exact Hd8|]. rewrite be_bytes_length. lia. }
  rewrite decide_False by (subst p; lia).
  rewrite (bool_decide_ext (Z.of_nat (length (a_data a)) = 4) (length (a_data a) = 4%nat)) by lia.
  destruct (bool_decide (a_type a = 1) && bool_decide (length (a_data a) = 4%nat)) eqn:Ha.
  - apply andb_prop in Ha as [_ H4%bool_decide_eq_true].
    destruct (four_data _ rest H4) as (b0 & b1 & b2 & b3 & Heq). rewrite Heq in *. cbn [app] in Hdata.
    rewrite (index_drop _ _ _ _ Hdata). cbn [mbind outcome_bind].
    rewrite (index_drop buf (p + 10 + 1) b1 (b2 :: b3 :: after)) by (by eapply (drop_more _ [b0])).
    cbn [mbind outcome_bind].
    rewrite (index_drop buf (p + 10 + 2) b2 (b3 :: after)) by (by eapply (drop_more _ [b0; b1])).
    cbn [mbind outcome_bind].
    rewrite (index_drop buf (p + 10 + 3) b3 after) by (by eapply (drop_more _ [b0; b1; b2])). done.
  - rewrite IH; [done|]. by eapply drop_more; [exact Hdata|].
Qed.

(** ** Lemmas: the parser on arbitrary bytes *)
Lemma skip_name_fuel_total fuel buf pos :
  (length buf - pos < fuel)%nat ->
  returns (skip_name_fuel fuel buf pos) /\
  forall r, skip_name_fuel fuel buf pos = Ok r -> (pos < r <= length buf)%nat.
Proof.
  revert pos. induction fuel as [|fuel IH]; intros pos Hf; [lia|]. cbn [skip_name_fuel].
  case_decide as Hp; [done|].
  destruct (index_lt (E:=ProxyPenError) buf pos) as (b & _ & ->); [lia|].
  cbn [mbind outcome_bind]. case_decide; [split; [done|]; intros r [= <-]; lia|].
  case_bool; [case_decide; (split; [done|]); [done|]; intros r [= <-]; lia|].
  destruct (IH (pos + (1 + Z.to_nat (b2z b)))%nat) as [Hr Hb]; [lia|]. split; [done|].
  intros r Hr'. apply Hb in Hr'. lia.
Qed.

Lemma skip_name_total buf pos :
  returns (skip_name buf pos) /\
  forall r, skip_name buf pos = Ok r -> (pos < r <= length buf)%nat.
Proof. apply skip_name_fuel_total. lia. Qed.

Lemma be_u16_returns buf i :
  (i + 2 <= length buf)%nat -> exists x, be_u16 buf i = Ok x /\ u16 x.
Proof.
  intros Hi. unfold be_u16.
  destruct (index_lt (E:=ProxyPenError) buf i) as (hi & _ & ->); [lia|].
  destruct (index_lt (E:=ProxyPenError) buf (i + 1)) as (lo & _ & ->); [lia|]. cbn.
  eexists. split; [done|]. apply (port_bytes_inv hi lo).
Qed.

Lemma skip_questions_total n buf pos :
  returns (skip_questions n buf pos).
Proof.
  revert pos. induction n as [|n IH]; intros pos; [done|]. cbn [skip_questions].
  apply returns_bind; [apply skip_name_total|]. intros r _. case_decide; [done|]. apply IH.
Qed.

(** An address it returns is four consecutive bytes of the response. *)
Lemma find_a_total n buf pos :
  returns (find_a n buf pos) /\
  forall ip, find_a n buf pos = Ok ip ->
    exists before data after, ip = V4 data /\ length data = 4%nat /\ buf = before ++ data ++ after.
Proof.
  revert pos. induction n as [|n IH]; intros pos; [done|]. cbn [find_a].
  destruct (skip_name_total buf pos) as [Hr _].
  destruct (skip_name buf pos) as [r| | |]; try done. cbn [mbind outcome_bind].
  case_decide; [done|].
  destruct (be_u16_returns buf r) as (ty & -> & _); [lia|].
  destruct (be_u16_returns buf (r + 8)) as (len & -> & Hlen); [lia|]. cbn [mbind outcome_bind].
  case_decide; [done|]. case_bool; [|apply IH].
  match goal with H : _ && _ = true |- _ => apply andb_prop in H as [_ H4%bool_decide_eq_true] end.
  rewrite H4 in *. change (Z.to_nat 4) with 4%nat in *.
  destruct (index_lt (E:=ProxyPenError) buf (r + 10)) as (a & Ha & ->); [lia|].
  destruct (index_lt (E:=ProxyPenError) buf (r + 10 + 1)) as (b & Hb & ->); [lia|].
  destruct (index_lt (E:=ProxyPenError) buf (r + 10 + 2)) as (c & Hc & ->); [lia|].
  destruct (index_lt (E:=ProxyPenError) buf (r + 10 + 3)) as (d & Hd & ->); [lia|].
  cbn [mbind outcome_bind]. split; [done|]. intros ip [= <-].
  exists (take (r + 10) buf), [a; b; c; d], (drop (r + 14) buf). split; [done|]. split; [done|].
  rewrite <- (take_drop (r + 10) buf) at 1. f_equal. cbn [app].
  rewrite (drop_S _ _ _ Ha). f_equal. replace (S (r + 10)) with (r + 10 + 1)%nat by lia.
  rewrite (drop_S _ _ _ Hb). f_equal. replace (S (r + 10 + 1)) with (r + 10 + 2)%nat by lia.
  rewrite (drop_S _ _ _ Hc). f_equal. replace (S (r + 10 + 2)) with (r + 10 + 3)%nat by lia.
  rewrite (drop_S _ _ _ Hd). do 2 f_equal. lia.
Qed.

Lemma decode_total id buf :
  returns (decode_a_response id buf) /\
  forall ip, decode_a_response id buf = Ok ip ->
    exists before data after, ip = V4 data /\ length data = 4%nat /\ buf = before ++ data ++ after.
Proof.
  unfold decode_a_response. case_decide; [done|].
  destruct (be_u16_returns buf 0) as (x0 & -> & _); [lia|]. cbn [mbind outcome_bind].
  case_decide; [done|].
  destruct (be_u16_returns buf 2) as (x2 & -> & _); [lia|]. cbn [mbind outcome_bind].
  case_decide; [done|].
  destruct (be_u16_returns buf 4) as (x4 & -> & _); [lia|].
  destruct (be_u16_returns buf 6) as (x6 & -> & _); [lia|]. cbn [mbind outcome_bind].
  case_decide; [done|].
  pose proof (skip_questions_total (Z.to_nat x4) buf 12) as Hq.
  destruct (skip_questions (Z.to_nat x4) buf 12) as [pos| | |]; try done. apply find_a_total.
Qed.

(** ** Lemmas: the query *)
Definition name_of (hostname : str) : name :=
  mk_name (filter (fun l => l <> []) (split_on Byte.x2e hostname)) Root.

Lemma encode_labels_wire ls buf out :
  encode_labels ls buf = Ok out ->
  Forall label_ok (filter (fun l => l <> []) ls) /\
  out = buf ++ concat (label_wire <$> filter (fun l => l <> []) ls).
Proof.
  revert buf. induction ls as [|l ls IH]; intros buf; cbn [encode_labels].
  - intros [= <-]. by rewrite app_nil_r.
  - case_decide as Hl.
    + rewrite filter_cons_False by tauto. apply IH.
    + case_decide as Hm; [done|]. rewrite filter_cons_True by done.
      intros [Hok ->]%IH. split.
      * constructor; [|done]. unfold label_ok. destruct l; [done|]. cbn [length] in *. lia.
      * cbn [fmap list_fmap concat]. unfold label_wire at 2. by rewrite <- !app_assoc.
Qed.

Lemma encode_query_wire id hostname q :
  encode_query id hostname = Ok q ->
  name_ok (name_of hostname) /\
  q = query_header id ++ name_wire (name_of hostname) ++ be_bytes 2 1 ++ be_bytes 2 1.
Proof.
  unfold encode_query. intros Hq. inv_bind Hq. apply encode_labels_wire in Ha as [Hok ->].
  simplify_eq. split; [by split|]. unfold name_wire. cbn [ending name_of end_wire labels].
  by rewrite <- !app_assoc.
Qed.

(** Skipping the header of a message. *)
Lemma message_fields m counts rest :
  let buf := message_wire m counts rest in
  length counts = 4%nat -> message_ok m ->
  (12 <= length buf)%nat /\ be_u16 buf 0 = Ok (m_id m) /\ be_u16 buf 2 = Ok (m_flags m) /\
  be_u16 buf 4 = Ok (Z.of_nat (length (m_questions m))) /\
  be_u16 buf 6 = Ok (Z.of_nat (length (m_answers m))) /\
  drop 12 buf = concat (question_wire <$> m_questions m) ++
    concat (answer_wire <$> m_answers m) ++ rest.
Proof.
  intros buf Hc (Hid & Hfl & Hq & Ha & _). unfold buf, message_wire.
  assert (forall (b : list byte) r, length b = 2%nat -> drop 2 (b ++ r) = r) as H2.
  { intros b r <-. apply drop_app_length. }
  set (w4 := be_bytes 2 (Z.of_nat (length (m_questions m))) ++ _).
  set (w6 := be_bytes 2 (Z.of_nat (length (m_answers m))) ++ _) in w4.
  set (all := be_bytes 2 (m_id m) ++ _).
  assert (drop 2 all = be_bytes 2 (m_flags m) ++ w4) as D2 by apply H2, be_bytes_length.
  assert (drop 4 all = w4) as D4.
  { change 4%nat with (2 + 2)%nat. rewrite <- drop_drop, D2. apply H2, be_bytes_length. }
  assert (drop 6 all = w6) as D6.
  { change 6%nat with (4 + 2)%nat. rewrite <- drop_drop, D4. apply H2, be_bytes_length. }
  assert (drop 12 all = concat (question_wire <$> m_questions m) ++
    concat (answer_wire <$> m_answers m) ++ rest) as D12.
  { change 12%nat with (6 + (2 + 4))%nat. rewrite <- drop_drop, D6, <- drop_drop.
    unfold w6. rewrite H2 by apply be_bytes_length. rewrite <- Hc. apply drop_app_length. }
  split.
  { unfold all, w4, w6. rewrite !length_app, !be_bytes_length. lia. }
  split; [by eapply be_u16_drop|]. split; [by eapply be_u16_drop|].
  split; [by eapply be_u16_drop|]. split; [by eapply be_u16_drop|]. done.
Qed.

Lemma decode_message m counts rest :
  length counts = 4%nat -> message_ok m ->
  Z.land (m_flags m) 15 = 0 -> m_answers m <> [] ->
  decode_a_response (m_id m) (message_wire m counts rest) =
    match first_a (m_answers m) with
    | Some ip => Ok ip
    | None => bad (lit "DNS response had no A record")
    end.
Proof.
  intros Hc Hm Hf Hne. destruct (message_fields m counts rest Hc Hm) as (Hl & E0 & E2 & E4 & E6 & D12).
  unfold decode_a_response. rewrite decide_False by lia. rewrite E0. cbn [mbind outcome_bind].
  rewrite decide_False by tauto. rewrite E2. cbn [mbind outcome_bind]. rewrite Hf.
  rewrite decide_False by tauto. rewrite E4, E6. cbn [mbind outcome_bind].
  rewrite decide_False by (destruct (m_answers m); [done|cbn; lia]). rewrite !Nat2Z.id.
  destruct Hm as (_ & _ & _ & _ & Hq & Ha).
  rewrite (skip_questions_wire _ _ _ _ Hq D12). cbn [mbind outcome_bind].
  eapply find_a_wire; [done|]. by eapply drop_more; [exact D12|].
Qed.

(** Each part of the hostname takes its length and one byte. *)
Lemma split_labels_length s :
  (length (concat (label_wire <$> filter (fun l => l <> []) (split_on Byte.x2e s))) <= length s + 1)%nat.
Proof.
  assert (forall ls : list str, length (concat (label_wire <$> filter (fun l => l <> []) ls)) <=
    sum_list (S <$> (length <$> ls)))%nat as Hle.
  { induction ls as [|l ls IH]; [done|]. destruct (decide (l <> [])) as [Hl|Hl].
    - rewrite filter_cons_True by done. cbn. rewrite length_app. lia.
    - rewrite filter_cons_False by done. cbn. lia. }
  etransitivity; [apply Hle|]. clear Hle.
  induction s as [|b s IH]; [done|]. cbn [split_on]. case_decide; [cbn in *; lia|].
  destruct (split_on Byte.x2e s) as [|p ps] eqn:E; [by apply split_on_not_nil in E|]. cbn in *. lia.
Qed.

Lemma encode_query_length id hostname q :
  encode_query id hostname = Ok q -> (length q <= length hostname + 18)%nat.
Proof.
  intros [_ ->]%encode_query_wire. pose proof (split_labels_length hostname) as Hl.
  unfold name_wire, query_header. cbn [labels ending name_of end_wire] in *.
  rewrite !length_app, !be_bytes_length. cbn [length] in *. lia.
Qed.

Lemma recv_bounds `{OsLaws} u buf n buf' u' :
  recv u buf = Ok (n, buf', u') -> (n <= length buf')%nat.
Proof.
  destruct u as [s|s target control]; cbn; intros Hr; apply bind_Ok in Hr as ([d s'] & Hd & Hr).
  - unfold copy_range in Hr. case_decide; [|done]. cbn in Hr. simplify_eq.
    rewrite !length_app. lia.
  - apply bind_Ok in Hr as ([a hl] & _ & Hr). apply bind_Ok in Hr as (payload & _ & Hr).
    apply bind_Ok in Hr as (src & [Hs _]%slice_inv & Hr).
    apply bind_Ok in Hr as (b & Hb & Hr). simplify_eq. unfold copy_range in Hb.
    case_decide as Hc; [|done]. simplify_eq. rewrite !length_app. lia.
Qed.

Lemma encode_query_returns id hostname : returns (encode_query id hostname).
Proof.
  unfold encode_query. apply returns_bind; [|done]. generalize (query_header id) as buf.
  generalize (split_on Byte.x2e hostname) as ls. induction ls as [|l ls IH]; intros buf; [done|].
  cbn [encode_labels]. repeat case_decide; done || apply IH.
Qed.

Lemma decode_other_id id other rest :
  u16 other -> other <> id -> exists e, decode_a_response id (be_bytes 2 other ++ rest) = Err e.
Proof.
  intros Ho Hne. unfold decode_a_response. case_decide; [unfold bad; eauto|].
  rewrite (be_u16_drop _ other rest 0 Ho) by done. cbn [mbind outcome_bind].
  rewrite decide_True by done. unfold bad. eauto.
Qed.

(** ** Lemmas: the resolution *)

(** From the sent query on. *)
Lemma resolve_a_reply `{OsLaws} `{SocksLib} (p : platform) clock transport dns hostname s q s' r :
  (length hostname <= MAX_NAME_LEN)%nat ->
  open_udp p transport (dns_server dns) = Ok s ->
  encode_query (random_id clock) hostname = Ok q -> send s q = Ok s' ->
  recv s' (replicate (Z.to_nat 1500) Byte.x00) = r ->
  resolve_a p clock transport dns hostname =
    match r with
    | Ok (n, buf, _) => decode_a_response (random_id clock) (take n buf)
    | Err e => Err (Io e)
    | Panic => Panic
    | Hang => bad (lit "DNS query to " ++ show_addr (dns_server dns) ++ lit " timed out")
    end.
Proof.
  intros Hl Ho Hq Hs Hr. unfold resolve_a. rewrite decide_False by lia. rewrite Ho.
  cbn [mbind outcome_bind]. rewrite Hq. cbn [mbind outcome_bind]. rewrite Hs.
  cbn [mbind outcome_bind from_io map_err]. rewrite Hr.
  destruct r as [ [ [n buf] u]| | |]; try done.
  cbn [timeout from_io map_err mbind outcome_bind]. apply recv_bounds in Hr.
  rewrite slice_Ok by lia. cbn [mbind outcome_bind]. by rewrite drop_0, Nat.sub_0_r.
Qed.

Lemma resolve_a_hangs `{OsLaws} `{SocksLib} (p : platform) clock transport dns hostname :
  resolve_a p clock transport dns hostname = Hang ->
  (length hostname <= MAX_NAME_LEN)%nat /\
  (open_udp p transport (dns_server dns) = Hang \/
   exists s q, open_udp p transport (dns_server dns) = Ok s /\
     encode_query (random_id clock) hostname = Ok q /\ send s q = Hang).
Proof.
  intros Hh. destruct (decide (length hostname <= MAX_NAME_LEN)%nat) as [Hl|Hl].
  2: { unfold resolve_a in Hh. by rewrite decide_True in Hh by lia. }
  split; [done|]. destruct (open_udp p transport (dns_server dns)) as [s| | |] eqn:Ho;
    try (unfold resolve_a in Hh; rewrite decide_False, Ho in Hh by lia; by (discriminate || left)).
  right. pose proof (encode_query_returns (random_id clock) hostname) as Hret.
  destruct (encode_query (random_id clock) hostname) as [q| | |] eqn:Hq; try done;
    [|unfold resolve_a in Hh; by rewrite decide_False, Ho in Hh by lia; cbn in Hh; rewrite Hq in Hh].
  exists s, q. split; [done|]. split; [done|].
  destruct (send s q) as [s'| | |] eqn:Hs; [|unfold resolve_a in Hh; rewrite decide_False, Ho in Hh by lia;
    cbn [mbind outcome_bind] in Hh; rewrite Hq in Hh; cbn [mbind outcome_bind] in Hh; by rewrite Hs in Hh..|done].
  rewrite (resolve_a_reply p clock transport dns hostname s q s' _ Hl Ho Hq Hs eq_refl) in Hh.
  destruct (recv s' _) as [ [ [n buf] u]| | |]; try done.
  destruct (decode_total (random_id clock) (take n buf)) as [Hd _]. by rewrite Hh in Hd.
Qed.

(** ** Properties *)

(** C19: against every well-formed message with the expected id, no error code
    and at least one answer, whatever its names look like (labels, then the
    root or a compression pointer), whatever records come before and
    whatever follows, the parser returns the first A record of four bytes,
    or reports that there is none. *)
Theorem dns_decode_spec (m : message) (counts rest : list byte) :
  length counts = 4%nat -> message_ok m ->
  Z.land (m_flags m) 15 = 0 -> m_answers m <> [] ->
  decode_a_response (m_id m) (message_wire m counts rest) =
    match first_a (m_answers m) with
    | Some ip => Ok ip
    | None => bad (lit "DNS response had no A record")
    end.
Proof. apply decode_message. Qed.

(** A CNAME before the address, both named by a pointer. *)
Definition demo_message : message :=
  mk_message 4660 33152
    [mk_question (name_of (lit "www.example.com")) (be_bytes 2 1 ++ be_bytes 2 1)]
    [mk_answer (mk_name [] (Pointer Byte.xc0 Byte.x0c)) 5 (replicate 6 Byte.x00)
       (name_wire (mk_name [lit "alias"] (Pointer Byte.xc0 Byte.x10)));
     mk_answer (mk_name [lit "alias"] (Pointer Byte.xc0 Byte.x10)) 1 (replicate 6 Byte.x00)
       [Byte.x5d; Byte.xb8; Byte.xd8; Byte.x22] ].

Example dns_decode_spec_witness :
  decode_a_response 4660 (message_wire demo_message (replicate 4 Byte.x00) (lit "opt")) =
    Ok (V4 [Byte.x5d; Byte.xb8; Byte.xd8; Byte.x22]).
Proof.
  apply (dns_decode_spec demo_message (replicate 4 Byte.x00) (lit "opt")).
  - reflexivity.
  - refine (conj _ (conj _ (conj _ (conj _ (conj _ _))))); [solve_closed..| |].
    + apply Forall_cons_2; [|by apply Forall_nil]. split; [|done]. split; [|done].
      repeat (apply Forall_cons_2; [split; apply Nat.leb_le; reflexivity|]). by apply Forall_nil.
    + repeat apply Forall_cons_2; [..|by apply Forall_nil];
        (split; [|split; [solve_closed|split; [done|solve_closed] ] ]); split; cbn; try discriminate.
      * by apply Forall_nil.
      * apply Forall_cons_2; [split; apply Nat.leb_le; reflexivity|by apply Forall_nil].
  - reflexivity.
  - discriminate.
Defined.

(** C20: whatever bytes arrive, the parser ends, without a panic and without
    following a pointer; an address it returns is four consecutive bytes of
    the response. *)
Theorem dns_decode_total (id : Z) (buf : list byte) :
  returns (decode_a_response id buf) /\
  forall ip, decode_a_response id buf = Ok ip ->
    exists before data after, ip = V4 data /\ length data = 4%nat /\ buf = before ++ data ++ after.
Proof. apply decode_total. Qed.

Example dns_decode_total_witness :
  exists before data after,
    V4 [Byte.x5d; Byte.xb8; Byte.xd8; Byte.x22] = V4 data /\ length data = 4%nat /\
    message_wire demo_message (replicate 4 Byte.x00) [] = before ++ data ++ after.
Proof.
  apply (proj2 (dns_decode_total 4660 (message_wire demo_message (replicate 4 Byte.x00) []))).
  vm_compute. reflexivity.
Defined.

(** C36: a query that is encoded is the header and one A question for the
    hostname's labels, in at most 18 bytes more than the hostname; a server
    that repeats the question and adds answers to it is understood: the
    client gets the first A record. *)
Theorem dns_query_answered (id : Z) (hostname : str) (q : list byte) :
  u16 id -> encode_query id hostname = Ok q ->
  let question := mk_question (name_of hostname) (be_bytes 2 1 ++ be_bytes 2 1) in
  q = query_header id ++ question_wire question /\
  (length q <= length hostname + 18)%nat /\
  forall flags answers counts rest ip,
    u16 flags -> Z.land flags 15 = 0 -> Forall answer_ok answers ->
    u16 (Z.of_nat (length answers)) -> length counts = 4%nat -> first_a answers = Some ip ->
    decode_a_response id
      (message_wire (mk_message id flags [question] answers) counts rest) = Ok ip.
Proof.
  intros Hid Hq question. destruct (encode_query_wire _ _ _ Hq) as [Hn Hw].
  split; [exact Hw|]. split; [by eapply encode_query_length|].
  intros flags answers counts rest ip Hf Hr Ha Hl Hc Hip.
  pose proof (decode_message (mk_message id flags [question] answers) counts rest) as Hd.
  cbn [m_id m_flags m_answers] in Hd. rewrite Hip in Hd. apply Hd; [done| |done|by destruct answers].
  refine (conj Hid (conj Hf (conj _ (conj Hl (conj _ Ha))))); [unfold in_u; cbn; lia|].
  apply Forall_cons_2; [by split|by apply Forall_nil].
Qed.

Example dns_query_answered_witness :
  exists q, encode_query 7 (lit "example.com.") = Ok q /\ (length q <= 30)%nat.
Proof.
  eexists. split; [vm_compute; reflexivity|].
  match goal with |- (length ?q <= _)%nat =>
    destruct (dns_query_answered 7 (lit "example.com.") q) as (_ & Hl & _) end.
  - solve_closed.
  - vm_compute. reflexivity.
  - exact Hl.
Defined.

(** C37: how a resolution ends.  Only the wait for the reply is timed: it
    hangs exactly when opening the socket (through a proxy, the untimed
    handshake of the association) or sending the query does.  When no reply
    comes to the query it is the timeout error.  The first datagram that comes
    decides: a well-formed response with the query's id, no error code and an
    A record gives its first one; one with another id is refused; and whatever
    else it holds the resolution is an error or an address whose four bytes
    it received. *)
Theorem resolve_a_outcome `{OsLaws} `{SocksLib} (p : platform) clock transport dns hostname :
  let id := random_id clock in
  let buf := replicate (Z.to_nat 1500) Byte.x00 in
  let result := resolve_a p clock transport dns hostname in
  (result = Hang <->
     (length hostname <= MAX_NAME_LEN)%nat /\
     (open_udp p transport (dns_server dns) = Hang \/
      exists s q, open_udp p transport (dns_server dns) = Ok s /\ encode_query id hostname = Ok q /\
        send s q = Hang)) /\
  forall s q s', (length hostname <= MAX_NAME_LEN)%nat ->
    open_udp p transport (dns_server dns) = Ok s -> encode_query id hostname = Ok q -> send s q = Ok s' ->
    (recv s' buf = Hang ->
       result = bad (lit "DNS query to " ++ show_addr (dns_server dns) ++ lit " timed out")) /\
    forall n buf' s'', recv s' buf = Ok (n, buf', s'') ->
      (forall m counts rest ip, take n buf' = message_wire m counts rest -> length counts = 4%nat ->
         message_ok m -> m_id m = id -> Z.land (m_flags m) 15 = 0 -> first_a (m_answers m) = Some ip ->
         result = Ok ip) /\
      (forall other rest, take n buf' = be_bytes 2 other ++ rest -> u16 other -> other <> id ->
         exists e, result = Err e) /\
      ((exists e, result = Err e) \/
       exists before data after, result = Ok (V4 data) /\ length data = 4%nat /\
         take n buf' = before ++ data ++ after).
Proof.
  intros id buf result. split.
  - split.
    + intros Hh. unfold result in Hh. apply resolve_a_hangs in Hh as [Hl Hh]. done.
    + unfold result, resolve_a. intros [Hl [Ho|(s & q & Ho & Hq & Hs)] ]; rewrite decide_False by lia;
        rewrite Ho; [done|]. cbn [mbind outcome_bind]. fold id. rewrite Hq. cbn [mbind outcome_bind].
      by rewrite Hs.
  - intros s q s' Hl Ho Hq Hs.
    assert (forall r, recv s' buf = r -> result = _) as Hres by
      (intros r Hr; exact (resolve_a_reply p clock transport dns hostname s q s' r Hl Ho Hq Hs Hr)).
    split; [by intros ->%Hres|]. intros n buf' s'' Hr. rewrite (Hres _ Hr). cbn. fold id.
    split; [|split].
    + intros m counts rest ip -> Hc Hok <- Hfl Hip. rewrite decode_message by
        (done || by intros Hnil; rewrite Hnil in Hip). by rewrite Hip.
    + intros other rest -> Ho' Hne. by apply decode_other_id.
    + destruct (decode_total id (take n buf')) as [Hret Hip].
      destruct (decode_a_response id (take n buf')) as [ip|e| |]; try done; [right|by left; eauto].
      destruct (Hip ip eq_refl) as (before & data & after & -> & ? & ?). by exists before, data, after.
Qed.

Definition silent_host : host := mk_host [] [] (fun _ => []) [].

Definition demo_dns : DnsConfig :=
  mk_dns_config (mk_addr (V4 [Byte.x0a; Byte.x00; Byte.x00; Byte.x01]) 53).

Definition demo_query : list byte :=
  match encode_query 0 (lit "a.b") with Ok q => q | _ => [] end.

(** A host whose UDP sockets all receive the datagrams of [answers]. *)
Definition dns_socket (answers : list (list byte)) (sent : list (list byte)) :=
  mk_host_udp answers sent (mk_endpoint (Some (wildcard_addr false)) None (Some (dns_server demo_dns))).

Definition demo_answer : message :=
  mk_message 0 33152 [mk_question (name_of (lit "a.b")) (be_bytes 2 1 ++ be_bytes 2 1)]
    [mk_answer (mk_name [] (Pointer Byte.xc0 Byte.x0c)) 1 (replicate 6 Byte.x00)
       [Byte.x5d; Byte.xb8; Byte.xd8; Byte.x22] ].

Definition dns_host : host :=
  mk_host [] [message_wire demo_answer (replicate 4 Byte.x00) []] (fun _ => []) [].

Example resolve_a_outcome_witness :
  @resolve_a (host_os silent_host) rfc_socks Linux None (Direct (mk_direct_config None)) demo_dns
    (lit "a.b") = bad (lit "DNS query to 10.0.0.1:53 timed out") /\
  @resolve_a (host_os dns_host) rfc_socks Linux None (Direct (mk_direct_config None)) demo_dns
    (lit "a.b") = Ok (V4 [Byte.x5d; Byte.xb8; Byte.xd8; Byte.x22]).
Proof.
  split.
  - destruct (@resolve_a_outcome (host_os silent_host) (host_os_laws silent_host) rfc_socks Linux None
      (Direct (mk_direct_config None)) demo_dns (lit "a.b")) as [_ Hr].
    destruct (Hr (UdpDirect (H:=host_os silent_host) (dns_socket [] [])) demo_query
      (UdpDirect (H:=host_os silent_host) (dns_socket [] [demo_query]))) as [Ht _];
      [apply Nat.leb_le; reflexivity|vm_compute; reflexivity..|].
    rewrite Ht; [|vm_compute; reflexivity]. vm_compute. reflexivity.
  - destruct (@resolve_a_outcome (host_os dns_host) (host_os_laws dns_host) rfc_socks Linux None
      (Direct (mk_direct_config None)) demo_dns (lit "a.b")) as [_ Hr].
    destruct (Hr (UdpDirect (H:=host_os dns_host) (dns_socket (datagrams dns_host) [])) demo_query
      (UdpDirect (H:=host_os dns_host) (dns_socket (datagrams dns_host) [demo_query]))) as [_ Hd];
      [apply Nat.leb_le; reflexivity|vm_compute; reflexivity..|].
    edestruct Hd as [Hm _]; [vm_compute; reflexivity|].
    apply (Hm demo_answer (replicate 4 Byte.x00) []); try (vm_compute; reflexivity).
    refine (conj _ (conj _ (conj _ (conj _ (conj _ _))))); [solve_closed..| |].
    + apply Forall_cons_2; [|by apply Forall_nil]. split; [|done]. split; [|done].
      repeat (apply Forall_cons_2; [split; apply Nat.leb_le; reflexivity|]). by apply Forall_nil.
    + apply Forall_cons_2; [|by apply Forall_nil].
      split; [|split; [solve_closed|split; [done|solve_closed] ] ]. split; cbn; try discriminate.
      by apply Forall_nil.
Defined.
