(* ===== verification/BenchServer.v ===== *)
(** * Bench server (src/bench/server.rs)

    A session on the control connection.  What the operating system answers
    and what happens on the data connections of a test is its environment. *)
From S2P Require Import Prelude AsyncIo Text Net Float64 Protocol Stats Pacer UdpPlane TcpPlane.

(** The environment of one test, in the order the handlers meet it. *)
Record server_env : Type := mk_server_env {
  se_local_addr : io SocketAddr;      (* control.local_addr() *)
  se_bind : SocketAddr -> io SocketAddr; (* bind a listener or socket; its local_addr() *)
  se_accept : io unit;                (* listener.accept() *)
  se_nodelay : io unit;               (* stream.set_nodelay(true) *)
  se_start : Z;                       (* the first reading of a TCP test *)
  se_end : Z;                         (* the last reading *)
  se_writes : list (Z * io Z);        (* TCP download: readings and writes *)
  se_reads : list (turn (io Z));      (* TCP upload: reads and the timer *)
  se_hello : arrival;                 (* UDP: the first datagram *)
  se_first : Z;                       (* UDP upload: the reading it is stamped with *)
  se_script : list (turn arrival);    (* UDP upload: the other datagrams and the timer *)
  se_readings : list Z;               (* UDP download: readings *)
  se_net : list byte -> io Z;         (* UDP download: sends *)
}.

Definition local_bind_ip (env : server_env) : io IpAddr := addr_ip <$> se_local_addr env.

(** [open_data_listener], [bind_udp_data] and the port they got. *)
Definition open_data_listener (env : server_env) (bind_ip : IpAddr) : io SocketAddr :=
  se_bind env (mk_addr bind_ip 0).

Definition bind_udp_data (env : server_env) (bind_ip : IpAddr) : io SocketAddr :=
  se_bind env (mk_addr bind_ip 0).

Definition accept_one (env : server_env) : io unit :=
  _ ← se_accept env; se_nodelay env.

Section server.
Context {S : Type} `{AsyncRead S} `{AsyncWrite S} (p : profile).

Definition run_tcp_up (env : server_env) (req : TestRequest.t) (control : S) : io S :=
  bind_ip ← local_bind_ip env;
  local ← open_data_listener env bind_ip;
  control ← TestResponse.write (TestResponse.ok (addr_port local)) control;
  _ ← accept_one env;
  bytes ← tcp_recv_loop p (server_deadline req (se_start env)) 0 (se_reads env);
  let report := tcp_report bytes (elapsed_u64 (se_start env) (se_end env)) in
  control ← TestReport.write report control;
  '(_, control) ← TestReport.read control;
  Ok control.

Definition run_tcp_down (env : server_env) (req : TestRequest.t) (control : S) : io S :=
  bind_ip ← local_bind_ip env;
  local ← open_data_listener env bind_ip;
  control ← TestResponse.write (TestResponse.ok (addr_port local)) control;
  _ ← accept_one env;
  let deadline := se_start env + TestRequest.duration_ms req * 1000000 in
  bytes ← tcp_send_loop p deadline 0 (se_writes env);
  let report := tcp_report bytes (elapsed_u64 (se_start env) (se_end env)) in
  control ← TestReport.write report control;
  '(_, control) ← TestReport.read control;
  Ok control.

Definition run_udp_up (env : server_env) (req : TestRequest.t) (control : S) : io S :=
  bind_ip ← local_bind_ip env;
  local ← bind_udp_data env bind_ip;
  control ← TestResponse.write (TestResponse.ok (addr_port local)) control;
  report ← server_run_udp_up p req (se_hello env) (se_start env) (se_first env) (se_end env)
             (se_script env);
  control ← TestReport.write report control;
  '(_, control) ← TestReport.read control;
  Ok control.

Definition run_udp_down (env : server_env) (req : TestRequest.t) (control : S) : io S :=
  bind_ip ← local_bind_ip env;
  local ← bind_udp_data env bind_ip;
  control ← TestResponse.write (TestResponse.ok (addr_port local)) control;
  _ ← se_hello env;
  '(report, _) ← server_run_udp_down p (se_net env) req (se_readings env);
  control ← TestReport.write report control;
  '(_, control) ← TestReport.read control;
  Ok control.

(** The handler of a test kind, if there is one. *)
Definition handler (kind : Z) : option (server_env -> TestRequest.t -> S -> io S) :=
  if decide (kind = KIND_TCP_UP) then Some run_tcp_up
  else if decide (kind = KIND_TCP_DOWN) then Some run_tcp_down
  else if decide (kind = KIND_UDP_UP) then Some run_udp_up
  else if decide (kind = KIND_UDP_DOWN) then Some run_udp_down
  else None.

(** The loop of [handle_session], one environment per test; where they run
    out the next test waits forever. *)
Fixpoint session_loop (envs : list server_env) (control : S) : io S :=
  '(req, control) ← TestRequest.read control;
  if decide (TestRequest.kind req = KIND_CLOSE) then Ok control
  else
    match handler (TestRequest.kind req) with
    | Some run =>
        match envs with
        | env :: envs =>
            control ← run env req control;
            session_loop envs control
        | [] => Hang
        end
    | None =>
        TestResponse.write
          (TestResponse.err (lit "unknown test kind " ++ show_u (TestRequest.kind req))) control
    end.

Definition handle_session (nodelay : io unit) (envs : list server_env) (control : S) : io S :=
  _ ← nodelay;
  '(_, control) ← read_handshake control;
  control ← write_handshake control;
  session_loop envs control.
End server.

(** What the server's side of a test comes to: the data port it announces
    and its report. *)
Definition server_port (env : server_env) : io Z :=
  ip ← local_bind_ip env; local ← se_bind env (mk_addr ip 0); Ok (addr_port local).

Definition server_data (p : profile) (env : server_env) (req : TestRequest.t) : io TestReport.t :=
  let dur := elapsed_u64 (se_start env) (se_end env) in
  if decide (TestRequest.kind req = KIND_TCP_UP) then
    _ ← accept_one env;
    bytes ← tcp_recv_loop p (server_deadline req (se_start env)) 0 (se_reads env);
    Ok (tcp_report bytes dur)
  else if decide (TestRequest.kind req = KIND_TCP_DOWN) then
    _ ← accept_one env;
    bytes ← tcp_send_loop p (se_start env + TestRequest.duration_ms req * 1000000) 0 (se_writes env);
    Ok (tcp_report bytes dur)
  else if decide (TestRequest.kind req = KIND_UDP_UP) then
    server_run_udp_up p req (se_hello env) (se_start env) (se_first env) (se_end env) (se_script env)
  else
    _ ← se_hello env;
    '(report, _) ← server_run_udp_down p (se_net env) req (se_readings env);
    Ok report.
