(* ===== verification/BenchClient.v ===== *)
(** * Bench client (src/bench/client.rs)

    Plans, the client's side of a session, and the printing and parsing of
    figures.  The transport's answers and the data connections are the
    environment. *)
From S2P Require Import Prelude AsyncIo Text Net Float64 Errors Listener Protocol Stats Pacer UdpPlane.
From S2P Require Import TcpPlane.
From S2P Require Import Socks5Udp Os SocksLib Config Handshake Direct Transport.

Inductive BenchMode : Type := ModeTcp | ModeUdp | ModeBoth.
Inductive BenchDirection : Type := Up | Down | BothWays.

Record BenchOptions : Type := mk_bench_options {
  bo_transport : Transport;
  bo_target : option SocketAddr;
  bo_serve : bool;
  bo_serve_port : option Z;
  bo_mode : BenchMode;
  bo_direction : BenchDirection;
  bo_duration : Z;  (* nanoseconds *)
  bo_udp_bandwidth : list Z;
  bo_udp_size : Z;
  bo_tcp_chunk : Z;
}.

Record Plan : Type := mk_plan { pl_kind : Z; pl_bandwidth_bps : Z; pl_label : str }.

Record BenchOutcome : Type := mk_bench_outcome {
  bc_plan : Plan; bc_client : TestReport.t; bc_server : TestReport.t }.

(** ** Figures *)
Definition scaled (v : f64) (unit : Z) (suffix : str) : str :=
  show_f64_2 (f64_div v (f64_of_Z unit)) ++ suffix.

Definition format_rate_bps (bps : Z) : str :=
  let v := f64_of_Z bps in
  if f64_le (f64_of_Z 1000000000) v then scaled v 1000000000 (lit " Gbit/s")
  else if f64_le (f64_of_Z 1000000) v then scaled v 1000000 (lit " Mbit/s")
  else if f64_le (f64_of_Z 1000) v then scaled v 1000 (lit " Kbit/s")
  else show_u bps ++ lit " bit/s".

Definition format_bytes (b : Z) : str :=
  let v := f64_of_Z b in
  if f64_le (f64_of_Z 1000000000) v then scaled v 1000000000 (lit " GB")
  else if f64_le (f64_of_Z 1000000) v then scaled v 1000000 (lit " MB")
  else if f64_le (f64_of_Z 1000) v then scaled v 1000 (lit " KB")
  else show_u b ++ lit " B".

Definition format_ms (ns : Z) : str :=
  show_f64_2 (f64_div (f64_of_Z ns) (f64_of_Z 1000000)) ++ lit " ms".

(** [{bytes as f64 * 8.0 / dur}]. *)
Definition rate (bytes : Z) (dur : f64) : f64 :=
  f64_div (f64_mul (f64_of_Z bytes) (f64_of_Z 8)) dur.

Definition seconds (ns : Z) : f64 := f64_div (f64_of_Z ns) (f64_of_Z 1000000000).

Definition nl : str := [Byte.x0a].

Definition print_udp (target_bw : Z) (sender receiver : TestReport.t) : str :=
  let send_dur := seconds (TestReport.duration_actual_ns sender) in
  let positive := f64_lt f64_zero send_dur in
  let send_rate := if positive then rate (TestReport.bytes sender) send_dur else f64_zero in
  let recv_rate := if positive then rate (TestReport.bytes receiver) send_dur else f64_zero in
  let loss :=
    if 0 <? TestReport.packets sender then
      let lost := saturating_sub (TestReport.packets sender) (TestReport.packets receiver) in
      f64_mul (f64_div (f64_of_Z lost) (f64_of_Z (TestReport.packets sender))) (f64_of_Z 100)
    else f64_zero in
  let avg_lat_ns :=
    if 0 <? TestReport.packets receiver
    then TestReport.latency_sum_ns receiver / TestReport.packets receiver else 0 in
  lit "  sent:  " ++ pad_left 7 (show_u (TestReport.packets sender)) ++ lit " pkt / " ++
  pad_left 10 (format_bytes (TestReport.bytes sender)) ++ lit "    rate: " ++
  pad_left 12 (format_rate_bps (f64_to_u 64 send_rate)) ++ nl ++
  lit "  recv:  " ++ pad_left 7 (show_u (TestReport.packets receiver)) ++ lit " pkt / " ++
  pad_left 10 (format_bytes (TestReport.bytes receiver)) ++ lit "    rate: " ++
  pad_left 12 (format_rate_bps (f64_to_u 64 recv_rate)) ++ nl ++
  lit "  loss: " ++ show_f64_2 loss ++ lit "%   ooo: " ++ show_u (TestReport.ooo receiver) ++
  lit "   dup: " ++ show_u (TestReport.dup receiver) ++ lit "   jitter: " ++
  format_ms (TestReport.jitter_ns receiver) ++ nl ++
  lit "  latency min/avg/max: " ++ format_ms (TestReport.latency_min_ns receiver) ++ lit " / " ++
  format_ms avg_lat_ns ++ lit " / " ++ format_ms (TestReport.latency_max_ns receiver) ++
  lit "    target: " ++ format_rate_bps target_bw ++ nl.

Definition print_result (plan : Plan) (client server : TestReport.t) : str :=
  let dur := seconds (TestReport.duration_actual_ns client) in
  let r := format_rate_bps (f64_to_u 64 (rate (TestReport.bytes client) dur)) in
  lit "== " ++ pl_label plan ++ lit " ==" ++ nl ++
  (if decide (pl_kind plan = KIND_TCP_UP) then
     lit "  sent: " ++ format_bytes (TestReport.bytes client) ++ lit "    rate: " ++ r ++
     lit "    duration: " ++ show_f64_2 dur ++ lit "s" ++ nl ++
     lit "  recv (server side): " ++ format_bytes (TestReport.bytes server) ++ nl
   else if decide (pl_kind plan = KIND_TCP_DOWN) then
     lit "  recv: " ++ format_bytes (TestReport.bytes client) ++ lit "    rate: " ++ r ++
     lit "    duration: " ++ show_f64_2 dur ++ lit "s" ++ nl
   else if decide (pl_kind plan = KIND_UDP_UP) then print_udp (pl_bandwidth_bps plan) client server
   else if decide (pl_kind plan = KIND_UDP_DOWN) then print_udp (pl_bandwidth_bps plan) server client
   else []) ++ nl.

(** ** Bandwidth lists *)
Definition suffix_mult (c : list byte) : option Z :=
  if bool_decide (c = lit "K") || bool_decide (c = lit "k") then Some 1000
  else if bool_decide (c = lit "M") || bool_decide (c = lit "m") then Some 1000000
  else if bool_decide (c = lit "G") || bool_decide (c = lit "g") then Some 1000000000
  else None.

Definition parse_bandwidth (s : str) : anyhow Z :=
  let s := trim s in
  if decide (s = []) then Err (lit "empty bandwidth value")
  else
    let '(num, mult) :=
      match last (chars s) ≫= suffix_mult with
      | Some m => (take (length s - 1) s, m)
      | None => (s, 1)
      end in
    n ← ok_or (lit "invalid bandwidth value: " ++ s) (parse_f64 num);
    Ok (f64_to_u 64 (f64_mul n (f64_of_Z mult))).

Fixpoint collect {E A} (ms : list (outcome E A)) : outcome E (list A) :=
  match ms with
  | [] => Ok []
  | m :: ms => a ← m; l ← collect ms; Ok (a :: l)
  end.

Definition parse_bandwidth_list (s : str) : anyhow (list Z) :=
  collect ((fun p => parse_bandwidth (trim p)) <$> split_on Byte.x2c s).

(** ** Plans *)
Definition want_tcp (m : BenchMode) : bool := match m with ModeUdp => false | _ => true end.
Definition want_udp (m : BenchMode) : bool := match m with ModeTcp => false | _ => true end.
Definition want_up (d : BenchDirection) : bool := match d with Down => false | _ => true end.
Definition want_down (d : BenchDirection) : bool := match d with Up => false | _ => true end.

Definition udp_plans (d : BenchDirection) (bw : Z) : list Plan :=
  (if want_up d
   then [mk_plan KIND_UDP_UP bw (lit "UDP upload @ " ++ format_rate_bps bw)] else []) ++
  (if want_down d
   then [mk_plan KIND_UDP_DOWN bw (lit "UDP download @ " ++ format_rate_bps bw)] else []).

Definition build_plans (opts : BenchOptions) : list Plan :=
  (if want_tcp (bo_mode opts) then
     (if want_up (bo_direction opts) then [mk_plan KIND_TCP_UP 0 (lit "TCP upload")] else []) ++
     (if want_down (bo_direction opts) then [mk_plan KIND_TCP_DOWN 0 (lit "TCP download")] else [])
   else []) ++
  (if want_udp (bo_mode opts) then concat (udp_plans (bo_direction opts) <$> bo_udp_bandwidth opts)
   else []).

(** ** The session *)
Definition synthetic_target (addr : SocketAddr) : TestTarget :=
  mk_target (show_ip (addr_ip addr)) (addr_port addr) [] false (Some (addr_ip addr)) false.

(** The environment of one test on the client's side. *)
Record client_env : Type := mk_client_env {
  ce_open : SocketAddr -> px unit;    (* connect_tcp of the data address, or open_udp *)
  ce_start : Z;                       (* the first reading of a TCP test or UDP download *)
  ce_end : Z;                         (* the last reading of a TCP test or UDP download *)
  ce_writes : list (Z * io Z);        (* TCP upload *)
  ce_reads : list (turn (io Z));      (* TCP download: reads and the timer *)
  ce_net : list byte -> io unit;      (* UDP sends *)
  ce_readings : list Z;               (* UDP upload: readings *)
  ce_script : list (turn arrival);    (* UDP download: datagrams and the timer *)
}.

Definition is_udp_kind (kind : Z) : bool :=
  bool_decide (kind = KIND_UDP_UP) || bool_decide (kind = KIND_UDP_DOWN).

Definition plan_request (opts : BenchOptions) (plan : Plan) : TestRequest.t :=
  TestRequest.mk (pl_kind plan) (cast_u 32 (bo_duration opts / 1000000))
    (if is_udp_kind (pl_kind plan) then cast_u 32 (bo_udp_size opts)
     else cast_u 32 (bo_tcp_chunk opts))
    (pl_bandwidth_bps plan) 0.

(** The data phase of a plan: [run_tcp_data], [run_udp_up] or
    [run_udp_down]; another kind is [unreachable!()]. *)
Definition run_data (p : profile) (opts : BenchOptions) (plan : Plan) (addr : SocketAddr)
    (env : client_env) : anyhow TestReport.t :=
  if decide (pl_kind plan = KIND_TCP_UP \/ pl_kind plan = KIND_TCP_DOWN) then
    _ ← of_px (ce_open env addr);
    of_io (client_run_tcp_data p (pl_kind plan) (bo_duration opts) (ce_start env) (ce_end env)
             (ce_writes env) (ce_reads env))
  else if decide (pl_kind plan = KIND_UDP_UP) then
    _ ← of_px (ce_open env addr);
    '(report, _) ← of_io (client_run_udp_up p (ce_net env) (bo_duration opts) (bo_udp_size opts)
                            (pl_bandwidth_bps plan) (ce_readings env));
    Ok report
  else if decide (pl_kind plan = KIND_UDP_DOWN) then
    _ ← of_px (ce_open env addr);
    of_io (client_run_udp_down p (ce_net env) (bo_duration opts) (bo_udp_size opts) (ce_start env)
             (ce_end env) (ce_script env))
  else Panic.

Section client.
Context {S : Type} `{AsyncRead S} `{AsyncWrite S} (p : profile) (opts : BenchOptions).

(** One iteration of the loop over the plans: the outcome and what is
    printed of it. *)
Definition run_plan (target : SocketAddr) (plan : Plan) (env : client_env) (control : S) :
    anyhow (BenchOutcome * S) :=
  control ← of_io (TestRequest.write (plan_request opts plan) control);
  '(resp, control) ← of_io (TestResponse.read control);
  if decide (TestResponse.status resp <> STATUS_OK) then
    Err (lit "server rejected test " ++ pl_label plan ++ lit ": " ++ TestResponse.error resp)
  else
    let server_data_addr := mk_addr (addr_ip target) (TestResponse.data_port resp) in
    client_report ← run_data p opts plan server_data_addr env;
    '(server_report, control) ← of_io (TestReport.read control);
    control ← of_io (TestReport.write client_report control);
    Ok (mk_bench_outcome plan client_report server_report, control).

Lemma run_plan_plan target plan env control o control' :
  run_plan target plan env control = Ok (o, control') -> bc_plan o = plan.
Proof.
  unfold run_plan. intros (c1 & _ & Hr)%bind_Ok. apply bind_Ok in Hr as ([resp c2] & _ & Hr).
  case_decide; [done|]. apply bind_Ok in Hr as (crep & _ & Hr). apply bind_Ok in Hr as ([srep c3] & _ & Hr).
  by apply bind_Ok in Hr as (c4 & _ & [= <- _]).
Qed.

(** The loop; an environment per plan. *)
Fixpoint run_plans (target : SocketAddr) (plans : list Plan) (envs : list client_env) (control : S) :
    anyhow (list BenchOutcome * S) :=
  match plans with
  | [] => Ok ([], control)
  | plan :: plans =>
      match envs with
      | [] => Hang
      | env :: envs =>
          '(o, control) ← run_plan target plan env control;
          '(os, control) ← run_plans target plans envs control;
          Ok (o :: os, control)
      end
  end.

(** The server to test: the one given, or else the in-process one, of which
    [spawn] is what it reports. *)
Definition bench_target (spawn : anyhow SocketAddr) : anyhow SocketAddr :=
  guard ← (if bo_serve opts then Some <$> spawn else Ok None);
  ok_or (lit "--target is required when --serve is not set")
    (match bo_target opts with Some t => Some t | None => guard end).

(** [run_inner]: [connect] opens the control connection over a transport. *)
Definition run_inner (spawn : anyhow SocketAddr) (connect : Transport -> TestTarget -> px S)
    (envs : list client_env) : anyhow (list BenchOutcome * S) :=
  target ← bench_target spawn;
  let plans := build_plans opts in
  if decide (plans = []) then
    Err (lit "no tests selected (check --mode/--direction/--udp-bandwidth)")
  else
    control ← of_px (connect (bo_transport opts) (synthetic_target target));
    control ← of_io (write_handshake control);
    '(_, control) ← of_io (read_handshake control);
    '(outcomes, control) ← run_plans target plans envs control;
    control ← of_io (TestRequest.write TestRequest.close control);
    Ok (outcomes, control).
End client.

(** ** What is printed *)
Definition udp_note : str :=
  nl ++ lit "note: one-way latency is relative to the path delay of the first packet; use it to compare runs between the same hosts (e.g. proxy vs direct), not as an absolute measurement." ++ nl.

Definition route (transport : Transport) : str :=
  match transport with
  | Transport.Direct _ => lit "direct"
  | Transport.Socks5 c => lit "via socks5://" ++ pc_addr c
  end.

Definition bench_header (transport : Transport) (target : SocketAddr) : str :=
  lit "bench client → " ++ show_addr target ++ lit "    " ++ route transport ++ nl ++ nl.

Definition outcome_text (o : BenchOutcome) : str := print_result (bc_plan o) (bc_client o) (bc_server o).

Definition is_udp_outcome (o : BenchOutcome) : bool := is_udp_kind (pl_kind (bc_plan o)).

Section printing.
Context {S : Type} `{AsyncRead S} `{AsyncWrite S} (p : profile) (opts : BenchOptions).

(** The loop of [run_inner] that prints: a text per plan that is through. *)
Fixpoint print_plans (target : SocketAddr) (plans : list Plan) (envs : list client_env) (control : S) :
    task str (list BenchOutcome * S) :=
  match plans with
  | [] => lift (Ok ([], control))
  | plan :: plans =>
      match envs with
      | [] => lift Hang
      | env :: envs =>
          '(o, control) ← lift (run_plan p opts target plan env control);
          _ ← emit (outcome_text o);
          '(os, control) ← print_plans target plans envs control;
          lift (Ok (o :: os, control))
      end
  end.

(** [run], which is [run_inner] with [print]: the texts on standard output as
    they come, also those before a failure. *)
Definition run (spawn : anyhow SocketAddr) (connect : Transport -> TestTarget -> px S)
    (envs : list client_env) : task str (list BenchOutcome) :=
  target ← lift (bench_target opts spawn);
  let plans := build_plans opts in
  if decide (plans = []) then
    lift (Err (lit "no tests selected (check --mode/--direction/--udp-bandwidth)"))
  else
    _ ← emit (bench_header (bo_transport opts) target);
    control ← lift (of_px (connect (bo_transport opts) (synthetic_target target)));
    control ← lift (of_io (write_handshake control));
    '(_, control) ← lift (of_io (read_handshake control));
    '(outcomes, control) ← print_plans target plans envs control;
    control ← lift (of_io (TestRequest.write TestRequest.close control));
    _ ← (if existsb is_udp_outcome outcomes then emit udp_note else lift (Ok tt));
    lift (Ok outcomes).

Definition run_quiet (spawn : anyhow SocketAddr) (connect : Transport -> TestTarget -> px S)
    (envs : list client_env) : anyhow (list BenchOutcome) :=
  '(outcomes, _) ← run_inner p opts spawn connect envs;
  Ok outcomes.

(** ** Lemmas: printing changes nothing *)
Lemma ending_bind {A X Y} (t : task A X) (f : X -> task A Y) :
  ending (t ≫= f) = (x ← ending t; ending (f x)).
Proof. unfold mbind, task_bind. by destruct (ending t). Qed.

Lemma print_plans_ending target plans envs (control : S) :
  ending (print_plans target plans envs control) = run_plans p opts target plans envs control.
Proof.
  revert envs control. induction plans as [|plan plans IH]; intros envs control; [done|].
  destruct envs as [|env envs]; [done|]. cbn [print_plans run_plans].
  rewrite ending_bind. cbn [lift ending]. destruct (run_plan _ _ _ _ _ _) as [ [o c]| | |]; [|done..].
  cbn [mbind outcome_bind]. rewrite bind_emit. cbn [ending]. rewrite ending_bind, IH.
  by destruct (run_plans _ _ _ _ _ _) as [ [os c']| | |].
Qed.

Lemma run_ending spawn connect envs : ending (run spawn connect envs) = run_quiet spawn connect envs.
Proof.
  unfold run, run_quiet, run_inner. rewrite ending_bind. cbn [lift ending].
  destruct (bench_target opts spawn) as [target| | |]; [|done..]. cbn [mbind outcome_bind].
  case_decide; [done|]. rewrite bind_emit. cbn [ending]. rewrite ending_bind. cbn [lift ending].
  destruct (of_px _) as [c| | |]; [|done..]. cbn [mbind outcome_bind]. rewrite ending_bind. cbn [lift ending].
  destruct (of_io (write_handshake c)) as [c1| | |]; [|done..]. cbn [mbind outcome_bind].
  rewrite ending_bind. cbn [lift ending].
  destruct (of_io (read_handshake c1)) as [ [u c2]| | |]; [|done..]. cbn [mbind outcome_bind].
  rewrite ending_bind, print_plans_ending.
  destruct (run_plans _ _ _ _ _ _) as [ [os c3]| | |]; [|done..]. cbn [mbind outcome_bind].
  rewrite ending_bind. cbn [lift ending].
  destruct (of_io (TestRequest.write _ c3)) as [c4| | |]; [|done..]. cbn [mbind outcome_bind].
  rewrite ending_bind. by destruct (existsb _ _).
Qed.

(** However the plans go, the texts are those of the first of them; of all
    of them when they succeed. *)
Lemma print_plans_actions target plans envs (control : S) :
  exists through, actions (print_plans target plans envs control) = outcome_text <$> through /\
    bc_plan <$> through = take (length through) plans /\
    forall os c, run_plans p opts target plans envs control = Ok (os, c) -> through = os.
Proof.
  revert envs control. induction plans as [|plan plans IH]; intros envs control.
  { exists []. split; [done|]. split; [done|]. by intros os c [= <- _]. }
  destruct envs as [|env envs]; [by exists []|]. cbn [print_plans run_plans].
  destruct (run_plan p opts target plan env control) as [ [o c]| | |] eqn:E; [|by exists []..].
  assert (bc_plan o = plan) as Hpl by (by apply run_plan_plan in E).
  erewrite bind_lift_Ok by reflexivity. cbn beta iota. rewrite bind_emit. cbn [actions].
  destruct (IH envs c) as (through & Ha & Hp & Hok). exists (o :: through).
  split; [|split; [by cbn; rewrite Hpl, Hp|] ].
  - rewrite fmap_cons, <- Ha. f_equal. unfold mbind, task_bind.
    destruct (ending (print_plans _ _ _ _)) as [ [os c']| | |]; [|done..]. cbn. by rewrite app_nil_r.
  - intros os c'. cbn [mbind outcome_bind]. destruct (run_plans _ _ _ _ _ _) as [ [os' c'']| | |] eqn:E'; [|done..].
    intros [= <- _]. by rewrite (Hok os' c'').
Qed.
End printing.
