(* ===== verification/Typing.v ===== *)
(** * The machine types of reports and requests

    Every figure the two ends of a benchmark put into a message fits the
    field it is written to: the loops keep their counters in range, and what
    they read of the wire is in range. *)
From S2P Require Import Prelude AsyncIo Text Net Float64 Errors Protocol Stats Pacer UdpPlane TcpPlane.
From S2P Require Import Socks5Udp Os SocksLib Config Handshake Direct Transport BenchServer BenchClient.

Lemma u64_0 : u64 0.
Proof. unfold in_u. lia. Qed.

Lemma elapsed_u64_range s t : u64 (elapsed_u64 s t).
Proof. by apply cast_u_range. Qed.

Lemma arith_u64 {E} p r x : arith_u (E:=E) p 64 r = Ok x -> u64 x.
Proof. by apply arith_u_range. Qed.

Lemma saturating_sub_1 x : u64 x -> u64 (saturating_sub x 1).
Proof. unfold in_u, saturating_sub. lia. Qed.

#[local] Hint Resolve u64_0 elapsed_u64_range saturating_sub_1 : core.

Lemma decode_udp_header_range buf seq ts :
  decode_udp_header buf = Ok (Some (seq, ts)) -> u64 seq /\ u64 ts.
Proof.
  unfold decode_udp_header. case_decide; [done|]. intros Hd.
  apply bind_Ok in Hd as (a & Ha & Hd). apply bind_Ok in Hd as (b & Hb & [= <- <-]).
  apply slice_inv in Ha as (La & _). apply slice_inv in Hb as (Lb & _).
  pose proof (be_val_range a) as Ra. pose proof (be_val_range b) as Rb. by rewrite La in Ra; rewrite Lb in Rb.
Qed.

(** ** Reports *)
Lemma tcp_report_wf bytes dur : u64 bytes -> u64 dur -> TestReport.wf (tcp_report bytes dur).
Proof. intros Hb Hd. repeat (apply Forall_cons_2; [done|]). by apply Forall_nil. Qed.

Lemma tcp_send_loop_u64 p dl b ws r : u64 b -> tcp_send_loop p dl b ws = Ok r -> u64 r.
Proof.
  revert b. induction ws as [|[now w] ws IH]; intros b Hb; [done|]. cbn [tcp_send_loop].
  destruct (now <? dl); [|by intros [= <-]]. destruct w as [n|e| |]; try done; [|by intros [= <-]].
  case_decide; [by intros [= <-]|]. intros (b' & Hb'%arith_u64 & Hr)%bind_Ok. by apply IH in Hr.
Qed.

Lemma tcp_recv_loop_u64 p dl b rs r : u64 b -> tcp_recv_loop p dl b rs = Ok r -> u64 r.
Proof.
  revert b. induction rs as [|[x|now] rs IH]; intros b Hb; [done|..]; cbn [tcp_recv_loop].
  - intros (n & _ & Hr)%bind_Ok. case_decide; [by simplify_eq|].
    apply bind_Ok in Hr as (b' & Hb'%arith_u64 & Hr). by apply IH in Hr.
  - destruct (dl <=? now); [by intros [= <-]|by apply IH].
Qed.

Lemma process_packet_wf p s buf t s' :
  UdpStats.wf s -> u64 t -> process_packet p s buf t = Ok s' -> UdpStats.wf s'.
Proof.
  unfold process_packet. intros Hs Ht (h & Hh & Hr)%bind_Ok. destruct h as [ [seq ts]|]; [|by simplify_eq].
  apply decode_udp_header_range in Hh as [Hq Hts]. by eapply record_wf in Hr.
Qed.

Lemma server_recv_loop_wf p cap peer st dl s script s' :
  UdpStats.wf s -> server_recv_loop p cap peer st dl s script = Ok s' -> UdpStats.wf s'.
Proof.
  revert s. induction script as [|[a|now] script IH]; intros s Hs; [done|..]; cbn [server_recv_loop].
  - intros ([ [d src] t] & _ & Hr)%bind_Ok. case_decide; [by eapply IH|].
    apply bind_Ok in Hr as (s1 & H1 & Hr). apply process_packet_wf in H1; [|done..]. by eapply IH.
  - destruct (dl <=? now); [by intros [= <-]|by apply IH].
Qed.

Lemma client_recv_loop_wf p cap dl st s script s' st' :
  UdpStats.wf s -> client_recv_loop p cap dl st s script = Ok (s', st') -> UdpStats.wf s'.
Proof.
  revert st s. induction script as [|[a|now] script IH]; intros st s Hs; [done|..]; cbn [client_recv_loop].
  - destruct a as [ [ [d t0] t]|e| |]; try done; [|by intros [= <- _] ].
    intros (s1 & H1 & Hr)%bind_Ok. apply process_packet_wf in H1; [|done..]. by eapply IH.
  - destruct (dl <=? now); [by intros [= <- _]|by apply IH].
Qed.

(** The sender's counters. *)
Lemma sender_run_u64 p pacer st dl net rs time at_ s s' time' rs' :
  u64 (Sender.bytes s) -> u64 (Sender.seq s) ->
  Sender.run p pacer st dl net rs time at_ s = Ok (s', time', rs') ->
  u64 (Sender.bytes s') /\ u64 (Sender.seq s').
Proof.
  revert time at_ s. induction rs as [|r rs IH]; intros time at_ s Hb Hs; [done|]. cbn [Sender.run].
  intros ([ [next time1] s1] & Hstep & Hr)%bind_Ok.
  enough (u64 (Sender.bytes s1) /\ u64 (Sender.seq s1)) as [Hb1 Hs1].
  { destruct next; [by eapply IH|by simplify_eq]. }
  unfold Sender.step in Hstep. destruct at_ as [| |due|due].
  - by simplify_eq.
  - apply bind_Ok in Hstep as (due & _ & Hstep). by simplify_eq.
  - destruct (Sender.seq s <? due); [by simplify_eq|].
    apply bind_Ok in Hstep as (wake & _ & Hstep). by simplify_eq.
  - apply bind_Ok in Hstep as (buf & _ & Hstep). destruct (net buf) as [n|e| |]; try done; [|by simplify_eq].
    apply bind_Ok in Hstep as (b & Hb'%arith_u64 & Hstep).
    apply bind_Ok in Hstep as (q & Hq%arith_u64 & Hstep). by simplify_eq.
Qed.

Lemma sender_report_wf s dur :
  u64 (Sender.bytes s) -> u64 (Sender.seq s) -> u64 dur ->
  TestReport.wf (TestReport.mk (Sender.bytes s) (Sender.seq s) (saturating_sub (Sender.seq s) 1)
    0 0 0 0 0 0 dur).
Proof.
  intros Hb Hs Hd. pose proof (saturating_sub_1 _ Hs).
  repeat (apply Forall_cons_2; [done|]). by apply Forall_nil.
Qed.

(** ** The data phases of both ends *)
Lemma server_data_wf p env req r : server_data p env req = Ok r -> TestReport.wf r.
Proof.
  unfold server_data. repeat case_decide.
  - intros (? & _ & Hr)%bind_Ok. apply bind_Ok in Hr as (b & Hb & [= <-]).
    apply tcp_report_wf; [by eapply (tcp_recv_loop_u64 p _ 0)|done].
  - intros (? & _ & Hr)%bind_Ok. apply bind_Ok in Hr as (b & Hb & [= <-]).
    apply tcp_report_wf; [by eapply (tcp_send_loop_u64 p _ 0)|done].
  - unfold server_run_udp_up. intros ([ [d peer] t] & _ & Hr)%bind_Ok.
    apply bind_Ok in Hr as (s1 & Hfirst & Hr). apply bind_Ok in Hr as (s2 & Hloop & [= <-]).
    apply into_report_wf; [|done]. eapply server_recv_loop_wf; [|exact Hloop].
    by apply process_packet_wf in Hfirst; [|apply default_wf|done].
  - intros (? & _ & Hr)%bind_Ok. apply bind_Ok in Hr as ([rep lg] & Hd & [= <-]).
    unfold server_run_udp_down in Hd. destruct (se_readings env) as [|st [|r1 rs] ]; try done.
    apply bind_Ok in Hd as ([ [s time] rs'] & Hrun & Hd). destruct rs' as [|r2 rs']; [done|].
    injection Hd as <- _. apply sender_run_u64 in Hrun as [Hb Hs]; [|done..]. by apply sender_report_wf.
Qed.

Lemma run_data_wf p opts plan addr env r :
  u64 (bo_udp_size opts) -> run_data p opts plan addr env = Ok r -> TestReport.wf r.
Proof.
  intros Hsize. unfold run_data. repeat case_decide; [..|done].
  - intros (? & _ & Hr)%bind_Ok. apply of_io_Ok in Hr. unfold client_run_tcp_data in Hr.
    apply bind_Ok in Hr as (b & Hb & [= <-]). apply tcp_report_wf; [|done].
    case_decide; [by eapply (tcp_send_loop_u64 p _ 0)|by eapply (tcp_recv_loop_u64 p _ 0)].
  - intros (? & _ & Hr)%bind_Ok. apply bind_Ok in Hr as ([rep lg] & Hd%of_io_Ok & [= <-]).
    unfold client_run_udp_up in Hd. destruct (ce_readings env) as [|st rs]; [done|].
    apply bind_Ok in Hd as (buf & Hbuf & Hd). apply bind_Ok in Hd as (? & _ & Hd).
    destruct rs as [|r1 rs]; [done|]. apply bind_Ok in Hd as ([ [s time] rs'] & Hrun & Hd).
    destruct rs' as [|r2 rs']; [done|]. injection Hd as <- _.
    apply sender_run_u64 in Hrun as [Hb Hs]; [by apply sender_report_wf| |cbn; unfold in_u; lia].
    cbn. unfold UDP_HEADER_LEN in Hbuf. rewrite encode_udp_header_Ok in Hbuf
      by (unfold UDP_HEADER_LEN; rewrite length_replicate; lia). simplify_eq.
    rewrite !length_app, !be_bytes_length, length_drop, length_replicate. unfold in_u in *. lia.
  - intros (? & _ & Hr)%bind_Ok. apply of_io_Ok in Hr. unfold client_run_udp_down in Hr.
    apply bind_Ok in Hr as (hello & _ & Hr). apply bind_Ok in Hr as (? & _ & Hr).
    apply bind_Ok in Hr as ([s st] & Hrecv & [= <-]). apply into_report_wf.
    + eapply client_recv_loop_wf; [|exact Hrecv]. apply default_wf.
    + by destruct st.
Qed.

(** ** Requests *)

(** Options whose figures have their types. *)
Definition options_typed (opts : BenchOptions) : Prop :=
  u64 (bo_udp_size opts) /\ u64 (bo_tcp_chunk opts) /\ Forall u64 (bo_udp_bandwidth opts).

Lemma build_plans_typed opts :
  Forall u64 (bo_udp_bandwidth opts) ->
  Forall (fun pl => 0 <= pl_kind pl <= KIND_UDP_DOWN /\ u64 (pl_bandwidth_bps pl)) (build_plans opts).
Proof.
  intros Hb. unfold build_plans. apply Forall_app. split.
  - destruct (want_tcp _); [|by apply Forall_nil]. apply Forall_app.
    split; (case_match; [apply Forall_cons_2; [split; [done|exact u64_0]|by apply Forall_nil]|by apply Forall_nil]).
  - destruct (want_udp _); [|by apply Forall_nil]. apply Forall_concat, Forall_fmap.
    eapply Forall_impl; [exact Hb|]. intros bw Hbw. unfold udp_plans. apply Forall_app.
    split; (case_match; [by apply Forall_cons_2, Forall_nil|by apply Forall_nil]).
Qed.

Lemma plan_request_wf opts plan :
  0 <= pl_kind plan <= KIND_UDP_DOWN -> u64 (pl_bandwidth_bps plan) ->
  TestRequest.wf (plan_request opts plan).
Proof.
  unfold KIND_UDP_DOWN. intros Hk Hb. refine (conj _ (conj _ (conj _ (conj _ _)))); cbn.
  - unfold in_u. lia.
  - by apply cast_u_range.
  - case_match; by apply cast_u_range.
  - done.
  - done.
Qed.
