(* ===== verification/BenchSession.v ===== *)
(** * A bench session, end to end

    The client of BenchClient against the server of BenchServer on one
    control connection: the two byte streams fit together, and, as a
    transition system, the two ends never wait for each other. *)
From S2P Require Import Prelude AsyncIo Text Net Float64 Errors Protocol Stats Pacer UdpPlane TcpPlane.
From S2P Require Import Socks5Udp Os SocksLib Config Handshake Direct Transport BenchServer BenchClient Typing.

(** ** Reading and writing messages on a reliable stream *)

(** Writes that never fail. *)
Class ReliableWrites (S : Type) `{AsyncWrite S} : Prop :=
  write_all_ok bs (s : S) : is_ok (write_all bs s) = true.

(** One end of a stream that has received [pi_in]. *)
Record pipe_end : Type := mk_pipe { pi_in : list byte; pi_out : list byte }.

#[export] Instance pipe_read : AsyncRead pipe_end := {
  unread := pi_in;
  read_exact n c :=
    if decide (n <= length (pi_in c))%nat
    then Ok (take n (pi_in c), mk_pipe (drop n (pi_in c)) (pi_out c)) else Hang;
}.

#[export] Instance pipe_write : AsyncWrite pipe_end := {
  written := pi_out;
  write_all bs c := Ok (mk_pipe (pi_in c) (pi_out c ++ bs));
}.

#[export] Instance pipe_read_laws : AsyncReadLaws pipe_end.
Proof.
  split; cbn; intros n r.
  - intros Hn. rewrite decide_True by done. eauto.
  - intros v Hn. rewrite decide_False by lia. done.
Qed.

#[export] Instance pipe_write_laws : AsyncWriteLaws pipe_end.
Proof. split; cbn. intros bs w w' [= <-]. done. Qed.

#[export] Instance pipe_duplex_laws : DuplexLaws pipe_end.
Proof.
  split; cbn.
  - by intros bs w w' [= <-].
  - intros n w bs w'. case_decide; [by intros [= _ <-]|done].
Qed.

#[export] Instance pipe_reliable : ReliableWrites pipe_end.
Proof. done. Qed.

Section messages.
Context {S : Type} `{AsyncReadLaws S} `{!AsyncWrite S} `{!AsyncWriteLaws S} `{!DuplexLaws S}
  `{!ReliableWrites S}.

Definition reads {A} (d : S -> io (A * S)) (bs : list byte) (a : A) : Prop :=
  forall s rest, unread s = bs ++ rest ->
    exists s', d s = Ok (a, s') /\ unread s' = rest /\ written s' = written s.

Definition writes (e : S -> io S) (bs : list byte) : Prop :=
  forall s, exists s', e s = Ok s' /\ written s' = written s ++ bs /\ unread s' = unread s.

(** A reader that leaves the other direction alone. *)
Definition quiet {A} (d : S -> io (A * S)) : Prop :=
  forall s a s', d s = Ok (a, s') -> written s' = written s.

Lemma quiet_exact n : quiet (read_exact n).
Proof. intros s bs s'. apply read_exact_written. Qed.

Lemma quiet_bind {A B} (d : S -> io (A * S)) (f : A -> S -> io (B * S)) :
  quiet d -> (forall a, quiet (f a)) -> quiet (fun s => '(a, s) ← d s; f a s).
Proof.
  intros Hd Hf s b s' Hb. apply bind_Ok in Hb as ([a s1] & Ha & Hb).
  apply Hd in Ha. apply Hf in Hb. congruence.
Qed.

Lemma quiet_ret {A} (a : A) : quiet (fun s => Ok (a, s)).
Proof. intros s a' s' [= _ <-]. done. Qed.

Lemma quiet_uint n : quiet (read_uint n).
Proof. apply quiet_bind; [apply quiet_exact|]. intros bs. apply quiet_ret. Qed.

Lemma reads_of {A} (d : S -> io (A * S)) bs a : decodes d bs a -> quiet d -> reads d bs a.
Proof.
  intros Hd Hq s rest Hs. destruct (Hd s rest Hs) as (s' & Hs' & Hu). exists s'.
  split; [done|]. split; [done|]. by apply Hq in Hs'.
Qed.

Lemma writes_all bs : writes (write_all bs) bs.
Proof.
  intros s. pose proof (write_all_ok bs s) as Hok.
  destruct (write_all bs s) as [s'| | |] eqn:E; try done. exists s'.
  split; [done|]. split; [by apply write_all_written in E|by apply write_all_unread in E].
Qed.

Lemma writes_bind (e f : S -> io S) bs bs' :
  writes e bs -> writes f bs' -> writes (fun s => s ← e s; f s) (bs ++ bs').
Proof.
  intros He Hf s. destruct (He s) as (s1 & E1 & Hw1 & Hu1). destruct (Hf s1) as (s2 & E2 & Hw2 & Hu2).
  exists s2. rewrite E1. split; [done|]. split; [by rewrite Hw2, Hw1, app_assoc|congruence].
Qed.

Lemma writes_uint n x : writes (write_uint n x) (be_bytes n x).
Proof. apply writes_all. Qed.
End messages.

Ltac solve_quiet := repeat first [apply quiet_uint | apply quiet_exact | apply quiet_ret
  | apply quiet_bind; [|intros ?] ].

Ltac solve_writes := repeat first [apply writes_uint | apply writes_all | eapply writes_bind].

Section codecs.
Context {S : Type} `{AsyncReadLaws S} `{!AsyncWrite S} `{!AsyncWriteLaws S} `{!DuplexLaws S}
  `{!ReliableWrites S}.

Lemma reads_handshake : reads (S:=S) read_handshake handshake_wire tt.
Proof.
  apply reads_of; [apply read_handshake_decodes|]. unfold read_handshake.
  apply quiet_bind; [apply quiet_exact|]. intros magic. case_decide; [|by intros ? ? ?].
  apply quiet_bind; [apply quiet_uint|]. intros v. case_decide; [apply quiet_ret|by intros ? ? ?].
Qed.

Lemma reads_request m :
  TestRequest.wf m -> reads (S:=S) TestRequest.read (TestRequest.wire m) m.
Proof.
  intros Hm. apply reads_of; [by apply read_request_decodes|]. unfold TestRequest.read. solve_quiet.
Qed.

Lemma reads_response_ok port :
  u16 port -> reads (S:=S) TestResponse.read (TestResponse.wire (TestResponse.ok port)) (TestResponse.ok port).
Proof.
  intros Hp. apply reads_of.
  - by apply (read_response_decodes (TestResponse.ok port)).
  - unfold TestResponse.read. solve_quiet.
Qed.

Lemma reads_report m : TestReport.wf m -> reads (S:=S) TestReport.read (TestReport.wire m) m.
Proof.
  intros Hm. apply reads_of; [by apply read_report_decodes|]. unfold TestReport.read. solve_quiet.
Qed.

Lemma writes_handshake : writes (S:=S) write_handshake handshake_wire.
Proof. unfold write_handshake, handshake_wire. solve_writes. Qed.

Lemma writes_request m : writes (S:=S) (TestRequest.write m) (TestRequest.wire m).
Proof. unfold TestRequest.write, TestRequest.wire. solve_writes. Qed.

Lemma writes_response_ok port :
  writes (S:=S) (TestResponse.write (TestResponse.ok port)) (TestResponse.wire (TestResponse.ok port)).
Proof.
  unfold TestResponse.write, TestResponse.wire. cbn [TestResponse.ok TestResponse.error].
  change (take _ []) with (@nil byte).
  repeat (eapply writes_bind; [apply writes_uint|]). apply writes_all.
Qed.

Lemma writes_report m : writes (S:=S) (TestReport.write m) (TestReport.wire m).
Proof.
  unfold TestReport.write, TestReport.wire. cbn [TestReport.fields fmap list_fmap concat].
  rewrite app_nil_r. solve_writes.
Qed.
End codecs.

(** ** One test of a session *)

Section handlers.
Context {S : Type} `{AsyncReadLaws S} `{!AsyncWrite S} `{!AsyncWriteLaws S} `{!DuplexLaws S}
  `{!ReliableWrites S}.

(** Every handler is: port, response, data, report, the client's report. *)
Lemma handler_spec p kind run env req (s : S) rest port srep crep :
  handler p kind = Some run -> TestRequest.kind req = kind ->
  server_port env = Ok port -> u16 port -> server_data p env req = Ok srep ->
  TestReport.wf crep -> unread s = TestReport.wire crep ++ rest ->
  exists s', run env req s = Ok s' /\ unread s' = rest /\
    written s' = written s ++ TestResponse.wire (TestResponse.ok port) ++ TestReport.wire srep.
Proof.
  intros Hh Hk Hport Hp Hdata Hcrep Hu. unfold server_port in Hport.
  apply bind_Ok in Hport as (ip & Hip & Hport). apply bind_Ok in Hport as (local & Hlocal & Hport).
  injection Hport as Hport.
  destruct (writes_response_ok port s) as (s1 & E1 & Hw1 & Hu1). rewrite Hu in Hu1.
  destruct (writes_report srep s1) as (s2 & E2 & Hw2 & Hu2). rewrite Hu1 in Hu2.
  destruct (reads_report crep Hcrep s2 rest Hu2) as (s3 & E3 & Hu3 & Hw3).
  exists s3. assert (run env req s = Ok s3) as Hrun; [|split; [done|split; [done|] ] ].
  2: { by rewrite Hw3, Hw2, Hw1, app_assoc. }
  unfold handler in Hh. rewrite <- Hk in Hh. unfold server_data in Hdata.
  repeat case_decide; try done; injection Hh as <-;
    [unfold run_tcp_up|unfold run_tcp_down|unfold run_udp_up|unfold run_udp_down];
    rewrite Hip; cbn [mbind outcome_bind]; unfold open_data_listener, bind_udp_data;
    rewrite Hlocal; cbn [mbind outcome_bind]; rewrite Hport, E1; cbn [mbind outcome_bind].
  - apply bind_Ok in Hdata as (u & Ha & Hdata). rewrite Ha. cbn [mbind outcome_bind].
    apply bind_Ok in Hdata as (b & Hb & Hdata). rewrite Hb. cbn [mbind outcome_bind].
    injection Hdata as ->. by rewrite E2; cbn; rewrite E3.
  - apply bind_Ok in Hdata as (u & Ha & Hdata). rewrite Ha. cbn [mbind outcome_bind].
    apply bind_Ok in Hdata as (b & Hb & Hdata). rewrite Hb. cbn [mbind outcome_bind].
    injection Hdata as ->. by rewrite E2; cbn; rewrite E3.
  - rewrite Hdata. cbn. by rewrite E2; cbn; rewrite E3.
  - apply bind_Ok in Hdata as (u & Ha & Hdata). rewrite Ha. cbn [mbind outcome_bind].
    apply bind_Ok in Hdata as ([rep lg] & Hb & Hdata). rewrite Hb. cbn [mbind outcome_bind].
    injection Hdata as ->. by rewrite E2; cbn; rewrite E3.
Qed.
End handlers.

(** ** The exchange of a plan *)
Record exchange : Type := mk_exchange {
  ex_plan : Plan;
  ex_client : client_env;
  ex_server : server_env;
  ex_port : Z;
  ex_crep : TestReport.t;
  ex_srep : TestReport.t;
}.

Section exchange.
Context (p : profile) (opts : BenchOptions) (ip : IpAddr).

(** Both data phases succeed, at the port the server announces. *)
Definition exchange_ok (x : exchange) : Prop :=
  server_port (ex_server x) = Ok (ex_port x) /\ u16 (ex_port x) /\
  server_data p (ex_server x) (plan_request opts (ex_plan x)) = Ok (ex_srep x) /\
  run_data p opts (ex_plan x) (mk_addr ip (ex_port x)) (ex_client x) = Ok (ex_crep x).

(** The same with the types of what is exchanged. *)
Definition exchange_typed (x : exchange) : Prop :=
  server_port (ex_server x) = Ok (ex_port x) /\ u16 (ex_port x) /\
  server_data p (ex_server x) (plan_request opts (ex_plan x)) = Ok (ex_srep x) /\
  run_data p opts (ex_plan x) (mk_addr ip (ex_port x)) (ex_client x) = Ok (ex_crep x) /\
  TestReport.wf (ex_srep x) /\ TestReport.wf (ex_crep x) /\
  TestRequest.wf (plan_request opts (ex_plan x)) /\
  pl_kind (ex_plan x) <= KIND_UDP_DOWN.

Definition client_sends (x : exchange) : list byte :=
  TestRequest.wire (plan_request opts (ex_plan x)) ++ TestReport.wire (ex_crep x).

Definition server_sends (x : exchange) : list byte :=
  TestResponse.wire (TestResponse.ok (ex_port x)) ++ TestReport.wire (ex_srep x).

Definition outcome_of (x : exchange) : BenchOutcome :=
  mk_bench_outcome (ex_plan x) (ex_crep x) (ex_srep x).
End exchange.

Lemma exchanges_typed p opts ip xs :
  options_typed opts -> build_plans opts = ex_plan <$> xs ->
  Forall (exchange_ok p opts ip) xs -> Forall (exchange_typed p opts ip) xs.
Proof.
  intros (Hsize & _ & Hbw) Hplans Hxs. pose proof (build_plans_typed opts Hbw) as Hty.
  rewrite Hplans, Forall_fmap in Hty. eapply Forall_impl; [apply Forall_and; split; [exact Hxs|exact Hty]|].
  intros x [(Hport & Hp & Hs & Hc) [Hk Hb] ]. unfold exchange_typed.
  do 4 (split; [done|]). split; [by eapply server_data_wf|]. split; [by eapply run_data_wf|].
  split; [by apply plan_request_wf|apply Hk].
Qed.

Section session.
Context {S : Type} `{AsyncReadLaws S} `{!AsyncWrite S} `{!AsyncWriteLaws S} `{!DuplexLaws S}
  `{!ReliableWrites S}.

Lemma known_kind p kind :
  0 <= kind <= KIND_UDP_DOWN ->
  kind <> KIND_CLOSE /\ exists run, handler (S:=S) p kind = Some run.
Proof.
  unfold KIND_UDP_DOWN, KIND_CLOSE, handler, KIND_TCP_UP, KIND_TCP_DOWN, KIND_UDP_UP. intros Hk.
  split; [lia|]. repeat case_decide; eauto. unfold KIND_UDP_DOWN in *. lia.
Qed.

Lemma session_loop_serves p opts ip xs (s : S) rest :
  Forall (exchange_typed p opts ip) xs ->
  unread s = concat (client_sends opts <$> xs) ++ TestRequest.wire TestRequest.close ++ rest ->
  exists s', session_loop p (ex_server <$> xs) s = Ok s' /\ unread s' = rest /\
    written s' = written s ++ concat (server_sends <$> xs).
Proof.
  intros Hxs. revert s. induction Hxs as [|x xs Hx Hxs IH]; intros s Hu.
  - cbn [fmap list_fmap concat app] in *.
    assert (TestRequest.wf TestRequest.close) as Hc by solve_closed.
    destruct (reads_request _ Hc s rest Hu) as (s' & E & Hu' & Hw'). exists s'.
    cbn [session_loop]. rewrite E. cbn. rewrite app_nil_r. split; [|done].
    by rewrite decide_True by done.
  - destruct Hx as (Hport & Hp & Hsd & _ & Hs & Hc & Hreq & Hkind).
    cbn [fmap list_fmap concat] in Hu. unfold client_sends at 1 in Hu. rewrite <- !app_assoc in Hu.
    destruct (reads_request _ Hreq s _ Hu) as (s1 & E1 & Hu1 & Hw1).
    destruct (known_kind p (pl_kind (ex_plan x))) as (Hnc & run & Hrun).
    { destruct Hreq as [Hk _]. cbn in Hk. unfold in_u in Hk. lia. }
    destruct (handler_spec p _ run (ex_server x) (plan_request opts (ex_plan x)) s1 _ _ _ _
      Hrun eq_refl Hport Hp Hsd Hc Hu1) as (s2 & E2 & Hu2 & Hw2).
    destruct (IH s2 Hu2) as (s3 & E3 & Hu3 & Hw3). exists s3. split.
    + cbn [session_loop fmap list_fmap]. rewrite E1. cbn [mbind outcome_bind].
      rewrite decide_False by done. cbn [plan_request TestRequest.kind]. rewrite Hrun, E2. exact E3.
    + split; [done|]. rewrite Hw3, Hw2, Hw1. cbn. unfold server_sends at 2. by rewrite <- !app_assoc.
Qed.

Lemma run_plans_runs p opts target xs (s : S) rest :
  Forall (exchange_typed p opts (addr_ip target)) xs ->
  unread s = concat (server_sends <$> xs) ++ rest ->
  exists s', run_plans p opts target (ex_plan <$> xs) (ex_client <$> xs) s =
      Ok (outcome_of <$> xs, s') /\
    unread s' = rest /\ written s' = written s ++ concat (client_sends opts <$> xs).
Proof.
  intros Hxs. revert s. induction Hxs as [|x xs Hx Hxs IH]; intros s Hu.
  - exists s. cbn. by rewrite app_nil_r.
  - destruct Hx as (_ & Hp & _ & Hcd & Hs & Hc & Hreq & _).
    cbn [fmap list_fmap concat] in Hu. unfold server_sends at 1 in Hu. rewrite <- !app_assoc in Hu.
    destruct (writes_request (plan_request opts (ex_plan x)) s) as (s1 & E1 & Hw1 & Hu1).
    rewrite Hu in Hu1.
    destruct (reads_response_ok _ Hp s1 _ Hu1) as (s2 & E2 & Hu2 & Hw2).
    destruct (reads_report _ Hs s2 _ Hu2) as (s3 & E3 & Hu3 & Hw3).
    destruct (writes_report (ex_crep x) s3) as (s4 & E4 & Hw4 & Hu4). rewrite Hu3 in Hu4.
    destruct (IH s4 Hu4) as (s5 & E5 & Hu5 & Hw5). exists s5. split.
    + cbn [run_plans fmap list_fmap]. unfold run_plan. rewrite E1. cbn [of_io map_err mbind outcome_bind].
      rewrite E2. cbn [of_io map_err mbind outcome_bind TestResponse.ok TestResponse.status].
      rewrite decide_False by (unfold STATUS_OK; tauto). cbn [TestResponse.data_port TestResponse.ok].
      rewrite Hcd. cbn [mbind outcome_bind]. rewrite E3. cbn [of_io map_err mbind outcome_bind].
      rewrite E4. cbn [of_io map_err mbind outcome_bind]. rewrite E5. done.
    + split; [done|]. rewrite Hw5, Hw4, Hw3, Hw2, Hw1. cbn. unfold client_sends at 2.
      by rewrite <- !app_assoc.
Qed.
End session.

(** All that each end sends. *)
Definition client_stream (opts : BenchOptions) (xs : list exchange) : list byte :=
  handshake_wire ++ concat (client_sends opts <$> xs) ++ TestRequest.wire TestRequest.close.

Definition server_stream (xs : list exchange) : list byte :=
  handshake_wire ++ concat (server_sends <$> xs).

Section ends.
Context {S : Type} `{AsyncReadLaws S} `{!AsyncWrite S} `{!AsyncWriteLaws S} `{!DuplexLaws S}
  `{!ReliableWrites S}.

(** The client's end: it reads the server's stream and sends its own. *)
Lemma client_runs p opts target xs spawn (open_control : Transport -> TestTarget -> px S) (c : S) :
  bench_target opts spawn = Ok target ->
  options_typed opts -> build_plans opts = ex_plan <$> xs -> xs <> [] ->
  Forall (exchange_ok p opts (addr_ip target)) xs ->
  open_control (bo_transport opts) (synthetic_target target) = Ok c -> unread c = server_stream xs ->
  exists c', run_inner p opts spawn open_control (ex_client <$> xs) = Ok (outcome_of <$> xs, c') /\
    written c' = written c ++ client_stream opts xs /\ unread c' = [].
Proof.
  intros Htarget Hty Hplans Hne Hxs%exchanges_typed Hopen Hc; [|done..].
  destruct (writes_handshake c) as (c1 & C1 & Cw1 & Cu1). rewrite Hc in Cu1.
  destruct (reads_handshake c1 _ Cu1) as (c2 & C2 & Cu2 & Cw2).
  rewrite <- (app_nil_r (concat _)) in Cu2.
  destruct (run_plans_runs p opts target xs c2 [] Hxs Cu2) as (c3 & C3 & Cu3 & Cw3).
  destruct (writes_request TestRequest.close c3) as (c4 & C4 & Cw4 & Cu4).
  exists c4. split; [|split].
  - unfold run_inner. rewrite Htarget. cbn [mbind outcome_bind].
    rewrite Hplans, decide_False by (by destruct xs). rewrite Hopen.
    cbn [of_px map_err mbind outcome_bind]. rewrite C1. cbn [of_io map_err mbind outcome_bind].
    rewrite C2. cbn [of_io map_err mbind outcome_bind]. rewrite C3. cbn [mbind outcome_bind].
    by rewrite C4.
  - rewrite Cw4, Cw3, Cw2, Cw1. unfold client_stream. by rewrite <- !app_assoc.
  - congruence.
Qed.

(** The server's end: it reads the client's stream and sends its own. *)
Lemma server_serves p opts ip xs (s : S) rest :
  options_typed opts -> build_plans opts = ex_plan <$> xs ->
  Forall (exchange_ok p opts ip) xs -> unread s = client_stream opts xs ++ rest ->
  exists s', handle_session p (Ok tt) (ex_server <$> xs) s = Ok s' /\
    written s' = written s ++ server_stream xs /\ unread s' = rest.
Proof.
  intros Hty Hplans Hxs%exchanges_typed Hs; [|done..]. unfold client_stream in Hs. rewrite <- !app_assoc in Hs.
  destruct (reads_handshake s _ Hs) as (s1 & S1 & Su1 & Sw1).
  destruct (writes_handshake s1) as (s2 & S2 & Sw2 & Su2). rewrite Su1 in Su2.
  destruct (session_loop_serves p opts ip xs s2 rest Hxs Su2) as (s3 & S3 & Su3 & Sw3).
  exists s3. split; [|split; [|done] ].
  - unfold handle_session. cbn [mbind outcome_bind]. rewrite S1. cbn [mbind outcome_bind].
    by rewrite S2.
  - rewrite Sw3, Sw2, Sw1. unfold server_stream. by rewrite <- !app_assoc.
Qed.
End ends.

(** ** Properties *)

(** C1: the two ends of a session understand each other: for any selection of
    tests whose data phases succeed, the client, reading what the server
    sends, and the server, reading what the client sends, both finish; they
    send exactly the two streams, read all of what the other sent, and the
    outcomes pair each plan with its client and server reports. *)
Theorem session_agreement {S} `{AsyncReadLaws S} `{!AsyncWrite S} `{!AsyncWriteLaws S}
    `{!DuplexLaws S} `{!ReliableWrites S}
    (p : profile) (opts : BenchOptions) (target : SocketAddr) (xs : list exchange)
    (spawn : anyhow SocketAddr) (open_control : Transport -> TestTarget -> px S) (c s : S) :
  bench_target opts spawn = Ok target ->
  options_typed opts -> build_plans opts = ex_plan <$> xs -> xs <> [] ->
  Forall (exchange_ok p opts (addr_ip target)) xs ->
  open_control (bo_transport opts) (synthetic_target target) = Ok c ->
  unread c = server_stream xs -> unread s = client_stream opts xs ->
  exists c' s',
    run_inner p opts spawn open_control (ex_client <$> xs) = Ok (outcome_of <$> xs, c') /\
    handle_session p (Ok tt) (ex_server <$> xs) s = Ok s' /\
    written c' = written c ++ client_stream opts xs /\ written s' = written s ++ server_stream xs /\
    unread c' = [] /\ unread s' = [].
Proof.
  intros Htarget Hty Hplans Hne Hxs Hopen Hc Hs.
  destruct (client_runs p opts target xs spawn open_control c Htarget Hty Hplans Hne Hxs Hopen Hc)
    as (c' & Ec & Hwc & Huc).
  rewrite <- (app_nil_r (client_stream opts xs)) in Hs.
  destruct (server_serves p opts (addr_ip target) xs s [] Hty Hplans Hxs Hs) as (s' & Es & Hws & Hus).
  by exists c', s'.
Qed.

(** A TCP upload of 3000 bytes, of which the server saw all. *)
Definition demo_options : BenchOptions :=
  mk_bench_options (Transport.Direct (mk_direct_config None))
    (Some (mk_addr (V4 [Byte.x0a; Byte.x00; Byte.x00; Byte.x02]) 5202)) false None ModeTcp Up 1000000000 [] 1200 2000.

Definition demo_server : server_env :=
  mk_server_env (Ok (mk_addr (V4 [Byte.x0a; Byte.x00; Byte.x00; Byte.x02]) 5202))
    (fun a => Ok (mk_addr (addr_ip a) 40000)) (Ok tt) (Ok tt) 0 1500000000 []
    [Recv (Ok 1500); Tick 600000000; Recv (Ok 1500); Recv (Ok 0)] (Err early_eof) 0 [] [] (fun _ => Ok 0).

Definition demo_client : client_env :=
  mk_client_env (fun _ => Ok tt) 0 1000000005 [(1, Ok 2000); (2, Ok 1000); (1000000001, Ok 0)] []
    (fun _ => Ok tt) [] [].

Definition demo_exchange : exchange :=
  mk_exchange (mk_plan KIND_TCP_UP 0 (lit "TCP upload")) demo_client demo_server 40000
    (tcp_report 3000 1000000005) (tcp_report 3000 1500000000).

Lemma demo_exchange_ok :
  exchange_ok Dev demo_options (V4 [Byte.x0a; Byte.x00; Byte.x00; Byte.x02]) demo_exchange.
Proof.
  split; [reflexivity|]. split; [solve_closed|]. split; vm_compute; reflexivity.
Qed.

Lemma demo_options_typed : options_typed demo_options.
Proof. split; [solve_closed|]. split; [solve_closed|by apply Forall_nil]. Qed.

Example session_agreement_witness :
  exists c' s',
    run_inner Dev demo_options (Err []) (fun _ _ => Ok (mk_pipe (server_stream [demo_exchange]) []))
      [demo_client] = Ok ([outcome_of demo_exchange], c') /\
    handle_session Dev (Ok tt) [demo_server] (mk_pipe (client_stream demo_options [demo_exchange]) []) =
      Ok s' /\
    pi_out c' = client_stream demo_options [demo_exchange] /\ pi_out s' = server_stream [demo_exchange].
Proof.
  destruct (session_agreement Dev demo_options (mk_addr (V4 [Byte.x0a; Byte.x00; Byte.x00; Byte.x02]) 5202)
    [demo_exchange] (Err []) (fun _ _ => Ok (mk_pipe (server_stream [demo_exchange]) []))
    (mk_pipe (server_stream [demo_exchange]) [])
    (mk_pipe (client_stream demo_options [demo_exchange]) []))
    as (c' & s' & Hc & Hs & Hwc & Hws & _).
  - reflexivity.
  - exact demo_options_typed.
  - vm_compute. reflexivity.
  - discriminate.
  - apply Forall_cons_2; [exact demo_exchange_ok|by apply Forall_nil].
  - reflexivity.
  - reflexivity.
  - reflexivity.
  - exists c', s'. split; [exact Hc|]. split; [exact Hs|]. split; [exact Hwc|exact Hws].
Defined.

(** ** What a request keeps of the options *)

(** The size of the payload asked for. *)
Definition asked_size (opts : BenchOptions) (plan : Plan) : Z :=
  if is_udp_kind (pl_kind plan) then bo_udp_size opts else bo_tcp_chunk opts.

Lemma cast_u_carries w x : 0 <= w -> 0 <= x -> cast_u w x <= x /\ (cast_u w x = x <-> x < 2 ^ w).
Proof.
  intros Hw Hx. unfold cast_u. pose proof (Z.mod_pos_bound x (2 ^ w) ltac:(lia)).
  split; [apply Z.mod_le; lia|]. split; [lia|]. intros Hlt. by apply Z.mod_small.
Qed.

(** Milliseconds of 32 bits, in nanoseconds. *)
Lemma millis_carried d :
  0 <= d ->
  cast_u 32 (d / 1000000) * 1000000 <= d /\
  (d < 2 ^ 32 * 1000000 -> d < cast_u 32 (d / 1000000) * 1000000 + 1000000) /\
  (2 ^ 32 * 1000000 <= d -> cast_u 32 (d / 1000000) * 1000000 <= d - 2 ^ 32 * 1000000).
Proof.
  intros Hd. set (q := d / 1000000).
  assert (q * 1000000 <= d < q * 1000000 + 1000000 /\ 0 <= q) as [Hq Hq0].
  { pose proof (Z.div_mod d 1000000) as Hdm. pose proof (Z.mod_pos_bound d 1000000). fold q in Hdm. lia. }
  destruct (cast_u_carries 32 q) as [Hle Heq]; [lia..|]. split; [lia|]. split.
  - intros Hlt. destruct Heq as [_ ->]; lia.
  - intros Hge. assert (2 ^ 32 <= q) as Hq32 by lia. unfold cast_u in *.
    pose proof (Z.div_mod q (2 ^ 32) ltac:(lia)). pose proof (Z.div_le_lower_bound q (2 ^ 32) 1). lia.
Qed.

(** C15: what the server learns of a planned test.  The request is
    well-formed and carries kind and bandwidth as they are.  The server's
    time for an upload that starts with the client's is at most the grace
    longer than the client sends and at least the grace less a
    millisecond, and a download stops before the client stops to wait, all of
    it as long as the duration is below 2^32 ms, which every duration the
    command line accepts up to 49 days is; a longer one is cut modulo 2^32 ms,
    and when the cut is by more than the grace the server ends an upload before
    the client does.  The payload size is the one asked for if and only if it
    is below 2^32. *)
Theorem request_carries_options (opts : BenchOptions) (plan : Plan) (start : Z) :
  options_typed opts -> 0 <= bo_duration opts -> plan ∈ build_plans opts ->
  let req := plan_request opts plan in
  let sends_until := start + bo_duration opts in
  let serves_until := start + TestRequest.duration_ms req * 1000000 in
  TestRequest.wf req /\ TestRequest.kind req = pl_kind plan /\
  TestRequest.bandwidth_bps req = pl_bandwidth_bps plan /\
  (bo_duration opts < 2 ^ 32 * 1000000 ->
     sends_until + STRAGGLE_GRACE - 1000000 < server_deadline req start <= sends_until + STRAGGLE_GRACE /\
     serves_until + STRAGGLE_GRACE <= client_stop_at start (bo_duration opts) < serves_until + STRAGGLE_GRACE + 1000000) /\
  (2 ^ 32 * 1000000 <= bo_duration opts ->
     server_deadline req start < sends_until /\ serves_until < sends_until) /\
  (TestRequest.payload_size req = asked_size opts plan <-> asked_size opts plan < 2 ^ 32).
Proof.
  intros (Hu & Ht & Hbw) Hd Hplan req sends_until serves_until.
  pose proof (build_plans_typed opts Hbw) as Hty. rewrite Forall_forall in Hty.
  destruct (Hty plan Hplan) as [Hk Hb]. destruct (millis_carried _ Hd) as (Hle & Hsmall & Hbig).
  unfold server_deadline, client_stop_at, serves_until, sends_until. subst req.
  split; [by apply plan_request_wf|]. split; [done|]. split; [done|].
  cbn [plan_request TestRequest.duration_ms TestRequest.payload_size]. unfold STRAGGLE_GRACE.
  split; [intros H; specialize (Hsmall H); lia|]. split; [intros H; specialize (Hbig H); lia|].
  unfold asked_size, in_u in *. destruct (is_udp_kind _); apply cast_u_carries; lia.
Qed.

Lemma request_carries_options_witness :
  let req := plan_request demo_options (ex_plan demo_exchange) in
  1000000000 + 499000000 < server_deadline req 0 <= 1500000000 /\ TestRequest.payload_size req = 2000.
Proof.
  destruct (request_carries_options demo_options (ex_plan demo_exchange) 0) as (_ & _ & _ & Hd & _ & Hs).
  - exact demo_options_typed.
  - vm_compute. discriminate.
  - apply list_elem_of_here.
  - cbn zeta. split; [destruct Hd as [Hd _]; [vm_compute; reflexivity|exact Hd]|].
    apply Hs. vm_compute. reflexivity.
Defined.
