(* ===== verification/BenchListener.v ===== *)
(** * The listening bench server (src/bench/server.rs, src/bench/client.rs)

    [run], [run_until_signal] and [accept_loop], and the in-process server of
    [--serve] with the channel its address comes back on. *)
From S2P Require Import Prelude AsyncIo Text Net Float64 Errors Listener Protocol Stats Pacer UdpPlane.
From S2P Require Import TcpPlane Socks5Udp Os SocksLib Config Handshake Direct Transport.
From S2P Require Import BenchServer BenchClient Typing BenchSession.

(** An accepted connection and what its session meets. *)
Record connection (S : Type) : Type := mk_connection {
  cn_nodelay : io unit;
  cn_envs : list server_env;
  cn_stream : S;
}.

Arguments mk_connection {S} _ _ _.
Arguments cn_nodelay {S} _.
Arguments cn_envs {S} _.
Arguments cn_stream {S} _.

(** What a server does: say where it listens, on standard error or to the
    one who waits for it, and start sessions, whose errors are logged. *)
Inductive action (S : Type) : Type :=
| Listening (addr : SocketAddr)
| Ready (addr : SocketAddr)
| Session (peer : SocketAddr) (result : io S).

Arguments Listening {S} _.
Arguments Ready {S} _.
Arguments Session {S} _ _.

Section server.
Context {S : Type} `{AsyncRead S} `{AsyncWrite S} (p : profile).
Context (tcp_bind : SocketAddr -> io (listener (connection S))).

Definition session_task (stream : connection S) (peer : SocketAddr) : action S :=
  Session peer (handle_session p (cn_nodelay stream) (cn_envs stream) (cn_stream stream)).

Definition accept_loop (listener : listener (connection S)) : task (action S) unit :=
  accepting session_task (li_accepts listener).

Definition run (bind : IpAddr) (port : Z) : task (action S) unit :=
  listener ← lift (of_io (tcp_bind (mk_addr bind port)));
  local ← lift (of_io (li_local_addr listener));
  _ ← emit (Listening local);
  accept_loop listener.

(** The loop of [run_until_signal]: [shutdown] is the number of turns after
    which the signal is seen, if it ever is. *)
Fixpoint signal_loop (shutdown : option nat) (accepts : list (io (connection S * SocketAddr))) :
    task (action S) unit :=
  match shutdown, accepts with
  | Some O, _ => lift (Ok tt)
  | Some _, [] | Some _, Hang :: _ => lift (Ok tt)
  | None, [] => lift Hang
  | _, accept :: accepts =>
      '(stream, peer) ← lift (of_io accept);
      _ ← emit (session_task stream peer);
      signal_loop (Nat.pred <$> shutdown) accepts
  end.

Definition run_until_signal (shutdown : option nat) (bind : IpAddr) (port : Z) : task (action S) unit :=
  listener ← lift (of_io (tcp_bind (mk_addr bind port)));
  local ← lift (of_io (li_local_addr listener));
  _ ← emit (Ready local);
  signal_loop shutdown (li_accepts listener).

Definition localhost : IpAddr := V4 (z2b <$> [127; 0; 0; 1]).

(** The server that [spawn_local_server] starts. *)
Definition local_server (shutdown : option nat) (opts : BenchOptions) : task (action S) unit :=
  run_until_signal shutdown localhost (default 0 (bo_serve_port opts)).

Definition ready_addr (a : action S) : option SocketAddr :=
  match a with Ready addr => Some addr | _ => None end.

(** The address sent on the channel; a sender that is gone without sending
    closes it. *)
Definition spawn_local_server (shutdown : option nat) (opts : BenchOptions) : anyhow SocketAddr :=
  let server := local_server shutdown opts in
  match head (omap ready_addr (actions server)), ending server with
  | Some addr, _ => Ok addr
  | None, Hang => Hang
  | None, _ => Err (lit "channel closed")
  end.
End server.

(** ** Lemmas *)
Section lemmas.
Context {S : Type} `{AsyncRead S} `{AsyncWrite S} (p : profile).

(** A bound server starts a session for each connection made before the first
    failure of [accept], and ends with that failure. *)
Lemma run_spec tcp_bind ip port (l : listener (connection S)) local :
  tcp_bind (mk_addr ip port) = Ok l -> li_local_addr l = Ok local ->
  run p tcp_bind ip port =
    mk_task (Listening local :: ((fun c => session_task p c.1 c.2) <$> accepted (li_accepts l)))
      (stopped (li_accepts l)).
Proof.
  intros Hb Hl. unfold run. erewrite bind_lift_Ok by (by rewrite Hb).
  erewrite bind_lift_Ok by (by rewrite Hl). rewrite bind_emit. unfold accept_loop.
  by rewrite accepting_spec.
Qed.

(** The signal ends the loop when it is seen, and a failure that is seen
    before it does. *)
Lemma signal_loop_spec shutdown (accepts : list (io (connection S * SocketAddr))) :
  signal_loop p shutdown accepts =
    match shutdown with
    | None => mk_task ((fun c => session_task p c.1 c.2) <$> accepted accepts) (stopped accepts)
    | Some n =>
        mk_task ((fun c => session_task p c.1 c.2) <$> accepted (take n accepts))
          (match stopped (take n accepts) with Hang => Ok tt | r => r end)
    end.
Proof.
  revert shutdown. induction accepts as [|a accepts IH]; intros [ [|n] |]; try done;
    cbn [signal_loop]; (destruct a as [ [s peer]|e| |]; [|done..]);
    erewrite bind_lift_Ok by reflexivity; cbn beta iota; rewrite bind_emit;
    [change (Nat.pred <$> Some _) with (Some n)|change (Nat.pred <$> None) with (@None nat)];
    by rewrite IH.
Qed.
End lemmas.

(** Without an address the guard of the in-process server is an error. *)
Lemma spawn_fails {S} `{AsyncRead S} `{AsyncWrite S} p tcp_bind shutdown opts (e : io_error) :
  (tcp_bind (mk_addr localhost (default 0 (bo_serve_port opts))) = Err e \/
   exists l : listener (connection S),
     tcp_bind (mk_addr localhost (default 0 (bo_serve_port opts))) = Ok l /\ li_local_addr l = Err e) ->
  spawn_local_server p tcp_bind shutdown opts = Err (lit "channel closed") /\
  ending (local_server p tcp_bind shutdown opts) = Err (io_msg e).
Proof.
  intros Hf. unfold spawn_local_server, local_server, run_until_signal.
  destruct Hf as [Hb|(l & Hb & Hl)]; rewrite Hb; [done|].
  erewrite bind_lift_Ok by reflexivity. by rewrite Hl.
Qed.

Lemma spawn_succeeds {S} `{AsyncRead S} `{AsyncWrite S} p tcp_bind shutdown opts
    (l : listener (connection S)) local :
  tcp_bind (mk_addr localhost (default 0 (bo_serve_port opts))) = Ok l -> li_local_addr l = Ok local ->
  spawn_local_server p tcp_bind shutdown opts = Ok local /\
  local_server p tcp_bind shutdown opts =
    mk_task (Ready local :: actions (signal_loop p shutdown (li_accepts l)))
      (ending (signal_loop p shutdown (li_accepts l))).
Proof.
  intros Hb Hl. unfold spawn_local_server, local_server, run_until_signal.
  erewrite !bind_lift_Ok by (by rewrite Hb). erewrite bind_lift_Ok by (by rewrite Hl).
  by rewrite bind_emit.
Qed.

(** ** Properties *)

(** C12: a session of the bench server depends on nobody else's.  Whoever
    connected before, with whatever data, and whoever comes after: a client
    that sends a session's stream has it served to the end, its reports sent.
    Only a failing call of [accept] ends the server, with its error; those
    who connect after it are not served. *)
Theorem bench_server_isolates {S} `{AsyncReadLaws S} `{!AsyncWrite S} `{!AsyncWriteLaws S}
    `{!DuplexLaws S} `{!ReliableWrites S} p tcp_bind ip port (l : listener (connection S)) local
    before c peer after opts target xs :
  tcp_bind (mk_addr ip port) = Ok l -> li_local_addr l = Ok local ->
  li_accepts l = (Ok <$> before) ++ Ok (c, peer) :: after ->
  options_typed opts -> build_plans opts = ex_plan <$> xs ->
  Forall (exchange_ok p opts target) xs -> cn_nodelay c = Ok tt -> cn_envs c = ex_server <$> xs ->
  unread (cn_stream c) = client_stream opts xs ->
  (exists s', actions (run p tcp_bind ip port) !! Datatypes.S (length before) = Some (Session peer (Ok s')) /\
     written s' = written (cn_stream c) ++ server_stream xs /\ unread s' = []) /\
  (forall served e rest, after = (Ok <$> served) ++ Err e :: rest ->
     ending (run p tcp_bind ip port) = Err (io_msg e) /\
     length (actions (run p tcp_bind ip port)) = (length before + length served + 2)%nat).
Proof.
  intros Hb Hl Ha Hty Hplans Hxs Hn He Hu.
  rewrite <- (app_nil_r (client_stream opts xs)) in Hu.
  destruct (server_serves p opts target xs (cn_stream c) [] Hty Hplans Hxs Hu) as (s' & Es & Hw & Hu').
  rewrite (run_spec p tcp_bind ip port l local Hb Hl), Ha. cbn [actions ending]. split.
  - exists s'. split; [|done]. rewrite lookup_cons, list_lookup_fmap.
    assert (accepted ((Ok <$> before) ++ Ok (c, peer) :: after) = before ++ (c, peer) :: accepted after) as ->.
    { clear. induction before as [|b before IH]; [done|]. cbn. by rewrite IH. }
    rewrite list_lookup_middle by done. cbn. unfold session_task. by rewrite Hn, He, Es.
  - intros served e rest ->.
    assert ((Ok <$> before) ++ Ok (c, peer) :: (Ok <$> served) ++ Err e :: rest
            = (Ok <$> (before ++ (c, peer) :: served)) ++ Err e :: rest) as ->.
    { by rewrite fmap_app, <- app_assoc. }
    destruct (stopped_error (before ++ (c, peer) :: served) e rest) as [-> ->].
    split; [done|]. cbn [length]. rewrite length_fmap, length_app. cbn. lia.
Qed.

(** A noisy client, a session, a failing [accept] and one connection more. *)
Definition demo_peer : SocketAddr := mk_addr localhost 50000.

Definition noise : connection pipe_end := mk_connection (Ok tt) [] (mk_pipe (lit "GET / HTTP/1.1") []).

Definition demo_connection : connection pipe_end :=
  mk_connection (Ok tt) [demo_server] (mk_pipe (client_stream demo_options [demo_exchange]) []).

Definition emfile : io_error := mk_io_error (OtherKind 24) (lit "Too many open files (os error 24)").

Definition demo_listener : listener (connection pipe_end) :=
  mk_listener (Ok (mk_addr localhost 5555))
    [Ok (noise, demo_peer); Ok (demo_connection, demo_peer); Err emfile; Ok (demo_connection, demo_peer)].

Lemma bench_server_isolates_witness :
  (exists s', actions (run Dev (fun _ => Ok demo_listener) localhost 5555) !! 2%nat =
      Some (Session demo_peer (Ok s')) /\ pi_out s' = server_stream [demo_exchange]) /\
  ending (run Dev (fun _ => Ok demo_listener) localhost 5555) = Err (io_msg emfile).
Proof.
  destruct (bench_server_isolates Dev (fun _ => Ok demo_listener) localhost 5555 demo_listener
    (mk_addr localhost 5555) [(noise, demo_peer)] demo_connection demo_peer
    [Err emfile; Ok (demo_connection, demo_peer)] demo_options
    (V4 [Byte.x0a; Byte.x00; Byte.x00; Byte.x02]) [demo_exchange]) as [ (s' & Hs & Hw & _) He].
  - reflexivity.
  - reflexivity.
  - reflexivity.
  - exact demo_options_typed.
  - vm_compute. reflexivity.
  - apply Forall_cons_2; [exact demo_exchange_ok|by apply Forall_nil].
  - reflexivity.
  - reflexivity.
  - reflexivity.
  - split; [exists s'; split; [exact Hs|exact Hw]|].
    exact (proj1 (He [] emfile [Ok (demo_connection, demo_peer)] eq_refl)).
Defined.

(** C13: a run with --serve and no target tests the server it started: the
    control connection is to the address the server listens on, both ends
    finish, the outcomes pair the plans with the reports of both, and the
    server ends when its guard is dropped.  A server that cannot listen is an
    error of the run before anything is connected, but one that says no more
    than "channel closed"; its own error is only logged. *)
Theorem serve_mode {S} `{AsyncReadLaws S} `{!AsyncWrite S} `{!AsyncWriteLaws S}
    `{!DuplexLaws S} `{!ReliableWrites S} p tcp_bind opts (open_control : Transport -> TestTarget -> px S) :
  bo_serve opts = true -> bo_target opts = None -> options_typed opts ->
  (forall (l : listener (connection S)) target c conn peer xs,
     tcp_bind (mk_addr localhost (default 0 (bo_serve_port opts))) = Ok l -> li_local_addr l = Ok target ->
     li_accepts l = [Ok (conn, peer)] -> build_plans opts = ex_plan <$> xs -> xs <> [] ->
     Forall (exchange_ok p opts (addr_ip target)) xs ->
     open_control (bo_transport opts) (synthetic_target target) = Ok c -> unread c = server_stream xs ->
     cn_nodelay conn = Ok tt -> cn_envs conn = ex_server <$> xs ->
     unread (cn_stream conn) = client_stream opts xs ->
     exists c' s',
       run_inner p opts (spawn_local_server p tcp_bind (Some 1%nat) opts) open_control (ex_client <$> xs) =
         Ok (outcome_of <$> xs, c') /\
       local_server p tcp_bind (Some 1%nat) opts = mk_task [Ready target; Session peer (Ok s')] (Ok tt) /\
       unread c' = [] /\ unread s' = []) /\
  (forall e shutdown envs,
     (tcp_bind (mk_addr localhost (default 0 (bo_serve_port opts))) = Err e \/
      exists l, tcp_bind (mk_addr localhost (default 0 (bo_serve_port opts))) = Ok l /\ li_local_addr l = Err e) ->
     run_inner p opts (spawn_local_server p tcp_bind shutdown opts) open_control envs =
       Err (lit "channel closed") /\
     ending (local_server p tcp_bind shutdown opts) = Err (io_msg e)).
Proof.
  intros Hserve Htarget Hty. split.
  - intros l target c conn peer xs Hb Hl Ha Hplans Hne Hxs Hopen Hc Hn He Hu.
    destruct (spawn_succeeds p tcp_bind (Some 1%nat) opts l target Hb Hl) as [Hspawn Hserver].
    destruct (client_runs p opts target xs (spawn_local_server p tcp_bind (Some 1%nat) opts)
      open_control c) as (c' & Ec & _ & Huc); try done.
    { unfold bench_target. by rewrite Hserve, Hspawn, Htarget. }
    rewrite <- (app_nil_r (client_stream opts xs)) in Hu.
    destruct (server_serves p opts (addr_ip target) xs (cn_stream conn) [] Hty Hplans Hxs Hu) as (s' & Es & _ & Hus).
    exists c', s'. split; [done|]. split; [|done].
    rewrite Hserver, signal_loop_spec, Ha. cbn. unfold session_task. by rewrite Hn, He, Es.
  - intros e shutdown envs Hf. destruct (spawn_fails p tcp_bind shutdown opts e Hf) as [Hs He].
    split; [|done]. unfold run_inner, bench_target. by rewrite Hserve, Hs.
Qed.

Definition serve_options : BenchOptions :=
  mk_bench_options (Transport.Direct (mk_direct_config None)) None true (Some 5555)
    ModeTcp Up 1000000000 [] 1200 2000.

Lemma serve_options_typed : options_typed serve_options.
Proof. split; [solve_closed|]. split; [solve_closed|by apply Forall_nil]. Qed.

Definition serve_listener : listener (connection pipe_end) :=
  mk_listener (Ok (mk_addr localhost 5555)) [Ok (demo_connection, demo_peer)].

Lemma serve_mode_witness :
  (exists c' s',
     run_inner Dev serve_options (spawn_local_server Dev (fun _ => Ok serve_listener) (Some 1%nat) serve_options)
       (fun _ _ => Ok (mk_pipe (server_stream [demo_exchange]) [])) [demo_client] =
       Ok ([outcome_of demo_exchange], c') /\
     local_server Dev (fun _ => Ok serve_listener) (Some 1%nat) serve_options =
       mk_task [Ready (mk_addr localhost 5555); Session demo_peer (Ok s')] (Ok tt)) /\
  run_inner Dev serve_options
    (spawn_local_server (S:=pipe_end) Dev (fun _ => Err emfile) (Some 1%nat) serve_options)
    (fun _ _ => Ok (mk_pipe [] [])) [] = Err (lit "channel closed").
Proof.
  split.
  - destruct (proj1 (serve_mode Dev (fun _ => Ok serve_listener) serve_options
      (fun _ _ => Ok (mk_pipe (server_stream [demo_exchange]) [])) eq_refl eq_refl serve_options_typed)
      serve_listener (mk_addr localhost 5555) (mk_pipe (server_stream [demo_exchange]) [])
      demo_connection demo_peer [demo_exchange]) as (c' & s' & Hc & Hs & _).
    + reflexivity.
    + reflexivity.
    + reflexivity.
    + vm_compute. reflexivity.
    + discriminate.
    + apply Forall_cons_2; [exact demo_exchange_ok|by apply Forall_nil].
    + reflexivity.
    + reflexivity.
    + reflexivity.
    + reflexivity.
    + reflexivity.
    + exists c', s'. split; [exact Hc|exact Hs].
  - apply (proj2 (serve_mode (S:=pipe_end) Dev (fun _ => Err emfile) serve_options
      (fun _ _ => Ok (mk_pipe [] [])) eq_refl eq_refl serve_options_typed) emfile (Some 1%nat) []).
    left. reflexivity.
Defined.
