(* ===== verification/SessionSteps.v ===== *)
(** * Bench sessions as a transition system

    The control flow of [handle_session] and of the loop of [run_inner],
    message by message: program counters for the two ends, the control
    connection as two queues, and of the data plane only whether anything
    has reached the server's data port.  A data phase returns any report,
    fails, or stays for ever in one of its calls that has no timeout: opening
    a connection or an association through a proxy, and the [write] of a TCP
    sender.  An end that fails drops its connections.  The control connection
    is reliable, and its few short messages always fit its buffers. *)
From stdpp Require Import relations.
From S2P Require Import Prelude AsyncIo Text Protocol.
From S2P Require Import Net Float64 Errors Stats Pacer UdpPlane TcpPlane.
From S2P Require Import Socks5Udp Os SocksLib Config Handshake Direct Transport BenchServer BenchClient.

#[local] Open Scope Z_scope.

(** Client to server, and server to client. *)
Inductive c_msg : Type := MHello | MReq (r : TestRequest.t) | MRep (r : TestReport.t).
Inductive s_msg : Type := DHello | DResp (r : TestResponse.t) | DRep (r : TestReport.t).

(** [run_inner] between its awaits: the plans still to run are part of the
    position. *)
Inductive c_pc : Type :=
| CHello (todo : list Plan)
| CWaitHello (todo : list Plan)
| CNext (todo : list Plan)
| CResp (plan : Plan) (todo : list Plan)
| CData (plan : Plan) (todo : list Plan)
| CRun (plan : Plan) (todo : list Plan)
| CBlocked (plan : Plan) (todo : list Plan)  (* in an untimed call *)
| CReport (plan : Plan) (todo : list Plan) (crep : TestReport.t)
| CSend (plan : Plan) (todo : list Plan) (crep srep : TestReport.t)
| CDone.

(** [handle_session] between its awaits. *)
Inductive s_pc : Type :=
| SHello
| SGreet
| SLoop
| SBind (req : TestRequest.t)
| SWait (req : TestRequest.t)
| SRun (req : TestRequest.t)
| SBlocked (req : TestRequest.t)  (* in an untimed call *)
| SRep (req : TestRequest.t) (srep : TestReport.t)
| SAck (req : TestRequest.t) (srep : TestReport.t)
| SDone.

Record state : Type := mk_state {
  cpc : c_pc;
  spc : s_pc;
  up : list c_msg;
  down : list s_msg;
  arrived : bool;  (* something has reached the data port *)
  c_failed : bool;
  s_failed : bool;
  outs : list BenchOutcome;  (* the client's outcomes *)
  served : list (TestRequest.t * TestReport.t);  (* what the server reported *)
}.

Definition known (kind : Z) : bool := (0 <=? kind) && (kind <=? KIND_UDP_DOWN).

Section session.
Context (opts : BenchOptions).

(** Whether the data connections go through a proxy. *)
Definition proxied : bool := negb (is_direct (bo_transport opts)).

(** The data phases of the client with a call that may never return. *)
Definition c_untimed (plan : Plan) : bool := proxied || (pl_kind plan =? KIND_TCP_UP).

Definition start (plans : list Plan) : state :=
  mk_state (CHello plans) SHello [] [] false false false [] [].

Definition c_over (s : state) : bool := c_failed s || match cpc s with CDone => true | _ => false end.
Definition s_over (s : state) : bool := s_failed s || match spc s with SDone => true | _ => false end.

(** The client has dropped the data connection of a download: [run_tcp_data]
    has returned. *)
Definition c_dropped (s : state) : bool :=
  c_over s || match cpc s with CReport _ _ _ => true | _ => false end.

(** The client, when it has not failed: its position, the queues and the
    rest after one move. *)
Inductive c_step : c_pc -> list s_msg -> bool -> c_pc -> list c_msg -> list s_msg -> bool ->
    list BenchOutcome -> Prop :=
| c_hello todo down a : c_step (CHello todo) down a (CWaitHello todo) [MHello] down a []
| c_greeted todo down a : c_step (CWaitHello todo) (DHello :: down) a (CNext todo) [] down a []
| c_request plan todo down a :
    c_step (CNext (plan :: todo)) down a (CResp plan todo) [MReq (plan_request opts plan)] down a []
| c_close down a : c_step (CNext []) down a CDone [MReq TestRequest.close] down a []
| c_accepted plan todo r down a : TestResponse.status r = STATUS_OK ->
    c_step (CResp plan todo) (DResp r :: down) a (CData plan todo) [] down a []
| c_reach plan todo down : c_step (CData plan todo) down false (CData plan todo) [] down true []
| c_open plan todo down a : c_step (CData plan todo) down a (CRun plan todo) [] down true []
| c_silent plan todo down a : is_udp_kind (pl_kind plan) || proxied = true ->
    c_step (CData plan todo) down a (CRun plan todo) [] down a []
| c_open_blocks plan todo down a : proxied = true ->
    c_step (CData plan todo) down a (CBlocked plan todo) [] down a []
| c_write_blocks plan todo down a : pl_kind plan = KIND_TCP_UP ->
    c_step (CRun plan todo) down a (CBlocked plan todo) [] down a []
| c_data plan todo crep down a : c_step (CRun plan todo) down a (CReport plan todo crep) [] down a []
| c_report plan todo crep srep down a :
    c_step (CReport plan todo crep) (DRep srep :: down) a (CSend plan todo crep srep) [] down a []
| c_send plan todo crep srep down a :
    c_step (CSend plan todo crep srep) down a (CNext todo) [MRep crep] down a
      [mk_bench_outcome plan crep srep].

(** Where the client reads from the control connection. *)
Definition c_reading (c : c_pc) : bool :=
  match c with CWaitHello _ | CResp _ _ | CReport _ _ _ => true | _ => false end.

(** It may fail in a data phase, unless it is blocked there, and must on a
    refusal. *)
Inductive c_fails : c_pc -> list s_msg -> Prop :=
| c_rejected plan todo r down : TestResponse.status r <> STATUS_OK ->
    c_fails (CResp plan todo) (DResp r :: down)
| c_open_fails plan todo down : c_fails (CData plan todo) down
| c_data_fails plan todo down : c_fails (CRun plan todo) down.

(** The server. *)
Inductive s_step : s_pc -> list c_msg -> bool -> s_pc -> list s_msg -> list c_msg -> bool ->
    list (TestRequest.t * TestReport.t) -> Prop :=
| s_hello up a : s_step SHello (MHello :: up) a SGreet [] up a []
| s_greet up a : s_step SGreet up a SLoop [DHello] up a []
| s_request req up a : known (TestRequest.kind req) = true ->
    s_step SLoop (MReq req :: up) a (SBind req) [] up false []
| s_close req up a : TestRequest.kind req = KIND_CLOSE ->
    s_step SLoop (MReq req :: up) a SDone [] up a []
| s_unknown req up a : known (TestRequest.kind req) = false -> TestRequest.kind req <> KIND_CLOSE ->
    s_step SLoop (MReq req :: up) a SDone
      [DResp (TestResponse.err (lit "unknown test kind " ++ show_u (TestRequest.kind req)))] up a []
| s_bind req port up a :
    s_step (SBind req) up a (SWait req) [DResp (TestResponse.ok port)] up a []
| s_arrive req up : s_step (SWait req) up true (SRun req) [] up true []
| s_data req srep up a : s_step (SRun req) up a (SRep req srep) [] up a []
| s_write_blocks req up a : TestRequest.kind req = KIND_TCP_DOWN ->
    s_step (SRun req) up a (SBlocked req) [] up a []
| s_report req srep up a :
    s_step (SRep req srep) up a (SAck req srep) [DRep srep] up a [(req, srep)]
| s_ack req srep crep up a : s_step (SAck req srep) (MRep crep :: up) a SLoop [] up a [].

Definition s_reading (s : s_pc) : bool :=
  match s with SHello | SLoop | SAck _ _ => true | _ => false end.

(** It may fail to bind, to take the connection that has come, and in a data
    phase. *)
Inductive s_fails : s_pc -> bool -> Prop :=
| s_bind_fails req a : s_fails (SBind req) a
| s_accept_fails req : s_fails (SWait req) true
| s_data_fails req a : s_fails (SRun req) a.

(** One move of either end.  A read from a queue that is empty for good,
    because the other end is gone, is an error; and a blocked [write] of a
    connection without a proxy returns one when the other side has dropped its
    end, which ends the loops of [run_tcp_data] and [run_tcp_down]. *)
Inductive step : state -> state -> Prop :=
| step_client c s u d a sf o v c' msgs d' a' o' :
    c_step c d a c' msgs d' a' o' ->
    step (mk_state c s u d a false sf o v) (mk_state c' s (u ++ msgs) d' a' false sf (o ++ o') v)
| step_client_fails c s u d a sf o v :
    c_fails c d -> step (mk_state c s u d a false sf o v) (mk_state c s u d a true sf o v)
| step_client_eof c s u a sf o v :
    c_reading c = true -> s_over (mk_state c s u [] a false sf o v) = true ->
    step (mk_state c s u [] a false sf o v) (mk_state c s u [] a true sf o v)
| step_client_reset plan todo crep s u d a sf o v :
    proxied = false -> s_over (mk_state (CBlocked plan todo) s u d a false sf o v) = true ->
    step (mk_state (CBlocked plan todo) s u d a false sf o v)
      (mk_state (CReport plan todo crep) s u d a false sf o v)
| step_server c s u d a cf o v s' msgs u' a' v' :
    s_step s u a s' msgs u' a' v' ->
    step (mk_state c s u d a cf false o v) (mk_state c s' u' (d ++ msgs) a' cf false o (v ++ v'))
| step_server_fails c s u d a cf o v :
    s_fails s a -> step (mk_state c s u d a cf false o v) (mk_state c s u d a cf true o v)
| step_server_reset req srep c u d a cf o v :
    proxied = false -> c_dropped (mk_state c (SBlocked req) u d a cf false o v) = true ->
    step (mk_state c (SBlocked req) u d a cf false o v) (mk_state c (SRep req srep) u d a cf false o v)
| step_server_eof c s d a cf o v :
    s_reading s = true -> c_over (mk_state c s [] d a cf false o v) = true ->
    step (mk_state c s [] d a cf false o v) (mk_state c s [] d a cf true o v).

Definition reachable (plans : list Plan) (s : state) : Prop := rtc step (start plans) s.

(** ** The invariant *)

(** What the server has reported of the client's outcomes. *)
Definition reported (o : list BenchOutcome) : list (TestRequest.t * TestReport.t) :=
  (fun x => (plan_request opts (bc_plan x), bc_server x)) <$> o.

(** The positions of the client, and of the server with what it has sent
    and reported, during a test: in any combination. *)
Inductive c_testing (plan : Plan) (todo : list Plan) : c_pc -> Prop :=
| ct_data : c_testing plan todo (CData plan todo)
| ct_run : c_testing plan todo (CRun plan todo)
| ct_blocked : c_untimed plan = true -> c_testing plan todo (CBlocked plan todo)
| ct_report crep : c_testing plan todo (CReport plan todo crep).

Inductive s_testing (req : TestRequest.t) :
    s_pc -> list s_msg -> list (TestRequest.t * TestReport.t) -> Prop :=
| st_wait : s_testing req (SWait req) [] []
| st_run : s_testing req (SRun req) [] []
| st_blocked : TestRequest.kind req = KIND_TCP_DOWN -> s_testing req (SBlocked req) [] []
| st_rep sr : s_testing req (SRep req sr) [] []
| st_ack sr : s_testing req (SAck req sr) [DRep sr] [(req, sr)].

(** Which positions, queues and records go together; [todo] are the plans
    after those of the outcomes. *)
Inductive together : c_pc -> s_pc -> list c_msg -> list s_msg -> bool ->
    list Plan -> list (TestRequest.t * TestReport.t) -> Prop :=
| t_start todo a : together (CHello todo) SHello [] [] a todo []
| t_hello todo a : together (CWaitHello todo) SHello [MHello] [] a todo []
| t_greet todo a : together (CWaitHello todo) SGreet [] [] a todo []
| t_greeted todo a : together (CWaitHello todo) SLoop [] [DHello] a todo []
| t_next todo a : together (CNext todo) SLoop [] [] a todo []
| t_next_ack todo r sr crep a : together (CNext todo) (SAck r sr) [MRep crep] [] a todo []
| t_asked plan todo a :
    together (CResp plan todo) SLoop [MReq (plan_request opts plan)] [] a (plan :: todo) []
| t_asked_ack plan todo r sr crep a :
    together (CResp plan todo) (SAck r sr) [MRep crep; MReq (plan_request opts plan)] [] a
      (plan :: todo) []
| t_bind plan todo :
    together (CResp plan todo) (SBind (plan_request opts plan)) [] [] false (plan :: todo) []
| t_answered plan todo port :
    together (CResp plan todo) (SWait (plan_request opts plan)) [] [DResp (TestResponse.ok port)]
      false (plan :: todo) []
| t_send plan todo crep sr a :
    together (CSend plan todo crep sr) (SAck (plan_request opts plan) sr) [] [] a
      (plan :: todo) [(plan_request opts plan, sr)]
| t_closed a : together CDone SLoop [MReq TestRequest.close] [] a [] []
| t_closed_ack r sr crep a :
    together CDone (SAck r sr) [MRep crep; MReq TestRequest.close] [] a [] []
| t_done a : together CDone SDone [] [] a [] []
| t_testing plan todo c s d extra a :
    c_testing plan todo c -> s_testing (plan_request opts plan) s d extra ->
    together c s [] d a (plan :: todo) extra.

Definition inv (plans : list Plan) (s : state) : Prop :=
  exists todo extra,
    together (cpc s) (spc s) (up s) (down s) (arrived s) todo extra /\
    plans = (bc_plan <$> outs s) ++ todo /\ served s = reported (outs s) ++ extra.

Lemma inv_start plans : inv plans (start plans).
Proof. exists plans, []. split; [apply t_start|]. done. Qed.

Lemma known_plan o plan todo :
  Forall (fun pl => known (pl_kind pl) = true) ((bc_plan <$> o) ++ plan :: todo) ->
  known (TestRequest.kind (plan_request opts plan)) = true.
Proof. intros [_ [Hk _]%Forall_cons]%Forall_app. done. Qed.

Lemma known_not_close kind : known kind = true -> kind <> KIND_CLOSE.
Proof. by intros ? ->. Qed.

Lemma untimed_proxied plan : proxied = true -> c_untimed plan = true.
Proof. unfold c_untimed. by intros ->. Qed.

Lemma untimed_up plan : pl_kind plan = KIND_TCP_UP -> c_untimed plan = true.
Proof. unfold c_untimed. intros ->. by destruct proxied. Qed.

(** The case analysis of a position of a test. *)
Ltac testing_cases :=
  repeat match goal with
    | H : c_testing _ _ _ |- _ => inversion H; clear H; subst
    | H : s_testing _ _ _ _ |- _ => inversion H; clear H; subst
    end.

Lemma inv_client plans s u d a sf o v c c' msgs d' a' o' :
  Forall (fun pl => known (pl_kind pl) = true) plans ->
  inv plans (mk_state c s u d a false sf o v) -> c_step c d a c' msgs d' a' o' ->
  inv plans (mk_state c' s (u ++ msgs) d' a' false sf (o ++ o') v).
Proof.
  intros Hk (todo & extra & Ht & Hp & Hs) Hc. cbn in *.
  destruct Hc; inversion Ht; subst; testing_cases; try congruence; cbn [app]; rewrite ?app_nil_r;
    (eexists _, _; split; [cbn; once (econstructor; eauto using c_testing, s_testing, untimed_proxied, untimed_up)|]);
    cbn; rewrite ?app_nil_r; try (split; done).
  all: rewrite fmap_app, <- app_assoc; split; [done|]; unfold reported; by rewrite fmap_app.
Qed.

Lemma inv_server plans c u d a cf o v s s' msgs u' a' v' :
  Forall (fun pl => known (pl_kind pl) = true) plans ->
  inv plans (mk_state c s u d a cf false o v) -> s_step s u a s' msgs u' a' v' ->
  inv plans (mk_state c s' u' (d ++ msgs) a' cf false o (v ++ v')).
Proof.
  intros Hk (todo & extra & Ht & Hp & Hs) Hc. cbn in *.
  destruct Hc; inversion Ht; subst; testing_cases; cbn [app]; rewrite ?app_nil_r;
    try match goal with
        | H : Forall _ ((bc_plan <$> ?o) ++ ?pl :: ?t) |- _ =>
            pose proof (known_plan o pl t H) as Hkn
        end;
    try (exfalso; eapply known_not_close; [exact Hkn|done]);
    try (exfalso; congruence);
    try match goal with
        | H : known (TestRequest.kind TestRequest.close) = true |- _ => discriminate H
        | H : TestRequest.kind TestRequest.close <> KIND_CLOSE |- _ => by destruct H
        end;
    (eexists _, _; split; [cbn; once (econstructor; eauto using c_testing, s_testing, untimed_proxied, untimed_up)|]);
    cbn; rewrite ?app_nil_r; try (split; done).
Qed.

Lemma inv_step plans s s' :
  Forall (fun pl => known (pl_kind pl) = true) plans -> inv plans s -> step s s' -> inv plans s'.
Proof.
  intros Hk Hinv Hstep. destruct Hstep;
    try (destruct Hinv as (todo' & extra & Ht & Hp & Hs); exists todo', extra; cbn; done).
  - by eapply inv_client.
  - destruct Hinv as (todo' & extra & Ht & Hp & Hs). exists todo', extra. cbn in *.
    split; [|done]. inversion Ht; subst. testing_cases; by repeat constructor.
  - by eapply inv_server.
  - destruct Hinv as (todo' & extra & Ht & Hp & Hs). exists todo', extra. cbn in *.
    split; [|done]. inversion Ht; subst. testing_cases; eauto using together, c_testing, s_testing.
Qed.

Lemma inv_reachable plans s :
  Forall (fun pl => known (pl_kind pl) = true) plans -> reachable plans s -> inv plans s.
Proof.
  intros Hk. unfold reachable. generalize (inv_start plans). generalize (start plans) as s0.
  intros s0 H0 Hr. induction Hr as [|s0 s1 s2 H01 H12 IH]; [done|]. apply IH. by eapply inv_step.
Qed.

(** ** Progress and termination *)

(** The server waits at its data port and nothing will come: the client has
    failed, or is itself waiting for the server's report. *)
Definition nothing_comes (s : state) : Prop :=
  (exists req, spc s = SWait req) /\ arrived s = false /\ s_failed s = false /\
  (c_failed s = true \/ exists plan todo crep, cpc s = CReport plan todo crep).

(** An end is in a call without a timeout that does not return: the client
    opening a data connection or association through a proxy, or writing a
    TCP upload to a server that is still there; the server writing a TCP
    download that goes through a proxy. *)
Definition c_blocked (s : state) : Prop :=
  exists plan todo, cpc s = CBlocked plan todo /\ c_failed s = false /\
    (proxied = true \/ pl_kind plan = KIND_TCP_UP /\ s_over s = false).

Definition s_blocked (s : state) : Prop :=
  exists req, spc s = SBlocked req /\ s_failed s = false /\ TestRequest.kind req = KIND_TCP_DOWN /\
    proxied = true.

(** The ways of [inv_progress]. *)
Definition resolved (s : state) : Prop :=
  (exists s', step s s') \/ (c_over s = true /\ s_over s = true) \/ nothing_comes s \/
  c_blocked s \/ s_blocked s.

Ltac client_moves := left; eexists; eapply step_client; econstructor; eauto; fail.
Ltac server_moves := left; eexists; eapply step_server; econstructor; eauto; fail.
Ltac client_eof := left; eexists; eapply step_client_eof; [reflexivity|reflexivity].
Ltac server_eof := left; eexists; eapply step_server_eof; [reflexivity|reflexivity].
Ltac waits := right; right; left; unfold nothing_comes; cbn; eauto 10.

Lemma blocked_client plan todo s u d a sf o v : c_untimed plan = true ->
  resolved (mk_state (CBlocked plan todo) s u d a false sf o v).
Proof.
  intros Hu. destruct proxied eqn:Hpx.
  - right; right; right; left. exists plan, todo. eauto.
  - unfold c_untimed in Hu. rewrite Hpx in Hu. apply Z.eqb_eq in Hu.
    destruct (s_over (mk_state (CBlocked plan todo) s u d a false sf o v)) eqn:Ho.
    + left. eexists. by apply (step_client_reset plan todo TestReport.default).
    + right; right; right; left. exists plan, todo. eauto.
Qed.

Lemma blocked_server req c u d a cf o v :
  TestRequest.kind req = KIND_TCP_DOWN ->
  c_dropped (mk_state c (SBlocked req) u d a cf false o v) = true ->
  resolved (mk_state c (SBlocked req) u d a cf false o v).
Proof.
  intros Hk Hd. destruct proxied eqn:Hpx.
  - do 4 right. exists req. eauto.
  - left. eexists. by apply (step_server_reset req TestReport.default).
Qed.

(** During a test: whatever the server does, the client moves, is blocked, or
    waits for the report. *)
Lemma testing_progress plan todo c s d extra a cf sf o v :
  c_testing plan todo c -> s_testing (plan_request opts plan) s d extra ->
  resolved (mk_state c s [] d a cf sf o v).
Proof.
  intros Hc Hs. destruct cf, sf.
  - by right; left.
  - destruct Hs; first [server_moves | server_eof | idtac].
    + destruct a; [server_moves|waits].
    + by apply blocked_server.
  - destruct Hc; first [ by apply blocked_client | client_moves | idtac].
    destruct Hs; first [client_moves | client_eof].
  - destruct Hc; first [ by apply blocked_client | client_moves | idtac].
    destruct Hs; first [client_moves | server_moves | idtac].
    + destruct a; [server_moves|waits].
    + by apply blocked_server.
  Unshelve. all: exact TestReport.default.
Qed.

Lemma inv_progress plans s :
  Forall (fun pl => known (pl_kind pl) = true) plans -> inv plans s -> resolved s.
Proof.
  intros Hk (todo & extra & Ht & Hp & Hs). destruct s as [c sp u d a cf sf o v]. cbn in *.
  assert (forall pl t, todo = pl :: t -> known (TestRequest.kind (plan_request opts pl)) = true) as Hkn.
  { intros pl t ->. subst plans. by eapply known_plan. }
  destruct Ht; try (by eapply testing_progress); destruct cf, sf;
    first [ by right; left
          | client_moves | server_moves | client_eof | server_eof
          | by (left; eexists; eapply step_server, s_request, Hkn)
          | by (left; eexists; eapply step_server, s_close)
          | by (destruct todo; client_moves)
          | waits ].
  Unshelve. all: first [exact TestReport.default | exact 0].
Qed.

(** How much work is left: plans, positions and messages on the way. *)
Definition c_weight (c : c_pc) : nat :=
  match c with
  | CHello todo => 40 * length todo + 30
  | CWaitHello todo => 40 * length todo + 25
  | CNext todo => 40 * length todo + 20
  | CResp _ todo => 40 * length todo + 45
  | CData _ todo => 40 * length todo + 42
  | CRun _ todo => 40 * length todo + 40
  | CBlocked _ todo => 40 * length todo + 39
  | CReport _ todo _ => 40 * length todo + 38
  | CSend _ todo _ _ => 40 * length todo + 36
  | CDone => 0
  end%nat.

Definition s_weight (s : s_pc) : nat :=
  match s with
  | SHello => 10 | SGreet => 9 | SLoop => 0 | SBind _ => 8 | SWait _ => 6 | SRun _ => 5 | SBlocked _ => 4
  | SRep _ _ => 3 | SAck _ _ => 1 | SDone => 0
  end%nat.

Definition m_weight (m : c_msg) : nat :=
  match m with MHello => 2 | MReq _ => 12 | MRep _ => 3 end%nat.

Definition measure (s : state) : nat :=
  (c_weight (cpc s) + s_weight (spc s) + sum_list (m_weight <$> up s) + length (down s) +
   (if arrived s then 0 else 1) + (if c_failed s then 0 else 1) + (if s_failed s then 0 else 1))%nat.

Lemma sum_list_snoc (l : list c_msg) ms :
  sum_list (m_weight <$> l ++ ms) = (sum_list (m_weight <$> l) + sum_list (m_weight <$> ms))%nat.
Proof. induction l; cbn; lia. Qed.

Lemma step_measure s s' : step s s' -> (measure s' < measure s)%nat.
Proof.
  intros Hstep. destruct Hstep as [? ? ? ? ? ? ? ? ? ? ? ? ? Hc| | | |? ? ? ? ? ? ? ? ? ? ? ? ? Hc| | |];
    unfold measure; cbn [cpc spc up down arrived c_failed s_failed]; try (cbn [c_weight s_weight]; lia).
  - rewrite sum_list_snoc. destruct Hc; cbn; try destruct a; lia.
  - rewrite length_app. destruct Hc; cbn; try destruct a; lia.
Qed.

(** ** Lemmas: the first test *)
Lemma first_asked plan todo (port : Z) : known (pl_kind plan) = true ->
  reachable (plan :: todo)
    (mk_state (CData plan todo) (SWait (plan_request opts plan)) [] [] false false false [] []).
Proof.
  intros Hk. unfold reachable, start.
  eapply rtc_l; [apply step_client, c_hello|]. cbn [app].
  eapply rtc_l; [apply step_server, s_hello|]. cbn [app].
  eapply rtc_l; [apply step_server, s_greet|]. cbn [app].
  eapply rtc_l; [apply step_client, c_greeted|]. cbn [app].
  eapply rtc_l; [apply step_client, c_request|]. cbn [app].
  eapply rtc_l; [by apply step_server, s_request|]. cbn [app].
  eapply rtc_l; [apply step_server, (s_bind _ port)|]. cbn [app].
  eapply rtc_l; [by apply step_client, c_accepted|]. cbn [app]. apply rtc_refl.
Qed.

Lemma client_first plan todo :
  is_udp_kind (pl_kind plan) = true -> known (pl_kind plan) = true -> forall (port : Z) crep,
  reachable (plan :: todo)
    (mk_state (CReport plan todo crep) (SWait (plan_request opts plan)) [] [] false false false [] []).
Proof.
  intros Hudp Hk port crep. unfold reachable; etrans; [by apply (first_asked plan todo port)|].
  eapply rtc_l; [apply step_client, c_silent; by rewrite Hudp|]. cbn [app].
  eapply rtc_l; [apply step_client, (c_data plan todo crep)|]. cbn [app]. apply rtc_refl.
Qed.

(** The client is blocked in a [write], the server has reported. *)
Definition stalled (plan : Plan) (todo : list Plan) (srep : TestReport.t) : state :=
  mk_state (CBlocked plan todo) (SAck (plan_request opts plan) srep) [] [DRep srep] true false false
    [] [(plan_request opts plan, srep)].

Lemma upload_stalls plan todo srep : pl_kind plan = KIND_TCP_UP ->
  reachable (plan :: todo) (stalled plan todo srep).
Proof.
  intros Hup. unfold reachable; etrans; [apply (first_asked plan todo 0); by rewrite Hup|].
  eapply rtc_l; [apply step_client, c_open|]. cbn [app].
  eapply rtc_l; [by apply step_client, c_write_blocks|]. cbn [app].
  eapply rtc_l; [apply step_server, s_arrive|]. cbn [app].
  eapply rtc_l; [apply step_server, (s_data _ srep)|]. cbn [app].
  eapply rtc_l; [apply step_server, s_report|]. cbn [app]. apply rtc_refl.
Qed.

Ltac no_move Hs :=
  inversion Hs; subst; match goal with
    | H : c_step _ _ _ _ _ _ _ _ |- _ => inversion H
    | H : c_fails _ _ |- _ => inversion H
    | H : s_step _ _ _ _ _ _ _ _ |- _ => inversion H
    | H : s_fails _ _ |- _ => inversion H
    | H : s_over _ = true |- _ => discriminate H
    | H : c_over _ = true |- _ => discriminate H
    | H : s_reading _ = true |- _ => discriminate H
    end.

Lemma stuck_waiting plan todo crep s' :
  ~ step (mk_state (CReport plan todo crep) (SWait (plan_request opts plan)) [] [] false false false [] []) s'.
Proof. intros Hs. no_move Hs. Qed.

Lemma stuck_stalled plan todo srep s' : ~ step (stalled plan todo srep) s'.
Proof. intros Hs. no_move Hs. Qed.
End session.

Lemma build_plans_known opts : Forall (fun pl => known (pl_kind pl) = true) (build_plans opts).
Proof.
  unfold build_plans. apply Forall_app. split.
  - destruct (want_tcp _); [|by apply Forall_nil]. apply Forall_app.
    split; (case_match; [by apply Forall_cons_2, Forall_nil|by apply Forall_nil]).
  - destruct (want_udp _); [|by apply Forall_nil]. apply Forall_concat, Forall_fmap, Forall_true.
    intros bw. cbn. unfold udp_plans. apply Forall_app.
    split; (case_match; [by apply Forall_cons_2, Forall_nil|by apply Forall_nil]).
Qed.

(** ** Properties *)

(** C2: sessions end, as far as the timeouts of the code allow: every move
    leaves less to do, and a state neither end can leave is one where both
    are over, where the server waits at its data port for a connection or
    datagram that nobody will send, or where an end is in a call without a
    timeout that does not return: the client opening a data connection
    through a proxy, or writing a TCP upload to a server that is still there,
    or the server writing a TCP download that goes through a proxy. *)
Theorem session_progress (opts : BenchOptions) (s : state) :
  reachable opts (build_plans opts) s ->
  ((exists s', step opts s s') \/ (c_over s = true /\ s_over s = true) \/ nothing_comes s \/
    c_blocked opts s \/ s_blocked opts s) /\
  (forall s', step opts s s' -> (measure s' < measure s)%nat).
Proof.
  intros Hr. pose proof (build_plans_known opts) as Hk. split; [|apply step_measure].
  eapply inv_progress; [exact Hk|]. by apply inv_reachable.
Qed.

Definition demo_udp : BenchOptions :=
  mk_bench_options (Transport.Direct (mk_direct_config None)) None true None ModeUdp BothWays 1000000000 [1000000] 1200 65536.

Example session_progress_witness :
  (exists s', step demo_udp (start (build_plans demo_udp)) s') \/
  (c_over (start (build_plans demo_udp)) = true /\ s_over (start (build_plans demo_udp)) = true) \/
  nothing_comes (start (build_plans demo_udp)) \/
  c_blocked demo_udp (start (build_plans demo_udp)) \/ s_blocked demo_udp (start (build_plans demo_udp)).
Proof.
  apply (session_progress demo_udp (start (build_plans demo_udp))). apply rtc_refl.
Defined.

(** C3: a client that finishes has an outcome for each plan, in order, and
    the server report in it is the one the server made for that plan's
    request; the server has reported nothing else. *)
Theorem session_outcomes_agree (opts : BenchOptions) (s : state) :
  reachable opts (build_plans opts) s -> cpc s = CDone ->
  bc_plan <$> outs s = build_plans opts /\ served s = reported opts (outs s).
Proof.
  intros Hr Hc. apply inv_reachable in Hr as (todo & extra & Ht & Hp & Hs); [|apply build_plans_known].
  rewrite Hc in Ht. inversion Ht; subst; rewrite ?app_nil_r in *; try done.
  match goal with H : c_testing _ _ _ CDone |- _ => inversion H end.
Qed.

Definition one_tcp : BenchOptions :=
  mk_bench_options (Transport.Direct (mk_direct_config None)) None true None ModeTcp Up 1000000000 [] 1200 65536.

Definition one_plan : Plan := mk_plan KIND_TCP_UP 0 (lit "TCP upload").

Definition finished_state : state :=
  mk_state CDone SDone [] [] true false false
    [mk_bench_outcome one_plan TestReport.default TestReport.default]
    [(plan_request one_tcp one_plan, TestReport.default)].

Example session_outcomes_agree_witness :
  reachable one_tcp [one_plan] finished_state /\
  served finished_state = reported one_tcp (outs finished_state).
Proof.
  assert (reachable one_tcp (build_plans one_tcp) finished_state) as Hr.
  { unfold reachable, start.
    eapply rtc_l; [apply step_client, c_hello|]. cbn [app].
    eapply rtc_l; [apply step_server, s_hello|]. cbn [app].
    eapply rtc_l; [apply step_server, s_greet|]. cbn [app].
    eapply rtc_l; [apply step_client, c_greeted|]. cbn [app].
    eapply rtc_l; [apply step_client, c_request|]. cbn [app].
    eapply rtc_l; [apply step_server, s_request; reflexivity|]. cbn [app].
    eapply rtc_l; [apply step_server, (s_bind _ 40000)|]. cbn [app].
    eapply rtc_l; [apply step_client, c_accepted; reflexivity|]. cbn [app].
    eapply rtc_l; [apply step_client, c_open|]. cbn [app].
    eapply rtc_l; [apply step_client, (c_data one_tcp one_plan [] TestReport.default)|]. cbn [app].
    eapply rtc_l; [apply step_server, s_arrive|]. cbn [app].
    eapply rtc_l; [apply step_server, (s_data _ TestReport.default)|]. cbn [app].
    eapply rtc_l; [apply step_server, s_report|]. cbn [app].
    eapply rtc_l; [apply step_client, c_report|]. cbn [app].
    eapply rtc_l; [apply step_client, c_send|]. cbn [app].
    eapply rtc_l; [apply step_server, s_ack|]. cbn [app].
    eapply rtc_l; [apply step_client, c_close|]. cbn [app].
    eapply rtc_l; [apply step_server, s_close; reflexivity|]. cbn [app]. apply rtc_refl. }
  split; [exact Hr|]. apply (session_outcomes_agree one_tcp finished_state Hr). reflexivity.
Defined.

(** C4: nothing bounds the server's wait for the first datagram: when none of
    the client's datagrams of a first UDP test arrives, the session reaches
    a state in which both ends are alive and neither ever moves again. *)
Theorem lost_hello_deadlocks (opts : BenchOptions) plan todo :
  build_plans opts = plan :: todo -> is_udp_kind (pl_kind plan) = true ->
  exists s, reachable opts (build_plans opts) s /\ nothing_comes s /\
    c_over s = false /\ s_over s = false /\ forall s', ~ step opts s s'.
Proof.
  intros Hp Hudp. pose proof (build_plans_known opts) as Hk. rewrite Hp in *.
  apply Forall_cons in Hk as [Hk _]. eexists. split; [by apply (client_first opts plan todo Hudp Hk 0 TestReport.default)|].
  split; [|split; [done|split; [done|apply stuck_waiting] ] ].
  unfold nothing_comes. cbn. eauto 10.
Qed.

Example lost_hello_deadlocks_witness :
  exists s, reachable demo_udp (build_plans demo_udp) s /\ nothing_comes s /\
    c_over s = false /\ s_over s = false /\ forall s', ~ step demo_udp s s'.
Proof.
  apply (lost_hello_deadlocks demo_udp (mk_plan KIND_UDP_UP 1000000 (lit "UDP upload @ 1.00 Mbit/s"))
    [mk_plan KIND_UDP_DOWN 1000000 (lit "UDP download @ 1.00 Mbit/s")]).
  - vm_compute. reflexivity.
  - reflexivity.
Defined.

(** C5: nothing bounds a [write] of a TCP upload either: whatever the
    transport, a session that starts with one can reach a state in which the
    server, past its deadline, has stopped reading, has sent its report and
    keeps the data connection open while it waits for the client's, and the
    client stays in its [write]: both are alive and neither ever moves again. *)
Theorem stalled_upload_deadlocks (opts : BenchOptions) plan todo srep :
  build_plans opts = plan :: todo -> pl_kind plan = KIND_TCP_UP ->
  exists s, reachable opts (build_plans opts) s /\ c_blocked opts s /\
    spc s = SAck (plan_request opts plan) srep /\ served s = [(plan_request opts plan, srep)] /\
    c_over s = false /\ s_over s = false /\ forall s', ~ step opts s s'.
Proof.
  intros Hp Hup. exists (stalled opts plan todo srep). rewrite Hp.
  split; [by apply upload_stalls|]. split; [exists plan, todo; eauto 10|].
  do 4 (split; [done|]). apply stuck_stalled.
Qed.

Example stalled_upload_deadlocks_witness :
  exists s, reachable one_tcp (build_plans one_tcp) s /\ c_blocked one_tcp s /\
    spc s = SAck (plan_request one_tcp one_plan) TestReport.default /\
    served s = [(plan_request one_tcp one_plan, TestReport.default)] /\
    c_over s = false /\ s_over s = false /\ forall s', ~ step one_tcp s s'.
Proof.
  apply (stalled_upload_deadlocks one_tcp one_plan []).
  - vm_compute. reflexivity.
  - reflexivity.
Defined.
