(* ===== verification/Results.v ===== *)
(** * Test results (src/result.rs)

    A [Duration] is a number of nanoseconds. *)
From S2P Require Import Prelude AsyncIo Text Float64 Errors.

Inductive Protocol : Type := Http1 | Http2 | Http3.

#[export] Instance Protocol_eq_dec : EqDecision Protocol.
Proof. solve_decision. Defined.

Definition show_protocol (p : Protocol) : str :=
  match p with
  | Http1 => lit "HTTP/1.1"
  | Http2 => lit "HTTP/2"
  | Http3 => lit "HTTP/3"
  end.

Inductive TestStatus : Type := Success | Failed (err : str).

Record Timing : Type := mk_timing {
  socks_handshake : option Z;
  tcp_connect_time : option Z;
  tls_handshake : option Z;
  first_byte : Z;
  total : Z;
}.

Record TestResult : Type := mk_result {
  protocol : Protocol;
  status : TestStatus;
  http_status : option Z;
  timing : Timing;
  response_size : option Z;
}.

(** [Duration::as_millis] and [Duration::as_secs_f64]. *)
Definition as_millis (d : Z) : Z := d / 1000000.

Definition NANOS_PER_SEC : Z := 1000000000.

Definition as_secs_f64 (d : Z) : f64 :=
  f64_add (f64_of_Z (d / NANOS_PER_SEC))
    (f64_div (f64_of_Z (d mod NANOS_PER_SEC)) (f64_of_Z NANOS_PER_SEC)).

(** [Instant::elapsed] between two readings. *)
Definition elapsed (start now : Z) : Z := saturating_sub now start.

Definition when {A} (o : option A) (f : A -> str) : str :=
  match o with Some a => f a | None => [] end.

(** [Display for TestResult]. *)
Definition show_result (self : TestResult) : str :=
  let proto := lit "[" ++ show_protocol (protocol self) ++ lit "]" in
  match status self with
  | Success =>
      let st := default 0 (http_status self) in
      pad_right 10 proto ++ lit " OK " ++ show_u st ++ lit " (" ++
      show_u (as_millis (total (timing self))) ++ lit "ms)" ++
      when (socks_handshake (timing self)) (fun d => lit " socks:" ++ show_u (as_millis d) ++ lit "ms") ++
      when (tcp_connect_time (timing self)) (fun d => lit " tcp:" ++ show_u (as_millis d) ++ lit "ms") ++
      when (tls_handshake (timing self)) (fun d => lit " tls:" ++ show_u (as_millis d) ++ lit "ms") ++
      lit " ttfb:" ++ show_u (as_millis (first_byte (timing self))) ++ lit "ms" ++
      when (response_size self) (fun n => lit " size:" ++ show_u n ++ lit "B")
  | Failed err => pad_right 10 proto ++ lit " FAILED: " ++ err
  end.

Definition empty_timing : Timing := mk_timing None None None 0 0.

(** The failure report that the three [test] functions share, with the error
    of a run that did not end in time or at all. *)
Definition failed (p : Protocol) (err : str) : TestResult :=
  mk_result p (Failed err) None empty_timing None.

(** A test never fails as a call: an error is a result, a run that is not
    ready in time is one, and only a panic goes through. *)
Definition no_error := Empty_set.

Definition settle (p : Protocol) (run : px TestResult) : outcome no_error TestResult :=
  match run with
  | Ok result => Ok result
  | Err e => Ok (failed p (show_error e))
  | Hang => Ok (failed p (lit "timeout"))
  | Panic => Panic
  end.

Definition is_success (r : TestResult) : bool :=
  match status r with Success => true | Failed _ => false end.
