(* ===== verification/Tls.v ===== *)
(** * TLS configuration (src/tls.rs)

    The client configurations the program builds, and the interface of the
    TLS library that runs on them. *)
From S2P Require Import Prelude AsyncIo Text Net Errors Os.

(** The certificate verifiers: the built-in root store, and the program's own
    two, [NoVerify] of this file and [QuicNoVerify] of src/http3.rs. *)
Inductive verifier : Type := RootStore | NoVerify | QuicNoVerify.

(** The names the program uses of the library's signature schemes, with the
    numbers TLS gives them. *)
Inductive SignatureScheme : Type :=
| RSA_PKCS1_SHA256
| ECDSA_NISTP256_SHA256
| RSA_PSS_SHA256
| OtherScheme (code : Z).

#[export] Instance SignatureScheme_eq_dec : EqDecision SignatureScheme.
Proof. solve_decision. Defined.

Definition ECDSA_NISTP384_SHA384 : SignatureScheme := OtherScheme 0x0503.
Definition ED25519 : SignatureScheme := OtherScheme 0x0807.

(** [DigitallySignedStruct]. *)
Record DigitallySignedStruct : Type := mk_dss { dss_scheme : SignatureScheme; dss_sig : list byte }.

Record ClientConfig : Type := mk_client_config {
  cc_verifier : verifier;
  cc_alpn : list (list byte);
}.

Definition make_tls_config (alpn : option (list (list byte))) (insecure : bool) : px ClientConfig :=
  let config := mk_client_config (if insecure then NoVerify else RootStore) [] in
  match alpn with
  | Some protos => Ok (mk_client_config (cc_verifier config) protos)
  | None => Ok config
  end.

(** The library: server names, and the handshake on a TCP stream.  [trusted]
    is the check of a certificate against the root store and a name,
    [signature_valid] that of a signature of a message against a certificate's
    key, for the schemes [root_schemes]. *)
Class TlsLib `{Os} : Type := {
  ServerName : Type;
  Cert : Type;
  TlsStream : Type;
  tls_read :: AsyncRead TlsStream;
  tls_read_some :: AsyncReadSome TlsStream;
  tls_write :: AsyncWrite TlsStream;
  trusted : Cert -> ServerName -> bool;
  signature_valid : list byte -> Cert -> DigitallySignedStruct -> bool;
  root_schemes : list SignatureScheme;
  server_name : str -> outcome str ServerName;
  tls_connect : ClientConfig -> ServerName -> Tcp -> outcome str TlsStream;
}.

(** The two implementations of [ServerCertVerifier]: of src/tls.rs, *)
Module NoVerify.
Section methods.
Context `{TlsLib}.

Definition verify_server_cert (end_entity : Cert) (server_name : ServerName) : outcome str unit := Ok tt.

Definition verify_tls12_signature (message : list byte) (cert : Cert) (dss : DigitallySignedStruct) :
    outcome str unit := Ok tt.

Definition verify_tls13_signature (message : list byte) (cert : Cert) (dss : DigitallySignedStruct) :
    outcome str unit := Ok tt.
End methods.

Definition supported_verify_schemes : list SignatureScheme :=
  [RSA_PKCS1_SHA256; ECDSA_NISTP256_SHA256; RSA_PSS_SHA256].
End NoVerify.

(** and of src/http3.rs. *)
Module QuicNoVerify.
Section methods.
Context `{TlsLib}.

Definition verify_server_cert (end_entity : Cert) (server_name : ServerName) : outcome str unit := Ok tt.

Definition verify_tls12_signature (message : list byte) (cert : Cert) (dss : DigitallySignedStruct) :
    outcome str unit := Ok tt.

Definition verify_tls13_signature (message : list byte) (cert : Cert) (dss : DigitallySignedStruct) :
    outcome str unit := Ok tt.
End methods.

Definition supported_verify_schemes : list SignatureScheme :=
  [RSA_PKCS1_SHA256; ECDSA_NISTP256_SHA256; RSA_PSS_SHA256].
End QuicNoVerify.

(** What a configured verifier accepts. *)
Section verifiers.
Context `{TlsLib} (v : verifier).

Definition verify_server_cert (c : Cert) (n : ServerName) : bool :=
  match v with
  | RootStore => trusted c n
  | NoVerify => is_ok (NoVerify.verify_server_cert c n)
  | QuicNoVerify => is_ok (QuicNoVerify.verify_server_cert c n)
  end.

Definition verify_tls12_signature (message : list byte) (c : Cert) (dss : DigitallySignedStruct) : bool :=
  match v with
  | RootStore => signature_valid message c dss
  | NoVerify => is_ok (NoVerify.verify_tls12_signature message c dss)
  | QuicNoVerify => is_ok (QuicNoVerify.verify_tls12_signature message c dss)
  end.

Definition verify_tls13_signature (message : list byte) (c : Cert) (dss : DigitallySignedStruct) : bool :=
  match v with
  | RootStore => signature_valid message c dss
  | NoVerify => is_ok (NoVerify.verify_tls13_signature message c dss)
  | QuicNoVerify => is_ok (QuicNoVerify.verify_tls13_signature message c dss)
  end.

Definition supported_verify_schemes : list SignatureScheme :=
  match v with
  | RootStore => root_schemes
  | NoVerify => NoVerify.supported_verify_schemes
  | QuicNoVerify => QuicNoVerify.supported_verify_schemes
  end.
End verifiers.

Class TlsLaws `{TlsLib} : Type := {
  tls_read_laws :: AsyncReadLaws TlsStream;
  tls_read_some_laws :: AsyncReadSomeLaws TlsStream;
  tls_write_laws :: AsyncWriteLaws TlsStream;
  tls_duplex_laws :: DuplexLaws TlsStream;
  tls_read_some_duplex_laws :: ReadSomeDuplexLaws TlsStream;
  (** The certificate the peer presented, and its signature of the handshake;
      a handshake succeeds only if the configured verifier accepted both, the
      signature made with a scheme it supports, and selects a protocol
      offered. *)
  peer_cert : TlsStream -> Cert;
  handshake_message : TlsStream -> list byte;
  handshake_signature : TlsStream -> DigitallySignedStruct;
  selected : TlsStream -> option (list byte);
  tls_connect_verified cfg n s t :
    tls_connect cfg n s = Ok t -> verify_server_cert (cc_verifier cfg) (peer_cert t) n = true;
  tls_connect_signed cfg n s t :
    tls_connect cfg n s = Ok t ->
    dss_scheme (handshake_signature t) ∈ supported_verify_schemes (cc_verifier cfg) /\
    (verify_tls12_signature (cc_verifier cfg) (handshake_message t) (peer_cert t) (handshake_signature t) = true \/
     verify_tls13_signature (cc_verifier cfg) (handshake_message t) (peer_cert t) (handshake_signature t) = true);
  tls_connect_selected cfg n s t a :
    tls_connect cfg n s = Ok t -> selected t = Some a -> a ∈ cc_alpn cfg;
}.

(** What [insecure] decides. *)
Lemma make_tls_config_Ok alpn insecure :
  make_tls_config alpn insecure =
    Ok (mk_client_config (if insecure then NoVerify else RootStore) (default [] alpn)).
Proof. by destruct alpn. Qed.

(** ** A model library

    No encryption: the stream under it, behind a peer that holds
    [presented] and signs with P-256. *)
Section plain_tls.
Context (h : host) (presented : str) (roots : list str).

Definition plain_connect (cfg : ClientConfig) (n : str) (t : host_tcp) : outcome str host_tcp :=
  match cc_verifier cfg with
  | NoVerify | QuicNoVerify => Ok t
  | RootStore =>
      if decide (presented = n /\ presented ∈ roots) then Ok t
      else Err (lit "invalid peer certificate: UnknownIssuer")
  end.

Definition plain_name (n : str) : outcome str str :=
  match n with [] => Err (lit "invalid dns name") | _ => Ok n end.

Definition plain_tls : @TlsLib (host_os h) :=
  @Build_TlsLib (host_os h) str str host_tcp host_tcp_read host_tcp_read_some host_tcp_write
    (fun c n => bool_decide (c = n /\ c ∈ roots)) (fun _ c dss => bool_decide (dss_sig dss = c))
    [ECDSA_NISTP256_SHA256] plain_name plain_connect.

Definition plain_tls_laws : @TlsLaws (host_os h) plain_tls.
Proof.
  refine (@Build_TlsLaws (host_os h) plain_tls host_tcp_read_laws host_tcp_read_some_laws
            host_tcp_write_laws host_tcp_duplex_laws host_tcp_read_some_duplex_laws
            (fun _ => presented) (fun _ => []) (fun _ => mk_dss ECDSA_NISTP256_SHA256 presented)
            (fun _ => None) _ _ _); cbn; [| |done].
  - intros [ [] al] n s t; unfold plain_connect; cbn; [|done..]. case_decide; [|done]. intros _.
    by apply bool_decide_eq_true.
  - intros [ [] al] n s t _; cbn; (split; [set_solver|]); left; try done. by apply bool_decide_eq_true.
Defined.
End plain_tls.
