(* ===== verification/Http1.v ===== *)
(** * The HTTP/1.1 test (src/http1.rs)

    The request, the reading of the response to the end of the stream, the
    status line, and [do_test] over the transports, plain and TLS. *)
From S2P Require Import Prelude AsyncIo Text Net Float64 Errors Socks5Udp Os SocksLib Config.
From S2P Require Import Handshake Direct Transport Results Tls.

Definition crlf : str := [Byte.x0d; Byte.x0a].

(** The path of a request. *)
Definition request_path (target : TestTarget) : str :=
  match tt_path target with [] => lit "/" | path => path end.

Definition http1_request (target : TestTarget) : str :=
  lit "GET " ++ request_path target ++ lit " HTTP/1.1" ++ crlf ++
  lit "Host: " ++ authority target ++ crlf ++
  lit "Connection: close" ++ crlf ++
  lit "User-Agent: proxypen/0.1" ++ crlf ++ crlf.

(** ** The status line *)
Definition parse_status_line (buf : list byte) : px (Z * nat) :=
  let response := from_utf8_lossy buf in
  first_line ← ok_or (Http (lit "empty response")) (first_line response);
  let parts := splitn 3 Byte.x20 first_line in
  if decide (length parts < 2)%nat then Err (Http (lit "malformed status line: " ++ first_line))
  else
    code ← index parts 1;
    status ← ok_or (Http (lit "invalid status code: " ++ code)) (parse_u 16 code);
    let header_end :=
      match find (crlf ++ crlf) response with Some i => (i + 4)%nat | None => length buf end in
    Ok (status, header_end).

(** ** The exchange on the stream *)
Section exchange.
Context {R : Type} `{AsyncRead R} `{AsyncReadSome R} `{AsyncWrite R}.

(** The loop that appends to [buf] until a read returns nothing; over TLS an
    unexpected end counts as the end. *)
Fixpoint read_rest (eof_ok : bool) (fuel : nat) (buf : list byte) (stream : R) : io (list byte * R) :=
  match fuel with
  | O => Hang
  | S fuel =>
      match read 4096 stream with
      | Ok ([], stream) => Ok (buf, stream)
      | Ok (tmp, stream) => read_rest eof_ok fuel (buf ++ tmp) stream
      | Err e =>
          if eof_ok && bool_decide (io_kind e = UnexpectedEof) then Ok (buf, stream) else Err e
      | Panic => Panic
      | Hang => Hang
      end
  end.

(** Every turn of the loop but the last takes an unread byte. *)
Definition exchange (eof_ok : bool) (request : str) (stream : R) : io (list byte * R) :=
  stream ← write_all request stream;
  '(tmp, stream) ← read 4096 stream;
  read_rest eof_ok (S (length (unread stream))) tmp stream.
End exchange.

(** The readings of the clock that [do_test] makes. *)
Record http_clock : Type := mk_clock {
  t_start : Z;
  t_connected : Z;
  t_tls_start : Z;
  t_tls_done : Z;
  t_first_byte : Z;
  t_done : Z;
}.

Section http1.
Context `{Os} `{SocksLib} `{!TlsLib} (p : platform).

(** The connect time counts as the handshake of the proxy or as the connect
    of a direct stream. *)
Definition connect_times (transport : Transport) (connect_time : Z) : option Z * option Z :=
  if is_direct transport then (None, Some connect_time) else (Some connect_time, None).

Definition tls_stream (alpn : option (list (list byte))) (target : TestTarget) (stream : Tcp) :
    px TlsStream :=
  tls_config ← make_tls_config alpn (tt_danger_accept_invalid_certs target);
  server_name ← map_err (fun e => Tls (lit "invalid server name: " ++ e)) (server_name (tt_host target));
  map_err Tls (tls_connect tls_config server_name stream).

Definition http1_do_test (ck : http_clock) (transport : Transport) (target : TestTarget) : px TestResult :=
  stream ← connect_tcp p transport target;
  let connect_time := elapsed (t_start ck) (t_connected ck) in
  let '(socks_handshake, tcp_connect) := connect_times transport connect_time in
  let request := http1_request target in
  '(http_status, response_size, first_byte, tls_handshake_duration) ← (
    if tt_use_tls target then
      tls_stream ← tls_stream None target stream;
      let tls_handshake_duration := Some (elapsed (t_tls_start ck) (t_tls_done ck)) in
      '(buf, _) ← from_io (exchange true request tls_stream);
      let first_byte_time := elapsed (t_start ck) (t_first_byte ck) in
      '(status, _) ← parse_status_line buf;
      Ok (status, Z.of_nat (length buf), first_byte_time, tls_handshake_duration)
    else
      '(buf, _) ← from_io (exchange false request stream);
      let first_byte_time := elapsed (t_start ck) (t_first_byte ck) in
      '(status, _) ← parse_status_line buf;
      Ok (status, Z.of_nat (length buf), first_byte_time, None) : px (Z * Z * Z * option Z));
  let total := elapsed (t_start ck) (t_done ck) in
  Ok (mk_result Http1 Success (Some http_status)
        (mk_timing socks_handshake tcp_connect tls_handshake_duration first_byte total)
        (Some response_size)).

Definition http1_test (ck : http_clock) (transport : Transport) (target : TestTarget) :
    outcome no_error TestResult :=
  settle Http1 (http1_do_test ck transport target).
End http1.
