(* ===== verification/HttpServer.v ===== *)
(** * The HTTP test server (src/http_server.rs)

    The configuration and the HTTP/1.1 handler, on plain and TLS streams
    alike; the rest of the server is in [ServeHttp]. *)
From S2P Require Import Prelude AsyncIo Text Net Float64 Errors Socks5Udp Os SocksLib Config.
From S2P Require Import Handshake Direct Transport Results Tls Http1.

Record HttpServerConfig : Type := mk_http_server_config {
  hs_bind : IpAddr;
  hs_http1_port : Z;
  hs_http2_port : Z;
  hs_http3_port : Z;
  hs_response_size : nat;
}.

Definition default_config : HttpServerConfig :=
  mk_http_server_config (V4 (z2b <$> [127; 0; 0; 1])) 8080 8443 8444 128.

(** The body every response has. *)
Definition response_body (config : HttpServerConfig) : list byte :=
  replicate (hs_response_size config) Byte.x78.

Definition response_head (len : nat) : str :=
  lit "HTTP/1.1 200 OK" ++ crlf ++
  lit "Content-Type: text/plain" ++ crlf ++
  lit "Content-Length: " ++ show_u (Z.of_nat len) ++ crlf ++
  lit "Connection: close" ++ crlf ++
  lit "Server: proxypen-http-server" ++ crlf ++
  crlf.

Section server.
Context {S : Type} `{AsyncRead S} `{AsyncReadSome S} `{AsyncWrite S} `{AsyncShutdown S}.

Definition serve_http1 (body : list byte) (stream : S) : io S :=
  '(buf, stream) ← read 8192 stream;
  match buf with
  | [] => Ok stream
  | _ =>
      stream ← write_all (response_head (length body)) stream;
      stream ← write_all body stream;
      shutdown stream
  end.

(** The same on a TLS stream. *)
Definition serve_http1_over_tls (body : list byte) (stream : S) : io S :=
  '(buf, stream) ← read 8192 stream;
  match buf with
  | [] => Ok stream
  | _ =>
      stream ← write_all (response_head (length body)) stream;
      stream ← write_all body stream;
      shutdown stream
  end.
End server.

(** Which handler a TLS connection gets, by the negotiated protocol. *)
Inductive tls_handler : Type := ServeHttp2 | ServeHttp1OverTls.

Definition choose_handler (alpn : option (list byte)) : tls_handler :=
  match alpn with
  | Some p => if decide (from_utf8_lossy p = lit "h2") then ServeHttp2 else ServeHttp1OverTls
  | None => ServeHttp1OverTls
  end.

(** ** Lemmas on reading a response *)

(** Streams on which nothing fails: in [I], which every call stays in, a
    write succeeds and a read, at the end of the peer's bytes too, as well. *)
Record serviceable {R} `{AsyncRead R} `{AsyncReadSome R} `{AsyncWrite R} (I : R -> Prop) : Prop := {
  sv_write bs s : I s -> exists s', write_all bs s = Ok s' /\ I s';
  sv_read n s : I s -> exists bs s', read n s = Ok (bs, s') /\ I s';
}.

Section reading.
Context {R} `{AsyncReadLaws R} `{!AsyncReadSome R} `{!AsyncReadSomeLaws R}
  `{!AsyncWrite R} `{!AsyncWriteLaws R} `{!DuplexLaws R} `{!ReadSomeDuplexLaws R}.

Lemma read_rest_Ok (I : R -> Prop) eof fuel buf s :
  serviceable I -> I s -> (length (unread s) < fuel)%nat ->
  exists s', read_rest eof fuel buf s = Ok (buf ++ unread s, s') /\
    unread s' = [] /\ written s' = written s.
Proof.
  intros HI. revert buf s. induction fuel as [|fuel IH]; intros buf s Hs Hf; [lia|].
  cbn [read_rest]. destruct (sv_read _ HI 4096 s Hs) as (bs & s' & Hr & Hs').
  rewrite Hr. pose proof (read_written _ _ _ _ Hr) as Hw.
  destruct (read_prefix _ _ _ _ Hr) as [Hu _]. destruct bs as [|b bs].
  - exists s'. rewrite (read_end 4096 s s') by (done || lia). rewrite app_nil_r.
    cbn [app] in Hu. rewrite <- Hu. split; [done|]. split; [|done].
    by apply (read_end 4096 s s'); [lia|].
  - destruct (IH (buf ++ b :: bs) s' Hs') as (s'' & Hs'' & Hu'' & Hw'').
    { rewrite Hu, length_app in Hf. cbn [length] in Hf. lia. }
    exists s''. rewrite Hs'', Hu, <- app_assoc, Hw''. done.
Qed.

(** The exchange sends the request and hands up everything the peer sent. *)
Lemma exchange_Ok (I : R -> Prop) eof request s :
  serviceable I -> I s ->
  exists s', exchange eof request s = Ok (unread s, s') /\
    unread s' = [] /\ written s' = written s ++ request.
Proof.
  intros HI Hs. unfold exchange.
  destruct (sv_write _ HI request s Hs) as (s1 & Hw & Hs1). rewrite Hw. cbn [mbind outcome_bind].
  destruct (sv_read _ HI 4096 s1 Hs1) as (bs & s2 & Hr & Hs2). rewrite Hr. cbn [mbind outcome_bind].
  destruct (read_rest_Ok I eof (S (length (unread s2))) bs s2 HI Hs2 ltac:(lia))
    as (s3 & H3 & Hu3 & Hw3).
  exists s3. rewrite H3, Hw3, (read_written _ _ _ _ Hr), (write_all_written _ _ _ Hw).
  destruct (read_prefix _ _ _ _ Hr) as [<- _]. by rewrite (write_all_unread _ _ _ Hw).
Qed.

(** It hangs, or runs out of turns, only if a call on the stream hangs. *)
Lemma read_rest_not_hang eof fuel buf (s : R) :
  (forall s, read 4096 s <> Hang) -> (length (unread s) < fuel)%nat -> read_rest eof fuel buf s <> Hang.
Proof.
  intros Hh. revert buf s. induction fuel as [|fuel IH]; intros buf s Hf; [lia|].
  cbn [read_rest]. destruct (read 4096 s) as [ [ [|b bs] s']|e| |] eqn:Hr; try done.
  - apply IH. destruct (read_prefix _ _ _ _ Hr) as [Hu _]. rewrite Hu, length_app in Hf.
    cbn [length] in Hf. lia.
  - by case_match.
  - by apply Hh in Hr.
Qed.
End reading.

(** ** Lemmas on the status line *)
Lemma from_utf8_lossy_ascii_app a s : ascii a -> from_utf8_lossy (a ++ s) = a ++ from_utf8_lossy s.
Proof.
  induction 1 as [|b a Hb Ha IH]; [done|]. cbn [app].
  rewrite from_utf8_lossy_cons by done. rewrite (utf8_step_ascii b) by done. cbn [fst snd take drop].
  cbn. by rewrite drop_0, IH.
Qed.

Lemma splitn_2 c l m r : c ∉ l -> c ∉ m -> splitn 3 c (l ++ c :: m ++ c :: r) = [l; m; r].
Proof. intros Hl Hm. cbn [splitn]. by rewrite cut_app, cut_app by done. Qed.

Lemma first_line_crlf l r : Byte.x0a ∉ l -> first_line (l ++ crlf ++ r) = Some l.
Proof.
  intros Hl. unfold first_line, crlf. cbn [app].
  replace (l ++ Byte.x0d :: Byte.x0a :: r) with ((l ++ [Byte.x0d]) ++ Byte.x0a :: r)
    by (by rewrite <- app_assoc).
  rewrite cut_app by (set_solver). rewrite strip_last_snoc.
  by destruct l.
Qed.

(** A status line of ASCII text is understood, whatever bytes follow it. *)
Lemma parse_status_line_Ok proto code reason rest :
  ascii proto -> ascii reason -> Byte.x20 ∉ proto -> Byte.x0a ∉ proto -> Byte.x0a ∉ reason ->
  u16 code ->
  exists off, parse_status_line (proto ++ Byte.x20 :: show_u code ++ Byte.x20 :: reason ++ crlf ++ rest)
              = Ok (code, off).
Proof.
  intros Hp Hr Hs Hn Hn' Hc. unfold parse_status_line.
  set (line := proto ++ Byte.x20 :: show_u code ++ Byte.x20 :: reason).
  assert (proto ++ Byte.x20 :: show_u code ++ Byte.x20 :: reason ++ crlf ++ rest
          = (line ++ crlf) ++ rest) as ->.
  { unfold line. by rewrite <- !app_assoc; cbn; rewrite <- !app_assoc. }
  pose proof (show_u_ascii code).
  rewrite from_utf8_lossy_ascii_app.
  2:{ unfold line, crlf, ascii. rewrite !Forall_app, !Forall_cons, !Forall_app, !Forall_cons.
      by repeat split_and; try (reflexivity || constructor). }
  rewrite <- app_assoc, first_line_crlf.
  2:{ unfold line. pose proof (show_u_not_elem Byte.x0a code ltac:(cbn; lia)). set_solver. }
  cbn [ok_or mbind outcome_bind].
  replace (splitn 3 Byte.x20 line) with [proto; show_u code; reason]
    by (symmetry; apply splitn_2; [done|apply show_u_not_elem; cbn; lia]).
  rewrite decide_False by (cbn; lia). unfold index. cbn [lookup list_lookup mbind outcome_bind].
  rewrite parse_u_show_u by done. cbn. eauto.
Qed.

Lemma parse_status_line_returns buf : returns (parse_status_line buf).
Proof.
  unfold parse_status_line. destruct (first_line _) as [l|]; [|done]. cbn [ok_or mbind outcome_bind].
  case_decide as Hl; [done|]. apply returns_bind; [apply index_returns; lia|].
  intros code _. by destruct (parse_u 16 code).
Qed.

(** ** The status line and the whole exchange *)

(** A status line yields its code, for every code of 16 bits, every
    ASCII protocol and reason and every body; and on arbitrary bytes the
    parser answers, with an HTTP error if not with a code of 16 bits. *)
Theorem status_line_parsed buf :
  match parse_status_line buf with
  | Ok (status, _) => u16 status
  | Err e => exists msg, e = Http msg
  | Panic | Hang => False
  end /\
  forall proto code reason rest,
    ascii proto -> ascii reason -> Byte.x20 ∉ proto -> Byte.x0a ∉ proto -> Byte.x0a ∉ reason ->
    u16 code ->
    exists off, parse_status_line (proto ++ Byte.x20 :: show_u code ++ Byte.x20 :: reason ++ crlf ++ rest)
                = Ok (code, off).
Proof.
  split; [|apply parse_status_line_Ok].
  pose proof (parse_status_line_returns buf) as Hr.
  destruct (parse_status_line buf) as [ [st off]|e| |] eqn:Hp; try done; unfold parse_status_line in Hp.
  - inv_bind Hp. case_decide; [done|]. inv_bind Hp. inv_bind Hp. simplify_eq.
    destruct (parse_u 16 _) eqn:Hu; simplify_eq/=. by eapply parse_u_range.
  - destruct (first_line _) as [l|]; simplify_eq/=; [|eauto]. case_decide; simplify_eq; [eauto|].
    destruct (index _ 1) as [code| | |] eqn:Hi; simplify_eq/=.
    + destruct (parse_u 16 code); simplify_eq/=. eauto.
    + exfalso. revert Hi. unfold index. by destruct (_ !! _).
Qed.

Definition response (body : list byte) : list byte := response_head (length body) ++ body.

(** The handler answers a request, whatever it says, with the one response,
    and a peer that sends nothing with nothing. *)
Lemma serve_http1_written {S} `{AsyncReadLaws S} `{!AsyncReadSome S} `{!AsyncReadSomeLaws S}
    `{!AsyncWrite S} `{!AsyncWriteLaws S} `{!ReadSomeDuplexLaws S} `{!AsyncShutdown S}
    `{!AsyncShutdownLaws S} body (srv srv' : S) :
  serve_http1 body srv = Ok srv' ->
  written srv' = written srv ++ (if decide (unread srv = []) then [] else response body) /\
  serve_http1_over_tls body srv = Ok srv'.
Proof.
  intros Hs. split; [|exact Hs]. unfold serve_http1 in Hs. inv_bind Hs. destruct a as [bs s1].
  pose proof (read_written _ _ _ _ Ha) as Hw1. destruct (read_prefix _ _ _ _ Ha) as [Hu _].
  destruct bs as [|b bs].
  - simplify_eq. rewrite decide_True by (eapply (read_end 8192); [by apply Nat.ltb_lt|exact Ha]). by rewrite app_nil_r, Hw1.
  - rewrite decide_False by (rewrite Hu; done). inv_bind Hs. inv_bind Hs.
    apply shutdown_written in Hs. rewrite Hs. unfold response.
    erewrite (write_all_written body) by done. erewrite (write_all_written (response_head _)) by done.
    by rewrite Hw1, app_assoc.
Qed.

Lemma response_head_split len :
  exists fields, response_head len =
    lit "HTTP/1.1" ++ Byte.x20 :: show_u 200 ++ Byte.x20 :: lit "OK" ++ crlf ++ fields.
Proof. eexists. unfold response_head. change (show_u 200) with (lit "200"). reflexivity. Qed.

Lemma parse_response body : exists off, parse_status_line (response body) = Ok (200, off).
Proof.
  unfold response. destruct (response_head_split (length body)) as (fields & ->).
  rewrite <- app_assoc. cbn [app]. rewrite <- app_assoc. cbn [app]. rewrite <- !app_assoc.
  apply parse_status_line_Ok; solve_decided.
Qed.

Section end_to_end.
Context `{OsLaws} `{SocksLib} `{!TlsLib} (p : platform) (ck : http_clock).

Lemma http1_plain_Ok transport target stream (I : Tcp -> Prop) code off :
  connect_tcp p transport target = Ok stream -> tt_use_tls target = false ->
  serviceable I -> I stream -> parse_status_line (unread stream) = Ok (code, off) ->
  http1_do_test p ck transport target =
    Ok (let '(handshake, connect) := connect_times transport (elapsed (t_start ck) (t_connected ck)) in
        mk_result Http1 Success (Some code)
          (mk_timing handshake connect None (elapsed (t_start ck) (t_first_byte ck))
             (elapsed (t_start ck) (t_done ck)))
          (Some (Z.of_nat (length (unread stream))))).
Proof.
  intros Hc Ht HI Hs Hp. unfold http1_do_test. rewrite Hc. cbn [mbind outcome_bind]. rewrite Ht.
  destruct (exchange_Ok I false (http1_request target) stream HI Hs) as (s' & He & _).
  destruct (connect_times _ _). rewrite He. cbn [from_io map_err mbind outcome_bind]. by rewrite Hp.
Qed.

Lemma http1_tls_Ok `{!TlsLaws} transport target stream t (I : TlsStream -> Prop) code off :
  connect_tcp p transport target = Ok stream -> tt_use_tls target = true ->
  tls_stream None target stream = Ok t ->
  serviceable I -> I t -> parse_status_line (unread t) = Ok (code, off) ->
  http1_do_test p ck transport target =
    Ok (let '(handshake, connect) := connect_times transport (elapsed (t_start ck) (t_connected ck)) in
        mk_result Http1 Success (Some code)
          (mk_timing handshake connect (Some (elapsed (t_tls_start ck) (t_tls_done ck)))
             (elapsed (t_start ck) (t_first_byte ck)) (elapsed (t_start ck) (t_done ck)))
          (Some (Z.of_nat (length (unread t))))).
Proof.
  intros Hc Ht Htls HI Hs Hp. unfold http1_do_test. rewrite Hc. cbn [mbind outcome_bind]. rewrite Ht.
  destruct (connect_times _ _). rewrite Htls. cbn [mbind outcome_bind].
  destruct (exchange_Ok I true (http1_request target) t HI Hs) as (s' & He & _).
  rewrite He. cbn [from_io map_err mbind outcome_bind]. by rewrite Hp.
Qed.
End end_to_end.

(** C24: the HTTP/1.1 test against the test server, over any transport: when
    the server has seen a byte of the request and the client's stream holds
    what the server wrote, the test is a success with status 200.  The size
    reported is that of head and body together. *)
Theorem http1_end_to_end `{OsLaws} `{SocksLib} `{!TlsLib} (p : platform) ck
    {S} `{AsyncReadLaws S} `{!AsyncReadSome S} `{!AsyncReadSomeLaws S}
    `{!AsyncWrite S} `{!AsyncWriteLaws S} `{!ReadSomeDuplexLaws S} `{!AsyncShutdown S}
    `{!AsyncShutdownLaws S} body (srv srv' : S) transport target stream (I : Tcp -> Prop) :
  serve_http1 body srv = Ok srv' -> unread srv <> [] ->
  connect_tcp p transport target = Ok stream -> tt_use_tls target = false ->
  written srv' = written srv ++ unread stream ->
  serviceable I -> I stream ->
  exists r, http1_test p ck transport target = Ok r /\
    status r = Success /\ http_status r = Some 200 /\
    response_size r = Some (Z.of_nat (length (response_head (length body)) + length body)) /\
    first_byte (timing r) = elapsed (t_start ck) (t_first_byte ck) /\
    total (timing r) = elapsed (t_start ck) (t_done ck).
Proof.
  intros Hsv Hne Hc Ht Hw HI Hs. apply serve_http1_written in Hsv as [Hsv _].
  rewrite decide_False in Hsv by done. rewrite Hw in Hsv. apply app_inv_head in Hsv.
  destruct (parse_response body) as [off Hp]. rewrite <- Hsv in Hp.
  unfold http1_test. rewrite (http1_plain_Ok p ck _ _ _ I _ _ Hc Ht HI Hs Hp).
  eexists. split; [reflexivity|]. destruct (connect_times _ _). cbn. rewrite Hsv.
  unfold response. by rewrite length_app.
Qed.

Definition demo_body : list byte := lit "hello test body".

Definition demo_host : host := mk_host (response demo_body) [] (fun _ => []) [].

Definition demo_srv : conn := mk_conn (lit "GET / HTTP/1.1") false [] None.

Definition demo_target : TestTarget := mk_target (lit "127.0.0.1") 8080 (lit "/") false None false.

Definition quiet_end (t : host_tcp) : Prop :=
  peer_closed (ht_conn t) = true /\ broken (ht_conn t) = None.

Lemma quiet_end_serviceable : serviceable quiet_end.
Proof.
  split.
  - intros bs [c e] [Hp Hb]. cbn in Hp, Hb |- *. rewrite Hb. eexists. split; [reflexivity|]. done.
  - intros n [c e] [Hp Hb]. cbn in Hp, Hb |- *. rewrite Hp.
    destruct (inbound c); cbn; eexists _, _; (split; [reflexivity|]); done.
Qed.

Lemma http1_end_to_end_witness :
  exists r, @http1_test (host_os demo_host) rfc_socks (plain_tls demo_host [] []) Linux
      (mk_clock 0 1000000 0 0 2000000 3000000) (Direct (mk_direct_config None)) demo_target = Ok r /\
    status r = Success /\ http_status r = Some 200 /\ response_size r = Some 129.
Proof.
  destruct (@http1_end_to_end (host_os demo_host) (host_os_laws demo_host) rfc_socks
    (plain_tls demo_host [] []) Linux (mk_clock 0 1000000 0 0 2000000 3000000)
    conn _ _ _ _ _ _ _ _ _ demo_body demo_srv
    (mk_conn [] false (response demo_body) None)
    (Direct (mk_direct_config None)) demo_target
    (mk_host_tcp (mk_conn (response demo_body) true [] None)
       (mk_endpoint None None (Some (mk_addr (V4 (z2b <$> [127; 0; 0; 1])) 8080))))
    quiet_end) as (r & Hr & H1 & H2 & H3 & _).
  - vm_compute. reflexivity.
  - done.
  - vm_compute. reflexivity.
  - reflexivity.
  - vm_compute. reflexivity.
  - exact quiet_end_serviceable.
  - split; reflexivity.
  - exists r. split; [exact Hr|]. split; [exact H1|]. split; [exact H2|].
    rewrite H3. vm_compute. reflexivity.
Defined.

Lemma status_line_parsed_witness :
  exists off, parse_status_line (lit "HTTP/1.1" ++ Byte.x20 :: show_u 404 ++ Byte.x20 ::
      lit "Not Found" ++ crlf ++ [Byte.xff]) = Ok (404, off).
Proof. apply (proj2 (status_line_parsed [])); solve_decided. Defined.
