(* ===== verification/Http2.v ===== *)
(** * The HTTP/2 test (src/http2.rs)

    [do_test] over the interface of the HTTP/2 library: one request, and the
    body read frame by frame, the flow-control window given back as it goes. *)
From S2P Require Import Prelude AsyncIo Text Net Float64 Errors Socks5Udp Os SocksLib Config.
From S2P Require Import Handshake Direct Transport Results Tls Http1.

(** The library; errors are their texts. *)
Class H2Lib `{TlsLib} : Type := {
  H2Sender : Type;
  H2Request : Type;
  H2Body : Type;
  (** [client::handshake], and [Request::builder] for a GET of a URI. *)
  h2_handshake : TlsStream -> outcome str H2Sender;
  build_request : str -> outcome str H2Request;
  (** [send_request] and the future of the response. *)
  send_request : H2Request -> H2Sender -> outcome str H2Sender;
  response : H2Sender -> outcome str (Z * H2Body);
  (** [body.data().await], and [release_capacity] of its flow control. *)
  data : H2Body -> outcome str (option (list byte) * H2Body);
  release_capacity : nat -> H2Body -> outcome str H2Body;
  (** The number of data frames still to come. *)
  frames : H2Body -> nat;
}.

Class H2Laws `{H2Lib} : Type := {
  (** The bytes of the frames still to come, and the bytes handed up whose
      capacity has not been released. *)
  content : H2Body -> list byte;
  held : H2Body -> Z;
  data_some b c b' : data b = Ok (Some c, b') ->
    content b = c ++ content b' /\ held b' = held b + Z.of_nat (length c) /\
    frames b = S (frames b');
  data_none b b' : data b = Ok (None, b') -> content b = [] /\ held b' = held b;
  release_held n b b' : release_capacity n b = Ok b' ->
    content b' = content b /\ held b' = held b - Z.of_nat n /\ frames b' = frames b;
  response_fresh s code b : response s = Ok (code, b) -> held b = 0;
}.

Section http2.
Context `{H2Lib} `{SocksLib} (p : platform).

Definition from_h2_error {A} (m : outcome str A) : px A := map_err from_h2 m.

Definition http_uri (target : TestTarget) : str :=
  lit "https://" ++ authority target ++ request_path target.

(** The [while let] on the frames; [total_size] is a [usize]. *)
Fixpoint read_body (pr : profile) (fuel : nat) (total_size : Z) (body : H2Body) : px (Z * H2Body) :=
  match fuel with
  | O => Hang
  | S fuel =>
      '(chunk, body) ← from_h2_error (data body);
      match chunk with
      | None => Ok (total_size, body)
      | Some chunk =>
          total_size ← arith_u pr 64 (total_size + Z.of_nat (length chunk));
          body ← from_h2_error (release_capacity (length chunk) body);
          read_body pr fuel total_size body
      end
  end.

Definition http2_do_test (pr : profile) (ck : http_clock) (transport : Transport) (target : TestTarget) :
    px TestResult :=
  if negb (tt_use_tls target) then
    Err (InvalidConfig (lit "HTTP/2 requires TLS (use https:// target)"))
  else
    stream ← connect_tcp p transport target;
    let connect_time := elapsed (t_start ck) (t_connected ck) in
    let '(socks_handshake, tcp_connect) := connect_times transport connect_time in
    tls_stream ← tls_stream (Some [lit "h2"]) target stream;
    let tls_handshake := elapsed (t_tls_start ck) (t_tls_done ck) in
    sender ← from_h2_error (h2_handshake tls_stream);
    req ← map_err (fun e => Http (lit "request build: " ++ e)) (build_request (http_uri target));
    sender ← from_h2_error (send_request req sender);
    '(http_status, body) ← from_h2_error (response sender);
    let first_byte := elapsed (t_start ck) (t_first_byte ck) in
    '(total_size, _) ← read_body pr (S (frames body)) 0 body;
    let total := elapsed (t_start ck) (t_done ck) in
    Ok (mk_result Http2 Success (Some http_status)
          (mk_timing socks_handshake tcp_connect (Some tls_handshake) first_byte total)
          (Some total_size)).

Definition http2_test (pr : profile) (ck : http_clock) (transport : Transport) (target : TestTarget) :
    outcome no_error TestResult :=
  settle Http2 (http2_do_test pr ck transport target).
End http2.

(** ** Lemmas *)
Section lemmas.
Context `{H2Laws}.

(** Reading a body to its end counts its bytes and leaves nothing held. *)
Lemma read_body_inv pr fuel size body size' body' :
  read_body pr fuel size body = Ok (size', body') -> 0 <= size ->
  size + Z.of_nat (length (content body)) < 2 ^ 64 ->
  size' = size + Z.of_nat (length (content body)) /\ held body' = held body.
Proof.
  revert size body. induction fuel as [|fuel IH]; intros size body Hr Hp Hb; [done|].
  cbn [read_body] in Hr. inv_bind Hr. destruct a as [chunk b1].
  destruct (data body) as [ [c b]| | |] eqn:Hd; simplify_eq/=.
  destruct chunk as [c|]; cycle 1.
  - simplify_eq. apply data_none in Hd as [Hc Hh]. rewrite Hc. cbn. split; [lia|done].
  - apply data_some in Hd as (Hc & Hh & _).
    rewrite Hc, length_app in Hb |- *.
    rewrite arith_u_Ok in Hr by (unfold in_u; lia). cbn [mbind outcome_bind] in Hr.
    inv_bind Hr. destruct (release_capacity _ _) as [b2| | |] eqn:Hrel; simplify_eq/=.
    apply release_held in Hrel as (Hc2 & Hh2 & _).
    apply IH in Hr as [-> ->]; rewrite ?Hc2 in *; [|lia|lia]. split; lia.
Qed.

(** It ends when the calls on the body do. *)
Lemma read_body_not_hang pr fuel size body :
  (forall b, data b <> Hang) -> (forall n b, release_capacity n b <> Hang) ->
  (frames body < fuel)%nat -> read_body pr fuel size body <> Hang.
Proof.
  intros Hd Hr. revert size body. induction fuel as [|fuel IH]; intros size body Hf; [lia|].
  cbn [read_body]. pose proof (Hd body) as Hnh.
  destruct (data body) as [ [ [c|] b]| | |] eqn:E; cbn [from_h2_error map_err mbind outcome_bind]; try done.
  apply data_some in E as (_ & _ & E).
  apply bind_not_hang; [apply arith_u_not_hang|]. intros size' _.
  pose proof (Hr (length c) b). destruct (release_capacity _ b) as [b2| | |] eqn:E2;
    cbn [map_err mbind outcome_bind]; try done.
  apply release_held in E2 as (_ & _ & E2). apply IH. lia.
Qed.

(** Bodies on which no call fails: in [I], which every call stays in. *)
Record flowing (I : H2Body -> Prop) : Prop := {
  fl_data b : I b -> exists c b', data b = Ok (c, b') /\ I b';
  fl_release n b : I b -> exists b', release_capacity n b = Ok b' /\ I b';
}.

Lemma read_body_Ok I pr fuel size body :
  flowing I -> I body -> (frames body < fuel)%nat -> 0 <= size ->
  size + Z.of_nat (length (content body)) < 2 ^ 64 ->
  exists body', read_body pr fuel size body = Ok (size + Z.of_nat (length (content body)), body').
Proof.
  intros HI. revert size body. induction fuel as [|fuel IH]; intros size body Hb Hf Hs Hl; [lia|].
  cbn [read_body]. destruct (fl_data _ HI body Hb) as (c & b1 & Hd & Hb1). rewrite Hd.
  cbn [from_h2_error map_err mbind outcome_bind]. destruct c as [c|]; cycle 1.
  - apply data_none in Hd as [-> _]. exists b1. cbn. by rewrite Z.add_0_r.
  - apply data_some in Hd as (Hc & _ & Hfr).
    destruct (fl_release _ HI (length c) b1 Hb1) as (b2 & Hr & Hb2).
    rewrite Hc, length_app in Hl |- *.
    rewrite arith_u_Ok by (unfold in_u; lia). cbn [mbind outcome_bind]. rewrite Hr.
    cbn [from_h2_error map_err mbind outcome_bind]. apply release_held in Hr as (Hc2 & _ & Hf2).
    destruct (IH (size + Z.of_nat (length c)) b2) as (b3 & Hb3); [done|lia|lia|rewrite Hc2; lia|].
    exists b3. rewrite Hb3, Hc2. do 2 f_equal. lia.
Qed.
End lemmas.

(** ** A model library

    The peer answers every request with [code] and the frames [chunks]. *)
Section model.
Context (h : host) (presented : str) (roots : list str) (code : Z) (chunks : list (list byte)).

Record frames_body : Type := mk_frames_body { fb_chunks : list (list byte); fb_held : Z }.

Definition frames_data (b : frames_body) : outcome str (option (list byte) * frames_body) :=
  match fb_chunks b with
  | [] => Ok (None, b)
  | c :: cs => Ok (Some c, mk_frames_body cs (fb_held b + Z.of_nat (length c)))
  end.

Definition frames_release (n : nat) (b : frames_body) : outcome str frames_body :=
  Ok (mk_frames_body (fb_chunks b) (fb_held b - Z.of_nat n)).

Definition frames_h2 : @H2Lib (host_os h) (plain_tls h presented roots) :=
  @Build_H2Lib (host_os h) (plain_tls h presented roots) host_tcp str frames_body
    (fun t => Ok t) (fun uri => Ok uri) (fun _ s => Ok s)
    (fun _ => Ok (code, mk_frames_body chunks 0)) frames_data frames_release
    (fun b => length (fb_chunks b)).

Definition frames_h2_laws : @H2Laws (host_os h) (plain_tls h presented roots) frames_h2.
Proof.
  refine (@Build_H2Laws (host_os h) (plain_tls h presented roots) frames_h2
            (fun b => concat (fb_chunks b)) fb_held _ _ _ _); cbn.
  - intros [ [|c' cs] hd] c b'; unfold frames_data; cbn; [done|]. by intros [= -> <-].
  - intros [ [|c' cs] hd] b'; unfold frames_data; cbn; [|done]. by intros [= <-].
  - intros n [cs hd] b' [= <-]. done.
  - by intros s c b [= _ <-].
Defined.
End model.

(** A request whose calls succeed counts the whole body. *)
Lemma http2_do_test_Ok `{H2Laws} `{SocksLib} (p : platform) pr ck transport target I stream t s1 s2 req code body :
  tt_use_tls target = true -> connect_tcp p transport target = Ok stream ->
  tls_stream (Some [lit "h2"]) target stream = Ok t -> h2_handshake t = Ok s1 ->
  build_request (http_uri target) = Ok req -> send_request req s1 = Ok s2 ->
  response s2 = Ok (code, body) -> flowing I -> I body -> Z.of_nat (length (content body)) < 2 ^ 64 ->
  exists timing, http2_do_test p pr ck transport target =
    Ok (mk_result Http2 Success (Some code) timing (Some (Z.of_nat (length (content body))))).
Proof.
  intros Ht Hc Hs Hh Hb Hq Hr HI Hbody Hl. unfold http2_do_test. rewrite Ht, Hc.
  cbn [negb mbind outcome_bind]. destruct (connect_times _ _). rewrite Hs. cbn [mbind outcome_bind].
  rewrite Hh. cbn [from_h2_error map_err mbind outcome_bind]. rewrite Hb.
  cbn [map_err mbind outcome_bind]. rewrite Hq. cbn [from_h2_error map_err mbind outcome_bind].
  rewrite Hr. cbn [from_h2_error map_err mbind outcome_bind].
  destruct (read_body_Ok I pr (S (frames body)) 0 body HI Hbody) as (b' & ->); [lia|lia|lia|].
  cbn [mbind outcome_bind]. rewrite Z.add_0_l. eauto.
Qed.

(** ** Properties *)

(** A successful HTTP/2 test was made over TLS with the protocol "h2"
    offered, its status is the one of the response and its size the number
    of bytes of the body; all flow-control capacity has been given back.
    A target without TLS is refused before anything is opened. *)
Theorem http2_success `{H2Laws} `{SocksLib} (p : platform) pr ck transport target r :
  http2_do_test p pr ck transport target = Ok r ->
  tt_use_tls target = true /\
  exists stream t sender code body,
    connect_tcp p transport target = Ok stream /\
    tls_stream (Some [lit "h2"]) target stream = Ok t /\
    response sender = Ok (code, body) /\
    status r = Success /\ http_status r = Some code /\
    (Z.of_nat (length (content body)) < 2 ^ 64 ->
     response_size r = Some (Z.of_nat (length (content body))) /\
     exists body', read_body pr (S (frames body)) 0 body = Ok (Z.of_nat (length (content body)), body') /\
       held body' = 0).
Proof.
  unfold http2_do_test. intros Hr. destruct (tt_use_tls target); [|done]. split; [done|].
  cbn [negb] in Hr. inv_bind Hr. destruct (connect_times _ _) as [hs tc].
  inv_bind Hr. inv_bind Hr. inv_bind Hr. inv_bind Hr. inv_bind Hr.
  match goal with Hx : from_h2_error (response ?s) = Ok ?cb |- _ =>
    destruct cb as [code body]; rename Hx into Hresp; set (sender := s) in Hresp end.
  inv_bind Hr.
  match goal with Hx : read_body _ _ _ _ = Ok ?sb |- _ =>
    destruct sb as [size body']; rename Hx into Hbody end.
  simplify_eq. eexists _, _, sender, code, body. split; [done|]. split; [done|].
  assert (response sender = Ok (code, body)) as Hok.
  { revert Hresp. unfold from_h2_error. destruct (response sender); cbn; congruence. }
  split; [exact Hok|].
  split; [done|]. split; [done|]. intros Hb.
  pose proof Hbody as Hinv. apply read_body_inv in Hinv as [-> Hh]; [|lia|lia]. rewrite Z.add_0_l in *.
  split; [done|]. exists body'. split; [exact Hbody|]. rewrite Hh.
  by eapply response_fresh.
Qed.

Definition demo_host : host := mk_host [] [] (fun _ => []) [].

Definition demo_target (tls : bool) (insecure : bool) : TestTarget :=
  mk_target (lit "10.0.0.1") 8443 (lit "/") tls None insecure.

Definition demo_clock : http_clock := mk_clock 0 1 2 3 4 5.

Lemma http2_success_witness :
  exists r, @http2_do_test (host_os demo_host) (plain_tls demo_host [] []) 
      (frames_h2 demo_host [] [] 200 [lit "abc"; []; lit "de"]) rfc_socks Linux Release demo_clock
      (Direct (mk_direct_config None)) (demo_target true true) = Ok r /\
    tt_use_tls (demo_target true true) = true /\ response_size r = Some 5.
Proof.
  destruct (@http2_do_test (host_os demo_host) (plain_tls demo_host [] []) 
      (frames_h2 demo_host [] [] 200 [lit "abc"; []; lit "de"]) rfc_socks Linux Release demo_clock
      (Direct (mk_direct_config None)) (demo_target true true)) as [r| | |] eqn:E;
    [|vm_compute in E; discriminate..].
  exists r. split; [done|].
  destruct (@http2_success (host_os demo_host) (plain_tls demo_host [] [])
    (frames_h2 demo_host [] [] 200 [lit "abc"; []; lit "de"])
    (frames_h2_laws demo_host [] [] 200 [lit "abc"; []; lit "de"]) rfc_socks Linux Release demo_clock
    (Direct (mk_direct_config None)) (demo_target true true) r E) as (Ht & _).
  split; [exact Ht|]. vm_compute in E. injection E as <-. reflexivity.
Defined.

(** Who was at the other end of a TLS stream. *)
Lemma tls_stream_verified `{TlsLaws} alpn target stream t :
  tls_stream alpn target stream = Ok t ->
  exists n, server_name (tt_host target) = Ok n /\
    (tt_danger_accept_invalid_certs target = false ->
     trusted (peer_cert t) n = true /\
     signature_valid (handshake_message t) (peer_cert t) (handshake_signature t) = true) /\
    (tt_danger_accept_invalid_certs target = true ->
     dss_scheme (handshake_signature t) ∈ supported_verify_schemes NoVerify) /\
    forall a, selected t = Some a -> a ∈ default [] alpn.
Proof.
  unfold tls_stream. rewrite make_tls_config_Ok. cbn [mbind outcome_bind]. intros Ht. inv_bind Ht.
  destruct (server_name _) as [n| | |] eqn:En; simplify_eq/=. eexists. split; [reflexivity|].
  destruct (tls_connect _ _ _) as [t'| | |] eqn:Ec; simplify_eq/=.
  pose proof (tls_connect_verified _ _ _ _ Ec) as Hv. cbn in Hv.
  destruct (tls_connect_signed _ _ _ _ Ec) as [Hsch Hsig]. cbn in Hsch, Hsig. split; [|split].
  - intros Hd. rewrite Hd in Hv, Hsig. split; [done|]. by destruct Hsig.
  - intros Hd. by rewrite Hd in Hsch.
  - intros al Hs. exact (tls_connect_selected _ _ _ _ _ Ec Hs).
Qed.

(** An HTTPS test, of either version, that succeeds without the option to
    accept invalid certificates has talked to a peer that presented a
    certificate which is trusted for the target's host and signed the
    handshake with its key.  With the option the certificate may be anyone's,
    but the signature must still be of one of three schemes: a server with an
    Ed25519 or P-384 key is not reached at all. *)
Theorem https_success_trusted `{H2Lib} `{!TlsLaws} `{SocksLib} (p : platform) pr ck transport target r :
  tt_use_tls target = true ->
  http1_do_test p ck transport target = Ok r \/ http2_do_test p pr ck transport target = Ok r ->
  exists stream n t alpn, connect_tcp p transport target = Ok stream /\
    server_name (tt_host target) = Ok n /\ tls_stream alpn target stream = Ok t /\
    (forall a, selected t = Some a -> a ∈ default [] alpn) /\
    if tt_danger_accept_invalid_certs target
    then dss_scheme (handshake_signature t) ∈ [RSA_PKCS1_SHA256; ECDSA_NISTP256_SHA256; RSA_PSS_SHA256] /\
      dss_scheme (handshake_signature t) <> ED25519 /\
      dss_scheme (handshake_signature t) <> ECDSA_NISTP384_SHA384
    else trusted (peer_cert t) n = true /\
      signature_valid (handshake_message t) (peer_cert t) (handshake_signature t) = true.
Proof.
  intros Ht Hr.
  assert (exists stream t alpn, connect_tcp p transport target = Ok stream /\
    tls_stream alpn target stream = Ok t) as (s & t & al & Hc & Htls).
  { destruct Hr as [Hr|Hr]; [unfold http1_do_test in Hr|unfold http2_do_test in Hr]; rewrite Ht in Hr;
      cbn [negb] in Hr; inv_bind Hr; destruct (connect_times _ _).
    - inv_bind Hr. match goal with Hx : _ = Ok ?q |- _ => destruct q as [ [ [? ?] ?] ?] end.
      match goal with Hx : (tls_stream _ _ _ ≫= _) = _ |- _ => inv_bind Hx end. eauto.
    - inv_bind Hr. eauto. }
  destruct (tls_stream_verified _ _ _ _ Htls) as (n & Hn & Hv & Hi & Hs).
  exists s, n, t, al. do 4 (split; [done|]).
  destruct (tt_danger_accept_invalid_certs target); [|by apply Hv].
  specialize (Hi eq_refl). split; [done|]. cbn in Hi. split; intros He; rewrite He in Hi; set_solver.
Qed.

Lemma https_success_trusted_witness :
  exists r stream n t alpn, @http2_do_test (host_os demo_host) (plain_tls demo_host (lit "10.0.0.1") [lit "10.0.0.1"]) 
      (frames_h2 demo_host (lit "10.0.0.1") [lit "10.0.0.1"] 200 []) rfc_socks Linux Release demo_clock
      (Direct (mk_direct_config None)) (demo_target true false) = Ok r /\
    @tls_stream (host_os demo_host) (plain_tls demo_host (lit "10.0.0.1") [lit "10.0.0.1"])
      alpn (demo_target true false) stream = Ok t /\
    @trusted (host_os demo_host) (plain_tls demo_host (lit "10.0.0.1") [lit "10.0.0.1"]) (lit "10.0.0.1") n = true.
Proof.
  destruct (@http2_do_test (host_os demo_host) (plain_tls demo_host (lit "10.0.0.1") [lit "10.0.0.1"]) 
      (frames_h2 demo_host (lit "10.0.0.1") [lit "10.0.0.1"] 200 []) rfc_socks Linux Release demo_clock
      (Direct (mk_direct_config None)) (demo_target true false)) as [r| | |] eqn:E;
    [|vm_compute in E; discriminate..].
  destruct (@https_success_trusted (host_os demo_host)
    (plain_tls demo_host (lit "10.0.0.1") [lit "10.0.0.1"])
    (frames_h2 demo_host (lit "10.0.0.1") [lit "10.0.0.1"] 200 [])
    (plain_tls_laws demo_host (lit "10.0.0.1") [lit "10.0.0.1"]) rfc_socks Linux Release demo_clock
    (Direct (mk_direct_config None)) (demo_target true false) r eq_refl (or_intror E))
    as (s & n & t & al & _ & _ & Ht & _ & Hv & _).
  exists r, s, n, t, al. split; [done|]. split; [exact Ht|exact Hv].
Defined.
