(* ===== verification/Http3.v ===== *)
(** * The HTTP/3 test (src/http3.rs)

    The QUIC endpoint on a SOCKS5 association or on a direct UDP socket, and
    the request on it, over the interfaces of the QUIC and HTTP/3
    libraries. *)
From S2P Require Import Prelude AsyncIo Text Net Float64 Errors Socks5Udp Os SocksLib Config.
From S2P Require Import Handshake Direct Transport Results Tls Http1 Http2.

(** The socket under an endpoint: the wrapped one of an association, or one
    of the operating system. *)
Inductive quic_socket `{Os} : Type :=
| Abstract (wrapper : SocksUdpSocket.t) (inner : Udp)
| Plain (socket : Udp).

(** The libraries; errors are their texts. *)
Class QuicLib `{Os} : Type := {
  Endpoint : Type;
  QuicConfig : Type;
  Connection : Type;
  H3Sender : Type;
  H3Stream : Type;
  H3Request : Type;
  has_runtime : bool;
  new_endpoint : quic_socket -> io Endpoint;
  quic_config : ClientConfig -> outcome str QuicConfig;
  (** [connect_with] and the handshake it starts. *)
  connect_with : QuicConfig -> SocketAddr -> str -> Endpoint -> outcome str Endpoint;
  connecting : Endpoint -> outcome str Connection;
  h3_client : Connection -> outcome str H3Sender;
  h3_build_request : str -> outcome str H3Request;
  h3_send_request : H3Request -> H3Sender -> outcome str H3Stream;
  h3_finish : H3Stream -> outcome str H3Stream;
  recv_response : H3Stream -> outcome str (Z * H3Stream);
  recv_data : H3Stream -> outcome str (option (list byte) * H3Stream);
  h3_frames : H3Stream -> nat;
}.

Class QuicLaws `{QuicLib} : Type := {
  h3_content : H3Stream -> list byte;
  recv_data_some s c s' : recv_data s = Ok (Some c, s') ->
    h3_content s = c ++ h3_content s' /\ h3_frames s = S (h3_frames s');
  recv_data_none s s' : recv_data s = Ok (None, s') -> h3_content s = [];
}.

(** QUIC runs the TLS handshake with the verifier of its configuration, for
    the name given to [connect_with]. *)
Class QuicTlsLaws `{QuicLib} `{!TlsLib} : Type := {
  quic_cert : Connection -> Cert;
  quic_message : Connection -> list byte;
  quic_signature : Connection -> DigitallySignedStruct;
  connecting_verified cc config addr host ep ep' conn :
    quic_config cc = Ok config -> connect_with config addr host ep = Ok ep' -> connecting ep' = Ok conn ->
    exists n, server_name host = Ok n /\
      verify_server_cert (cc_verifier cc) (quic_cert conn) n = true /\
      dss_scheme (quic_signature conn) ∈ supported_verify_schemes (cc_verifier cc) /\
      verify_tls13_signature (cc_verifier cc) (quic_message conn) (quic_cert conn) (quic_signature conn) = true;
}.

Definition resolve_target_for_socks (target : TestTarget) (relay_addr : SocketAddr) : px SocketAddr :=
  match tt_resolved_addr target with
  | Some ip => Ok (mk_addr ip (tt_port target))
  | None =>
      match parse_ip (tt_host target) with
      | Some ip => Ok (mk_addr ip (tt_port target))
      | None => Ok relay_addr
      end
  end.

Section http3.
Context `{QuicLib} `{SocksLib} (p : platform).

Definition quic_error {A} (what : str) (m : outcome str A) : px A :=
  map_err (fun e => Quic (what ++ lit ": " ++ e)) m.

Definition http_error {A} (what : str) (m : outcome str A) : px A :=
  map_err (fun e => Http (what ++ lit ": " ++ e)) m.

(** The endpoint on a socket. *)
Definition make_endpoint (socket : quic_socket) : px Endpoint :=
  if has_runtime then map_err (fun e => Quic (lit "endpoint: " ++ io_msg e)) (new_endpoint socket)
  else Err (Quic (lit "no async runtime")).

Definition socks_socket (config : ProxyConfig) (target : TestTarget) :
    px (quic_socket * SocketAddr * Tcp) :=
  assoc ← associate config;
  let socks_addr := to_socks_addr target in
  target_socket_addr ← resolve_target_for_socks target (as_relay_addr assoc);
  let udp_socket := Abstract (SocksUdpSocket.mk socks_addr target_socket_addr) (as_socket assoc) in
  Ok (udp_socket, target_socket_addr, as_control assoc).

Definition build_socks_endpoint (config : ProxyConfig) (target : TestTarget) :
    px (Endpoint * SocketAddr * option Tcp) :=
  '(udp_socket, target_socket_addr, control) ← socks_socket config target;
  endpoint ← make_endpoint udp_socket;
  Ok (endpoint, target_socket_addr, Some control).

Definition build_direct_endpoint (config : DirectConfig) (target : TestTarget) :
    px (Endpoint * SocketAddr * option Tcp) :=
  target_addr ← resolve_target target;
  std_socket ← build_udp_socket p (is_v6 (addr_ip target_addr)) (dc_interface config);
  endpoint ← make_endpoint (Plain std_socket);
  Ok (endpoint, target_addr, None).

Definition make_quic_client_config (insecure : bool) : px QuicConfig :=
  let tls_config := mk_client_config (if insecure then QuicNoVerify else RootStore) [lit "h3"] in
  quic_error (lit "QUIC config") (quic_config tls_config).

(** The [while let] on the data of the stream. *)
Fixpoint recv_body (pr : profile) (fuel : nat) (total_size : Z) (stream : H3Stream) : px Z :=
  match fuel with
  | O => Hang
  | S fuel =>
      '(chunk, stream) ← http_error (lit "recv data") (recv_data stream);
      match chunk with
      | None => Ok total_size
      | Some chunk =>
          total_size ← arith_u pr 64 (total_size + Z.of_nat (length chunk));
          recv_body pr fuel total_size stream
      end
  end.

(** [request_fut]. *)
Definition request_fut (pr : profile) (ck : http_clock) (req : H3Request) (sender : H3Sender) :
    px (Z * Z * Z * Z) :=
  stream ← http_error (lit "send request") (h3_send_request req sender);
  stream ← http_error (lit "finish request") (h3_finish stream);
  '(http_status, stream) ← http_error (lit "recv response") (recv_response stream);
  let first_byte := elapsed (t_start ck) (t_first_byte ck) in
  total_size ← recv_body pr (S (h3_frames stream)) 0 stream;
  let total := elapsed (t_start ck) (t_done ck) in
  Ok (http_status, total_size, first_byte, total).

(** The [select!]: the driver of the connection ends first or the request
    does; a request that never ends leaves only the driver. *)
Definition select_request (closed_first : bool) (request : px (Z * Z * Z * Z)) : px (Z * Z * Z * Z) :=
  if closed_first then Err (Http (lit "connection closed unexpectedly")) else request.

Definition http3_do_test (pr : profile) (ck : http_clock) (closed_first : bool)
    (transport : Transport) (target : TestTarget) : px TestResult :=
  '(endpoint, target_socket_addr, control) ← (
    match transport with
    | Socks5 cfg => build_socks_endpoint cfg target
    | Direct cfg => build_direct_endpoint cfg target
    end);
  let socks_handshake :=
    if is_direct transport then None else Some (elapsed (t_start ck) (t_connected ck)) in
  client_config ← make_quic_client_config (tt_danger_accept_invalid_certs target);
  endpoint ← quic_error (lit "connect")
    (connect_with client_config target_socket_addr (tt_host target) endpoint);
  conn ← map_err from_quinn (connecting endpoint);
  let quic_handshake := elapsed (t_tls_start ck) (t_tls_done ck) in
  sender ← http_error (lit "h3 handshake") (h3_client conn);
  req ← http_error (lit "request build") (h3_build_request (http_uri target));
  '(http_status, total_size, first_byte, total) ←
    select_request closed_first (request_fut pr ck req sender);
  Ok (mk_result Http3 Success (Some http_status)
        (mk_timing socks_handshake None (Some quic_handshake) first_byte total)
        (Some total_size)).

Definition http3_test (pr : profile) (ck : http_clock) (closed_first : bool)
    (transport : Transport) (target : TestTarget) : outcome no_error TestResult :=
  settle Http3 (http3_do_test pr ck closed_first transport target).
End http3.

(** ** Lemmas *)
Lemma recv_body_inv `{QuicLaws} pr fuel size stream size' :
  recv_body pr fuel size stream = Ok size' -> 0 <= size ->
  size + Z.of_nat (length (h3_content stream)) < 2 ^ 64 ->
  size' = size + Z.of_nat (length (h3_content stream)).
Proof.
  revert size stream. induction fuel as [|fuel IH]; intros size stream Hr Hp Hb; [done|].
  cbn [recv_body] in Hr. inv_bind Hr. destruct a as [chunk s1].
  destruct (recv_data stream) as [ [c b]| | |] eqn:Hd; simplify_eq/=.
  destruct chunk as [c|]; cycle 1.
  - simplify_eq. apply recv_data_none in Hd. rewrite Hd. cbn. lia.
  - apply recv_data_some in Hd as [Hc _]. rewrite Hc, length_app in Hb |- *.
    rewrite arith_u_Ok in Hr by (unfold in_u; lia). cbn [mbind outcome_bind] in Hr.
    apply IH in Hr; lia.
Qed.

Lemma recv_body_not_hang `{QuicLaws} pr fuel size stream :
  (forall s, recv_data s <> Hang) -> (h3_frames stream < fuel)%nat ->
  recv_body pr fuel size stream <> Hang.
Proof.
  intros Hd. revert size stream. induction fuel as [|fuel IH]; intros size stream Hf; [lia|].
  cbn [recv_body]. pose proof (Hd stream) as Hnh.
  destruct (recv_data stream) as [ [ [c|] s]| | |] eqn:E; cbn [http_error map_err mbind outcome_bind]; try done.
  apply recv_data_some in E as [_ E].
  apply bind_not_hang; [apply arith_u_not_hang|]. intros size' _. apply IH. lia.
Qed.

(** Streams on which no read fails: in [I], which every read stays in. *)
Definition h3_flowing `{QuicLib} (I : H3Stream -> Prop) : Prop :=
  forall s, I s -> exists c s', recv_data s = Ok (c, s') /\ I s'.

Lemma recv_body_Ok `{QuicLaws} I pr fuel size stream :
  h3_flowing I -> I stream -> (h3_frames stream < fuel)%nat -> 0 <= size ->
  size + Z.of_nat (length (h3_content stream)) < 2 ^ 64 ->
  recv_body pr fuel size stream = Ok (size + Z.of_nat (length (h3_content stream))).
Proof.
  intros HI. revert size stream. induction fuel as [|fuel IH]; intros size stream Hs Hf Hp Hl; [lia|].
  cbn [recv_body]. destruct (HI stream Hs) as (c & s1 & Hd & Hs1). rewrite Hd.
  cbn [http_error map_err mbind outcome_bind]. destruct c as [c|]; cycle 1.
  - apply recv_data_none in Hd as ->. cbn. by rewrite Z.add_0_r.
  - apply recv_data_some in Hd as [Hc Hfr]. rewrite Hc, length_app in Hl |- *.
    rewrite arith_u_Ok by (unfold in_u; lia). cbn [mbind outcome_bind].
    rewrite IH; [f_equal; lia|done|lia|lia|lia].
Qed.

(** The address an endpoint of either transport connects to is the known one
    of the target, whenever there is one. *)
Lemma resolve_target_for_socks_known target relay :
  resolve_target_for_socks target relay =
    Ok (match known_ip target with Some ip => mk_addr ip (tt_port target) | None => relay end).
Proof.
  unfold resolve_target_for_socks, known_ip.
  destruct (tt_resolved_addr target); [done|]. by destruct (parse_ip (tt_host target)).
Qed.

Lemma make_endpoint_inv `{QuicLib} s ep : make_endpoint s = Ok ep -> new_endpoint s = Ok ep.
Proof. unfold make_endpoint. destruct has_runtime; [|done]. destruct (new_endpoint s); cbn; congruence. Qed.

(** What an endpoint stands on, through a proxy and directly. *)
Definition endpoint_of `{OsLaws} `{SocksLib} (p : platform) (transport : Transport) (target : TestTarget)
    (socket : quic_socket) (addr : SocketAddr) : Prop :=
  match transport with
  | Socks5 cfg => exists assoc, associate cfg = Ok assoc /\
      socket = Abstract (SocksUdpSocket.mk (to_socks_addr target) addr) (as_socket assoc) /\
      addr = match known_ip target with
             | Some ip => mk_addr ip (tt_port target)
             | None => as_relay_addr assoc
             end
  | Direct cfg => exists u, socket = Plain u /\ confined p (dc_interface cfg) (udp_end u) /\
      resolve_target target = Ok addr
  end.

Lemma build_endpoint_inv `{OsLaws} `{!QuicLib} `{SocksLib} p transport target ep addr control :
  match transport with
  | Socks5 cfg => build_socks_endpoint cfg target
  | Direct cfg => build_direct_endpoint p cfg target
  end = Ok (ep, addr, control) ->
  exists socket, endpoint_of p transport target socket addr /\ new_endpoint socket = Ok ep.
Proof.
  destruct transport as [cfg|cfg]; intros Hep.
  - unfold build_socks_endpoint, socks_socket in Hep.
    apply bind_Ok in Hep as ([ [sock addr'] ctl] & Hs & Hep).
    apply bind_Ok in Hep as (ep' & Hmk%make_endpoint_inv & Hep). simplify_eq.
    apply bind_Ok in Hs as (assoc & Ha & Hs). rewrite resolve_target_for_socks_known in Hs.
    cbn [mbind outcome_bind] in Hs. simplify_eq.
    eexists. split; [|exact Hmk]. exists assoc. split; [done|]. split; reflexivity.
  - unfold build_direct_endpoint in Hep.
    apply bind_Ok in Hep as (taddr & Ht & Hep). apply bind_Ok in Hep as (u & Hu & Hep).
    apply bind_Ok in Hep as (ep' & Hmk%make_endpoint_inv & Hep). simplify_eq.
    exists (Plain u). split; [|done]. exists u. split; [done|]. split; [|done].
    by eapply build_udp_socket_confined.
Qed.

(** A request that succeeds counted the body of the response it got. *)
Lemma request_fut_inv `{QuicLaws} pr ck req sender code size fb tot :
  request_fut pr ck req sender = Ok (code, size, fb, tot) ->
  exists stream stream', recv_response stream = Ok (code, stream') /\
    (Z.of_nat (length (h3_content stream')) < 2 ^ 64 -> size = Z.of_nat (length (h3_content stream'))).
Proof.
  unfold request_fut. intros Hreq.
  apply bind_Ok in Hreq as (s1 & _ & Hreq). apply bind_Ok in Hreq as (s2 & _ & Hreq).
  apply bind_Ok in Hreq as ([code' s3] & Hresp & Hreq).
  apply bind_Ok in Hreq as (size' & Hb & [= -> -> _ _]).
  exists s2, s3. unfold http_error in Hresp. destruct (recv_response s2); cbn in Hresp; try done.
  split; [congruence|]. intros Hl. apply recv_body_inv in Hb; lia.
Qed.

(** The endpoint of a transport. *)
Definition build_endpoint `{QuicLib} `{SocksLib} (p : platform) (transport : Transport) (target : TestTarget) :
    px (Endpoint * SocketAddr * option Tcp) :=
  match transport with
  | Socks5 cfg => build_socks_endpoint cfg target
  | Direct cfg => build_direct_endpoint p cfg target
  end.

(** A request whose calls succeed counts the whole body. *)
Lemma http3_do_test_Ok `{QuicLaws} `{SocksLib} (p : platform) pr ck transport target I
    ep addr control cfg ep' conn sender req s1 s2 code s3 :
  build_endpoint p transport target = Ok (ep, addr, control) ->
  quic_config (mk_client_config
    (if tt_danger_accept_invalid_certs target then QuicNoVerify else RootStore) [lit "h3"]) = Ok cfg ->
  connect_with cfg addr (tt_host target) ep = Ok ep' -> connecting ep' = Ok conn ->
  h3_client conn = Ok sender -> h3_build_request (http_uri target) = Ok req ->
  h3_send_request req sender = Ok s1 -> h3_finish s1 = Ok s2 -> recv_response s2 = Ok (code, s3) ->
  h3_flowing I -> I s3 -> Z.of_nat (length (h3_content s3)) < 2 ^ 64 ->
  exists timing, http3_do_test p pr ck false transport target =
    Ok (mk_result Http3 Success (Some code) timing (Some (Z.of_nat (length (h3_content s3))))).
Proof.
  intros He Hq Hc Hcn Hcl Hb Hsr Hf Hr HI Hs3 Hl. unfold http3_do_test, build_endpoint in *.
  rewrite He. cbn [mbind outcome_bind]. unfold make_quic_client_config, quic_error, http_error.
  rewrite Hq. cbn [map_err mbind outcome_bind]. rewrite Hc. cbn [map_err mbind outcome_bind].
  rewrite Hcn. cbn [map_err mbind outcome_bind]. rewrite Hcl. cbn [map_err mbind outcome_bind].
  rewrite Hb. cbn [map_err mbind outcome_bind select_request]. unfold request_fut, http_error.
  rewrite Hsr. cbn [map_err mbind outcome_bind]. rewrite Hf. cbn [map_err mbind outcome_bind].
  rewrite Hr. cbn [map_err mbind outcome_bind].
  rewrite (recv_body_Ok I) by (done || lia). cbn [mbind outcome_bind]. rewrite Z.add_0_l. eauto.
Qed.

(** ** A model library: the peer answers with [code] and [chunks]. *)
Section model.
Context (h : host) (code : Z) (chunks : list (list byte)).

Definition frames_recv (s : list (list byte)) : outcome str (option (list byte) * list (list byte)) :=
  match s with [] => Ok (None, []) | c :: cs => Ok (Some c, cs) end.

Definition frames_quic : @QuicLib (host_os h) :=
  @Build_QuicLib (host_os h) (@quic_socket (host_os h)) ClientConfig unit unit (list (list byte)) str
    true (fun s => Ok s) (fun c => Ok c) (fun _ _ _ e => Ok e) (fun _ => Ok tt) (fun _ => Ok tt)
    (fun uri => Ok uri) (fun _ _ => Ok chunks) (fun s => Ok s) (fun s => Ok (code, s))
    frames_recv (fun s => length s).

Definition frames_quic_laws : @QuicLaws (host_os h) frames_quic.
Proof.
  refine (@Build_QuicLaws (host_os h) frames_quic (fun s => concat s) _ _); cbn.
  - intros [|c' cs] c s'; cbn; [done|]. by intros [= -> <-].
  - intros [|c' cs] s'; cbn; [done|]. done.
Defined.
End model.

(** ** Properties *)

(** A successful HTTP/3 test connected, under the name of the target, to
    one address, over one socket.  Through a proxy the socket is the one of
    the association, every datagram in it is labelled with the target and
    every one received is shown to QUIC as coming from that address; directly
    it is confined to the requested interface and the address is the target's.
    The size reported is that of the body. *)
Theorem http3_success `{OsLaws} `{!QuicLib} `{!QuicLaws} `{SocksLib} (p : platform) pr ck closed
    transport target r :
  http3_do_test p pr ck closed transport target = Ok r ->
  exists socket addr endpoint config stream stream' code,
    endpoint_of p transport target socket addr /\ new_endpoint socket = Ok endpoint /\
    quic_config (mk_client_config
      (if tt_danger_accept_invalid_certs target then QuicNoVerify else RootStore) [lit "h3"]) = Ok config /\
    is_ok (connect_with config addr (tt_host target) endpoint) = true /\
    recv_response stream = Ok (code, stream') /\
    status r = Success /\ http_status r = Some code /\
    (Z.of_nat (length (h3_content stream')) < 2 ^ 64 ->
     response_size r = Some (Z.of_nat (length (h3_content stream')))).
Proof.
  unfold http3_do_test. intros Hr.
  apply bind_Ok in Hr as ([ [ep addr] ctl] & (socket & Hep & Hnew)%build_endpoint_inv & Hr).
  apply bind_Ok in Hr as (config & Hcfg & Hr). apply bind_Ok in Hr as (ep' & Hcon & Hr).
  apply bind_Ok in Hr as (conn & _ & Hr). apply bind_Ok in Hr as (sender & _ & Hr).
  apply bind_Ok in Hr as (req & _ & Hr). apply bind_Ok in Hr as ([ [ [code size] fb] tot] & Hreq & Hr).
  destruct closed; [done|]. cbn [select_request] in Hreq.
  apply request_fut_inv in Hreq as (s & s' & Hresp & Hsize). simplify_eq.
  exists socket, addr, ep, config, s, s', code. split; [done|]. split; [done|]. split.
  { revert Hcfg. unfold make_quic_client_config, quic_error. destruct (quic_config _); cbn; congruence. }
  split; [revert Hcon; unfold quic_error; by destruct (connect_with _ _ _ _)|].
  do 3 (split; [done|]). intros Hl. cbn. by rewrite Hsize.
Qed.

Lemma http3_success_witness :
  exists r socket addr, @http3_do_test (host_os demo_host) (frames_quic demo_host 200 [lit "abc"])
      rfc_socks Linux Release demo_clock false (Direct (mk_direct_config None)) (demo_target true true) = Ok r /\
    @endpoint_of (host_os demo_host) (host_os_laws demo_host) rfc_socks Linux
      (Direct (mk_direct_config None)) (demo_target true true) socket addr /\
    response_size r = Some 3.
Proof.
  destruct (@http3_do_test (host_os demo_host) (frames_quic demo_host 200 [lit "abc"])
      rfc_socks Linux Release demo_clock false (Direct (mk_direct_config None)) (demo_target true true))
    as [r| | |] eqn:E; [|vm_compute in E; discriminate..].
  destruct (@http3_success (host_os demo_host) (host_os_laws demo_host)
    (frames_quic demo_host 200 [lit "abc"]) (frames_quic_laws demo_host 200 [lit "abc"])
    rfc_socks Linux Release demo_clock false (Direct (mk_direct_config None)) (demo_target true true) r E)
    as (socket & addr & _ & _ & _ & _ & _ & He & _).
  exists r, socket, addr. split; [done|]. split; [exact He|]. vm_compute in E. injection E as <-. reflexivity.
Defined.

(** ** Trust *)

(** A certificate that is trusted for the name, with a signature of its key;
    or, where any certificate will do, a signature of a supported scheme. *)
Definition vouched `{TlsLib} (insecure : bool) (n : ServerName) (c : Cert) (message : list byte)
    (dss : DigitallySignedStruct) : Prop :=
  if insecure
  then dss_scheme dss ∈ [RSA_PKCS1_SHA256; ECDSA_NISTP256_SHA256; RSA_PSS_SHA256] /\
    dss_scheme dss <> ED25519 /\ dss_scheme dss <> ECDSA_NISTP384_SHA384
  else trusted c n = true /\ signature_valid message c dss = true.

Lemma three_schemes s :
  s ∈ [RSA_PKCS1_SHA256; ECDSA_NISTP256_SHA256; RSA_PSS_SHA256] -> s <> ED25519 /\ s <> ECDSA_NISTP384_SHA384.
Proof. intros Hs. split; intros ->; set_solver. Qed.

Lemma http3_connected `{QuicTlsLaws} `{SocksLib} p pr ck closed transport target r :
  http3_do_test p pr ck closed transport target = Ok r ->
  exists config addr ep ep' conn,
    quic_config (mk_client_config
      (if tt_danger_accept_invalid_certs target then QuicNoVerify else RootStore) [lit "h3"]) = Ok config /\
    connect_with config addr (tt_host target) ep = Ok ep' /\ connecting ep' = Ok conn.
Proof.
  unfold http3_do_test, make_quic_client_config, quic_error. intros Hr.
  apply bind_Ok in Hr as ([ [ep addr] ctl] & _ & Hr).
  apply bind_Ok in Hr as (config & Hcfg & Hr). apply bind_Ok in Hr as (ep' & Hcon & Hr).
  apply bind_Ok in Hr as (conn & Hconn & Hr).
  exists config, addr, ep, ep', conn. split; [revert Hcfg; destruct (quic_config _); cbn; congruence|].
  split; [revert Hcon; destruct (connect_with _ _ _ _); cbn; congruence|].
  revert Hconn. destruct (connecting ep'); cbn; congruence.
Qed.

(** C31: an HTTPS test, of any version, that succeeds without the option to
    accept invalid certificates has talked to a peer that presented a
    certificate which is trusted for the target's host and signed the
    handshake with its key.  With the option the certificate may be anyone's,
    but the signature must still be of one of three schemes: a server with an
    Ed25519 or P-384 key is not reached at all. *)
Theorem success_trusted `{QuicTlsLaws} `{!TlsLaws} `{!H2Lib} `{SocksLib} (p : platform) pr ck closed
    transport target r :
  tt_use_tls target = true ->
  ((http1_do_test p ck transport target = Ok r \/ http2_do_test p pr ck transport target = Ok r) ->
   exists stream n t alpn, connect_tcp p transport target = Ok stream /\
     server_name (tt_host target) = Ok n /\ tls_stream alpn target stream = Ok t /\
     (forall a, selected t = Some a -> a ∈ default [] alpn) /\
     vouched (tt_danger_accept_invalid_certs target) n (peer_cert t) (handshake_message t)
       (handshake_signature t)) /\
  (http3_do_test p pr ck closed transport target = Ok r ->
   exists config addr ep ep' conn n, connect_with config addr (tt_host target) ep = Ok ep' /\
     connecting ep' = Ok conn /\ server_name (tt_host target) = Ok n /\
     vouched (tt_danger_accept_invalid_certs target) n (quic_cert conn) (quic_message conn)
       (quic_signature conn)).
Proof.
  intros Ht. split.
  - intros Hr. destruct (https_success_trusted p pr ck transport target r Ht Hr)
      as (s & n & t & al & Hc & Hn & Htls & Hs & Hv).
    by exists s, n, t, al.
  - intros Hr. destruct (http3_connected p pr ck closed transport target r Hr)
      as (config & addr & ep & ep' & conn & Hcfg & Hcon & Hconn).
    destruct (connecting_verified _ _ _ _ _ _ _ Hcfg Hcon Hconn) as (n & Hn & Hv & Hsch & Hsig).
    exists config, addr, ep, ep', conn, n. do 3 (split; [done|]). unfold vouched.
    destruct (tt_danger_accept_invalid_certs target); cbn in *; [|done].
    split; [done|]. by apply three_schemes.
Qed.

(** A QUIC library over [plain_tls]: it checks like it. *)
Section verified.
Context (h : host) (presented : str) (roots : list str).

Definition verified_connect (cfg : ClientConfig) (addr : SocketAddr) (name : str)
    (ep : @quic_socket (host_os h)) : outcome str (@quic_socket (host_os h)) :=
  match name, cc_verifier cfg with
  | [], _ => Err (lit "invalid dns name")
  | _, NoVerify | _, QuicNoVerify => Ok ep
  | _, RootStore =>
      if bool_decide (presented = name /\ presented ∈ roots) then Ok ep
      else Err (lit "invalid peer certificate: UnknownIssuer")
  end.

(** A connection is the configuration and name it was made with. *)
Definition verified_quic : @QuicLib (host_os h) :=
  @Build_QuicLib (host_os h) (ClientConfig * str * @quic_socket (host_os h)) ClientConfig
    (ClientConfig * str) unit (list (list byte)) str true
    (fun s => Ok (mk_client_config RootStore [], [], s)) (fun c => Ok c)
    (fun cfg addr name ep => e ← verified_connect cfg addr name ep.2; Ok (cfg, name, e))
    (fun ep => Ok ep.1) (fun _ => Ok tt)
    (fun uri => Ok uri) (fun _ _ => Ok [lit "abc"]) (fun s => Ok s) (fun s => Ok (200, s))
    frames_recv (fun s => length s).

Definition verified_quic_laws : @QuicTlsLaws (host_os h) verified_quic (plain_tls h presented roots).
Proof.
  refine (@Build_QuicTlsLaws (host_os h) verified_quic (plain_tls h presented roots)
    (fun _ => presented) (fun _ => []) (fun _ => mk_dss ECDSA_NISTP256_SHA256 presented) _); cbn.
  intros cc config addr name [ [c0 n0] ep] ep' conn [= <-] Hc [= <-].
  apply bind_Ok in Hc as (e & Hc & [= <-]). unfold verified_connect in Hc. cbn in Hc.
  exists name. destruct name as [|b name]; [done|]. split; [done|].
  destruct (cc_verifier cc); cbn; (split; [|split; [set_solver|] ]); try done.
  - by case_bool_decide.
  - by apply bool_decide_eq_true.
Defined.
End verified.

Lemma success_trusted_witness :
  exists r config addr ep ep' conn,
    @http3_do_test (host_os demo_host) (verified_quic demo_host (lit "10.0.0.1") [lit "10.0.0.1"])
      rfc_socks Linux Release demo_clock false (Direct (mk_direct_config None)) (demo_target true false) = Ok r /\
    @connect_with (host_os demo_host) (verified_quic demo_host (lit "10.0.0.1") [lit "10.0.0.1"])
      config addr (lit "10.0.0.1") ep = Ok ep' /\
    @connecting (host_os demo_host) (verified_quic demo_host (lit "10.0.0.1") [lit "10.0.0.1"]) ep' = Ok conn.
Proof.
  destruct (@http3_do_test (host_os demo_host) (verified_quic demo_host (lit "10.0.0.1") [lit "10.0.0.1"])
      rfc_socks Linux Release demo_clock false (Direct (mk_direct_config None)) (demo_target true false))
    as [r| | |] eqn:E; [|vm_compute in E; discriminate..].
  destruct (@success_trusted (host_os demo_host) (verified_quic demo_host (lit "10.0.0.1") [lit "10.0.0.1"])
    (plain_tls demo_host (lit "10.0.0.1") [lit "10.0.0.1"])
    (verified_quic_laws demo_host (lit "10.0.0.1") [lit "10.0.0.1"])
    (plain_tls_laws demo_host (lit "10.0.0.1") [lit "10.0.0.1"])
    (frames_h2 demo_host (lit "10.0.0.1") [lit "10.0.0.1"] 200 []) rfc_socks Linux Release demo_clock false
    (Direct (mk_direct_config None)) (demo_target true false) r eq_refl) as [_ H3].
  destruct (H3 E) as (config & addr & ep & ep' & conn & n & Hc & Hconn & _).
  exists r, config, addr, ep, ep', conn. split; [done|]. split; [exact Hc|exact Hconn].
Defined.
