(* ===== verification/ServeHttp.v ===== *)
(** * The HTTP test server's listeners (src/http_server.rs)

    The certificate, the server configuration, the three listeners and the
    HTTP/2 and HTTP/3 handlers, over the interfaces of the libraries that
    make certificates, speak TLS, HTTP/2 and HTTP/3. *)
From S2P Require Import Prelude AsyncIo Text Net Float64 Errors Listener Socks5Udp Os SocksLib Config.
From S2P Require Import Handshake Direct Transport Results Tls Http1 HttpServer Http2 Http3.

(** ** The libraries *)

(** [rcgen], at the one algorithm the server asks for; certificates and keys
    leave it as DER. *)
Class CertLib : Type := {
  KeyPair : Type;
  CertParams : Type;
  Certificate : Type;
  generate_for_ecdsa_p256 : outcome str KeyPair;
  params_new : list str -> outcome str CertParams;
  (** [distinguished_name] becomes the one common name; [is_ca] an
      unconstrained authority. *)
  set_common_name : str -> CertParams -> CertParams;
  set_ca_unconstrained : CertParams -> CertParams;
  self_signed : CertParams -> KeyPair -> outcome str Certificate;
  cert_der : Certificate -> list byte;
  key_der : KeyPair -> list byte;
}.

(** [ServerConfig] of the TLS library. *)
Record ServerConfig : Type := mk_server_config {
  sc_chain : list (list byte);
  sc_key : list byte;
  sc_alpn : list (list byte);
}.

(** The server's end of TLS on streams of type [S]. *)
Class TlsServerLib (S : Type) : Type := {
  Accepted : Type;
  acc_read :: AsyncRead Accepted;
  acc_read_some :: AsyncReadSome Accepted;
  acc_write :: AsyncWrite Accepted;
  acc_shutdown :: AsyncShutdown Accepted;
  (** [with_single_cert] checks the chain and the key. *)
  with_single_cert : list (list byte) -> list byte -> outcome str unit;
  tls_accept : ServerConfig -> S -> outcome str Accepted;
  alpn_protocol : Accepted -> option (list byte);
}.

(** [offered s]: the protocols in the client's hello on [s].  One both ends
    name is agreed on if both name any. *)
Class TlsServerLaws (S : Type) `{TlsServerLib S} : Type := {
  offered : S -> list (list byte);
  tls_accept_alpn cfg s t : tls_accept cfg s = Ok t ->
    match alpn_protocol t with
    | Some a => a ∈ sc_alpn cfg /\ a ∈ offered s
    | None => sc_alpn cfg = [] \/ offered s = []
    end;
}.

(** [http::Response], built from a status and headers. *)
Class HttpLib : Type := {
  HttpResponse : Type;
  build_response : Z -> list (str * str) -> outcome str HttpResponse;
}.

Definition field_char (b : byte) : bool := (33 <=? b2z b) && (b2z b <=? 126).

(** Statuses of three digits with printable headers are valid. *)
Class HttpLaws `{HttpLib} : Type := {
  resp_status : HttpResponse -> Z;
  build_response_ok code headers :
    100 <= code <= 999 ->
    Forall (fun h => forallb field_char (h.1 ++ h.2) = true /\ h.1 <> []) headers ->
    exists r, build_response code headers = Ok r /\ resp_status r = code;
}.

(** The server's side of HTTP/2 on TLS streams [T]. *)
Class H2ServerLib (T : Type) `{HttpLib} : Type := {
  H2Conn : Type;
  Respond : Type;
  SendStream : Type;
  h2s_handshake : T -> outcome str H2Conn;
  (** [accept]: the next request's handle, or none on a closed connection. *)
  h2s_accept : H2Conn -> outcome str (option (Respond * H2Conn));
  send_response : HttpResponse -> bool -> Respond -> outcome str SendStream;
  send_data : list byte -> bool -> SendStream -> outcome str SendStream;
  (** The number of requests still to come. *)
  h2s_left : H2Conn -> nat;
}.

(** [sent s]: the status, the data and whether the stream has ended. *)
Class H2ServerLaws (T : Type) `{HttpLaws} `{!H2ServerLib T} : Type := {
  sent : SendStream -> Z * list byte * bool;
  send_response_sent r e respond s :
    send_response r e respond = Ok s -> sent s = (resp_status r, [], e);
  send_data_sent bs e s s' : send_data bs e s = Ok s' ->
    sent s' = ((sent s).1.1, (sent s).1.2 ++ bs, e);
  h2s_accept_left c r c' : h2s_accept c = Ok (Some (r, c')) -> h2s_left c = S (h2s_left c');
}.

(** [quinn::ServerConfig] as far as it is set. *)
Record QuinnConfig (Crypto : Type) : Type := mk_quinn_config {
  qc_crypto : Crypto;
  qc_max_idle_timeout : option Z;  (* milliseconds *)
}.

Arguments mk_quinn_config {Crypto} _ _.

(** The server's side of QUIC and HTTP/3. *)
Class H3ServerLib `{HttpLib} : Type := {
  QuicCrypto : Type;
  UdpSocket : Type;
  ServerEndpoint : Type;
  Incoming : Type;
  ServerConnection : Type;
  H3Conn : Type;
  Resolver : Type;
  RequestStream : Type;
  quic_server_config : ServerConfig -> outcome str QuicCrypto;
  server_runtime : bool;
  udp_socket_bind : SocketAddr -> io UdpSocket;
  udp_set_nonblocking : UdpSocket -> io UdpSocket;
  server_endpoint : QuinnConfig QuicCrypto -> UdpSocket -> io ServerEndpoint;
  endpoint_accept : ServerEndpoint -> outcome no_error (option (Incoming * ServerEndpoint));
  endpoint_left : ServerEndpoint -> nat;
  incoming : Incoming -> outcome str ServerConnection;
  h3s_build : ServerConnection -> outcome str H3Conn;
  h3s_accept : H3Conn -> outcome str (option (Resolver * H3Conn));
  h3s_left : H3Conn -> nat;
  resolve_request : Resolver -> outcome str RequestStream;
  h3s_send_response : HttpResponse -> RequestStream -> outcome str RequestStream;
  h3s_send_data : list byte -> RequestStream -> outcome str RequestStream;
  h3s_finish : RequestStream -> outcome str RequestStream;
}.

Class H3ServerLaws `{HttpLaws} `{!H3ServerLib} : Type := {
  h3_sent : RequestStream -> option Z * list byte * bool;
  resolve_fresh r s : resolve_request r = Ok s -> h3_sent s = (None, [], false);
  h3s_response_sent r s s' : h3s_send_response r s = Ok s' ->
    h3_sent s' = (Some (resp_status r), (h3_sent s).1.2, (h3_sent s).2);
  h3s_data_sent bs s s' : h3s_send_data bs s = Ok s' ->
    h3_sent s' = ((h3_sent s).1.1, (h3_sent s).1.2 ++ bs, (h3_sent s).2);
  h3s_finish_sent s s' : h3s_finish s = Ok s' -> h3_sent s' = ((h3_sent s).1, true);
  endpoint_accept_left e i e' : endpoint_accept e = Ok (Some (i, e')) -> endpoint_left e = S (endpoint_left e');
  h3s_accept_left c r c' : h3s_accept c = Ok (Some (r, c')) -> h3s_left c = S (h3s_left c');
}.

(** ** Certificate and configuration *)
Definition generate_self_signed_rcgen `{CertLib} : anyhow (list (list byte) * list byte) :=
  key ← generate_for_ecdsa_p256;
  params ← params_new [lit "proxypen-test.local"; lit "localhost"];
  let params := set_common_name (lit "proxypen-test.local") params in
  let params := set_ca_unconstrained params in
  cert ← self_signed params key;
  Ok ([cert_der cert], key_der key).

Definition make_server_tls_config {S} `{TlsServerLib S} (cert_chain : list (list byte)) (key : list byte)
    (alpn : list (list byte)) : anyhow ServerConfig :=
  _ ← with_single_cert cert_chain key;
  let config := mk_server_config cert_chain key [] in
  Ok (match alpn with [] => config | _ => mk_server_config (sc_chain config) (sc_key config) alpn end).

(** ** The handlers *)

(** [.unwrap()]. *)
Definition unwrap {E A} (m : outcome E A) : anyhow A :=
  match m with Ok a => Ok a | Err _ => Panic | Panic => Panic | Hang => Hang end.

(** [let _ = ..] on a step of a stream: it stays as it was where the step
    fails. *)
Definition ignoring {A} (s : A) (m : outcome str A) : anyhow A :=
  match m with Err _ => Ok s | m => m end.

Section http2.
Context {T : Type} `{HttpLib} `{!H2ServerLib T}.

Definition response_headers : list (str * str) :=
  [(lit "content-type", lit "text/plain"); (lit "server", lit "proxypen-http-server")].

(** The task that answers a request; the error is the warning it logs. *)
Definition h2_answer (body : list byte) (respond : Respond) : anyhow SendStream :=
  response ← unwrap (build_response 200 response_headers);
  send_stream ← map_err (fun e => lit "h2 send error: " ++ e) (send_response response false respond);
  ignoring send_stream (send_data body true send_stream).

(** The [while let] on the requests, each answered by a task of its own. *)
Fixpoint h2_serve_loop (fuel : nat) (body : list byte) (h2_conn : H2Conn) :
    task (anyhow SendStream) unit :=
  match fuel with
  | O => lift Hang
  | S fuel =>
      match h2s_accept h2_conn with
      | Ok (Some (respond, h2_conn)) =>
          _ ← emit (h2_answer body respond);
          h2_serve_loop fuel body h2_conn
      | Ok None => lift (Ok tt)
      | Err _ => lift (Ok tt)
      | Panic => lift Panic
      | Hang => lift Hang
      end
  end.

Definition serve_http2 (body : list byte) (stream : T) : task (anyhow SendStream) unit :=
  h2_conn ← lift (h2s_handshake stream);
  h2_serve_loop (S (h2s_left h2_conn)) body h2_conn.
End http2.

Section http3.
Context `{HttpLib} `{!H3ServerLib}.

(** The task that answers a request, each early return with its warning. *)
Definition h3_answer (body : list byte) (resolver : Resolver) : anyhow RequestStream :=
  stream ← map_err (fun e => lit "h3 resolve request error: " ++ e) (resolve_request resolver);
  resp ← unwrap (build_response 200 response_headers);
  stream ← map_err (fun e => lit "h3 send error: " ++ e) (h3s_send_response resp stream);
  stream ← map_err (fun e => lit "h3 send data error: " ++ e) (h3s_send_data body stream);
  map_err (fun e => lit "h3 finish error: " ++ e) (h3s_finish stream).

Fixpoint h3_serve_loop (fuel : nat) (body : list byte) (h3_server : H3Conn) :
    task (anyhow RequestStream) unit :=
  match fuel with
  | O => lift Hang
  | S fuel =>
      match h3s_accept h3_server with
      | Ok (Some (resolver, h3_server)) =>
          _ ← emit (h3_answer body resolver);
          h3_serve_loop fuel body h3_server
      | Ok None => lift (Ok tt)
      | Err _ => lift (Ok tt)
      | Panic => lift Panic
      | Hang => lift Hang
      end
  end.

Definition serve_http3_conn (body : list byte) (conn : ServerConnection) :
    task (anyhow RequestStream) unit :=
  h3_server ← lift (map_err (fun e => lit "h3 server builder: " ++ e) (h3s_build conn));
  h3_serve_loop (S (h3s_left h3_server)) body h3_server.

(** What becomes of an incoming connection. *)
Definition serve_incoming (body : list byte) (i : Incoming) : task (anyhow RequestStream) unit :=
  conn ← lift (map_err (fun e => lit "QUIC accept error: " ++ e) (incoming i));
  serve_http3_conn body conn.

(** What the HTTP/3 listener does: it says where it listens and starts a task
    per incoming connection. *)
Inductive quic_action : Type :=
| H3Listening (addr : SocketAddr)
| H3Incoming (served : task (anyhow RequestStream) unit).

(** The endpoint's [while let]. *)
Fixpoint endpoint_loop (fuel : nat) (body : list byte) (endpoint : ServerEndpoint) :
    task quic_action unit :=
  match fuel with
  | O => lift Hang
  | S fuel =>
      match endpoint_accept endpoint with
      | Ok (Some (i, endpoint)) =>
          _ ← emit (H3Incoming (serve_incoming body i));
          endpoint_loop fuel body endpoint
      | Ok None => lift (Ok tt)
      | Err e => match e with end
      | Panic => lift Panic
      | Hang => lift Hang
      end
  end.
End http3.

(** ** The listeners *)
Section listeners.
Context {S : Type} `{AsyncRead S} `{AsyncReadSome S} `{AsyncWrite S} `{AsyncShutdown S}.
Context `{!TlsServerLib S} `{HttpLib} `{!H2ServerLib Accepted} `{!H3ServerLib} `{CertLib}.
Context (tcp_bind : SocketAddr -> io (listener S)).

(** A task of the plain listener is the stream it leaves. *)
Definition run_http1_plain (addr : SocketAddr) (body : list byte) : task (io S) unit :=
  listener ← lift (of_io (tcp_bind addr));
  accepting (fun stream _ => serve_http1 body stream) (li_accepts listener).

(** A task of the TLS listener: refused in the handshake, or handed to one of
    the handlers; what the handlers return is only logged. *)
Inductive tls_task : Type :=
| TlsRefused (warning : str)
| TlsHttp2 (served : task (anyhow SendStream) unit)
| TlsHttp1 (served : io Accepted)
| TlsHandshaking
| TlsPanicked.

Definition tls_connection (config : ServerConfig) (body : list byte) (stream : S) (peer : SocketAddr) :
    tls_task :=
  match tls_accept config stream with
  | Ok tls_stream =>
      match choose_handler (alpn_protocol tls_stream) with
      | ServeHttp2 => TlsHttp2 (serve_http2 body tls_stream)
      | ServeHttp1OverTls => TlsHttp1 (serve_http1_over_tls body tls_stream)
      end
  | Err e => TlsRefused (lit "tls accept " ++ show_addr peer ++ lit ": " ++ e)
  | Panic => TlsPanicked
  | Hang => TlsHandshaking
  end.

Definition run_tls_server (addr : SocketAddr) (cert_chain : list (list byte)) (key : list byte)
    (body : list byte) : task tls_task unit :=
  tls_config ← lift (make_server_tls_config cert_chain key [lit "h2"; lit "http/1.1"]);
  listener ← lift (of_io (tcp_bind addr));
  accepting (tls_connection tls_config body) (li_accepts listener).

Definition run_http3_server (addr : SocketAddr) (cert_chain : list (list byte)) (key : list byte)
    (body : list byte) : task quic_action unit :=
  tls_config ← lift (make_server_tls_config cert_chain key [lit "h3"]);
  quic_config ← lift (map_err (fun e => lit "QUIC server config: " ++ e) (quic_server_config tls_config));
  let server_config := mk_quinn_config quic_config (Some 30000) in
  _ ← lift (if server_runtime then Ok tt else Err (lit "no async runtime for QUIC"));
  socket ← lift (of_io (udp_socket_bind addr));
  socket ← lift (of_io (udp_set_nonblocking socket));
  endpoint ← lift (map_err (fun e => lit "QUIC endpoint: " ++ io_msg e)
               (server_endpoint server_config socket));
  _ ← emit (H3Listening addr);
  endpoint_loop (Datatypes.S (endpoint_left endpoint)) body endpoint.

(** What [run_server] does: it prints and starts its listeners; and its waiting
    for each of them, whatever they return. *)
Inductive http_listener : Type :=
| Eprint (text : str)
| Http1Plain (t : task (io S) unit)
| Http2Tls (t : task tls_task unit)
| Http3Quic (t : task quic_action unit).

Definition joined {A X} (handle : task A X) : anyhow unit :=
  match ending handle with Hang => Hang | _ => Ok tt end.

Definition header : str :=
  line (lit "=== HTTP Test Server ===") ++ line (lit "Certificate CN: proxypen-test.local") ++ line [].

Definition command_for (url : str) (bind : IpAddr) (port : Z) (options : str) : str :=
  line (lit "  proxypen press -t " ++ url ++ show_ip bind ++ lit ":" ++ show_u port ++ options).

Definition help (config : HttpServerConfig) : str :=
  line [] ++ line (lit "Press Ctrl+C to stop.") ++ line [] ++ line (lit "Test commands:") ++
  command_for (lit "http://") (hs_bind config) (hs_http1_port config) (lit " -P http1 -c 10 -n 100") ++
  command_for (lit "https://") (hs_bind config) (hs_http2_port config) (lit " -P http2 -c 10 -n 100 --insecure") ++
  command_for (lit "https://") (hs_bind config) (hs_http3_port config) (lit " -P http3 -c 10 -n 100 --insecure") ++
  line [].

Definition announce1 (addr : SocketAddr) : str := line (lit "HTTP/1  (plain) → http://" ++ show_addr addr).
Definition announce2 (addr : SocketAddr) : str := line (lit "HTTP/2  (TLS)   → https://" ++ show_addr addr).
Definition announce3 (addr : SocketAddr) : str := line (lit "HTTP/3  (QUIC)  → https://" ++ show_addr addr).

Definition run_server (config : HttpServerConfig) : task http_listener unit :=
  '(cert_chain, key) ← lift (map_err (fun e => lit "failed to generate self-signed cert: " ++ e)
                               generate_self_signed_rcgen);
  let body := response_body config in
  _ ← emit (Eprint header);
  let http1_addr := mk_addr (hs_bind config) (hs_http1_port config) in
  let http1 := run_http1_plain http1_addr body in
  _ ← emit (Http1Plain http1);
  _ ← emit (Eprint (announce1 http1_addr));
  let http2_addr := mk_addr (hs_bind config) (hs_http2_port config) in
  let http2 := run_tls_server http2_addr cert_chain key body in
  _ ← emit (Http2Tls http2);
  _ ← emit (Eprint (announce2 http2_addr));
  let http3_addr := mk_addr (hs_bind config) (hs_http3_port config) in
  let http3 := run_http3_server http3_addr cert_chain key body in
  _ ← emit (Http3Quic http3);
  _ ← emit (Eprint (announce3 http3_addr));
  _ ← emit (Eprint (help config));
  _ ← lift (joined http1);
  _ ← lift (joined http2);
  lift (joined http3).
End listeners.

(** ** Lemmas *)
Lemma make_server_tls_config_Ok {S} `{TlsServerLib S} chain key alpn cfg :
  make_server_tls_config chain key alpn = Ok cfg -> cfg = mk_server_config chain key alpn.
Proof.
  unfold make_server_tls_config. intros (u & _ & Hc)%bind_Ok. destruct alpn; by simplify_eq.
Qed.

(** The response the handlers build is one, so the [unwrap] does not panic. *)
Lemma response_builds `{HttpLaws} :
  exists r, build_response 200 response_headers = Ok r /\ resp_status r = 200.
Proof.
  apply build_response_ok; [lia|]. unfold response_headers.
  repeat (apply Forall_cons_2; [split; [vm_compute; reflexivity|done]|]). by apply Forall_nil.
Qed.

Lemma h2_answer_sent {T} `{H2ServerLaws T} body respond s :
  h2_answer body respond = Ok s -> sent s = (200, body, true) \/ sent s = (200, [], false).
Proof.
  unfold h2_answer. destruct response_builds as (r & -> & Hr). cbn [unwrap mbind outcome_bind].
  intros (s0 & Hs0 & Hs)%bind_Ok.
  destruct (send_response r false respond) as [s1| | |] eqn:E; simplify_eq/=.
  apply send_response_sent in E. rewrite Hr in E.
  destruct (send_data body true s0) as [s1| | |] eqn:E2; simplify_eq/=.
  - apply send_data_sent in E2. left. by rewrite E2, E.
  - by right.
Qed.

Lemma h3_answer_sent `{H3ServerLaws} body resolver s :
  h3_answer body resolver = Ok s -> h3_sent s = (Some 200, body, true).
Proof.
  unfold h3_answer. destruct response_builds as (r & -> & Hr). cbn [unwrap mbind outcome_bind].
  destruct (resolve_request resolver) as [s0| | |] eqn:E0; try done. cbn [map_err mbind outcome_bind].
  destruct (h3s_send_response r s0) as [s1| | |] eqn:E1; try done. cbn [map_err mbind outcome_bind].
  destruct (h3s_send_data body s1) as [s2| | |] eqn:E2; try done. cbn [map_err mbind outcome_bind].
  destruct (h3s_finish s2) as [s3| | |] eqn:E3; try done. intros [= <-].
  apply resolve_fresh in E0. apply h3s_response_sent in E1. apply h3s_data_sent in E2.
  apply h3s_finish_sent in E3. by rewrite E3, E2, E1, E0, Hr.
Qed.

Section dispatch.
Context {S : Type} `{TlsServerLaws S} `{HttpLib} `{!H2ServerLib Accepted}.

(** Clients that offer nothing, or not HTTP/2, are served HTTP/1.1, those
    that offer HTTP/2 alone HTTP/2. *)
Lemma tls_connection_dispatch chain key cfg body srv st peer :
  make_server_tls_config chain key [lit "h2"; lit "http/1.1"] = Ok cfg -> tls_accept cfg srv = Ok st ->
  (offered srv = [lit "h2"] -> tls_connection cfg body srv peer = TlsHttp2 (serve_http2 body st)) /\
  (lit "h2" ∉ offered srv -> tls_connection cfg body srv peer = TlsHttp1 (serve_http1_over_tls body st)).
Proof.
  intros ->%make_server_tls_config_Ok Ha. unfold tls_connection. rewrite Ha.
  apply tls_accept_alpn in Ha. cbn in Ha.
  destruct (alpn_protocol st) as [a|].
  - destruct Ha as [Hc Ho]. split; intros Hof.
    + rewrite Hof in Ho. apply list_elem_of_singleton in Ho as ->.
      unfold choose_handler. by rewrite decide_True by (vm_compute; reflexivity).
    + assert (a = lit "http/1.1") as -> by set_solver.
      unfold choose_handler. by rewrite decide_False by (vm_compute; discriminate).
  - destruct Ha as [Hc|Ho]; [done|]. split; [by rewrite Ho|done].
Qed.
End dispatch.

(** The loops run out of turns only when the connection, or endpoint, keeps
    one waiting. *)
Lemma h2_serve_loop_ends {T} `{H2ServerLaws T} fuel body c :
  (forall c, h2s_accept c <> Hang) -> (h2s_left c < fuel)%nat ->
  ending (h2_serve_loop fuel body c) <> Hang.
Proof.
  intros Hh. revert c. induction fuel as [|fuel IH]; intros c Hf; [lia|]. cbn [h2_serve_loop].
  destruct (h2s_accept c) as [ [ [r c']|]|e| |] eqn:E; try done.
  - rewrite bind_emit. cbn. apply IH. apply h2s_accept_left in E. lia.
  - by apply Hh in E.
Qed.

Lemma h3_serve_loop_ends `{H3ServerLaws} fuel body c :
  (forall c, h3s_accept c <> Hang) -> (h3s_left c < fuel)%nat ->
  ending (h3_serve_loop fuel body c) <> Hang.
Proof.
  intros Hh. revert c. induction fuel as [|fuel IH]; intros c Hf; [lia|]. cbn [h3_serve_loop].
  destruct (h3s_accept c) as [ [ [r c']|]|e| |] eqn:E; try done.
  - rewrite bind_emit. cbn. apply IH. apply h3s_accept_left in E. lia.
  - by apply Hh in E.
Qed.

Lemma endpoint_loop_ends `{H3ServerLaws} fuel body e :
  (forall e, endpoint_accept e <> Hang) -> (endpoint_left e < fuel)%nat ->
  ending (endpoint_loop fuel body e) <> Hang.
Proof.
  intros Hh. revert e. induction fuel as [|fuel IH]; intros e Hf; [lia|]. cbn [endpoint_loop].
  destruct (endpoint_accept e) as [ [ [i e']|]|err| |] eqn:E; try done.
  - rewrite bind_emit. cbn. apply IH. apply endpoint_accept_left in E. lia.
  - by apply Hh in E.
Qed.

(** ** The test server and the tests, end to end *)

(** C25: the HTTP/2 test against the test server.  A TLS connection on which
    the client offered "h2" is served HTTP/2; when the libraries carry the
    request to the server and the response back, the test succeeds with
    status 200, and the size it reports is that of the body alone. *)
Theorem http2_end_to_end `{H2Laws} `{SocksLib}
    {S} `{TlsServerLaws S} `{HttpLaws} `{!H2ServerLib Accepted} `{!H2ServerLaws Accepted}
    (p : platform) pr ck transport target
    chain key cfg body (srv : S) st conn respond conn' peer I stream t s1 s2 req code b :
  make_server_tls_config chain key [lit "h2"; lit "http/1.1"] = Ok cfg ->
  tls_accept cfg srv = Ok st -> offered srv = [lit "h2"] ->
  h2s_handshake st = Ok conn -> h2s_accept conn = Ok (Some (respond, conn')) ->
  (forall r, exists s, send_response r false respond = Ok s /\ is_ok (send_data body true s) = true) ->
  tt_use_tls target = true -> connect_tcp p transport target = Ok stream ->
  tls_stream (Some [lit "h2"]) target stream = Ok t -> h2_handshake t = Ok s1 ->
  build_request (http_uri target) = Ok req -> send_request req s1 = Ok s2 ->
  response s2 = Ok (code, b) -> flowing I -> I b ->
  (forall s, h2_answer body respond = Ok s -> sent s = (code, content b, true)) ->
  Z.of_nat (length body) < 2 ^ 64 ->
  exists served s r,
    tls_connection cfg body srv peer = TlsHttp2 served /\ head (actions served) = Some (Ok s) /\
    sent s = (200, body, true) /\
    http2_test p pr ck transport target = Ok r /\ status r = Success /\
    http_status r = Some 200 /\ response_size r = Some (Z.of_nat (length body)).
Proof.
  intros Hcfg Hacc Hoff Hhs Hreq Hsend Ht Hc Hs Hh Hb Hq Hr HI Hbi Hnet Hl.
  destruct (tls_connection_dispatch chain key cfg body srv st peer Hcfg Hacc) as [Hd _].
  specialize (Hd Hoff). destruct response_builds as (resp & Hresp & _).
  destruct (Hsend resp) as (sd & Hsd & Hok).
  assert (exists s, h2_answer body respond = Ok s /\ sent s = (200, body, true)) as (s & Ha & Hsent).
  { unfold h2_answer in *. rewrite Hresp in *. cbn [unwrap mbind outcome_bind] in *. rewrite Hsd in *.
    cbn [map_err mbind outcome_bind] in *. destruct (send_data body true sd) as [s| | |] eqn:E; try done.
    exists s. split; [done|]. apply send_data_sent in E. apply send_response_sent in Hsd.
    destruct response_builds as (resp' & Hresp' & Hst). rewrite Hresp in Hresp'. simplify_eq.
    by rewrite E, Hsd, Hst. }
  pose proof (Hnet s Ha) as Hn. rewrite Hsent in Hn. simplify_eq.
  destruct (http2_do_test_Ok p pr ck transport target I stream t s1 s2 req 200 b
    Ht Hc Hs Hh Hb Hq Hr HI Hbi Hl) as (timing & Hdo).
  exists (serve_http2 (content b) st), s,
    (mk_result Results.Http2 Success (Some 200) timing (Some (Z.of_nat (length (content b))))).
  split; [done|]. split; [|split; [done|split; [|done] ] ].
  - unfold serve_http2. erewrite bind_lift_Ok by exact Hhs. cbn [h2_serve_loop]. rewrite Hreq.
    rewrite bind_emit. cbn [actions head]. by rewrite Ha.
  - unfold http2_test. by rewrite Hdo.
Qed.

(** C26: the HTTP/3 test against the test server: an incoming connection that
    becomes one is served, and when the libraries carry the request and the
    response the test succeeds with status 200 and the size of the body. *)
Theorem http3_end_to_end `{QuicLaws} `{SocksLib} `{H3ServerLaws} (p : platform) pr ck transport target
    body i sconn hconn resolver hconn' I ep addr control cfg ep' conn sender req s1 s2 code s3 :
  incoming i = Ok sconn -> h3s_build sconn = Ok hconn ->
  h3s_accept hconn = Ok (Some (resolver, hconn')) -> is_ok (resolve_request resolver) = true ->
  (forall r s, is_ok (h3s_send_response r s) = true) -> (forall s, is_ok (h3s_send_data body s) = true) ->
  (forall s, is_ok (h3s_finish s) = true) ->
  build_endpoint p transport target = Ok (ep, addr, control) ->
  quic_config (mk_client_config
    (if tt_danger_accept_invalid_certs target then QuicNoVerify else RootStore) [lit "h3"]) = Ok cfg ->
  connect_with cfg addr (tt_host target) ep = Ok ep' -> connecting ep' = Ok conn ->
  h3_client conn = Ok sender -> h3_build_request (http_uri target) = Ok req ->
  h3_send_request req sender = Ok s1 -> h3_finish s1 = Ok s2 -> recv_response s2 = Ok (code, s3) ->
  h3_flowing I -> I s3 ->
  (forall s, h3_answer body resolver = Ok s -> h3_sent s = (Some code, h3_content s3, true)) ->
  Z.of_nat (length body) < 2 ^ 64 ->
  exists s r,
    head (actions (serve_incoming body i)) = Some (Ok s) /\ h3_sent s = (Some 200, body, true) /\
    http3_test p pr ck false transport target = Ok r /\ status r = Success /\
    http_status r = Some 200 /\ response_size r = Some (Z.of_nat (length body)).
Proof.
  intros Hi Hhb Hacc Hres Hsr Hsd Hsf He Hq Hc Hcn Hcl Hb Hrq Hf Hr HI Hs3 Hnet Hl.
  assert (exists s, h3_answer body resolver = Ok s) as (s & Ha).
  { unfold h3_answer. destruct response_builds as (resp & -> & _).
    destruct (resolve_request resolver) as [t0| | |]; try done. cbn [map_err unwrap mbind outcome_bind].
    pose proof (Hsr resp t0). destruct (h3s_send_response resp t0) as [t1| | |]; try done.
    cbn [map_err mbind outcome_bind]. pose proof (Hsd t1).
    destruct (h3s_send_data body t1) as [t2| | |]; try done. cbn [map_err mbind outcome_bind].
    pose proof (Hsf t2). destruct (h3s_finish t2) as [t3| | |]; try done. by exists t3. }
  pose proof (h3_answer_sent body resolver s Ha) as Hsent. pose proof (Hnet s Ha) as Hn.
  rewrite Hsent in Hn. simplify_eq.
  destruct (http3_do_test_Ok p pr ck transport target I ep addr control cfg ep' conn sender req s1 s2
    200 s3 He Hq Hc Hcn Hcl Hb Hrq Hf Hr HI Hs3 Hl) as (timing & Hdo).
  exists s, (mk_result Results.Http3 Success (Some 200) timing (Some (Z.of_nat (length (h3_content s3))))).
  split; [|split; [done|split; [|done] ] ].
  - unfold serve_incoming. erewrite bind_lift_Ok by (by rewrite Hi).
    unfold serve_http3_conn. erewrite bind_lift_Ok by (by rewrite Hhb). cbn [h3_serve_loop].
    rewrite Hacc, bind_emit. cbn [actions head]. by rewrite Ha.
  - unfold http3_test. by rewrite Hdo.
Qed.

(** The HTTP/1.1 test over TLS: the client offers no protocol, so it is served
    HTTP/1.1 like a plain one. *)
Lemma http1_tls_end_to_end `{OsLaws} `{SocksLib} `{!TlsLib} `{!TlsLaws}
    {S} `{TlsServerLaws S} `{HttpLib} `{!H2ServerLib Accepted}
    `{!AsyncReadLaws Accepted} `{!AsyncReadSomeLaws Accepted} `{!AsyncWriteLaws Accepted}
    `{!ReadSomeDuplexLaws Accepted} `{!AsyncShutdownLaws Accepted}
    (p : platform) ck transport target chain key cfg body (srv : S) st st' peer stream t
    (I : TlsStream -> Prop) :
  make_server_tls_config chain key [lit "h2"; lit "http/1.1"] = Ok cfg ->
  tls_accept cfg srv = Ok st -> offered srv = [] -> unread st <> [] ->
  serve_http1_over_tls body st = Ok st' ->
  tt_use_tls target = true -> connect_tcp p transport target = Ok stream ->
  tls_stream None target stream = Ok t -> serviceable I -> I t ->
  written st' = written st ++ unread t ->
  tls_connection cfg body srv peer = TlsHttp1 (Ok st') /\
  exists r, http1_test p ck transport target = Ok r /\ status r = Success /\ http_status r = Some 200 /\
    response_size r = Some (Z.of_nat (length (response_head (length body)) + length body)).
Proof.
  intros Hcfg Hacc Hoff Hne Hsv Ht Hc Hs HI Hi Hw.
  destruct (tls_connection_dispatch chain key cfg body srv st peer Hcfg Hacc) as [_ Hd].
  rewrite Hd by (rewrite Hoff; set_solver). split; [by rewrite Hsv|].
  destruct (serve_http1_written body st st' Hsv) as [Hwr _].
  rewrite decide_False in Hwr by done. rewrite Hw in Hwr. apply app_inv_head in Hwr.
  destruct (parse_response body) as [off Hp]. rewrite <- Hwr in Hp.
  unfold http1_test. rewrite (http1_tls_Ok p ck transport target stream t I 200 off Hc Ht Hs HI Hi Hp).
  eexists. split; [reflexivity|]. destruct (connect_times _ _). cbn. rewrite Hwr.
  unfold HttpServer.response. by rewrite length_app.
Qed.

(** ** The whole server *)
Section whole.
Context {S : Type} `{AsyncRead S} `{AsyncReadSome S} `{AsyncWrite S} `{AsyncShutdown S}.
Context `{!TlsServerLib S} `{HttpLib} `{!H2ServerLib Accepted} `{!H3ServerLib} `{CertLib}.
Context (tcp_bind : SocketAddr -> io (listener S)).

Lemma joined_cases {A X} (t : task A X) :
  (joined t = Hang /\ ending t = Hang) \/ (joined t = Ok tt /\ ending t <> Hang).
Proof. unfold joined. by destruct (ending t); [right|right|right|left]. Qed.

Lemma run_server_Ok config chain key :
  generate_self_signed_rcgen = Ok (chain, key) ->
  let body := response_body config in
  let a1 := mk_addr (hs_bind config) (hs_http1_port config) in
  let a2 := mk_addr (hs_bind config) (hs_http2_port config) in
  let a3 := mk_addr (hs_bind config) (hs_http3_port config) in
  let h1 := run_http1_plain tcp_bind a1 body in
  let h2 := run_tls_server tcp_bind a2 chain key body in
  let h3 := run_http3_server (S:=S) a3 chain key body in
  actions (run_server tcp_bind config) =
    [Eprint header; Http1Plain h1; Eprint (announce1 a1); Http2Tls h2; Eprint (announce2 a2);
     Http3Quic h3; Eprint (announce3 a3); Eprint (help config)] /\
  ending (run_server tcp_bind config) = (_ ← joined h1; _ ← joined h2; joined h3).
Proof.
  intros Hg body a1 a2 a3 h1 h2 h3. unfold run_server. erewrite bind_lift_Ok by (rewrite Hg; reflexivity).
  cbn beta iota. rewrite !bind_emit. cbn [actions ending]. fold body a1 a2 a3. fold h1 h2 h3.
  destruct (joined_cases h1) as [ [-> _]|[-> _] ]; [done|].
  destruct (joined_cases h2) as [ [-> _]|[-> _] ]; [done|].
  by destruct (joined_cases h3) as [ [-> _]|[-> _] ].
Qed.

(** C27: the test server starts its three listeners whenever it has a
    certificate, each whatever becomes of the others, announces the address
    of each, bound or not, and without a certificate is an error.  It runs while one of them does: as long as nothing fails the
    plain listener serves everybody who connects.  What a listener returns is
    thrown away: the server never reports an error of theirs, and when none
    of them could bind its address it returns as if all were well. *)
Theorem run_server_outcome (config : HttpServerConfig) chain key :
  (forall e, generate_self_signed_rcgen = Err e ->
     run_server tcp_bind config = mk_task [] (Err (lit "failed to generate self-signed cert: " ++ e))) /\
  (generate_self_signed_rcgen = Ok (chain, key) ->
   let body := response_body config in
   let a1 := mk_addr (hs_bind config) (hs_http1_port config) in
   let a2 := mk_addr (hs_bind config) (hs_http2_port config) in
   let a3 := mk_addr (hs_bind config) (hs_http3_port config) in
   let h1 := run_http1_plain tcp_bind a1 body in
   let h2 := run_tls_server tcp_bind a2 chain key body in
   let h3 := run_http3_server (S:=S) a3 chain key body in
   actions (run_server tcp_bind config) =
     [Eprint header; Http1Plain h1; Eprint (announce1 a1); Http2Tls h2; Eprint (announce2 a2);
      Http3Quic h3; Eprint (announce3 a3); Eprint (help config)] /\
   (ending (run_server tcp_bind config) = Hang <->
      ending h1 = Hang \/ ending h2 = Hang \/ ending h3 = Hang) /\
   (ending (run_server tcp_bind config) <> Hang -> ending (run_server tcp_bind config) = Ok tt) /\
   (forall l, tcp_bind a1 = Ok l ->
      actions h1 = (fun c => serve_http1 body c.1) <$> accepted (li_accepts l) /\
      (Forall (fun a => is_ok a = true) (li_accepts l) -> ending (run_server tcp_bind config) = Hang)) /\
   (forall e1 e2 e3, tcp_bind a1 = Err e1 -> tcp_bind a2 = Err e2 -> udp_socket_bind a3 = Err e3 ->
      (forall cfg, quic_server_config cfg <> Hang) -> (forall c k, with_single_cert c k <> Hang) ->
      ending (run_server tcp_bind config) = Ok tt)).
Proof.
  split; [intros e He; unfold run_server; by rewrite He|].
  intros Hg body a1 a2 a3 h1 h2 h3. destruct (run_server_Ok config chain key Hg) as [Hact Hend].
  fold body a1 a2 a3 in Hact, Hend. fold h1 h2 h3 in Hact, Hend.
  assert (ending (run_server tcp_bind config) = Hang <->
      ending h1 = Hang \/ ending h2 = Hang \/ ending h3 = Hang) as Hhang.
  { rewrite Hend. destruct (joined_cases h1) as [ [-> ?]|[-> ?] ]; [split; [by left|done]|].
    destruct (joined_cases h2) as [ [-> ?]|[-> ?] ]; [split; [by right; left|done]|].
    destruct (joined_cases h3) as [ [-> ?]|[-> ?] ]; [split; [by right; right|done]|].
    split; [done|]. by intros [?|[?|?] ]. }
  split; [done|]. split; [done|].
  assert (ending (run_server tcp_bind config) <> Hang -> ending (run_server tcp_bind config) = Ok tt) as Hok.
  { rewrite Hend. destruct (joined_cases h1) as [ [-> _]|[-> _] ]; [done|].
    destruct (joined_cases h2) as [ [-> _]|[-> _] ]; [done|].
    by destruct (joined_cases h3) as [ [-> _]|[-> _] ]. }
  split; [done|]. split.
  - intros l Hl. assert (h1 = accepting (fun s _ => serve_http1 body s) (li_accepts l)) as Hh1.
    { unfold h1, run_http1_plain. by erewrite bind_lift_Ok by (by rewrite Hl). }
    rewrite accepting_spec in Hh1. split; [by rewrite Hh1|].
    intros Hall. apply Hhang. left. rewrite Hh1. by apply stopped_Hang.
  - intros e1 e2 e3 E1 E2 E3 Hq Hw. apply Hok. rewrite Hhang.
    intros [Hh|[Hh|Hh] ]; revert Hh.
    + unfold h1, run_http1_plain. by rewrite E1.
    + unfold h2, run_tls_server, make_server_tls_config. pose proof (Hw chain key).
      destruct (with_single_cert chain key); try done.
      cbn [mbind outcome_bind]. erewrite bind_lift_Ok by reflexivity. by rewrite E2.
    + unfold h3, run_http3_server, make_server_tls_config. pose proof (Hw chain key).
      destruct (with_single_cert chain key); try done.
      cbn [mbind outcome_bind]. erewrite bind_lift_Ok by reflexivity.
      match goal with |- context [quic_server_config ?c] => pose proof (Hq c); destruct (quic_server_config c) end;
        try done.
      erewrite bind_lift_Ok by reflexivity. destruct server_runtime; [|done].
      erewrite bind_lift_Ok by reflexivity. by rewrite E3.
Qed.
End whole.

(** ** Model libraries

    Certificates are their names; TLS is the stream under it, on which the
    client has offered [offers]; each connection brings one request. *)
Definition text_certs : CertLib := {|
  KeyPair := unit;
  CertParams := str;
  Certificate := str;
  generate_for_ecdsa_p256 := Ok tt;
  params_new names := Ok (concat names);
  set_common_name _ p := p;
  set_ca_unconstrained p := p;
  self_signed p _ := Ok p;
  cert_der c := c;
  key_der _ := lit "key";
|}.

Section servers.
Context (offers : list (list byte)) (agreed : option (list byte)).

(** The handshake succeeds if [agreed] is what the two ends agree on. *)
Definition plain_accept (cfg : ServerConfig) (s : conn) : outcome str conn :=
  if match agreed with
     | Some a => bool_decide (a ∈ sc_alpn cfg /\ a ∈ offers)
     | None => bool_decide (offers = [])
     end
  then Ok s else Err (lit "peer doesn't support any known protocol").

Definition plain_tls_server : TlsServerLib conn :=
  @Build_TlsServerLib conn conn _ _ _ _ (fun _ _ => Ok tt) plain_accept (fun _ => agreed).

Definition plain_tls_server_laws : @TlsServerLaws conn plain_tls_server.
Proof.
  refine (@Build_TlsServerLaws conn plain_tls_server (fun _ => offers) _). cbn.
  intros cfg s t. unfold plain_accept.
  destruct agreed; (case_bool_decide; [|done]); intros _; [done|by right].
Defined.
End servers.

Definition http_responses : HttpLib := @Build_HttpLib (Z * list (str * str)) (fun c h => Ok (c, h)).

Definition http_responses_laws : @HttpLaws http_responses.
Proof.
  refine (@Build_HttpLaws http_responses fst _). intros code headers _ _.
  by exists (code, headers).
Defined.

(** The stream of a response is what was sent on it. *)
Definition h2_requests : @H2ServerLib conn http_responses :=
  @Build_H2ServerLib conn http_responses nat unit (Z * list byte * bool)
    (fun _ => Ok 1%nat) (fun n => Ok (match n with O => None | S n => Some (tt, n) end))
    (fun r e _ => Ok (fst r, [], e)) (fun bs e s => Ok (s.1.1, s.1.2 ++ bs, e)) (fun n => n).

Definition h2_requests_laws : @H2ServerLaws conn http_responses http_responses_laws h2_requests.
Proof.
  refine (@Build_H2ServerLaws conn http_responses http_responses_laws h2_requests (fun s => s) _ _ _); cbn.
  - by intros r e respond s [= <-].
  - by intros bs e s s' [= <-].
  - by intros [|c] r c' [= _ <-].
Defined.

Definition h3_requests (bound : SocketAddr -> io SocketAddr) : @H3ServerLib http_responses :=
  @Build_H3ServerLib http_responses ServerConfig SocketAddr nat unit unit nat unit
    (option Z * list byte * bool)
    (fun c => Ok c) true bound (fun a => Ok a) (fun _ _ => Ok 1%nat)
    (fun n => Ok (match n with O => None | S n => Some (tt, n) end)) (fun n => n)
    (fun _ => Ok tt) (fun _ => Ok 1%nat)
    (fun n => Ok (match n with O => None | S n => Some (tt, n) end)) (fun n => n)
    (fun _ => Ok (None, [], false)) (fun r s => Ok (Some (fst r), s.1.2, s.2))
    (fun bs s => Ok (s.1.1, s.1.2 ++ bs, s.2)) (fun s => Ok (s.1, true)).

Definition h3_requests_laws bound : @H3ServerLaws http_responses http_responses_laws (h3_requests bound).
Proof.
  refine (@Build_H3ServerLaws http_responses http_responses_laws (h3_requests bound) (fun s => s) _ _ _ _ _ _); cbn.
  - by intros r s [= <-].
  - by intros r s s' [= <-].
  - by intros bs s s' [= <-].
  - by intros s s' [= <-].
  - by intros [|c] r c' [= _ <-].
  - by intros [|c] r c' [= _ <-].
Defined.

(** ** Witnesses *)
Definition quiet_conn : conn := mk_conn [] true [] None.

Definition demo_stream : host_tcp :=
  mk_host_tcp quiet_conn (mk_endpoint None None (Some (mk_addr (V4 (z2b <$> [10; 0; 0; 1])) 8443))).

Lemma http2_end_to_end_witness :
  exists served s r,
    @tls_connection conn (plain_tls_server [lit "h2"] (Some (lit "h2"))) http_responses h2_requests
      (mk_server_config [] [] [lit "h2"; lit "http/1.1"]) demo_body quiet_conn (mk_addr (V4 []) 0) =
      TlsHttp2 served /\
    head (actions served) = Some (Ok s) /\ s = (200, demo_body, true) /\
    @http2_test (host_os demo_host) (plain_tls demo_host [] []) (frames_h2 demo_host [] [] 200 [demo_body])
      rfc_socks Linux Dev demo_clock (Direct (mk_direct_config None)) (demo_target true true) = Ok r /\
    response_size r = Some 15.
Proof.
  destruct (@http2_end_to_end (host_os demo_host) (plain_tls demo_host [] [])
    (frames_h2 demo_host [] [] 200 [demo_body]) (frames_h2_laws demo_host [] [] 200 [demo_body]) rfc_socks
    conn (plain_tls_server [lit "h2"] (Some (lit "h2")))
    (plain_tls_server_laws [lit "h2"] (Some (lit "h2"))) http_responses http_responses_laws
    h2_requests h2_requests_laws Linux Dev demo_clock (Direct (mk_direct_config None)) (demo_target true true)
    [] [] (mk_server_config [] [] [lit "h2"; lit "http/1.1"]) demo_body quiet_conn quiet_conn 1%nat tt 0%nat
    (mk_addr (V4 []) 0) (fun _ => True) demo_stream demo_stream demo_stream demo_stream
    (http_uri (demo_target true true)) 200 (mk_frames_body [demo_body] 0))
    as (served & s & r & Hserved & Hs & Hsent & Hr & _ & _ & Hsize).
  - reflexivity.
  - vm_compute. reflexivity.
  - reflexivity.
  - reflexivity.
  - reflexivity.
  - intros resp. eexists. split; reflexivity.
  - reflexivity.
  - vm_compute. reflexivity.
  - vm_compute. reflexivity.
  - reflexivity.
  - reflexivity.
  - reflexivity.
  - reflexivity.
  - split; [intros [ [|c cs] h] _; eexists _, _; (split; [reflexivity|done])|].
    intros n [cs h] _. eexists. split; [reflexivity|done].
  - done.
  - intros s Hs. vm_compute in Hs. injection Hs as <-. vm_compute. reflexivity.
  - vm_compute. reflexivity.
  - exists served, s, r. split; [exact Hserved|]. split; [exact Hs|]. split; [exact Hsent|].
    split; [exact Hr|]. rewrite Hsize. reflexivity.
Defined.

Lemma http3_end_to_end_witness :
  exists s r,
    head (actions (@serve_incoming http_responses (h3_requests Ok) demo_body tt)) = Some (Ok s) /\
    s = (Some 200, demo_body, true) /\
    @http3_test (host_os demo_host) (frames_quic demo_host 200 [demo_body]) rfc_socks Linux Dev
      demo_clock false (Direct (mk_direct_config None)) (demo_target true true) = Ok r /\
    response_size r = Some 15.
Proof.
  destruct (@build_endpoint (host_os demo_host) (frames_quic demo_host 200 [demo_body]) rfc_socks Linux
    (Direct (mk_direct_config None)) (demo_target true true)) as [ [ [ep addr] ctl]| | |] eqn:E;
    [|vm_compute in E; discriminate..].
  destruct (@http3_end_to_end (host_os demo_host) (frames_quic demo_host 200 [demo_body])
    (frames_quic_laws demo_host 200 [demo_body]) rfc_socks http_responses http_responses_laws
    (h3_requests Ok) (h3_requests_laws Ok) Linux Dev demo_clock (Direct (mk_direct_config None)) (demo_target true true)
    demo_body tt tt 1%nat tt 0%nat (fun _ => True) ep addr ctl (mk_client_config QuicNoVerify [lit "h3"]) ep
    tt tt (http_uri (demo_target true true)) [demo_body] [demo_body] 200 [demo_body])
    as (s & r & Hs & Hsent & Hr & _ & _ & Hsize).
  - reflexivity.
  - reflexivity.
  - reflexivity.
  - reflexivity.
  - reflexivity.
  - reflexivity.
  - reflexivity.
  - exact E.
  - reflexivity.
  - reflexivity.
  - reflexivity.
  - reflexivity.
  - reflexivity.
  - reflexivity.
  - reflexivity.
  - reflexivity.
  - intros [|c cs] _; eexists _, _; (split; [reflexivity|done]).
  - done.
  - intros s Hs. vm_compute in Hs. injection Hs as <-. vm_compute. reflexivity.
  - vm_compute. reflexivity.
  - exists s, r. split; [exact Hs|]. split; [exact Hsent|]. split; [exact Hr|].
    rewrite Hsize. reflexivity.
Defined.

Definition address_in_use : io_error := mk_io_error (OtherKind 98) (lit "Address already in use (os error 98)").

Lemma run_server_outcome_witness :
  ending (@run_server conn _ _ _ (plain_tls_server [] None) http_responses h2_requests
    (h3_requests (fun _ => Err address_in_use)) text_certs (fun _ => Err address_in_use) default_config) = Ok tt.
Proof.
  destruct (@run_server_outcome conn _ _ _ (plain_tls_server [] None) http_responses h2_requests
    (h3_requests (fun _ => Err address_in_use)) text_certs (fun _ => Err address_in_use) default_config
    [lit "proxypen-test.locallocalhost"] (lit "key")) as [_ Hr].
  destruct Hr as (_ & _ & _ & _ & Hr); [reflexivity|].
  apply (Hr address_in_use address_in_use address_in_use); [reflexivity|reflexivity|reflexivity|discriminate|discriminate].
Defined.
