(* ===== verification/Press.v ===== *)
(** * The press test (src/press.rs)

    Latency statistics over binary64 samples, and the run itself: one task
    per request behind a semaphore, every access to the shared vectors and
    counters a step of its own. *)
From stdpp Require Import relations.
From Stdlib Require Import Sorted.
From S2P Require Import Prelude AsyncIo Text Net Float64 Errors Socks5Udp Os SocksLib Config.
From S2P Require Import Handshake Direct Transport Results Tls Http1 Http2 Http3.

#[local] Open Scope Z_scope.

Module PressProtocol.
Inductive t : Type := Http1 | Http2 | Http3.

Definition show (p : t) : str :=
  match p with
  | Http1 => lit "HTTP/1.1"
  | Http2 => lit "HTTP/2"
  | Http3 => lit "HTTP/3"
  end.
End PressProtocol.

Record PressOptions : Type := mk_press_options {
  po_transport : Transport;
  po_target : TestTarget;
  po_protocol : PressProtocol.t;
  po_concurrency : Z;  (* usize *)
  po_num_requests : Z;  (* usize *)
  po_timeout : Z;  (* nanoseconds *)
}.

(** ** Statistics *)
Record LatencyStats : Type := mk_stats {
  min_ms : f64;
  max_ms : f64;
  avg_ms : f64;
  p50_ms : f64;
  p90_ms : f64;
  p95_ms : f64;
  p99_ms : f64;
  sample_count : Z;
}.

Definition default_stats : LatencyStats :=
  mk_stats f64_zero f64_zero f64_zero f64_zero f64_zero f64_zero f64_zero 0.

Definition f64_100 : f64 := f64_of_Z 100.

(** [(p / 100.0 * (n - 1) as f64) as usize] clamped to [0 .. n - 1], for a
    [p] that is a whole number. *)
Definition percentile_index (p : Z) (n : nat) : nat :=
  let idx := f64_to_u 64 (f64_mul (f64_div (f64_of_Z p) f64_100) (f64_of_Z (Z.of_nat n - 1))) in
  Z.to_nat (Z.max 0 (Z.min idx (Z.of_nat n - 1))).

Definition percentile (sorted : list f64) (p : Z) : outcome no_error f64 :=
  match sorted with
  | [] => Ok f64_zero
  | _ => index sorted (percentile_index p (length sorted))
  end.

(** [iter().sum()] of [f64]s starts at -0.0. *)
Definition f64_sum (samples : list f64) : f64 := foldl f64_add (S754_zero true) samples.

Definition from_sorted_ms (samples : list f64) : outcome no_error LatencyStats :=
  match samples with
  | [] => Ok default_stats
  | _ =>
      let n := length samples in
      let sum := f64_sum samples in
      min_ms ← index samples 0;
      max_ms ← index samples (n - 1);
      p50_ms ← percentile samples 50;
      p90_ms ← percentile samples 90;
      p95_ms ← percentile samples 95;
      p99_ms ← percentile samples 99;
      Ok (mk_stats min_ms max_ms (f64_div sum (f64_of_Z (Z.of_nat n))) p50_ms p90_ms p95_ms p99_ms
            (Z.of_nat n))
  end.

(** [sort_by(|a, b| a.partial_cmp(b).unwrap_or(Equal))], which is stable. *)
Fixpoint insert_sample (x : f64) (l : list f64) : list f64 :=
  match l with
  | [] => [x]
  | y :: l' => if decide (f64_cmp x y <> Gt) then x :: y :: l' else y :: insert_sample x l'
  end.

Definition sort_samples (l : list f64) : list f64 := foldr insert_sample [] l.

(** ** The result and its report *)
Record PressResult : Type := mk_press_result {
  pr_protocol : PressProtocol.t;
  pr_total_requests : Z;
  pr_success_count : Z;
  pr_error_count : Z;
  pr_ttfb : LatencyStats;
  pr_total_time : LatencyStats;
  pr_total_duration : Z;
  pr_requests_per_second : f64;
  pr_errors : list str;
}.

(** [{:>8.2} ms]. *)
Definition show_ms (label : str) (x : f64) : str :=
  line (lit "  " ++ label ++ lit ": " ++ pad_left 8 (show_f64_2 x) ++ lit " ms").

Definition show_stats (s : LatencyStats) : str :=
  show_ms (lit "min") (min_ms s) ++ show_ms (lit "avg") (avg_ms s) ++
  show_ms (lit "p50") (p50_ms s) ++ show_ms (lit "p90") (p90_ms s) ++
  show_ms (lit "p95") (p95_ms s) ++ show_ms (lit "p99") (p99_ms s) ++
  show_ms (lit "max") (max_ms s).

(** At most twenty errors are listed. *)
Fixpoint show_errors (i : nat) (errors : list str) (n : nat) : str :=
  match errors with
  | [] => []
  | err :: errors =>
      if decide (20 <= i)%nat
      then line (lit "  ... and " ++ show_u (Z.of_nat (n - 20)) ++ lit " more")
      else line (lit "  " ++ err) ++ show_errors (S i) errors n
  end.

Definition show_press (self : PressResult) : str :=
  line (lit "=== Press Test Results ===") ++
  line (lit "Protocol:        " ++ PressProtocol.show (pr_protocol self)) ++
  line (lit "Total requests:  " ++ show_u (pr_total_requests self)) ++
  line (lit "Successful:      " ++ show_u (pr_success_count self)) ++
  line (lit "Failed:          " ++ show_u (pr_error_count self)) ++
  line (lit "Duration:        " ++ show_f64_2 (as_secs_f64 (pr_total_duration self)) ++ lit "s") ++
  line (lit "Req/sec:         " ++ show_f64_2 (pr_requests_per_second self)) ++
  line [] ++
  line (lit "--- TTFB (Time To First Byte) ---") ++ show_stats (pr_ttfb self) ++
  line [] ++
  line (lit "--- Total Request Time ---") ++ show_stats (pr_total_time self) ++
  match pr_errors self with
  | [] => []
  | errors => line [] ++ line (lit "--- Errors ---") ++ show_errors 0 errors (length errors)
  end.

(** ** One request *)
Section request.
Context `{H2Lib} `{!QuicLib} `{SocksLib} (p : platform) (pr : profile).

Definition run_test (opts : PressOptions) (ck : http_clock) (closed_first : bool) :
    outcome no_error TestResult :=
  match po_protocol opts with
  | PressProtocol.Http1 => http1_test p ck (po_transport opts) (po_target opts)
  | PressProtocol.Http2 => http2_test p pr ck (po_transport opts) (po_target opts)
  | PressProtocol.Http3 => http3_test p pr ck closed_first (po_transport opts) (po_target opts)
  end.

(** Each of the tests is under a timeout, so a task's test is always ready. *)
Lemma run_test_not_hang opts ck closed_first : run_test opts ck closed_first <> Hang.
Proof.
  assert (forall pc run, settle pc run <> Hang) as Hs by (intros pc run; by destruct run).
  unfold run_test. destruct (po_protocol opts); apply Hs.
Qed.
End request.

(** ** The run *)

(** Where a task is between two accesses to what is shared. *)
Inductive task : Type :=
| Waiting
| Running
| PushTtfb (t : Timing)
| PushTotal (t : Timing)
| CountSuccess
| CountError (err : str)
| PushError (err : str)
| Finished.

Record press_state : Type := mk_press_state {
  permits : nat;
  tasks : list task;
  ttfb_samples : list f64;
  total_samples : list f64;
  success_count : Z;
  error_count : Z;
  errors : list str;
}.

Definition millis (d : Z) : f64 := f64_mul (as_secs_f64 d) (f64_of_Z 1000).

Section press.
(** What the test of each task comes to. *)
Context (results : nat -> outcome no_error TestResult).

Definition press_init (concurrency num_requests : nat) : press_state :=
  mk_press_state concurrency (replicate num_requests Waiting) [] [] 0 0 [].

(** [Semaphore::new], which refuses more than [Semaphore::MAX_PERMITS]
    ([usize::MAX >> 3]) permits, and [Vec::with_capacity] of elements of eight
    bytes ([f64] and [JoinHandle]), which refuses more than [isize::MAX]
    bytes. *)
Definition MAX_PERMITS : Z := Z.shiftr u64_MAX 3.

Definition semaphore_new (permits : Z) : outcome no_error nat :=
  if decide (MAX_PERMITS < permits) then Panic else Ok (Z.to_nat permits).

Definition vec_with_capacity (n : Z) : outcome no_error unit :=
  if decide (2 ^ 63 - 1 < 8 * n) then Panic else Ok tt.

(** [press] up to the first [await]: the semaphore, the three vectors with a
    capacity, and a task per request. *)
Definition press_start (opts : PressOptions) : outcome no_error press_state :=
  semaphore ← semaphore_new (po_concurrency opts);
  _ ← vec_with_capacity (po_num_requests opts);
  _ ← vec_with_capacity (po_num_requests opts);
  _ ← vec_with_capacity (po_num_requests opts);
  Ok (press_init semaphore (Z.to_nat (po_num_requests opts))).

Definition move (i : nat) (t : task) (s : press_state) : press_state :=
  mk_press_state (permits s) (<[i := t]> (tasks s)) (ttfb_samples s) (total_samples s)
    (success_count s) (error_count s) (errors s).

(** The end of a task, by return or by panic, gives the permit back. *)
Definition finish (i : nat) (s : press_state) : press_state :=
  mk_press_state (S (permits s)) (<[i := Finished]> (tasks s)) (ttfb_samples s) (total_samples s)
    (success_count s) (error_count s) (errors s).

(** The next move of task [i], if it has one. *)
Definition task_step (i : nat) (s : press_state) : option press_state :=
  match tasks s !! i with
  | Some Waiting =>
      match permits s with
      | O => None
      | S k => Some (mk_press_state k (<[i := Running]> (tasks s)) (ttfb_samples s) (total_samples s)
                       (success_count s) (error_count s) (errors s))
      end
  | Some Running =>
      match results i with
      | Ok r =>
          match status r with
          | Success => Some (move i (PushTtfb (timing r)) s)
          | Failed err => Some (move i (CountError err) s)
          end
      | Err _ | Panic => Some (finish i s)
      | Hang => None
      end
  | Some (PushTtfb t) =>
      Some (mk_press_state (permits s) (<[i := PushTotal t]> (tasks s))
              (ttfb_samples s ++ [millis (first_byte t)]) (total_samples s)
              (success_count s) (error_count s) (errors s))
  | Some (PushTotal t) =>
      Some (mk_press_state (permits s) (<[i := CountSuccess]> (tasks s))
              (ttfb_samples s) (total_samples s ++ [millis (total t)])
              (success_count s) (error_count s) (errors s))
  | Some CountSuccess =>
      Some (finish i (mk_press_state (permits s) (tasks s) (ttfb_samples s) (total_samples s)
              (success_count s + 1) (error_count s) (errors s)))
  | Some (CountError err) =>
      Some (mk_press_state (permits s) (<[i := PushError err]> (tasks s))
              (ttfb_samples s) (total_samples s)
              (success_count s) (error_count s + 1) (errors s))
  | Some (PushError err) =>
      Some (finish i (mk_press_state (permits s) (tasks s) (ttfb_samples s) (total_samples s)
              (success_count s) (error_count s)
              (if decide (length (errors s) < 50)%nat then errors s ++ [err] else errors s)))
  | Some Finished | None => None
  end.

Definition press_step (s s' : press_state) : Prop := exists i, task_step i s = Some s'.

Definition press_reachable (concurrency num_requests : nat) (s : press_state) : Prop :=
  rtc press_step (press_init concurrency num_requests) s.

(** All handles joined. *)
Definition joined (s : press_state) : Prop := Forall (eq Finished) (tasks s).

(** What [press] returns once they are. *)
Definition press_result (protocol : PressProtocol.t) (num_requests : nat) (total_duration : Z)
    (s : press_state) : outcome no_error PressResult :=
  let secs := as_secs_f64 total_duration in
  let rps := if f64_lt f64_zero secs then f64_div (f64_of_Z (Z.of_nat num_requests)) secs
             else f64_zero in
  ttfb ← from_sorted_ms (sort_samples (ttfb_samples s));
  total_time ← from_sorted_ms (sort_samples (total_samples s));
  Ok (mk_press_result protocol (Z.of_nat num_requests) (success_count s) (error_count s)
        ttfb total_time total_duration rps (errors s)).
End press.

(** ** Lemmas on samples *)
Definition samples_sorted : list f64 -> Prop := StronglySorted f64_below.

Lemma insert_sample_perm x l : insert_sample x l ≡ₚ x :: l.
Proof.
  induction l as [|y l IH]; [done|]. cbn [insert_sample]. case_decide; [done|]. rewrite IH. constructor.
Qed.

Lemma sort_samples_perm l : sort_samples l ≡ₚ l.
Proof. induction l as [|x l IH]; [done|]. cbn. by rewrite insert_sample_perm, IH. Qed.

Lemma insert_sample_sorted x l :
  nonneg x -> Forall nonneg l -> samples_sorted l -> samples_sorted (insert_sample x l).
Proof.
  intros Hx Hl Hs. induction Hs as [|y l Hs IH Hy]; [repeat constructor|].
  apply Forall_cons in Hl as [Hny Hl]. cbn [insert_sample]. case_decide as Hc.
  - apply f64_cmp_below in Hc; [|done..]. constructor; [by constructor|].
    constructor; [done|]. eapply Forall_impl; [exact Hy|]. intros z. by apply f64_below_trans.
  - constructor; [by apply IH|]. rewrite insert_sample_perm. constructor; [|done].
    destruct (f64_below_total x y Hx Hny) as [Hb|]; [|done]. by apply f64_cmp_below in Hb.
Qed.

Lemma sort_samples_sorted l : Forall nonneg l -> samples_sorted (sort_samples l).
Proof.
  induction 1 as [|x l Hx Hl IH]; [constructor|]. apply insert_sample_sorted; [done| |done].
  fold (sort_samples l). by rewrite sort_samples_perm.
Qed.

(** Sorting forgets the order in which the samples came. *)
Lemma sorted_unique l1 l2 :
  Forall nonneg l1 -> samples_sorted l1 -> samples_sorted l2 -> l1 ≡ₚ l2 -> l1 = l2.
Proof.
  intros Hn H1. revert l2. induction H1 as [|x l1 H1 IH Hx]; intros l2 H2 Hp.
  - by apply Permutation_nil_l in Hp.
  - destruct H2 as [|y l2 H2 Hy]; [by apply Permutation_nil_r in Hp|].
    assert (Forall nonneg (y :: l2)) as Hn2 by (by rewrite <- Hp).
    apply Forall_cons in Hn as [Hnx Hn1]. apply Forall_cons in Hn2 as [Hny _].
    assert (x = y) as <-.
    { assert (x ∈ y :: l2) as Hxe by (rewrite <- Hp; left).
      assert (y ∈ x :: l1) as Hye by (rewrite Hp; left).
      apply elem_of_cons in Hxe as [->|Hxe]; [done|].
      apply elem_of_cons in Hye as [->|Hye]; [done|].
      rewrite Forall_forall in Hx, Hy. apply f64_below_antisym; auto. }
    f_equal. apply IH; [done|done|]. by eapply Permutation_cons_inv.
Qed.

Lemma sort_samples_unique l1 l2 : Forall nonneg l1 -> l1 ≡ₚ l2 -> sort_samples l1 = sort_samples l2.
Proof.
  intros Hn Hp. apply sorted_unique.
  - by rewrite sort_samples_perm.
  - by apply sort_samples_sorted.
  - apply sort_samples_sorted. by rewrite <- Hp.
  - by rewrite !sort_samples_perm.
Qed.

Lemma samples_sorted_lookup l i j a b :
  Forall nonneg l -> samples_sorted l -> l !! i = Some a -> l !! j = Some b -> (i <= j)%nat ->
  f64_below a b.
Proof.
  intros Hn Hs. revert i j Hn. induction Hs as [|x l Hs IH Hx]; intros i j Hn Hi Hj Hij; [done|].
  apply Forall_cons in Hn as [Hnx Hn]. destruct j as [|j].
  - destruct i; [|lia]. simplify_eq/=. by destruct (f64_below_total _ _ Hnx Hnx).
  - destruct i as [|i]; cbn in Hi, Hj.
    + simplify_eq. rewrite Forall_forall in Hx. apply Hx. by eapply list_elem_of_lookup_2.
    + eapply IH; eauto. lia.
Qed.

(** The index of a percentile is inside, so reading it never panics. *)
Lemma percentile_index_lt p n : (0 < n)%nat -> (percentile_index p n < n)%nat.
Proof. intros Hn. unfold percentile_index. lia. Qed.

Lemma percentile_lookup p l :
  l <> [] -> exists x, l !! percentile_index p (length l) = Some x /\ percentile l p = Ok x.
Proof.
  intros Hl. assert (0 < length l)%nat by (destruct l; [done|cbn; lia]).
  destruct (index_lt (E:=no_error) l (percentile_index p (length l))) as (x & Hx & Hi).
  { by apply percentile_index_lt. }
  exists x. split; [done|]. unfold percentile. by destruct l.
Qed.

Lemma as_secs_nonneg d : 0 <= d -> nonneg (as_secs_f64 d).
Proof.
  intros Hd. unfold as_secs_f64, NANOS_PER_SEC. apply f64_add_nonneg.
  - apply f64_of_Z_nonneg. apply Z.div_pos; lia.
  - change (f64_of_Z 1000000000) with (S754_finite false 8388608000000000 (-23)).
    apply f64_div_finite_nonneg, f64_of_Z_nonneg. apply Z.mod_pos_bound. lia.
Qed.

Lemma millis_nonneg d : 0 <= d -> nonneg (millis d).
Proof.
  intros Hd. unfold millis.
  change (f64_of_Z 1000) with (S754_finite false 8796093022208000 (-43)).
  by apply f64_mul_finite_nonneg, as_secs_nonneg.
Qed.

(** ** Lemmas on the run *)

(** What the tasks, numbered from [k], have done, by kind. *)
Definition to_list {A} (o : option A) : list A := match o with Some a => [a] | None => [] end.

Fixpoint collect {A} (f : nat -> task -> option A) (k : nat) (ts : list task) : list A :=
  match ts with
  | [] => []
  | t :: ts => to_list (f k t) ++ collect f (S k) ts
  end.

Lemma collect_update {A} (f : nat -> task -> option A) ts i t t' k :
  ts !! i = Some t ->
  to_list (f (k + i)%nat t) ++ collect f k (<[i:=t']> ts) ≡ₚ to_list (f (k + i)%nat t') ++ collect f k ts.
Proof.
  revert i k. induction ts as [|u ts IH]; intros i k Hi; [done|]. destruct i as [|i]; cbn in Hi |- *.
  - simplify_eq. rewrite Nat.add_0_r, !(Permutation_app_swap_app (to_list (f k t))). done.
  - specialize (IH i (S k) Hi). rewrite Nat.add_succ_comm in IH.
    rewrite !(Permutation_app_swap_app _ (to_list (f k u))). by rewrite IH.
Qed.

Lemma collect_same {A} (f : nat -> task -> option A) ts i t t' :
  ts !! i = Some t -> f i t' = f i t -> collect f 0 (<[i:=t']> ts) ≡ₚ collect f 0 ts.
Proof.
  intros Hi Hf. pose proof (collect_update f ts i t t' 0 Hi) as Hp. cbn in Hp. rewrite Hf in Hp.
  by apply Permutation_app_inv_l in Hp.
Qed.

Lemma collect_add {A} (f : nat -> task -> option A) ts i t t' a :
  ts !! i = Some t -> f i t = None -> f i t' = Some a ->
  collect f 0 (<[i:=t']> ts) ≡ₚ a :: collect f 0 ts.
Proof. intros Hi Ht Ht'. pose proof (collect_update f ts i t t' 0 Hi) as Hp. cbn in Hp. by rewrite Ht, Ht' in Hp. Qed.

Lemma collect_remove {A} (f : nat -> task -> option A) ts i t t' a :
  ts !! i = Some t -> f i t = Some a -> f i t' = None ->
  collect f 0 ts ≡ₚ a :: collect f 0 (<[i:=t']> ts).
Proof. intros Hi Ht Ht'. pose proof (collect_update f ts i t t' 0 Hi) as Hp. cbn in Hp. by rewrite Ht, Ht' in Hp. Qed.

Lemma collect_replicate {A} (f : nat -> task -> option A) t k n :
  collect f k (replicate n t) = omap (fun i => f i t) (seq k n).
Proof.
  revert k. induction n as [|n IH]; intros k; [done|]. cbn. rewrite IH. by destruct (f k t).
Qed.

Section runs.
Context (results : nat -> outcome no_error TestResult).

Definition timing_of (i : nat) : option Timing :=
  match results i with
  | Ok r => match status r with Success => Some (timing r) | Failed _ => None end
  | _ => None
  end.

Definition error_of (i : nat) : option str :=
  match results i with
  | Ok r => match status r with Success => None | Failed err => Some err end
  | _ => None
  end.

(** The timings and errors of the run, whatever the schedule. *)
Definition successes (n : nat) : list Timing := omap timing_of (seq 0 n).
Definition failures (n : nat) : list str := omap error_of (seq 0 n).

(** Who holds a permit, and what has been pushed or counted on behalf of
    task [i]. *)
Definition holding (_ : nat) (t : task) : option unit :=
  match t with Waiting | Finished => None | _ => Some tt end.

Definition ttfb_pushed (i : nat) (t : task) : option Timing :=
  match t with PushTotal _ | CountSuccess | Finished => timing_of i | _ => None end.

Definition total_pushed (i : nat) (t : task) : option Timing :=
  match t with CountSuccess | Finished => timing_of i | _ => None end.

Definition success_counted (i : nat) (t : task) : option Timing :=
  match t with Finished => timing_of i | _ => None end.

Definition error_counted (i : nat) (t : task) : option str :=
  match t with PushError _ | Finished => error_of i | _ => None end.

Definition error_pushed (i : nat) (t : task) : option str :=
  match t with Finished => error_of i | _ => None end.

Definition task_ok (i : nat) (t : task) : Prop :=
  match t with
  | PushTtfb tm | PushTotal tm => timing_of i = Some tm
  | CountSuccess => is_Some (timing_of i)
  | CountError err | PushError err => error_of i = Some err
  | _ => True
  end.

Record press_inv (c n : nat) (s : press_state) : Prop := {
  inv_tasks : length (tasks s) = n;
  inv_ok i t : tasks s !! i = Some t -> task_ok i t;
  inv_permits : (permits s + length (collect holding 0 (tasks s)) = c)%nat;
  inv_ttfb : ttfb_samples s ≡ₚ (fun tm => millis (first_byte tm)) <$> collect ttfb_pushed 0 (tasks s);
  inv_total : total_samples s ≡ₚ (fun tm => millis (total tm)) <$> collect total_pushed 0 (tasks s);
  inv_success : success_count s = Z.of_nat (length (collect success_counted 0 (tasks s)));
  inv_error : error_count s = Z.of_nat (length (collect error_counted 0 (tasks s)));
  inv_errors : errors s ⊆+ collect error_pushed 0 (tasks s) /\
    length (errors s) = Nat.min 50 (length (collect error_pushed 0 (tasks s)));
}.

Lemma collect_none {A} (f : nat -> task -> option A) k n :
  (forall i, f i Waiting = None) -> collect f k (replicate n Waiting) = [].
Proof. intros Hf. rewrite collect_replicate. revert k. induction n; intros k; cbn; [done|]. by rewrite Hf. Qed.

Lemma press_inv_init c n : press_inv c n (press_init c n).
Proof.
  split; cbn; rewrite ?collect_none by done; try done.
  - apply length_replicate.
  - intros i t [-> _]%lookup_replicate. done.
Qed.

(** An error and a success exclude each other. *)
Lemma timing_not_error i tm : timing_of i = Some tm -> error_of i = None.
Proof. unfold timing_of, error_of. destruct (results i) as [r| | |]; try done. by destruct (status r). Qed.

Lemma error_not_timing i err : error_of i = Some err -> timing_of i = None.
Proof. unfold timing_of, error_of. destruct (results i) as [r| | |]; try done. by destruct (status r). Qed.

(** One task's move, by cases on where it was. *)
Inductive task_move (i : nat) (s : press_state) : press_state -> Prop :=
| move_acquire k : tasks s !! i = Some Waiting -> permits s = S k ->
    task_move i s (mk_press_state k (<[i := Running]> (tasks s)) (ttfb_samples s) (total_samples s)
      (success_count s) (error_count s) (errors s))
| move_success tm : tasks s !! i = Some Running -> timing_of i = Some tm ->
    task_move i s (move i (PushTtfb tm) s)
| move_failure err : tasks s !! i = Some Running -> error_of i = Some err ->
    task_move i s (move i (CountError err) s)
| move_panic : tasks s !! i = Some Running -> timing_of i = None -> error_of i = None ->
    task_move i s (finish i s)
| move_ttfb tm : tasks s !! i = Some (PushTtfb tm) ->
    task_move i s (mk_press_state (permits s) (<[i := PushTotal tm]> (tasks s))
      (ttfb_samples s ++ [millis (first_byte tm)]) (total_samples s)
      (success_count s) (error_count s) (errors s))
| move_total tm : tasks s !! i = Some (PushTotal tm) ->
    task_move i s (mk_press_state (permits s) (<[i := CountSuccess]> (tasks s))
      (ttfb_samples s) (total_samples s ++ [millis (total tm)])
      (success_count s) (error_count s) (errors s))
| move_count : tasks s !! i = Some CountSuccess ->
    task_move i s (finish i (mk_press_state (permits s) (tasks s) (ttfb_samples s) (total_samples s)
      (success_count s + 1) (error_count s) (errors s)))
| move_count_error err : tasks s !! i = Some (CountError err) ->
    task_move i s (mk_press_state (permits s) (<[i := PushError err]> (tasks s))
      (ttfb_samples s) (total_samples s) (success_count s) (error_count s + 1) (errors s))
| move_error err : tasks s !! i = Some (PushError err) ->
    task_move i s (finish i (mk_press_state (permits s) (tasks s) (ttfb_samples s) (total_samples s)
      (success_count s) (error_count s)
      (if decide (length (errors s) < 50)%nat then errors s ++ [err] else errors s))).

Lemma task_step_move i s s' : task_step results i s = Some s' -> task_move i s s'.
Proof.
  unfold task_step. destruct (tasks s !! i) as [ [] |] eqn:Ei; try done.
  - destruct (permits s) eqn:Ep; [done|]. intros [= <-]. by econstructor.
  - destruct (results i) as [r|e| |] eqn:Er; [destruct (status r) eqn:Es|destruct e| |done];
      intros [= <-]; constructor; try done; unfold timing_of, error_of; by rewrite Er, ?Es.
  - intros [= <-]. by constructor.
  - intros [= <-]. by constructor.
  - intros [= <-]. by constructor.
  - intros [= <-]. by constructor.
  - intros [= <-]. by constructor.
Qed.

(** Close the [collect] goals of a move: what changes is one element or
    nothing. *)
Ltac collected Hi := first
  [ rewrite (collect_same _ _ _ _ _ Hi) by (cbn; congruence)
  | rewrite (collect_add _ _ _ _ _ _ Hi) by (cbn; (done || congruence)) ].

Lemma tasks_ok_insert (ts : list task) i t' :
  (forall j t, ts !! j = Some t -> task_ok j t) -> task_ok i t' ->
  forall j t, <[i:=t']> ts !! j = Some t -> task_ok j t.
Proof. intros Hok Ht j t. rewrite list_lookup_insert_Some. naive_solver. Qed.

Lemma press_inv_move c n i s s' : press_inv c n s -> task_move i s s' -> press_inv c n s'.
Proof.
  intros [Ht Hok Hp Hf Hto Hsc Hec [Her Hle] ] Hm.
  destruct Hm as [k Hi Hk|tm Hi Htm|err Hi He|Hi Htm He|tm Hi|tm Hi|Hi|err Hi|err Hi];
    pose proof (Hok _ _ Hi) as Hti; cbn in Hti;
    try (pose proof (timing_not_error _ _ Hti) as Hex);
    try (pose proof (error_not_timing _ _ Hti) as Hex);
    try (destruct Hti as [tm Htm]; pose proof (timing_not_error _ _ Htm) as Hex);
    (split; cbn [finish move permits tasks ttfb_samples total_samples success_count error_count errors];
      [by rewrite length_insert|apply tasks_ok_insert; [done|cbn; eauto]|..]);
    repeat collected Hi; try done; try (cbn [length]; lia);
    try (rewrite (collect_remove holding _ _ _ Finished tt Hi) in Hp by done; cbn [length] in Hp; lia).
  - by rewrite Hf, Permutation_app_comm.
  - by rewrite Hto, Permutation_app_comm.
  - case_decide as Hc; cbn [length]; rewrite ?length_app; cbn [length]; (split; [|lia]).
    + rewrite Permutation_app_comm. by apply submseteq_skip.
    + by apply submseteq_cons.
Qed.

Lemma press_inv_reachable c n s : press_reachable results c n s -> press_inv c n s.
Proof.
  intros Hr. unfold press_reachable in Hr. apply rtc_ind_r with (P := press_inv c n) in Hr; [done| |].
  - apply press_inv_init.
  - intros s1 s2 _ [i Hs] Hinv. by eapply press_inv_move, task_step_move.
Qed.

(** ** Progress *)
Definition rank (t : task) : nat :=
  match t with
  | Waiting => 5 | Running => 4 | PushTtfb _ => 3 | PushTotal _ | CountError _ => 2
  | CountSuccess | PushError _ => 1 | Finished => 0
  end.

(** How many moves the tasks still have, at most. *)
Definition ranks (ts : list task) : nat := foldr (fun t k => rank t + k)%nat O ts.

Definition weight (s : press_state) : nat := ranks (tasks s).

Lemma rank_insert ts i t t' :
  ts !! i = Some t -> (rank t' < rank t)%nat ->
  (ranks (<[i:=t']> ts) < ranks ts)%nat.
Proof.
  revert i. induction ts as [|u ts IH]; intros i Hi Hr; [done|]. destruct i as [|i]; cbn in Hi |- *.
  - simplify_eq. lia.
  - specialize (IH i Hi Hr). 
    change (rank u + ranks (<[i:=t']> ts) < rank u + ranks ts)%nat. lia.
Qed.

Lemma task_move_weight i s s' : task_move i s s' -> (weight s' < weight s)%nat.
Proof.
  intros Hm. unfold weight. destruct Hm; cbn [finish move tasks];
    (eapply rank_insert; [eassumption|cbn; lia]).
Qed.

(** A task with a permit always has a move. *)
Lemma holding_steps s i t :
  (forall i, results i <> Hang) -> tasks s !! i = Some t -> holding i t = Some tt ->
  exists s', task_step results i s = Some s'.
Proof.
  intros Hh Hi Ht. unfold task_step. rewrite Hi. destruct t; try done; eauto.
  specialize (Hh i). destruct (results i) as [r|e| |]; [|destruct e|eauto|done]. destruct (status r); eauto.
Qed.

Lemma collect_holding_nil k ts :
  collect holding k ts = [] -> Forall (fun t => t = Waiting \/ t = Finished) ts.
Proof.
  revert k. induction ts as [|t ts IH]; intros k Hc; [done|]. cbn in Hc. apply app_nil in Hc as [Ht Hc].
  constructor; [|by eapply IH]. destruct t; auto; done.
Qed.

Lemma collect_holding_elem k ts :
  collect holding k ts <> [] -> exists i t, ts !! i = Some t /\ holding i t = Some tt.
Proof.
  revert k. induction ts as [|t ts IH]; intros k Hc; [done|]. cbn in Hc.
  destruct (holding k t) as [ []|] eqn:Ht.
  - exists O, t. split; [done|]. by destruct t.
  - destruct (IH (S k) Hc) as (i & u & Hi & Hu). exists (S i), u. split; [done|]. by destruct u.
Qed.

Lemma press_progress_step c n s :
  (forall i, results i <> Hang) -> (0 < c)%nat -> press_inv c n s -> ~ joined s ->
  exists s', press_step results s s'.
Proof.
  intros Hh Hc Hinv Hj. destruct (collect holding 0 (tasks s)) as [|u l] eqn:Eh.
  - pose proof (inv_permits _ _ _ Hinv) as Hp. rewrite Eh in Hp. cbn in Hp.
    apply collect_holding_nil in Eh.
    assert (exists i, tasks s !! i = Some Waiting) as [i Hi].
    { apply not_Forall_Exists in Hj; [|intros t; destruct (decide (rank t = 0%nat)); [left|right];
        destruct t; naive_solver lia]. apply Exists_exists in Hj as (t & Ht & Hne).
      rewrite Forall_forall in Eh. destruct (Eh t Ht) as [->| ->]; [|done].
      by apply list_elem_of_lookup in Ht. }
    destruct (permits s) as [|k] eqn:Ek; [lia|].
    eexists. exists i. unfold task_step. rewrite Hi, Ek. reflexivity.
  - destruct (collect_holding_elem 0 (tasks s)) as (i & t & Hi & Ht); [by rewrite Eh|].
    destruct (holding_steps s i t Hh Hi Ht) as [s' Hs']. exists s', i. done.
Qed.

(** Every task is joined in the end, whatever has happened so far. *)
Lemma press_joins c n s :
  (forall i, results i <> Hang) -> (0 < c)%nat -> press_inv c n s ->
  exists s', rtc (press_step results) s s' /\ joined s'.
Proof.
  intros Hh Hc. remember (weight s) as w eqn:Hw. revert s Hw.
  induction (lt_wf w) as [w _ IH]; intros s -> Hinv.
  destruct (decide (Forall (fun t => rank t = O) (tasks s))) as [Hj|Hj].
  - exists s. split; [reflexivity|]. eapply Forall_impl; [exact Hj|]. by intros [].
  - destruct (press_progress_step c n s Hh Hc Hinv) as [s1 [i Hs1] ].
    { intros Hjn. apply Hj. eapply Forall_impl; [exact Hjn|]. by intros t <-. }
    apply task_step_move in Hs1 as Hm.
    destruct (IH (weight s1) (task_move_weight _ _ _ Hm) s1 eq_refl) as (s' & Hs' & Hj').
    { by eapply press_inv_move. }
    exists s'. split; [|done]. eapply rtc_l; [exists i; exact Hs1|done].
Qed.

Lemma joined_replicate s n : length (tasks s) = n -> joined s -> tasks s = replicate n Finished.
Proof.
  intros <- Hj. unfold joined in Hj. induction Hj as [|t ts <- Hts IH]; [done|]. cbn. by rewrite <- IH.
Qed.

Lemma successes_nonneg n :
  (forall i tm, timing_of i = Some tm -> 0 <= first_byte tm /\ 0 <= total tm) ->
  Forall nonneg ((fun tm => millis (first_byte tm)) <$> successes n) /\
  Forall nonneg ((fun tm => millis (total tm)) <$> successes n).
Proof.
  intros Ht. unfold successes. split; apply Forall_fmap; apply Forall_forall;
    intros tm (i & _ & Hi)%list_elem_of_omap; apply millis_nonneg; by apply Ht in Hi as [? ?].
Qed.
End runs.

(** A report of statistics over non-empty samples exists, and each of its
    figures but the average is a sample. *)
Lemma from_sorted_Ok l :
  l <> [] -> exists mn mx a b c d,
    l !! 0%nat = Some mn /\ l !! (length l - 1)%nat = Some mx /\
    l !! percentile_index 50 (length l) = Some a /\ l !! percentile_index 90 (length l) = Some b /\
    l !! percentile_index 95 (length l) = Some c /\ l !! percentile_index 99 (length l) = Some d /\
    from_sorted_ms l =
      Ok (mk_stats mn mx (f64_div (f64_sum l) (f64_of_Z (Z.of_nat (length l)))) a b c d
            (Z.of_nat (length l))).
Proof.
  intros Hl. assert (0 < length l)%nat by (destruct l; [done|cbn; lia]).
  destruct (index_lt (E:=no_error) l 0) as (mn & Hmn & Imn); [lia|].
  destruct (index_lt (E:=no_error) l (length l - 1)) as (mx & Hmx & Imx); [lia|].
  destruct (percentile_lookup 50 l Hl) as (a & Ha & Ia).
  destruct (percentile_lookup 90 l Hl) as (b & Hb & Ib).
  destruct (percentile_lookup 95 l Hl) as (c & Hc & Ic).
  destruct (percentile_lookup 99 l Hl) as (d & Hd & Id).
  exists mn, mx, a, b, c, d. repeat (split; [assumption|]).
  unfold from_sorted_ms. destruct l as [|x l]; [done|].
  rewrite Imn. cbn [mbind outcome_bind]. rewrite Imx. cbn [mbind outcome_bind].
  rewrite Ia. cbn [mbind outcome_bind]. rewrite Ib. cbn [mbind outcome_bind].
  rewrite Ic. cbn [mbind outcome_bind]. rewrite Id. cbn [mbind outcome_bind]. done.
Qed.

Lemma from_sorted_returns l : exists st, from_sorted_ms l = Ok st /\ sample_count st = Z.of_nat (length l).
Proof.
  destruct (decide (l = [])) as [->|Hl]; [by eexists|].
  destruct (from_sorted_Ok l Hl) as (? & ? & ? & ? & ? & ? & _ & _ & _ & _ & _ & _ & ->). by eexists.
Qed.

(** The index the code computes in binary64 is the exact one. *)
Lemma percentile_index_small n :
  (1 <= n <= 1000)%nat ->
  Forall (fun p => percentile_index p n = Z.to_nat (p * (Z.of_nat n - 1) / 100)) [50; 90; 95; 99].
Proof.
  intros Hn.
  assert (forallb (fun n => forallb (fun p =>
    bool_decide (percentile_index p n = Z.to_nat (p * (Z.of_nat n - 1) / 100))) [50; 90; 95; 99])
    (seq 1 1000) = true) as Hall by (vm_compute; reflexivity).
  rewrite forallb_forall in Hall. specialize (Hall n).
  rewrite in_seq in Hall. specialize (Hall ltac:(lia)). rewrite forallb_forall in Hall.
  apply Forall_forall. intros p Hp. apply list_elem_of_In in Hp. apply Hall, bool_decide_eq_true in Hp. done.
Qed.

Lemma press_start_spec (opts : PressOptions) :
  press_start opts =
    if decide (2 ^ 61 - 1 < po_concurrency opts \/ 2 ^ 60 <= po_num_requests opts) then Panic
    else Ok (press_init (Z.to_nat (po_concurrency opts)) (Z.to_nat (po_num_requests opts))).
Proof.
  unfold press_start, semaphore_new, vec_with_capacity.
  change MAX_PERMITS with (2 ^ 61 - 1).
  destruct (decide (2 ^ 61 - 1 < po_concurrency opts \/ 2 ^ 60 <= po_num_requests opts)) as [Hp|Hp].
  - case_decide as Hn; [by case_decide|]. rewrite decide_True by lia. done.
  - rewrite decide_False by lia. cbn [mbind outcome_bind]. by rewrite decide_False by lia.
Qed.

(** ** Properties *)

(** C30: the statistics of a non-empty set of latencies, sorted as [press]
    sorts them: the minimum and the maximum are samples no sample exceeds,
    every percentile is a sample between them, the count is right, and up to a
    thousand samples the p-th percentile is the one at p(n-1)/100, rounded
    down, whatever the rounding of the floating-point product. *)
Theorem latency_stats_correct (samples : list f64) :
  Forall nonneg samples -> samples <> [] ->
  exists st, from_sorted_ms (sort_samples samples) = Ok st /\
    sample_count st = Z.of_nat (length samples) /\
    Forall (fun x => f64_below (min_ms st) x /\ f64_below x (max_ms st)) samples /\
    Forall (fun x => x ∈ samples) [min_ms st; p50_ms st; p90_ms st; p95_ms st; p99_ms st; max_ms st] /\
    ((length samples <= 1000)%nat ->
     Forall (fun '(p, x) =>
       sort_samples samples !! Z.to_nat (p * (Z.of_nat (length samples) - 1) / 100) = Some x)
       [(50, p50_ms st); (90, p90_ms st); (95, p95_ms st); (99, p99_ms st)]).
Proof.
  intros Hn Hne. set (l := sort_samples samples).
  assert (l ≡ₚ samples) as Hp by apply sort_samples_perm.
  assert (length l = length samples) as Hlen by (by rewrite Hp).
  assert (l <> []) as Hl by (intros E; rewrite E in Hp; by apply Permutation_nil_l in Hp).
  assert (samples_sorted l) as Hs by (by apply sort_samples_sorted).
  assert (Forall nonneg l) as Hnl by (by rewrite Hp).
  assert (0 < length l)%nat by (destruct l; [done|cbn; lia]).
  destruct (from_sorted_Ok l Hl) as (mn & mx & a & b & c & d & Hmn & Hmx & Ha & Hb & Hc & Hd & Hst).
  eexists. split; [exact Hst|]. cbn [sample_count min_ms max_ms p50_ms p90_ms p95_ms p99_ms].
  split; [by rewrite Hlen|]. split; [|split].
  - rewrite <- Hp. apply Forall_forall. intros x Hx. apply list_elem_of_lookup in Hx as [i Hi].
    pose proof (lookup_lt_Some _ _ _ Hi).
    split; eapply samples_sorted_lookup; eauto; lia.
  - rewrite !Forall_cons, <- !Hp. by repeat split; try (eapply list_elem_of_lookup_2; eassumption).
  - intros Hk. rewrite <- Hlen in *.
    pose proof (percentile_index_small (length l) ltac:(lia)) as Hix.
    rewrite !Forall_cons in Hix. destruct Hix as (E1 & E2 & E3 & E4 & _).
    rewrite !Forall_cons. rewrite <- E1, <- E2, <- E3, <- E4. done.
Qed.

Lemma latency_stats_correct_witness :
  exists st, from_sorted_ms (sort_samples (f64_of_Z <$> [9; 2; 5])) = Ok st /\
    sample_count st = 3 /\ min_ms st ∈ f64_of_Z <$> [9; 2; 5].
Proof.
  destruct (latency_stats_correct (f64_of_Z <$> [9; 2; 5])) as (st & H1 & H2 & _ & H4 & _).
  - repeat constructor.
  - discriminate.
  - exists st. split; [exact H1|]. split; [exact H2|]. exact (Forall_inv H4).
Defined.

(** C17: a press run with at least one permit ends: every move uses up some
    of the tasks' moves, no state reached is stuck before all tasks are
    joined, and at every moment the requests under way are at most as many
    as permits were asked for.  With a concurrency of zero no request ever
    starts and the run waits for ever.  A run begins like this unless more
    permits are asked for than a semaphore has, or more requests than a vector
    holds: then it panics. *)
Theorem press_terminates (results : nat -> outcome no_error TestResult) (c n : nat) :
  (forall i, results i <> Hang) ->
  (forall s s', press_step results s s' -> (weight s' < weight s)%nat) /\
  (forall s, press_reachable results c n s ->
     (length (collect holding 0 (tasks s)) <= c)%nat /\
     ((0 < c)%nat -> (joined s \/ exists s', press_step results s s') /\
        exists s', rtc (press_step results) s s' /\ joined s')) /\
  ((0 < n)%nat -> ~ joined (press_init 0 n) /\ forall s, ~ press_step results (press_init 0 n) s) /\
  forall opts : PressOptions,
    press_start opts =
      if decide (2 ^ 61 - 1 < po_concurrency opts \/ 2 ^ 60 <= po_num_requests opts) then Panic
      else Ok (press_init (Z.to_nat (po_concurrency opts)) (Z.to_nat (po_num_requests opts))).
Proof.
  intros Hh. split; [|split; [|split] ].
  - intros s s' [i Hs]. by eapply task_move_weight, task_step_move.
  - intros s Hr%press_inv_reachable. split; [pose proof (inv_permits _ _ _ _ Hr); lia|].
    intros Hc. split; [|by eapply press_joins].
    destruct (press_joins results c n s Hh Hc Hr) as (s' & Hs' & Hj).
    destruct Hs' as [s|s s1 s2 Hs1 _]; [by left|]. right. by exists s1.
  - intros Hn. split.
    + destruct n; [lia|]. intros Hj. by apply Forall_cons in Hj as [? _].
    + intros s [i Hs]. unfold task_step in Hs. cbn in Hs.
      destruct (replicate n Waiting !! i) eqn:Hi; [|done]. by apply lookup_replicate in Hi as [-> _].
  - apply press_start_spec.
Qed.

(** C18: the outcome of a press run does not depend on how its tasks
    interleave: when all are joined, the result exists, counts every success
    and every failure, its statistics are those of the sorted latencies of
    the successes, and its errors are at most fifty of the failures' texts,
    fewer only if there were fewer. *)
Theorem press_outcome (results : nat -> outcome no_error TestResult) (c n : nat) protocol duration s :
  (forall i tm, timing_of results i = Some tm -> 0 <= first_byte tm /\ 0 <= total tm) ->
  press_reachable results c n s -> joined s ->
  exists r, press_result protocol n duration s = Ok r /\
    pr_success_count r = Z.of_nat (length (successes results n)) /\
    pr_error_count r = Z.of_nat (length (failures results n)) /\
    from_sorted_ms (sort_samples ((fun tm => millis (first_byte tm)) <$> successes results n)) = Ok (pr_ttfb r) /\
    from_sorted_ms (sort_samples ((fun tm => millis (total tm)) <$> successes results n)) = Ok (pr_total_time r) /\
    sample_count (pr_ttfb r) = pr_success_count r /\ sample_count (pr_total_time r) = pr_success_count r /\
    pr_errors r ⊆+ failures results n /\ length (pr_errors r) = Nat.min 50 (length (failures results n)).
Proof.
  intros Ht Hr%press_inv_reachable Hj. destruct Hr as [Hlen _ _ Hf Hto Hsc Hec [Her Hle] ].
  pose proof (joined_replicate s n Hlen Hj) as Hts.
  rewrite Hts, collect_replicate in Hf. rewrite Hts, collect_replicate in Hto.
  rewrite Hts, collect_replicate in Hsc. rewrite Hts, collect_replicate in Hec.
  rewrite Hts, collect_replicate in Her. rewrite Hts, collect_replicate in Hle.
  change (omap _ (seq 0 n)) with (successes results n) in Hf, Hto, Hsc.
  change (omap _ (seq 0 n)) with (failures results n) in Hec, Her, Hle.
  destruct (successes_nonneg results n Ht) as [Hn1 Hn2].
  destruct (from_sorted_returns (sort_samples ((fun tm => millis (first_byte tm)) <$> successes results n)))
    as (st1 & Hst1 & Hc1).
  destruct (from_sorted_returns (sort_samples ((fun tm => millis (total tm)) <$> successes results n)))
    as (st2 & Hst2 & Hc2).
  unfold press_result.
  rewrite (sort_samples_unique (ttfb_samples s) _ ltac:(by rewrite Hf) Hf), Hst1. cbn [mbind outcome_bind].
  rewrite (sort_samples_unique (total_samples s) _ ltac:(by rewrite Hto) Hto), Hst2. cbn [mbind outcome_bind].
  rewrite sort_samples_perm, length_fmap in Hc1, Hc2.
  eexists. split; [reflexivity|].
  cbn [pr_success_count pr_error_count pr_ttfb pr_total_time pr_errors].
  repeat (split; [congruence|]). done.
Qed.

Definition demo_result (i : nat) : outcome no_error TestResult :=
  match i with
  | O => Ok (mk_result Results.Http1 Success (Some 200) (mk_timing None (Some 1) None 2000000 3000000) (Some 9))
  | _ => Ok (failed Results.Http1 (lit "timeout"))
  end.

Lemma demo_result_not_hang i : demo_result i <> Hang.
Proof. by destruct i. Qed.

(** A schedule: which task moves next. *)
Fixpoint play (results : nat -> outcome no_error TestResult) (schedule : list nat) (s : press_state) :
    option press_state :=
  match schedule with
  | [] => Some s
  | i :: schedule => s' ← task_step results i s; play results schedule s'
  end.

Lemma play_rtc results schedule s s' : play results schedule s = Some s' -> rtc (press_step results) s s'.
Proof.
  revert s. induction schedule as [|i l IH]; intros s; cbn [play].
  - by intros [= ->].
  - intros (s1 & H1 & H2)%bind_Some. eapply rtc_l; [exists i; exact H1|]. by apply IH.
Qed.

(** Two requests behind two permits, their moves interleaved. *)
Definition demo_schedule : list nat := [0; 1; 1; 0; 1; 0; 1; 0; 0]%nat.

Definition demo_final : press_state := default (press_init 2 2) (play demo_result demo_schedule (press_init 2 2)).

Lemma press_outcome_witness :
  exists r, press_result PressProtocol.Http1 2 1000000000 demo_final = Ok r /\
    pr_success_count r = 1 /\ pr_error_count r = 1.
Proof.
  destruct (press_outcome demo_result 2 2 PressProtocol.Http1 1000000000 demo_final)
    as (r & Hr & Hs & He & _).
  - intros [|i] tm Hi; [|done]. injection Hi as <-. cbn. lia.
  - apply (play_rtc demo_result demo_schedule). vm_compute. reflexivity.
  - vm_compute. repeat constructor.
  - exists r. split; [exact Hr|]. split; [exact Hs|exact He].
Defined.

Lemma press_terminates_witness :
  exists s, rtc (press_step demo_result) (press_init 2 2) s /\ joined s.
Proof.
  destruct (press_terminates demo_result 2 2 demo_result_not_hang) as (_ & H & _).
  apply (H (press_init 2 2) (rtc_refl _ _)). lia.
Defined.
