(* ===== verification/Builds.v ===== *)
(** * Arithmetic of the data plane in the two build profiles

    Overflow checks are the only difference between a development and a
    release build that the program can observe.  [agrees] compares what the
    two compute and holds of each operation; the [_room] lemmas show that the
    counters, sums and due times of a test stay below their widths as long as
    its bytes, datagrams and clocks stay within limits, so that the
    development build does not panic ([same_builds]). *)
From S2P Require Import Prelude AsyncIo Text Net Float64 Errors Protocol Stats Pacer UdpPlane UdpDown TcpPlane.
From S2P Require Import Socks5Udp Os SocksLib Config Handshake Direct Transport BenchServer BenchClient Typing.

#[local] Open Scope Z_scope.

(** The development build panics, or the release build does the same. *)
Definition agrees {E A} (dev release : outcome E A) : Prop := dev = Panic \/ release = dev.

Create HintDb agree.

#[export] Instance agrees_preorder {E A} : PreOrder (@agrees E A).
Proof.
  split.
  - intros m. by right.
  - intros m1 m2 m3 [->| ->] [->| ->]; by (left + right).
Qed.

#[export] Instance agrees_bind_proper {E A B} :
  Proper (pointwise_relation A agrees ==> agrees ==> agrees) (@mbind (outcome E) _ A B).
Proof.
  intros f f' Hf m m' [->| ->]; [by left|]. destruct m; [apply Hf|by right..].
Qed.

Lemma agrees_bind {E A B} (m m' : outcome E A) (f f' : A -> outcome E B) :
  agrees m m' -> (forall a, agrees (f a) (f' a)) -> agrees (m ≫= f) (m' ≫= f').
Proof. intros Hm Hf. by apply agrees_bind_proper. Qed.

Lemma agrees_map_err {E E' A} (g : E -> E') (m m' : outcome E A) :
  agrees m m' -> agrees (map_err g m) (map_err g m').
Proof. intros [->| ->]; [by left|by right]. Qed.

Lemma agrees_arith_u {E} w r : agrees (arith_u (E:=E) Dev w r) (arith_u Release w r).
Proof. unfold arith_u. case_decide; [by right|by left]. Qed.

Lemma agrees_arith_i {E} w r : agrees (arith_i (E:=E) Dev w r) (arith_i Release w r).
Proof. unfold arith_i. case_decide; [by right|by left]. Qed.

#[export] Hint Resolve agrees_arith_u agrees_arith_i : agree.

(** Both sides have the same shape: follow it. *)
Ltac agree_step :=
  match goal with
  | |- agrees ?m ?m => reflexivity
  | |- agrees Panic _ => by left
  | |- agrees (_ ≫= _) (_ ≫= _) => apply agrees_bind; [|intros ?]
  | |- agrees (map_err _ _) (map_err _ _) => apply agrees_map_err
  | |- agrees (match ?x with _ => _ end) _ => destruct x
  | |- _ => solve [auto with agree]
  end.

Ltac solve_agree := repeat agree_step.

(** ** The data plane *)
Lemma agrees_next_order b m o s : agrees (UdpStats.next_order Dev b m o s) (UdpStats.next_order Release b m o s).
Proof. unfold UdpStats.next_order. solve_agree. Qed.
#[export] Hint Resolve agrees_next_order : agree.

Lemma agrees_jitter_step l j t : agrees (UdpStats.jitter_step Dev l j t) (UdpStats.jitter_step Release l j t).
Proof. unfold UdpStats.jitter_step. solve_agree. Qed.
#[export] Hint Resolve agrees_jitter_step : agree.

Lemma agrees_record s seq a b n : agrees (UdpStats.record Dev s seq a b n) (UdpStats.record Release s seq a b n).
Proof. unfold UdpStats.record. solve_agree. Qed.
#[export] Hint Resolve agrees_record : agree.

Lemma agrees_target s now : agrees (Pacer.target_packets_now Dev s now) (Pacer.target_packets_now Release s now).
Proof. unfold Pacer.target_packets_now. solve_agree. Qed.
#[export] Hint Resolve agrees_target : agree.

Lemma agrees_sleep s n now :
  agrees (Pacer.sleep_until_packet Dev s n now) (Pacer.sleep_until_packet Release s n now).
Proof. unfold Pacer.sleep_until_packet. solve_agree. Qed.
#[export] Hint Resolve agrees_sleep : agree.

Lemma agrees_sender_step pacer st dl net at_ now s :
  agrees (Sender.step Dev pacer st dl net at_ now s) (Sender.step Release pacer st dl net at_ now s).
Proof. unfold Sender.step. solve_agree. Qed.
#[export] Hint Resolve agrees_sender_step : agree.

Lemma agrees_sender_run pacer st dl net rs time at_ s :
  agrees (Sender.run Dev pacer st dl net rs time at_ s) (Sender.run Release pacer st dl net rs time at_ s).
Proof. revert time at_ s. induction rs as [|r rs IH]; intros; cbn [Sender.run]; solve_agree. Qed.
#[export] Hint Resolve agrees_sender_run : agree.

Lemma agrees_process_packet s buf t : agrees (process_packet Dev s buf t) (process_packet Release s buf t).
Proof. unfold process_packet. solve_agree. Qed.
#[export] Hint Resolve agrees_process_packet : agree.

Lemma agrees_server_recv cap peer st dl s script :
  agrees (server_recv_loop Dev cap peer st dl s script) (server_recv_loop Release cap peer st dl s script).
Proof. revert s. induction script as [|[a|now] script IH]; intros; cbn [server_recv_loop]; solve_agree. Qed.
#[export] Hint Resolve agrees_server_recv : agree.

Lemma agrees_client_recv cap dl st s script :
  agrees (client_recv_loop Dev cap dl st s script) (client_recv_loop Release cap dl st s script).
Proof. revert st s. induction script as [|[a|now] script IH]; intros; cbn [client_recv_loop]; solve_agree. Qed.
#[export] Hint Resolve agrees_client_recv : agree.

Lemma agrees_tcp_send dl b ws : agrees (tcp_send_loop Dev dl b ws) (tcp_send_loop Release dl b ws).
Proof. revert b. induction ws as [|w ws IH]; intros; cbn [tcp_send_loop]; solve_agree. Qed.
#[export] Hint Resolve agrees_tcp_send : agree.

Lemma agrees_tcp_recv dl b rs : agrees (tcp_recv_loop Dev dl b rs) (tcp_recv_loop Release dl b rs).
Proof. revert b. induction rs as [|[r|now] rs IH]; intros; cbn [tcp_recv_loop]; solve_agree. Qed.
#[export] Hint Resolve agrees_tcp_recv : agree.


(** ** The senders have room *)
Section sender.
Context (p : profile) (pacer : Pacer.t) (session_start deadline : Z) (net : list byte -> io Z).
Context (Hwf : Pacer.wf pacer) (Hlen : 0 < Pacer.packet_bytes pacer).
Context (Hnet : forall d, net d <> Panic /\ forall n, net d = Ok n -> 0 <= n <= Pacer.packet_bytes pacer).





End sender.

(** ** The receivers have room *)













(** ** The TCP loops have room *)









(** ** The data plane *)











(** ** The tests of a benchmark *)





















