(* ===== verification/Cli.v ===== *)
(** * The command line (src/main.rs) and the library's entry (src/lib.rs)

    What the parsed arguments become: transports, targets, proxies, and the
    runs behind the subcommands with what they print and their exit code.
    Argument parsing itself and the URL parser are libraries. *)
From S2P Require Import Prelude AsyncIo Text Net Float64 Errors Protocol Socks5Udp Os SocksLib Config.
From S2P Require Import Handshake Direct Transport Dns Stats Pacer UdpPlane TcpPlane BenchServer BenchClient.
From S2P Require Import BenchListener Listener Results Tls Http1 HttpServer Http2 Http3 ServeHttp Press.

(** The URL library: what a parsed URL answers. *)
Class UrlLib : Type := {
  Url : Type;
  url_parse : str -> outcome str Url;
  scheme : Url -> str;
  host_str : Url -> option str;
  url_port : Url -> option Z;
  username : Url -> str;
  password : Url -> option str;
  url_path : Url -> str;
}.

Record TransportArgs : Type := mk_transport_args {
  ta_proxy : option str;
  ta_interface : option str;
  ta_dns_server : option str;
}.

(** ** Parsing helpers *)
Section parsing.
Context `{UrlLib}.

Definition parse_proxy_url (raw : str) : anyhow ProxyConfig :=
  let url_str := if contains (lit "://") raw then raw else lit "socks5://" ++ raw in
  url ← url_parse url_str;
  host ← ok_or (lit "proxy URL missing host") (host_str url);
  let port := default 1080 (url_port url) in
  let addr := host ++ lit ":" ++ show_u port in
  let auth :=
    if decide (username url <> []) then
      Some (mk_proxy_auth (username url) (default [] (password url)))
    else None in
  Ok (mk_proxy_config addr auth).

Definition parse_target_url (raw : str) (insecure : bool) : anyhow TestTarget :=
  url ← url_parse raw;
  let use_tls := bool_decide (scheme url = lit "https") in
  host ← ok_or (lit "target URL missing host") (host_str url);
  let port := default (if use_tls then 443 else 80) (url_port url) in
  Ok (mk_target host port (url_path url) use_tls None insecure).

Definition transport_build (self : TransportArgs) : anyhow Transport :=
  match ta_proxy self, ta_interface self with
  | Some _, Some _ => Err (lit "--interface is only valid in direct mode (omit --proxy)")
  | Some proxy, None => cfg ← parse_proxy_url proxy; Ok (Socks5 cfg)
  | None, iface => Ok (Direct (mk_direct_config (parse_interface <$> iface)))
  end.

Definition build_dns (self : TransportArgs) : anyhow (option DnsConfig) :=
  match ta_dns_server self with
  | None => Ok None
  | Some s => addr ← of_px (parse_server s); Ok (Some (mk_dns_config addr))
  end.
End parsing.

Definition split_host_port (raw : str) : anyhow (str * Z) :=
  '(host, port) ← ok_or (lit "expected HOST:PORT, got '" ++ raw ++ lit "'") (rsplit_once Byte.x3a raw);
  port ← ok_or (lit "invalid port in '" ++ raw ++ lit "'") (parse_u 16 port);
  Ok (host, port).

Section resolving.
Context `{Os} `{SocksLib} (p : platform).

Definition parse_bench_target (clock : option Z) (raw : str) (dns : option DnsConfig)
    (transport : Transport) : anyhow SocketAddr :=
  match parse_addr raw with
  | Some addr => Ok addr
  | None =>
      match dns with
      | Some dns =>
          '(host, port) ← split_host_port raw;
          ip ← of_px (resolve_a p clock transport dns host);
          Ok (mk_addr ip port)
      | None =>
          addrs ← of_io (lookup_host raw);
          ok_or (lit "could not resolve " ++ raw) (head addrs)
      end
  end.

(** The resolution that [run_test] and [run_press] begin with. *)
Definition resolve_test_target (clock : option Z) (dns_cfg : option DnsConfig) (resolve : bool)
    (transport : Transport) (target : TestTarget) : anyhow TestTarget :=
  match dns_cfg with
  | Some dns =>
      match parse_ip (tt_host target) with
      | None =>
          ip ← of_px (resolve_a p clock transport dns (tt_host target));
          Ok (mk_target (tt_host target) (tt_port target) (tt_path target) (tt_use_tls target)
                (Some ip) (tt_danger_accept_invalid_certs target))
      | Some _ => Ok target
      end
  | None => if resolve then of_io (resolve_local target) else Ok target
  end.
End resolving.

(** ** The subcommands *)
Inductive ProtocolArg : Type := ArgHttp1 | ArgHttp2 | ArgHttp3 | ArgAll.

Record TestArgs : Type := mk_test_args {
  a_transport : TransportArgs;
  a_target : option str;
  a_protocol : ProtocolArg;
  a_timeout : Z;  (* seconds *)
  a_verbose : bool;
  a_resolve : bool;
}.

Definition header_line (args : TestArgs) (target : TestTarget) : str :=
  match ta_proxy (a_transport args) with
  | Some proxy => lit "Testing proxy " ++ proxy ++ lit " -> " ++ host_port (tt_host target) (tt_port target)
  | None =>
      lit "Testing direct -> " ++ host_port (tt_host target) (tt_port target) ++
      match ta_interface (a_transport args) with
      | Some iface => lit " (interface: " ++ iface ++ lit ")"
      | None => []
      end
  end.

(** What a test sees of the clock and of its connection. *)
Record test_env : Type := mk_test_env { te_clock : http_clock; te_closed_first : bool }.

Section commands.
Context `{UrlLib} `{H2Lib} `{!QuicLib} `{SocksLib} (p : platform) (pr : profile).

(** [ProxyPen::test_http1], [test_http2], [test_http3] and [test_all]; their
    runs cannot fail, only panic. *)
Definition test_http1 (transport : Transport) (target : TestTarget) (env : test_env) :=
  http1_test p (te_clock env) transport target.
Definition test_http2 (transport : Transport) (target : TestTarget) (env : test_env) :=
  http2_test p pr (te_clock env) transport target.
Definition test_http3 (transport : Transport) (target : TestTarget) (env : test_env) :=
  http3_test p pr (te_clock env) (te_closed_first env) transport target.

Definition test_all (transport : Transport) (target : TestTarget) (e1 e2 e3 : test_env) :
    outcome no_error (list TestResult) :=
  r1 ← test_http1 transport target e1;
  r2 ← test_http2 transport target e2;
  r3 ← test_http3 transport target e3;
  Ok [r1; r2; r3].

Definition infallible {A} (m : outcome no_error A) : anyhow A :=
  map_err (fun e : no_error => match e with end) m.

(** What is printed and the exit code; nothing is printed before an error. *)
Definition run_test (clock : option Z) (e1 e2 e3 : test_env) (args : TestArgs) : anyhow (str * Z) :=
  transport ← transport_build (a_transport args);
  dns_cfg ← build_dns (a_transport args);
  target_url ← ok_or (lit "--target is required") (a_target args);
  target ← parse_target_url target_url false;
  target ← resolve_test_target p clock dns_cfg (a_resolve args) transport target;
  results ← infallible (
    match a_protocol args with
    | ArgHttp1 => r ← test_http1 transport target e1; Ok [r]
    | ArgHttp2 => r ← test_http2 transport target e2; Ok [r]
    | ArgHttp3 => r ← test_http3 transport target e3; Ok [r]
    | ArgAll => test_all transport target e1 e2 e3
    end);
  let output := line (header_line args target) ++ line [] ++
                concat ((fun r => line (show_result r)) <$> results) in
  Ok (output, if forallb is_success results then 0 else 1).

Inductive PressProtocolArg : Type := PressArgHttp1 | PressArgHttp2 | PressArgHttp3.

Definition press_protocol (v : PressProtocolArg) : PressProtocol.t :=
  match v with
  | PressArgHttp1 => PressProtocol.Http1
  | PressArgHttp2 => PressProtocol.Http2
  | PressArgHttp3 => PressProtocol.Http3
  end.

Record PressArgs : Type := mk_press_args {
  pa_transport : TransportArgs;
  pa_target : str;
  pa_protocol : PressProtocolArg;
  pa_concurrency : Z;
  pa_num_requests : Z;
  pa_timeout : Z;  (* seconds *)
  pa_insecure : bool;
  pa_verbose : bool;
  pa_resolve : bool;
}.

(** [press] is the run of the options, to its end. *)
Definition run_press (clock : option Z) (press : PressOptions -> outcome no_error PressResult)
    (args : PressArgs) : anyhow (str * Z) :=
  transport ← transport_build (pa_transport args);
  dns_cfg ← build_dns (pa_transport args);
  target ← parse_target_url (pa_target args) (pa_insecure args);
  target ← resolve_test_target p clock dns_cfg (pa_resolve args) transport target;
  let opts := mk_press_options transport target (press_protocol (pa_protocol args)) (pa_concurrency args)
                (pa_num_requests args) (pa_timeout args * NANOS_PER_SEC) in
  result ← infallible (press opts);
  Ok (line (show_press result),
      if (0 <? pr_error_count result) && (pr_success_count result =? 0) then 1 else 0).

Inductive BenchModeArg : Type := ArgTcp | ArgUdp | ArgBoth.
Inductive BenchDirectionArg : Type := ArgUp | ArgDown | ArgBothWays.

Definition bench_mode (v : BenchModeArg) : BenchMode :=
  match v with ArgTcp => ModeTcp | ArgUdp => ModeUdp | ArgBoth => ModeBoth end.

Definition bench_direction (v : BenchDirectionArg) : BenchDirection :=
  match v with ArgUp => Up | ArgDown => Down | ArgBothWays => BothWays end.

Record BenchArgs : Type := mk_bench_args {
  ba_transport : TransportArgs;
  ba_target : option str;
  ba_serve : bool;
  ba_serve_port : option Z;
  ba_mode : BenchModeArg;
  ba_direction : BenchDirectionArg;
  ba_duration : Z;  (* seconds *)
  ba_udp_bandwidth : str;
  ba_udp_size : Z;
  ba_tcp_chunk : Z;
  ba_verbose : bool;
}.

(** The options that [run_benchmark] hands to [run_client]. *)
Definition bench_options (clock : option Z) (args : BenchArgs) : anyhow BenchOptions :=
  transport ← transport_build (ba_transport args);
  dns_cfg ← build_dns (ba_transport args);
  bandwidths ← parse_bandwidth_list (ba_udp_bandwidth args);
  target ← (match ba_target args with
            | Some t => Some <$> parse_bench_target p clock t dns_cfg transport
            | None => Ok None
            end : anyhow (option SocketAddr));
  Ok (mk_bench_options transport target (ba_serve args) (ba_serve_port args)
        (bench_mode (ba_mode args)) (bench_direction (ba_direction args))
        (ba_duration args * NANOS_PER_SEC) bandwidths (ba_udp_size args) (ba_tcp_chunk args)).

(** [run_client] on the transport's streams; [spawn] is the in-process
    server's answer. *)
Definition run_benchmark (clock : option Z) (spawn : BenchOptions -> anyhow SocketAddr)
    (envs : list client_env) (args : BenchArgs) : Listener.task str Z :=
  opts ← lift (bench_options clock args);
  _ ← BenchClient.run pr opts (spawn opts) (connect_tcp p) envs;
  lift (Ok 0).
End commands.

Record ServerArgs : Type := mk_server_args {
  sa_bind : IpAddr;
  sa_bind_port : Z;
  sa_verbose : bool;
}.

Definition run_bench_server {S} `{AsyncRead S} `{AsyncWrite S} (pr : profile)
    (tcp_bind : SocketAddr -> io (listener (connection S))) (args : ServerArgs) : Listener.task (action S) unit :=
  BenchListener.run pr tcp_bind (sa_bind args) (sa_bind_port args).

Record ServeHttpArgs : Type := mk_serve_http_args {
  ha_bind : IpAddr;
  ha_http1_port : Z;
  ha_http2_port : Z;
  ha_http3_port : Z;
  ha_response_size : nat;
}.

Definition http_config (args : ServeHttpArgs) : HttpServerConfig :=
  mk_http_server_config (ha_bind args) (ha_http1_port args) (ha_http2_port args) (ha_http3_port args)
    (ha_response_size args).

Section serve_http.
Context {S : Type} `{AsyncReadSome S} `{AsyncWrite S} `{AsyncShutdown S}.
Context `{!TlsServerLib S} `{HttpLib} `{!H2ServerLib Accepted} `{!H3ServerLib} `{CertLib}.

Definition run_serve_http (tcp_bind : SocketAddr -> io (listener S)) (args : ServeHttpArgs) :
    Listener.task http_listener unit :=
  run_server tcp_bind (http_config args).
End serve_http.

(** ** The dispatch of [main] *)
Inductive Command : Type :=
| Test (args : TestArgs)
| Benchmark (args : BenchArgs)
| Server (args : ServerArgs)
| PressCommand (args : PressArgs)
| ServeHttp (args : ServeHttpArgs).

Record Cli : Type := mk_cli { command : option Command; test_args : TestArgs }.

(** The command that runs: none means a test with the flat arguments. *)
Definition chosen (cli : Cli) : Command := default (Test (test_args cli)) (command cli).

(** What a run of the program is: output and an exit code at its end, output
    as it goes, or a server. *)
Inductive program_run (S T : Type) : Type :=
| Finished (result : anyhow (str * Z))
| Printing (run : Listener.task str Z)
| BenchServing (server : Listener.task (action S) unit)
| HttpServing (server : Listener.task T unit).

Arguments Finished {S T} _.
Arguments Printing {S T} _.
Arguments BenchServing {S T} _.
Arguments HttpServing {S T} _.

Section main.
Context `{UrlLib} `{H2Lib} `{!QuicLib} `{SocksLib} (p : platform) (pr : profile).
Context {S1 : Type} `{AsyncRead S1} `{AsyncWrite S1} (bench_bind : SocketAddr -> io (listener (connection S1))).
Context {S2 : Type} `{AsyncReadSome S2} `{AsyncWrite S2} `{AsyncShutdown S2}.
Context `{!TlsServerLib S2} `{HttpLib} `{!H2ServerLib Accepted} `{!H3ServerLib} `{CertLib}.
Context (http_bind : SocketAddr -> io (listener S2)).

(** The environment of a run: the installing of the crypto provider, which
    [expect] takes for granted, the DNS clock, what the tests see, the press
    run, and the shutdown of the in-process server and the benchmark's data
    connections. *)
Definition main (provider : outcome str unit) (clock : option Z) (e1 e2 e3 : test_env)
    (press : PressOptions -> outcome no_error PressResult)
    (shutdown : option nat) (envs : list client_env) (cli : Cli) : program_run S1 http_listener :=
  match provider with Ok _ =>
  match chosen cli with
  | Test args => Finished (run_test p pr clock e1 e2 e3 args)
  | Benchmark args => Printing (run_benchmark p pr clock (spawn_local_server pr bench_bind shutdown) envs args)
  | Server args => BenchServing (run_bench_server pr bench_bind args)
  | PressCommand args => Finished (run_press p clock press args)
  | ServeHttp args => HttpServing (run_serve_http http_bind args)
  end
  | _ => Finished Panic
  end.
End main.

(** [install_logging]: the filter a command installs, if it installs one. *)
Definition log_filter (verbose : bool) : str := if verbose then lit "debug" else lit "warn".

Definition install_logging (c : Command) : option str :=
  match c with
  | Test args => Some (log_filter (a_verbose args))
  | Benchmark args => Some (log_filter (ba_verbose args))
  | Server args => Some (log_filter (sa_verbose args))
  | PressCommand args => Some (log_filter (pa_verbose args))
  | ServeHttp _ => None
  end.

(** The argument parser's defaults. *)
Definition no_transport : TransportArgs := mk_transport_args None None None.

Definition default_test_args : TestArgs := mk_test_args no_transport None ArgAll 30 false false.

Definition default_bench_args : BenchArgs :=
  mk_bench_args no_transport None false None ArgBoth ArgBothWays 10 (lit "10M") 1200 65536 false.

Definition default_server_args : ServerArgs := mk_server_args (V4 (z2b <$> [0; 0; 0; 0])) 5555 false.

Definition default_press_args (target : str) : PressArgs :=
  mk_press_args no_transport target PressArgHttp1 10 100 30 false false false.

Definition default_serve_http_args : ServeHttpArgs :=
  mk_serve_http_args (V4 (z2b <$> [127; 0; 0; 1])) 8080 8443 8444 128.

(** ** Lemmas *)
Lemma infallible_Ok {A} (m : outcome no_error A) a : infallible m = Ok a <-> m = Ok a.
Proof. destruct m as [x|[]| |]; cbn; split; congruence. Qed.

(** No IP address is written in brackets, which is how a URL has its IPv6
    hosts. *)
Lemma parse_ip_bracket rest : parse_ip (Byte.x5b :: rest) = None.
Proof. reflexivity. Qed.

Lemma transport_build_Ok `{UrlLib} args t :
  transport_build args = Ok t ->
  match t with
  | Socks5 cfg => exists url, ta_proxy args = Some url /\ ta_interface args = None /\ parse_proxy_url url = Ok cfg
  | Direct cfg => ta_proxy args = None /\ dc_interface cfg = parse_interface <$> ta_interface args
  end.
Proof.
  unfold transport_build. destruct (ta_proxy args) as [url|], (ta_interface args) as [iface|]; try done.
  - intros (cfg & Hc & [= <-])%bind_Ok. by exists url.
  - by intros [= <-].
  - by intros [= <-].
Qed.

(** The options of [serve-http] default to the server's own configuration, and
    those of [benchmark] to a run of all four kinds of test at 10 Mbit/s. *)
Lemma serve_http_defaults : http_config default_serve_http_args = default_config.
Proof. reflexivity. Qed.

Lemma bench_defaults `{UrlLib} `{Os} `{SocksLib} p clock opts :
  bench_options p clock default_bench_args = Ok opts ->
  pl_kind <$> build_plans opts = [KIND_TCP_UP; KIND_TCP_DOWN; KIND_UDP_UP; KIND_UDP_DOWN] /\
  bo_udp_bandwidth opts = [10000000] /\ bo_duration opts = 10000000000.
Proof.
  assert (parse_bandwidth_list (lit "10M") = Ok [10000000]) as Hb by (vm_compute; reflexivity).
  unfold bench_options. cbn [transport_build build_dns default_bench_args ba_transport ba_udp_bandwidth
    no_transport ta_proxy ta_interface ta_dns_server mbind outcome_bind].
  rewrite Hb. intros [= <-]. done.
Qed.

(** Resolution touches nothing but the address. *)
Lemma resolve_test_target_Ok `{Os} `{SocksLib} p clock dns resolve transport target target' :
  resolve_test_target p clock dns resolve transport target = Ok target' ->
  tt_resolved_addr target = None ->
  target' = mk_target (tt_host target) (tt_port target) (tt_path target) (tt_use_tls target)
              (tt_resolved_addr target') (tt_danger_accept_invalid_certs target) /\
  match dns with
  | Some d =>
      match parse_ip (tt_host target) with
      | Some _ => tt_resolved_addr target' = None
      | None => exists ip, tt_resolved_addr target' = Some ip /\
                  resolve_a p clock transport d (tt_host target) = Ok ip
      end
  | None => if resolve then resolve_local target = Ok target' else tt_resolved_addr target' = None
  end.
Proof.
  unfold resolve_test_target. intros Hr Hn. destruct dns as [d|].
  - destruct (parse_ip (tt_host target)).
    + simplify_eq. split; [by destruct target'|done].
    + apply bind_Ok in Hr as (ip & Hip%of_px_Ok & [= <-]). cbn. split; [done|]. by exists ip.
  - destruct resolve.
    + apply of_io_Ok in Hr. split; [|done]. unfold resolve_local in Hr. destruct (parse_ip (tt_host target)).
      * simplify_eq. by destruct target'.
      * by apply bind_Ok in Hr as (addrs & _ & [= <-]).
    + simplify_eq. split; [by destruct target'|done].
Qed.

Lemma parse_target_url_unresolved `{UrlLib} raw insecure target :
  parse_target_url raw insecure = Ok target ->
  tt_resolved_addr target = None /\ tt_danger_accept_invalid_certs target = insecure.
Proof.
  unfold parse_target_url. intros (u & _ & Hp)%bind_Ok. by apply bind_Ok in Hp as (h & _ & [= <-]).
Qed.

Lemma exit_code (results : list TestResult) :
  (if forallb is_success results then 0 else 1) = 0 <-> Forall (fun r => is_success r = true) results.
Proof.
  destruct (forallb is_success results) eqn:E.
  - split; [|done]. intros _. rewrite forallb_forall in E. apply Forall_forall.
    intros r Hr. apply E. by apply list_elem_of_In.
  - split; [done|]. intros HF. exfalso. enough (forallb is_success results = true) by congruence.
    apply forallb_forall. intros r Hr. rewrite Forall_forall in HF. apply HF. by apply list_elem_of_In.
Qed.

(** A result is labelled with the protocol that was tested. *)
Lemma settle_protocol pc run r :
  settle pc run = Ok r -> (forall x, run = Ok x -> protocol x = pc) -> protocol r = pc.
Proof. destruct run; cbn; intros [= <-] Hx; auto. Qed.

Lemma test_protocols `{H2Lib} `{!QuicLib} `{SocksLib} p pr transport target env r :
  (test_http1 p transport target env = Ok r -> protocol r = Results.Http1) /\
  (test_http2 p pr transport target env = Ok r -> protocol r = Results.Http2) /\
  (test_http3 p pr transport target env = Ok r -> protocol r = Results.Http3).
Proof.
  split; [|split]; intros Hr; (eapply settle_protocol; [exact Hr|]); intros x Hx.
  - unfold http1_do_test in Hx. apply bind_Ok in Hx as (s & _ & Hx). destruct (connect_times _ _).
    by apply bind_Ok in Hx as ([ [ [? ?] ?] ?] & _ & [= <-]).
  - unfold http2_do_test in Hx. destruct (negb _); [done|]. apply bind_Ok in Hx as (s & _ & Hx).
    destruct (connect_times _ _). do 5 (apply bind_Ok in Hx as (? & _ & Hx)).
    match goal with Hy : context [let '(_, _) := ?q in _] |- _ => destruct q end.
    by apply bind_Ok in Hx as ([? ?] & _ & [= <-]).
  - unfold http3_do_test in Hx. apply bind_Ok in Hx as ([ [? ?] ?] & _ & Hx).
    do 5 (apply bind_Ok in Hx as (? & _ & Hx)).
    by apply bind_Ok in Hx as ([ [ [? ?] ?] ?] & _ & [= <-]).
Qed.

(** ** Properties *)

(** The flags for the route are obeyed or refused: a proxy excludes an
    interface, which is never silently dropped; without a proxy the transport
    is direct over the interface, and with one it is the proxy of the URL. *)
Theorem transport_flags `{UrlLib} (args : TransportArgs) :
  (forall t, transport_build args = Ok t ->
     match t with
     | Socks5 cfg => exists url, ta_proxy args = Some url /\ ta_interface args = None /\
                       parse_proxy_url url = Ok cfg
     | Direct cfg => ta_proxy args = None /\ dc_interface cfg = parse_interface <$> ta_interface args
     end) /\
  (ta_proxy args = None -> is_ok (transport_build args) = true) /\
  (ta_proxy args <> None -> ta_interface args <> None -> is_ok (transport_build args) = false).
Proof.
  split; [apply transport_build_Ok|]. unfold transport_build.
  destruct (ta_proxy args), (ta_interface args); done.
Qed.

(** HOST:PORT is split at the last colon: what is accepted is a host, a
    colon and a port of 16 bits without another colon, and every host is
    accepted with every port. *)
Theorem split_host_port_exact raw :
  (forall host port, split_host_port raw = Ok (host, port) ->
     u16 port /\ exists text, raw = host ++ Byte.x3a :: text /\ Byte.x3a ∉ text /\ parse_u 16 text = Some port) /\
  forall host port, u16 port -> split_host_port (host_port host port) = Ok (host, port).
Proof.
  split.
  - unfold split_host_port. intros host port Hs.
    destruct (rsplit_once Byte.x3a raw) as [ [h t]|] eqn:Er; [|done]. cbn [ok_or mbind outcome_bind] in Hs.
    destruct (parse_u 16 t) as [n|] eqn:Ep; [|done]. cbn in Hs. simplify_eq.
    apply rsplit_once_spec in Er as [-> Hn]. split; [by eapply parse_u_range|]. by exists t.
  - intros host port Hp. unfold split_host_port, host_port.
    change (lit ":" ++ show_u port) with (Byte.x3a :: show_u port).
    rewrite rsplit_once_app by (apply show_u_not_elem; cbn; lia). cbn [ok_or mbind outcome_bind].
    by rewrite parse_u_show_u.
Qed.

(** C39: what [proxypen test] does when it gets that far: the results are
    those of the library's tests of the protocols asked for, over the transport
    of the arguments, of one target: host, port, path and scheme are those of
    the URL, certificates are verified, and the address is the answer of the
    DNS server over the same transport where one is given (an IP address has
    none to look up), else of the system with --resolve, else none.  One line
    is printed per result, and the exit code is 0 exactly when all succeeded. *)
Theorem run_test_exit `{UrlLib} `{H2Lib} `{!QuicLib} `{SocksLib} (p : platform) pr clock e1 e2 e3 args out code :
  run_test p pr clock e1 e2 e3 args = Ok (out, code) ->
  exists transport dns url target target' results,
    transport_build (a_transport args) = Ok transport /\ build_dns (a_transport args) = Ok dns /\
    a_target args = Some url /\ parse_target_url url false = Ok target /\
    target' = mk_target (tt_host target) (tt_port target) (tt_path target) (tt_use_tls target)
                (tt_resolved_addr target') false /\
    match dns with
    | Some d =>
        match parse_ip (tt_host target) with
        | Some _ => tt_resolved_addr target' = None
        | None => exists ip, tt_resolved_addr target' = Some ip /\
                    resolve_a p clock transport d (tt_host target) = Ok ip
        end
    | None => if a_resolve args then resolve_local target = Ok target' else tt_resolved_addr target' = None
    end /\
    Ok <$> results =
      match a_protocol args with
      | ArgHttp1 => [test_http1 p transport target' e1]
      | ArgHttp2 => [test_http2 p pr transport target' e2]
      | ArgHttp3 => [test_http3 p pr transport target' e3]
      | ArgAll => [test_http1 p transport target' e1; test_http2 p pr transport target' e2;
                   test_http3 p pr transport target' e3]
      end /\
    Results.protocol <$> results =
      match a_protocol args with
      | ArgHttp1 => [Results.Http1] | ArgHttp2 => [Results.Http2] | ArgHttp3 => [Results.Http3]
      | ArgAll => [Results.Http1; Results.Http2; Results.Http3]
      end /\
    out = line (header_line args target') ++ line [] ++ concat ((fun r => line (show_result r)) <$> results) /\
    (code = 0 <-> Forall (fun r => is_success r = true) results).
Proof.
  unfold run_test. intros Hr. apply bind_Ok in Hr as (transport & Ht & Hr).
  apply bind_Ok in Hr as (dns & Hd & Hr). apply bind_Ok in Hr as (url & Hu & Hr).
  apply bind_Ok in Hr as (target & Hp & Hr). apply bind_Ok in Hr as (target' & Hres & Hr).
  apply bind_Ok in Hr as (results & Hrs%infallible_Ok & Hr). injection Hr as <- <-.
  destruct (parse_target_url_unresolved _ _ _ Hp) as [Hn Hdg].
  destruct (resolve_test_target_Ok _ _ _ _ _ _ _ Hres Hn) as [Htg Hdns]. rewrite Hdg in Htg.
  exists transport, dns, url, target, target', results. do 2 (split; [done|]).
  split; [by destruct (a_target args); simplify_eq/=|]. do 3 (split; [done|]).
  split; [|split; [|split; [done|apply exit_code] ] ].
  - destruct (a_protocol args); try unfold test_all in Hrs;
      repeat (apply bind_Ok in Hrs as (? & -> & Hrs)); injection Hrs as <-; done.
  - pose proof (test_protocols p pr transport target') as Hprot.
    destruct (a_protocol args); try unfold test_all in Hrs;
      repeat (apply bind_Ok in Hrs as (? & ? & Hrs)); injection Hrs as <-; cbn;
      repeat f_equal; by eapply Hprot.
Qed.

(** ** A model URL library: the host is the URL, its port 80. *)
Definition host_url : UrlLib := {|
  Url := str;
  url_parse s := Ok s;
  scheme _ := lit "http";
  host_str u := Some u;
  url_port _ := None;
  username _ := [];
  password _ := None;
  url_path _ := lit "/";
|}.

Lemma transport_flags_witness :
  is_ok (@transport_build host_url (mk_transport_args (Some (lit "proxy")) (Some (lit "en0")) None)) = false.
Proof. by apply (@transport_flags host_url (mk_transport_args (Some (lit "proxy")) (Some (lit "en0")) None)). Defined.

Lemma split_host_port_exact_witness :
  split_host_port (host_port (lit "::1") 53) = Ok (lit "::1", 53).
Proof. apply (proj2 (split_host_port_exact [])). solve_decided. Defined.

Definition demo_args : TestArgs :=
  mk_test_args no_transport (Some (lit "127.0.0.1")) ArgHttp1 30 false false.

Definition demo_env : test_env := mk_test_env demo_clock false.

Definition ok_host : host := mk_host (lit "HTTP/1.1 204 No Content") [] (fun _ => []) [].

Lemma run_test_exit_witness :
  exists out results, @run_test host_url (host_os ok_host) (plain_tls ok_host [] []) (frames_h2 ok_host [] [] 200 [])
      (frames_quic ok_host 200 []) rfc_socks Linux Release None demo_env demo_env demo_env demo_args = Ok (out, 0) /\
    Results.protocol <$> results = [Results.Http1] /\ Forall (fun r => is_success r = true) results.
Proof.
  destruct (@run_test host_url (host_os ok_host) (plain_tls ok_host [] []) (frames_h2 ok_host [] [] 200 [])
      (frames_quic ok_host 200 []) rfc_socks Linux Release None demo_env demo_env demo_env demo_args)
    as [ [out code]| | |] eqn:E; [|vm_compute in E; discriminate..].
  destruct (@run_test_exit host_url (host_os ok_host) (plain_tls ok_host [] []) (frames_h2 ok_host [] [] 200 [])
      (frames_quic ok_host 200 []) rfc_socks Linux Release None demo_env demo_env demo_env demo_args out code E)
    as (_ & _ & _ & _ & _ & results & _ & _ & _ & _ & _ & _ & _ & Hprot & _ & Hcode).
  assert (code = 0) as Hc by (vm_compute in E; congruence).
  exists out, results. split; [by rewrite <- Hc|]. split; [exact Hprot|]. by apply Hcode.
Defined.
